(* ===== verification/_CoqProject ===== *)
-Q . S2P
Prelude.v
Effects.v
Channels.v
RustStd.v
Unicode.v
Float.v
Net.v
Host.v
Config.v
ConfigSpec.v
Model.v
Metrics.v
MetricsSpec.v
Startup.v
Tray.v
Dashboard.v
Exporters.v
ExportersSpec.v
Security.v
Aegis.v
AegisSpec.v
Ipc.v
Msgpack.v
IpcWire.v
IpcSession.v
IpcSessionFacts.v
IpcProtocol.v
IpcSessionSpec.v
IpcCoupling.v
IpcForward.v
IpcCommands.v
IpcServer.v
DevClient.v
DevClientSpec.v
Interop.v
Schema.v
ClosedLoop.v
SessionTests.v
App.v
Pages.v
Server.v
Markup.v
ServerSpec.v
PagesSpec.v
Interleaving.v
InterleavingSpec.v
Runtime.v
RuntimeFacts.v
RuntimeSpec.v
RuntimeSession.v
UnitTests.v
