(* ===== verification/Prelude.v ===== *)
(** * Telemy core (obs-telemetry-bridge): verification library

    This library models the Rust core of Telemy and proves what makes it
    correct.  The program (crate [obs-telemetry-bridge], all paths below are
    under [src/obs-telemetry-bridge/src/]) is one process that collects telemetry
    from OBS and the machine, shows it in a local dashboard, exports it to
    Grafana, keeps secrets in a vault, talks to the Aegis control plane about
    relay sessions, and serves the OBS plugin over a pair of named pipes.

    ** Parts and how they interact

    - [config/mod.rs] gives every part its settings; the HTTP server rewrites the
      file.
    - [security/mod.rs] is the vault; the HTTP server and the commands store
      secrets in it, start-up and the control-plane client read them.
    - [metrics/mod.rs] produces a [TelemetryFrame] ([model/mod.rs]) every half
      second on a watch channel; [exporters/mod.rs], the dashboard and the plugin
      session read the latest one.
    - [aegis/mod.rs] is the HTTP client of the control plane; start-up and three
      HTTP handlers use it and publish the relay session as a shared snapshot,
      which the plugin session reads.
    - [ipc/mod.rs] serves the plugin: framing, the session loop, the error
      window, pending scene switches, status snapshots.  The HTTP server
      broadcasts scene-switch commands to it and reads its debug status.
    - [server/mod.rs] is the local HTTP API and the dashboard's socket;
      [app/mod.rs] wires everything, runs the command line and waits for the
      first reason to stop; [tray/mod.rs] is the tray icon that can ask for it,
      [startup/mod.rs] the autostart entry of the registry, [main.rs] the exit
      code.
    - [bin/ipc_dev_client.rs] is a second program: a stand-in for the OBS plugin
      at the other end of the pipes.

    ** Files

    Vocabulary: this file ([result], tactics, generic lemmas); [Effects] (the
    state-and-exit monad, its weakest preconditions and the judgements
    [preserves] and [advances]); [Channels] (tokio's watch and broadcast channels;
    unbounded queues as the interface [Mpsc] with its laws [MpscLaws]);
    [RustStd] (machine integers, [str], UTF-8, [format!]); [Unicode] (code points, UTF-8 and
    UTF-16, lossless both ways); [Float] (binary32 and binary64 as executable [spec_float]); [Net] (the
    [IpAddr] and [SocketAddr] parsers); [Host] (files, environment variables,
    paths, with an oracle that refuses file operations).

    Components, each with the source it translates, definition by definition and
    under the source's names:
    - [Model] — [model/mod.rs]; [Metrics] and [MetricsSpec] — [metrics/mod.rs];
      [Exporters] and [ExportersSpec] — [exporters/mod.rs] and the task that
      [app/mod.rs] spawns around it;
    - [Startup] — [startup/mod.rs]; [Tray] — [tray/mod.rs]; [Dashboard] —
      [handle_socket] of [server/mod.rs] (each with its properties);
    - [Config] and [ConfigSpec] — [config/mod.rs];
    - [Security] — [security/mod.rs] (definitions, then properties);
    - [Aegis] and [AegisSpec] — [aegis/mod.rs];
    - [Ipc] — data, [ProtocolErrorTracker], [SessionOverrides] and the snapshot
      builder of [ipc/mod.rs], with their properties; [IpcWire] — [read_frame]
      and [write_frame]; [IpcSession] — [handle_session_io], one definition for
      each step of its loop and each message arm; [IpcSessionFacts] — the proof
      rules and invariants; [IpcProtocol] — the session as a lawful log of events,
      the abstract specification it refines; [IpcSessionSpec] — the properties;
      [IpcCoupling] — what a session depends on (its environment at the steps it
      takes, its queue at the head of a turn);
      [IpcCommands] — where the switches of a session come from, an invariant for
      the running program; [IpcForward] — that the commands it holds are
      announced; [IpcServer] — [spawn_server] and
      [run_named_pipe_server], with their properties;
    - [Msgpack] — the JSON values of the messages and an executable MessagePack,
      with its round trip; [Schema] — the serde schemas of the messages of both
      programs over it: the instances of the codec classes, their laws proved;
    - [DevClient] and [DevClientSpec] — [bin/ipc_dev_client.rs]; [Interop] — a
      session of the core on the bytes the client has written; [ClosedLoop] — the
      client on the bytes a session has written, and back;
    - [Pages] — the text of the two HTML pages; [Server] and [ServerSpec] —
      [server/mod.rs]; [Markup] — escaping, a reader of HTML, templates;
      [PagesSpec] — what the pages show; [Interleaving] — handlers of
      [server/mod.rs] that run at the same time, step by step under a schedule,
      with the mutex of the vault; [InterleavingSpec] — what that does to files;
    - [App] — [app/mod.rs], up to the values handed to the tasks;
    - [Runtime], [RuntimeFacts] and [RuntimeSpec] — the program once it runs:
      [System] is the state the tasks of [app/mod.rs] share, [Runtime.step] takes
      one label (a wake-up of one task, a request, a turn of the plugin session)
      and calls the definitions of the other files; the invariants of every run;
      the properties.  [RuntimeSession] relates the sessions of a run, performed
      turn by turn, to [run_named_pipe_server].  The exit code and the log filter
      of [main.rs] are in [Runtime].

    Tests: [SessionTests] (the [#[tokio::test]] functions of [ipc/mod.rs], as
    programs at the other end of a running session) and [UnitTests] (every other
    test of the crate), under the names they have there, each evaluated.

    ** How code is translated

    An [async fn] that changes shared state is a computation in [eff S X]: it
    threads the state [S] and may leave early with an [X] ([return], or [?] on an
    error), keeping the state it has built up.  Structs are records and enums
    inductive types with the source's fields and constructors (prefixed where
    Rocq would clash).  Integers are [Z] with the source's saturation, casts and
    clamps written out; floats are bit-exact IEEE values, evaluated in the
    source's order.  Hash maps are [gmap]; where the source iterates over one the
    order is an oracle, constrained only to be a permutation.  Tasks that share
    state are step functions over labels ([Runtime], [DevClient]): a run is any
    list of labels that can be taken in turn, so a theorem over runs holds for
    every interleaving.

    What the program asks of the outside is an oracle indexed by the number of
    effects performed so far, so that every theorem holds for every answer: clock
    readings (a non-negative increment at every reading), wall clock, random
    identifiers, transport results, the watched frame and the relay snapshot
    ([IpcSession.Env]); refused file operations ([Host]); HTTP exchanges and
    random strings ([Outside] of [Server] and [App]); OBS, system, GPU and network
    answers ([Metrics.Sources]).  The bytes of a pipe are a script of events:
    chunks of any size, expiries of the poll timer, transport failures.

    Libraries are parameters, most of them type classes with a class of laws
    where the proofs need them; for MessagePack and the payloads, [Schema] has
    concrete instances that satisfy the laws.  MessagePack ([WireCodec], with the laws
    [WireCodecLaws]), TOML ([TomlCodec]), base64, DPAPI and the JSON of the vault
    ([Base64Laws], [DataProtectionLaws], [VaultJsonLaws]: what was encoded is
    decoded; [DataProtection] is what the vault needs, and both platforms of
    [security/mod.rs] implement it, one of them over the system calls [Crypt]),
    payload decoding ([PayloadCodec]), the development client's JSON
    ([ClientCodec]; [SerdeLaws] says the core reads its fields back, as long as
    the numbers fit their types), URLs and JSON of the control
    plane ([UrlOps], [ApiJson], no laws), the metrics library ([Meter]), the
    registry ([Windows], behind the interface [Autostart]), the window system
    ([TrayItem]) and the pipe calls of the operating system
    ([IpcServer.Connection]).  The witnesses instantiate them by concrete
    functions.

    ** What the theorems show

    - Running program ([RuntimeSpec]), over every run: every scene switch a plugin
      is told goes back to a request with the token, and a request that is
      accepted while a session is open reaches its plugin; requests without credentials
      leave no trace; a pending switch is at most five seconds from its deadline;
      the frames that leave the program are well formed, and every reader sees
      published frames in order; a validated configuration keeps the exporter
      alive; the program stops when it is asked to and only then; its plugin
      sessions are those of the pipe server ([RuntimeSession]), so what is proved
      of a whole session holds within a run.
    - Plugin session ([IpcSessionSpec]): the ledger invariant of a whole session
      (version, handshake gating, announced switches, published count); the
      refinement of the event-log specification by every run; every session
      returns; a silent plugin is disconnected; the exact effect of the
      heartbeat, of expiry, of a forwarded switch and of every command on every
      branch, errors included; what counts toward a reset and what does not.
      Around it ([IpcServer]): no session ends the server; the pipes are open to
      every account.
    - Development client ([DevClientSpec], [Interop]), over every interleaving of
      its tasks: what it has written and queued is what its console says; a
      session that is handed its bytes, however they are cut, counts no protocol
      error; a switch it reads is acknowledged, and the acknowledgement settles
      the switch in the core.  Closed loop ([ClosedLoop]): a client that is handed
      what any session has written reads every frame of it, takes note of exactly
      the switches it announced, and acknowledges each.
    - Wire ([IpcWire]): a stream of written frames is read back however the pipe
      cuts it; two defects of the reader (a poll timeout inside a frame loses
      bytes; the body of a refused frame is parsed).  [Schema]: every message of
      the core within the widths of its fields is read back by the core, and by
      the client as the message it declares.
    - Tracker and snapshot ([Ipc]): the pruning tracker refines the rule stated
      over the whole history; how a snapshot classifies the session, its numeric
      bounds, its settings.
    - Configuration ([ConfigSpec]): overrides, validation, load, and the round
      trip of saving and loading.  Vault ([Security]): store and retrieve, across
      a restart, the loss of an unreadable file, the truncation of secrets longer
      than a 32-bit length.  Start-up ([App]): the server's token is stable.
    - HTTP API ([ServerSpec]): no request without credentials has any effect, and
      no token in a query alone writes a file, stores a secret or sends a command;
      the effect of each state-changing handler, field by field.  Pages
      ([PagesSpec]), for themes that open no tag (the theme is the one text that
      is inserted unescaped): whatever else the configuration holds, the settings
      page has the tags of its template, each field with the value it should have;
      the form sent back as it was shown saves the configuration that was loaded;
      the link of the dashboard leads to the settings page.
    - Requests at the same time ([InterleavingSpec]), under every schedule: no
      stored secret is lost, the vault's file is in step with the vault whenever
      its mutex is free, and the requests never block each other for ever; of two
      saves of the configuration one can be lost, or both overwritten by the
      defaults; a store that is interrupted inside its write leaves an empty
      vault.  A handler that is not interrupted is the handler of [Server].
    - Control plane ([AegisSpec]): requests sent, answers read, addresses
      normalised.  Metrics ([MetricsSpec]): frames are well formed; network rates.
      Exporter ([ExportersSpec]): one series per metric and output, the pauses
      between attempts, what is recorded.
    - Autostart ([Startup]): the registry holds the path that Windows reads back.
      Tray ([Tray]): the effect of every click and when the thread ends.

    ** Fuel and bounds

    [handle_session_io] runs [session_loop] with [session_fuel], one more than the
    number of bytes and events of the pipe's script: every turn that does not
    leave the loop consumes one of them, which [session_terminates] proves, along
    with the fact that more fuel changes nothing.  [Str.replace] and the
    dropping of character codes in [RustStd] use the length of the text; each of
    their turns consumes a character.  The decoder of [Msgpack] descends 1024
    levels, as [rmp_serde] does; the messages have four.  The tests of
    [SessionTests] run a session for at most 200 turns between two steps of a
    test, which each of them reaches its result within.

    ** Not modelled

    Logging, beyond the filter that [main.rs] installs; the scripts and style
    sheets of the two HTML pages, which are text that is sent and not run; the
    JSON text of a dashboard payload; the Go control plane, the C++ plugin and the
    JavaScript dock, which are other programs.  Within [Runtime] a turn of the
    plugin session, a collection of metrics and an HTTP handler are one atomic
    step each.  Interleavings inside handlers are the subject of [Interleaving],
    for the two that write files; a session's environment may be chosen anew at
    every turn, so what other tasks publish in between is covered as far as the
    session reads it, and the program holds no lock across an await.  In
    [DevClient] sending a message and printing its line are one step (no other
    task touches the console).  A write to a pipe succeeds or fails; one that
    never returns is not modelled.  On platforms other than Windows the pipe server, the tray and
    autostart are stubs, modelled as such and not part of [Runtime].

    ** Plan

    The lag of the broadcast channel beyond its 64 commands, as a property of a
    run; completeness of expiry and of command forwarding in the log of a
    session; the development client as the plugin of a run of [Runtime]; the
    handlers of [Interleaving] as steps of [Runtime]. *)

From Stdlib Require Export ZArith Lia Ascii String.
From stdpp Require Export base list gmap strings numbers pretty.

Declare Scope telemy_scope.
Delimit Scope telemy_scope with telemy.

(** ** Rust's [Result] *)

(** [Result<A, E>]: the error type is the first parameter so that [result E]
    is a monad. *)
Inductive result (E A : Type) : Type :=
  | Ok (a : A)
  | Err (e : E).
Arguments Ok {E A} a.
Arguments Err {E A} e.

(** [?] is [mbind] on results, and on effectful computations below. *)
#[global] Instance result_ret E : MRet (result E) := fun A a => Ok a.
#[global] Instance result_bind E : MBind (result E) :=
  fun A B f m => match m with Ok a => f a | Err e => Err e end.
#[global] Instance result_fmap E : FMap (result E) :=
  fun A B f m => match m with Ok a => Ok (f a) | Err e => Err e end.

Definition is_ok {E A} (r : result E A) : bool :=
  match r with Ok _ => true | Err _ => false end.

(** [Result::map_err]. *)
Definition map_err {E F A} (f : E -> F) (r : result E A) : result F A :=
  match r with Ok a => Ok a | Err e => Err (f e) end.

(** [Result::ok]. *)
Definition ok {E A} (r : result E A) : option A :=
  match r with Ok a => Some a | Err _ => None end.

(** [Option::ok_or]. *)
Definition ok_or {E A} (o : option A) (e : E) : result E A :=
  match o with Some a => Ok a | None => Err e end.

(** [Option::unwrap_or]. *)
Definition unwrap_or {A} (o : option A) (d : A) : A := default d o.

#[global] Instance result_eq_dec {E A} `{EqDecision E, EqDecision A} :
  EqDecision (result E A).
Proof. solve_decision. Defined.

(** ** Shared automation *)

(** The library's hint databases: [telemy] holds resolution hints of the
    components, [preserve] the rules that push an invariant through an
    effectful computation. *)
Create HintDb telemy discriminated.
Create HintDb preserve discriminated.

(** Split on the scrutinee of some [match] or [if] of the goal. *)
Ltac split_match :=
  match goal with
  | |- context [ match ?x with _ => _ end ] => destruct x eqn:?
  end.

Ltac split_matches := repeat (split_match; simplify_eq/=).

(** The same for a hypothesis. *)
Ltac split_match_in H :=
  match type of H with
  | context [ match ?x with _ => _ end ] => destruct x eqn:?
  end.

Ltac split_matches_in H := repeat (split_match_in H; simplify_eq/=).

(** Open the existentials and conjunctions of the context. *)
Ltac open_hyps :=
  repeat match goal with
         | H : exists _, _ |- _ => destruct H
         | H : _ /\ _ |- _ => destruct H
         end.

(** ** Generic lemmas *)

Lemma result_bind_ok {E A B} (m : result E A) (f : A -> result E B) (b : B) :
  m ≫= f = Ok b -> exists a, m = Ok a /\ f a = Ok b.
Proof. destruct m; [eauto | discriminate]. Qed.

Lemma result_bind_err {E A B} (m : result E A) (f : A -> result E B) (e : E) :
  m ≫= f = Err e -> m = Err e \/ exists a, m = Ok a /\ f a = Err e.
Proof. destruct m; cbn; intros; [right; eauto | left; congruence]. Qed.

Lemma ok_or_ok {E A} (o : option A) (e : E) (a : A) :
  ok_or o e = Ok a -> o = Some a.
Proof. destruct o; cbn; congruence. Qed.

(** Strings and their characters under concatenation. *)
Lemma string_app_cons a s t : String a s +:+ t = String a (s +:+ t).
Proof. reflexivity. Qed.

Lemma string_app_assoc s t u : (s +:+ t) +:+ u = s +:+ (t +:+ u).
Proof. induction s as [|a s IH]; [done|]. by rewrite !string_app_cons, IH. Qed.

Lemma chars_app s t :
  list_ascii_of_string (s +:+ t) = list_ascii_of_string s ++ list_ascii_of_string t.
Proof. induction s as [|a s IH]; [done|]. rewrite string_app_cons. cbn. by rewrite IH. Qed.

Lemma string_app_nil s : s +:+ "" = s.
Proof. induction s as [|a s IH]; [done|]. by rewrite string_app_cons, IH. Qed.
