(* ===== verification/Effects.v ===== *)
(** * Effects: the state-and-exit monad of the stateful code

    An asynchronous function of the program is a computation over an explicit
    world [S]; an early [return] (or a [?] that propagates an error) is an exit
    [X] that the state survives.  The file gives the monad, a weakest
    precondition, and the two lifted judgements the components use: [preserves]
    (an invariant goes through) and [advances] (a preorder relates the state
    before to the state after). *)

From S2P Require Import Prelude.

Definition eff (S X A : Type) : Type := S -> result X A * S.

Section Operations.
Context {S X : Type}.

#[global] Instance eff_ret : MRet (eff S X) := fun A a s => (Ok a, s).
#[global] Instance eff_bind : MBind (eff S X) :=
  fun A B f m s =>
    match m s with
    | (Ok a, s') => f a s'
    | (Err x, s') => (Err x, s')
    end.

(** Read the state through a projection. *)
Definition gets {A} (f : S -> A) : eff S X A := fun s => (Ok (f s), s).

(** Assign to the state. *)
Definition modify (f : S -> S) : eff S X unit := fun s => (Ok tt, f s).

(** Leave the enclosing function. *)
Definition throw {A} (x : X) : eff S X A := fun s => (Err x, s).

(** [let _ = e;]: the error of [e] is dropped, its effects stay. *)
Definition attempt {A} (m : eff S X A) : eff S X unit :=
  fun s => (Ok tt, snd (m s)).

(** [if c { m }]. *)
Definition when (c : bool) (m : eff S X unit) : eff S X unit :=
  if c then m else mret tt.

(** [for x in l { f(x) }]. *)
Fixpoint for_each {A} (f : A -> eff S X unit) (l : list A) : eff S X unit :=
  match l with
  | [] => mret tt
  | x :: l' => f x ;; for_each f l'
  end.

(** The value and the final state of a run. *)
Definition outcome {A} (m : eff S X A) (s : S) : result X A := fst (m s).
Definition final {A} (m : eff S X A) (s : S) : S := snd (m s).

(** Weakest precondition over both ways to leave a computation. *)
Definition wp {A} (m : eff S X A) (Q : result X A -> S -> Prop) (s : S) : Prop :=
  Q (outcome m s) (final m s).

(** [m] keeps [I], however it ends. *)
Definition preserves {A} (I : S -> Prop) (m : eff S X A) : Prop :=
  forall s, I s -> I (final m s).

(** [m] moves the state along [R], however it ends. *)
Definition advances {A} (R : S -> S -> Prop) (m : eff S X A) : Prop :=
  forall s, R s (final m s).
End Operations.

(** ** Weakest preconditions *)

Section WpRules.
Context {S X : Type}.
Implicit Types s : S.

Lemma wp_ret {A} (a : A) (Q : result X A -> S -> Prop) s :
  wp (mret a) Q s <-> Q (Ok a) s.
Proof. reflexivity. Qed.

Lemma wp_bind {A B} (m : eff S X A) (f : A -> eff S X B) Q s :
  wp (m ≫= f) Q s <->
  wp m (fun r s' => match r with Ok a => wp (f a) Q s' | Err x => Q (Err x) s' end) s.
Proof.
  unfold wp, outcome, final, mbind, eff_bind.
  destruct (m s) as [[a|x] s']; reflexivity.
Qed.

Lemma wp_gets {A} (f : S -> A) Q s : wp (X:=X) (gets f) Q s <-> Q (Ok (f s)) s.
Proof. reflexivity. Qed.

Lemma wp_modify (f : S -> S) Q s : wp (X:=X) (modify f) Q s <-> Q (Ok tt) (f s).
Proof. reflexivity. Qed.

Lemma wp_throw {A} (x : X) Q s : wp (A:=A) (throw x) Q s <-> Q (Err x) s.
Proof. reflexivity. Qed.

Lemma wp_attempt {A} (m : eff S X A) Q s :
  wp (attempt m) Q s <-> wp m (fun _ s' => Q (Ok tt) s') s.
Proof. reflexivity. Qed.

Lemma wp_mono {A} (m : eff S X A) (Q Q' : result X A -> S -> Prop) s :
  (forall r s', Q r s' -> Q' r s') -> wp m Q s -> wp m Q' s.
Proof. unfold wp. auto. Qed.

Lemma wp_run {A} (m : eff S X A) (Q : result X A -> S -> Prop) s r s' :
  m s = (r, s') -> wp m Q s <-> Q r s'.
Proof. unfold wp, outcome, final. by intros ->. Qed.

Lemma wp_and {A} (m : eff S X A) (Q Q' : result X A -> S -> Prop) s :
  wp m Q s -> wp m Q' s -> wp m (fun r s' => Q r s' /\ Q' r s') s.
Proof. unfold wp. auto. Qed.

Lemma preserves_wp {A} (I : S -> Prop) (m : eff S X A) :
  preserves I m <-> forall s, I s -> wp m (fun _ s' => I s') s.
Proof. reflexivity. Qed.

Lemma wp_preserves {A} (I : S -> Prop) (m : eff S X A) s :
  preserves I m -> I s -> wp m (fun _ s' => I s') s.
Proof. intros H; apply H. Qed.

Lemma bind_run {A B} (m : eff S X A) (f : A -> eff S X B) s :
  (m ≫= f) s = match m s with (Ok a, s') => f a s' | (Err x, s') => (Err x, s') end.
Proof. reflexivity. Qed.

Lemma final_bind {A B} (m : eff S X A) (f : A -> eff S X B) s :
  final (m ≫= f) s =
  match outcome m s with Ok a => final (f a) (final m s) | Err _ => final m s end.
Proof.
  unfold final, outcome, mbind, eff_bind. destruct (m s) as [[a|x] s']; reflexivity.
Qed.

Lemma outcome_bind {A B} (m : eff S X A) (f : A -> eff S X B) s :
  outcome (m ≫= f) s =
  match outcome m s with Ok a => outcome (f a) (final m s) | Err x => Err x end.
Proof.
  unfold final, outcome, mbind, eff_bind. destruct (m s) as [[a|x] s']; reflexivity.
Qed.
End WpRules.

(** ** Pushing invariants and preorders through the code *)

Section Lifted.
Context {S X : Type}.

Section Preserves.
Context (I : S -> Prop).

Lemma preserves_ret {A} (a : A) : preserves (X:=X) I (mret a).
Proof. intros s Hs; exact Hs. Qed.

Lemma preserves_bind {A B} (m : eff S X A) (f : A -> eff S X B) :
  preserves I m -> (forall a, preserves I (f a)) -> preserves I (m ≫= f).
Proof.
  intros Hm Hf s Hs. rewrite final_bind. destruct (outcome m s); auto.
  apply Hf, Hm, Hs.
Qed.

Lemma preserves_gets {A} (f : S -> A) : preserves (X:=X) I (gets f).
Proof. intros s Hs; exact Hs. Qed.

Lemma preserves_modify (f : S -> S) :
  (forall s, I s -> I (f s)) -> preserves (X:=X) I (modify f).
Proof. intros Hf s; apply Hf. Qed.

Lemma preserves_throw {A} (x : X) : preserves (A:=A) I (throw x).
Proof. intros s Hs; exact Hs. Qed.

Lemma preserves_attempt {A} (m : eff S X A) : preserves I m -> preserves I (attempt m).
Proof. intros Hm s; apply Hm. Qed.

Lemma preserves_when c (m : eff S X unit) : preserves I m -> preserves I (when c m).
Proof. intros Hm; destruct c; [exact Hm | apply preserves_ret]. Qed.

Lemma preserves_for_each {A} (f : A -> eff S X unit) l :
  (forall a, preserves I (f a)) -> preserves I (for_each f l).
Proof.
  intros Hf; induction l; cbn; [apply preserves_ret |].
  apply preserves_bind; auto.
Qed.
End Preserves.

Section Advances.
Context (R : S -> S -> Prop) `{!PreOrder R}.

Lemma advances_ret {A} (a : A) : advances (X:=X) R (mret a).
Proof. intros s; reflexivity. Qed.

Lemma advances_bind {A B} (m : eff S X A) (f : A -> eff S X B) :
  advances R m -> (forall a, advances R (f a)) -> advances R (m ≫= f).
Proof.
  intros Hm Hf s. rewrite final_bind. destruct (outcome m s); [| apply Hm].
  transitivity (final m s); [apply Hm | apply Hf].
Qed.

Lemma advances_gets {A} (f : S -> A) : advances (X:=X) R (gets f).
Proof. intros s; reflexivity. Qed.

Lemma advances_modify (f : S -> S) :
  (forall s, R s (f s)) -> advances (X:=X) R (modify f).
Proof. intros Hf s; apply Hf. Qed.

Lemma advances_throw {A} (x : X) : advances (A:=A) R (throw x).
Proof. intros s; reflexivity. Qed.

Lemma advances_attempt {A} (m : eff S X A) : advances R m -> advances R (attempt m).
Proof. intros Hm s; apply Hm. Qed.

Lemma advances_when c (m : eff S X unit) : advances R m -> advances R (when c m).
Proof. intros Hm; destruct c; [exact Hm | apply advances_ret]. Qed.

Lemma advances_for_each {A} (f : A -> eff S X unit) l :
  (forall a, advances R (f a)) -> advances R (for_each f l).
Proof.
  intros Hf; induction l; cbn; [apply advances_ret |].
  apply advances_bind; auto.
Qed.
End Advances.
End Lifted.

#[export] Hint Resolve preserves_ret preserves_bind preserves_gets preserves_throw
  preserves_attempt preserves_when preserves_for_each : preserve.
#[export] Hint Resolve advances_ret advances_bind advances_gets advances_throw
  advances_attempt advances_when advances_for_each : preserve.

(** Walk through the code of a computation: binds, branches and assignments are
    opened, the leaves go to [tac]. *)
Ltac walk_code tac :=
  repeat first
    [ progress intros
    | tac
    | match goal with
      | |- preserves _ (mret _) => apply preserves_ret
      | |- preserves _ (_ ≫= _) => apply preserves_bind
      | |- preserves _ (gets _) => apply preserves_gets
      | |- preserves _ (throw _) => apply preserves_throw
      | |- preserves _ (attempt _) => apply preserves_attempt
      | |- preserves _ (when _ _) => apply preserves_when
      | |- preserves _ (for_each _ _) => apply preserves_for_each
      | |- advances _ (mret _) => apply advances_ret; try exact _
      | |- advances _ (_ ≫= _) => apply advances_bind; try exact _
      | |- advances _ (gets _) => apply advances_gets; try exact _
      | |- advances _ (throw _) => apply advances_throw; try exact _
      | |- advances _ (attempt _) => apply advances_attempt; try exact _
      | |- advances _ (when _ _) => apply advances_when; try exact _
      | |- advances _ (for_each _ _) => apply advances_for_each; try exact _
      | |- preserves _ (match ?x with _ => _ end) => destruct x eqn:?
      | |- advances _ (match ?x with _ => _ end) => destruct x eqn:?
      end ].

(** One step of symbolic execution on a weakest precondition; [prim] applies the
    rule of a primitive effect of the component. *)
Ltac wp_step prim :=
  cbn beta iota;
  lazymatch goal with
  | |- wp (let _ := _ in _) _ _ => cbv zeta
  | |- wp (_ ≫= _) _ _ => apply wp_bind
  | |- wp (mret _) _ _ => apply wp_ret
  | |- wp (gets _) _ _ => apply wp_gets
  | |- wp (modify _) _ _ => apply wp_modify
  | |- wp (throw _) _ _ => apply wp_throw
  | |- wp (attempt _) _ _ => apply wp_attempt
  | |- wp (if ?b then _ else _) _ _ => destruct b eqn:?
  | |- wp (match ?x with _ => _ end) _ _ => destruct x eqn:?
  | |- wp _ _ _ => prim
  end.
