(* ===== verification/Channels.v ===== *)
(** * Channels: the channels between the tasks

    What the sources use of [tokio::sync]: a [watch] cell whose readers see the
    latest value and are told of changes, the subscription of a bounded
    [broadcast] channel, and the unbounded [mpsc] queue, as the interface
    ([Mpsc]) its two ends are written against and one implementation. *)

From S2P Require Import Prelude.

(** ** [watch] *)

Module Watch.

Record t (A : Type) := mk {
  borrow : A; (* the current value *)
  version : nat; (* sends so far *)
}.
Arguments mk {A} _ _.
Arguments borrow {A} _.
Arguments version {A} _.

Definition channel {A} (a : A) : t A := mk a 0.

(** [Sender::send], while some receiver lives. *)
Definition send {A} (a : A) (w : t A) : t A := mk a (S (version w)).

(** [Receiver::changed] is ready: the receiver has seen [seen] sends. *)
Definition changed {A} (seen : nat) (w : t A) : bool := negb (version w =? seen)%nat.

End Watch.

(** ** [broadcast] *)

Module Broadcast.

(** A receiver: what its next [try_recv]s yield, [None] for the [Lagged] error
    that stands for everything it has missed; after them the channel is empty. *)
Abbreviation receiver A := (list (option A)).

Definition values {A} (q : receiver A) : list A := omap (fun x => x) q.

(** A send, seen by a receiver of a channel for [capacity] messages: the oldest
    one is overwritten when there is no room. *)
Definition deliver {A} (capacity : nat) (a : A) (q : receiver A) : receiver A :=
  if (length (values q) <? capacity)%nat then q ++ [Some a]
  else None :: map Some (tail (values q) ++ [a]).

Lemma elem_of_values {A} (q : receiver A) a : a ∈ values q <-> Some a ∈ q.
Proof.
  unfold values. rewrite list_elem_of_omap. split; [by intros (x & Hx & ->) | intros H; by exists (Some a)].
Qed.

Lemma values_snoc {A} (q : receiver A) a : values (q ++ [Some a]) = values q ++ [a].
Proof. unfold values. by rewrite omap_app. Qed.

Lemma values_map {A} (l : list A) : values (map Some l) = l.
Proof. induction l as [|a l IH]; [done|]. unfold values in *. cbn in *. by f_equal. Qed.

Lemma elem_of_deliver {A} n (a b : A) q : Some b ∈ deliver n a q -> Some b ∈ q \/ b = a.
Proof.
  unfold deliver. destruct (_ <? n)%nat.
  - intros [? | [= ->]%list_elem_of_singleton]%elem_of_app; [by left | by right].
  - intros [? | H]%elem_of_cons; [done|]. apply elem_of_values in H. rewrite values_map in H.
    apply elem_of_app in H as [H | ->%list_elem_of_singleton]; [left | by right]. apply elem_of_values.
    destruct (values q); [by apply elem_of_nil in H | by right].
Qed.

Lemma values_lagged {A} (q : receiver A) : values (None :: q) = values q.
Proof. reflexivity. Qed.

(** A receiver never holds more than the channel does, and only the oldest
    messages are lost. *)
Lemma deliver_bounded {A} n (a : A) q :
  (0 < n)%nat -> (length (values q) <= n)%nat -> (length (values (deliver n a q)) <= n)%nat.
Proof.
  unfold deliver. intros Hn Hq. destruct (Nat.ltb_spec (length (values q)) n).
  - rewrite values_snoc, length_app. cbn. lia.
  - rewrite values_lagged, values_map, length_app.
    destruct (values q); cbn in *; lia.
Qed.

Lemma deliver_suffix {A} n (a : A) q :
  (0 < n)%nat -> (length (values q) <= n)%nat -> values (deliver n a q) `suffix_of` values q ++ [a].
Proof.
  unfold deliver. intros Hn Hq. destruct (Nat.ltb_spec (length (values q)) n); [by rewrite values_snoc|].
  rewrite values_lagged, values_map.
  destruct (values q) as [|b l]; [cbn in *; lia|]. by exists [b].
Qed.

End Broadcast.

(** ** [mpsc] *)

(** The unbounded queue: sending never blocks and fails only once the receiver
    is gone; a closed queue is still read to its end. *)
Class Mpsc (Q A : Type) := {
  empty_queue : Q;
  contents : Q -> list A; (* sent and not yet received, oldest first *)
  receiver_alive : Q -> bool;
  send_msg : A -> Q -> result string Q;
  recv_msg : Q -> option (A * Q);
  drop_receiver : Q -> Q;
}.

Class MpscLaws (Q A : Type) `{Mpsc Q A} := {
  empty_contents : contents empty_queue = [] /\ receiver_alive empty_queue = true;
  send_alive : forall a q, receiver_alive q = true ->
    exists q', send_msg a q = Ok q' /\ contents q' = contents q ++ [a] /\ receiver_alive q' = true;
  send_dropped : forall a q, receiver_alive q = false -> exists e, send_msg a q = Err e;
  recv_some : forall a q q', recv_msg q = Some (a, q') ->
    contents q = a :: contents q' /\ receiver_alive q' = receiver_alive q;
  recv_none : forall q, recv_msg q = None <-> contents q = [];
  drop_receiver_alive : forall q, receiver_alive (drop_receiver q) = false /\ contents (drop_receiver q) = [];
}.

(** The queue as a list. *)
Record Fifo (A : Type) := mkFifo { fifo : list A; fifo_open : bool }.
Arguments mkFifo {A} _ _.
Arguments fifo {A} _.
Arguments fifo_open {A} _.

#[export] Instance fifo_mpsc A : Mpsc (Fifo A) A := {|
  empty_queue := mkFifo [] true;
  contents := fifo;
  receiver_alive := fifo_open;
  send_msg := fun a q => if fifo_open q then Ok (mkFifo (fifo q ++ [a]) true) else Err "channel closed";
  recv_msg := fun q => match fifo q with a :: l => Some (a, mkFifo l (fifo_open q)) | [] => None end;
  drop_receiver := fun q => mkFifo [] false |}.

#[export] Instance fifo_mpsc_laws A : MpscLaws (Fifo A) A.
Proof.
  split; cbn; try done.
  - intros a q ->. by eexists.
  - intros a q ->. by eexists.
  - intros a [[|b l] o] q' H; cbn in H; by simplify_eq.
  - by intros [[|b l] o].
Qed.
