(* ===== verification/RustStd.v ===== *)
(** * RustStd: the parts of Rust's standard library the sources use

    Machine integers (saturation, [as] casts, [FromStr]), byte-level [str]
    methods and UTF-8 validity.  A Rust [String] is a Rocq [string] holding its
    UTF-8 bytes; a [&[u8]] is a [list Byte.byte].  Nothing here models a file of
    the repository: it is the vocabulary the component files are written in. *)

From S2P Require Import Prelude.

(** ** Machine integers *)

Module Int.

Definition u8_max : Z := 255.
Definition u16_max : Z := 65535.
Definition u32_max : Z := 4294967295.
Definition u64_max : Z := 18446744073709551615.

(** [uN::saturating_add] and [uN::saturating_sub]. *)
Definition saturating_add (mx a b : Z) : Z := Z.min mx (a + b).
Definition saturating_sub (a b : Z) : Z := Z.max 0 (a - b).

(** [x as uN] from a wider integer. *)
Definition cast (bits x : Z) : Z := x mod 2 ^ bits.

(** [Ord::clamp]. *)
Definition clamp (x lo hi : Z) : Z := if (x <? lo)%Z then lo else if (hi <? x)%Z then hi else x.

Definition digit (c : ascii) : option Z :=
  let n := Z.of_nat (nat_of_ascii c) in
  if (48 <=? n)%Z && (n <=? 57)%Z then Some (n - 48)%Z else None.

Fixpoint parse_digits (mx acc : Z) (s : string) : option Z :=
  match s with
  | EmptyString => Some acc
  | String c s' =>
      match digit c with
      | Some d =>
          let acc' := (acc * 10 + d)%Z in
          if (mx <? acc')%Z then None else parse_digits mx acc' s'
      | None => None
      end
  end.

(** [<uN as FromStr>::from_str(s).ok()]: an optional [+], at least one digit,
    no overflow. *)
Definition parse_uint (mx : Z) (s : string) : option Z :=
  match s with
  | EmptyString => None
  | String c EmptyString => parse_digits mx 0 s
  | String c s' => parse_digits mx 0 (if Ascii.eqb c "+" then s' else s)
  end.

Definition parse_u16 := parse_uint u16_max.
Definition parse_u64 := parse_uint u64_max.

Lemma clamp_bounds x lo hi : (lo <= hi)%Z -> (lo <= clamp x lo hi <= hi)%Z.
Proof. unfold clamp; intros; destruct (Z.ltb_spec x lo), (Z.ltb_spec hi x); lia. Qed.

Lemma clamp_id x lo hi : (lo <= x <= hi)%Z -> clamp x lo hi = x.
Proof. unfold clamp; intros; destruct (Z.ltb_spec x lo), (Z.ltb_spec hi x); lia. Qed.

Lemma digit_range c d : digit c = Some d -> (0 <= d <= 9)%Z.
Proof.
  unfold digit; intros H. destruct (_ && _) eqn:E; simplify_eq.
  apply andb_true_iff in E as [E1 E2]. apply Z.leb_le in E1, E2. lia.
Qed.

Lemma parse_digits_range mx s : forall acc n,
  (0 <= acc <= mx)%Z -> parse_digits mx acc s = Some n -> (0 <= n <= mx)%Z.
Proof.
  induction s as [|c s IH]; cbn; intros acc n Hacc H; [naive_solver|].
  destruct (digit c) as [d|] eqn:Hd; [|done].
  destruct (Z.ltb_spec mx (acc * 10 + d)); [done|].
  apply digit_range in Hd. refine (IH _ _ _ H); lia.
Qed.

Lemma parse_uint_range mx s n :
  (0 <= mx)%Z -> parse_uint mx s = Some n -> (0 <= n <= mx)%Z.
Proof.
  intros Hmx. unfold parse_uint. destruct s as [|c [|c' s]]; [done| |];
    apply parse_digits_range; lia.
Qed.

End Int.

(** ** [bool] *)

(** [<bool as FromStr>::from_str(s).ok()]. *)
Definition parse_bool (s : string) : option bool :=
  if String.eqb s "true" then Some true
  else if String.eqb s "false" then Some false else None.

(** ** [str] *)

Module Str.

Abbreviation chars := list_ascii_of_string.
Abbreviation of_chars := string_of_list_ascii.

Definition is_empty (s : string) : bool := String.eqb s "".

(** [p] as a prefix of a list of bytes, and what is left after it. *)
Fixpoint drop_prefix (p l : list ascii) : option (list ascii) :=
  match p, l with
  | [], _ => Some l
  | a :: p', b :: l' => if Ascii.eqb a b then drop_prefix p' l' else None
  | _ :: _, [] => None
  end.

(** [str::strip_prefix]. *)
Definition strip_prefix (p s : string) : option string :=
  of_chars <$> drop_prefix (chars p) (chars s).

Definition starts_with (p s : string) : bool := bool_decide (is_Some (strip_prefix p s)).

(** [str::ends_with] for a [char] below 128. *)
Definition ends_with_char (c : ascii) (s : string) : bool :=
  match rev (chars s) with
  | c' :: _ => Ascii.eqb c c'
  | [] => false
  end.

(** [str::contains]. *)
Definition contains (sub s : string) : bool :=
  match String.index 0 sub s with Some _ => true | None => false end.

(** The UTF-8 encodings of Unicode's [White_Space] characters. *)
Definition byte (n : nat) : ascii := ascii_of_nat n.
Definition white_space : list (list ascii) :=
  map (fun n => [byte n]) [9; 10; 11; 12; 13; 32]
  ++ [[byte 194; byte 133]; [byte 194; byte 160]; [byte 225; byte 154; byte 128]]
  ++ map (fun n => [byte 226; byte 128; byte n])
       [128; 129; 130; 131; 132; 133; 134; 135; 136; 137; 138; 168; 169; 175]
  ++ [[byte 226; byte 129; byte 159]; [byte 227; byte 128; byte 128]].

(** Drop the first of [codes] that is a prefix. *)
Fixpoint drop_code (codes : list (list ascii)) (l : list ascii) : option (list ascii) :=
  match codes with
  | [] => None
  | c :: codes' =>
      match drop_prefix c l with
      | Some l' => Some l'
      | None => drop_code codes' l
      end
  end.

(** Drop codes while there is one; [length l] steps are enough since no code
    is empty. *)
Fixpoint drop_codes (fuel : nat) (codes : list (list ascii)) (l : list ascii) : list ascii :=
  match fuel with
  | O => l
  | S fuel' =>
      match drop_code codes l with
      | Some l' => drop_codes fuel' codes l'
      | None => l
      end
  end.

Definition trim_codes_start (codes : list (list ascii)) (l : list ascii) : list ascii :=
  drop_codes (length l) codes l.
Definition trim_codes_end (codes : list (list ascii)) (l : list ascii) : list ascii :=
  rev (trim_codes_start (map (@rev ascii) codes) (rev l)).

(** [str::trim]. *)
Definition trim (s : string) : string :=
  of_chars (trim_codes_end white_space (trim_codes_start white_space (chars s))).

(** [str::trim_end_matches(c)] for a [char] below 128. *)
Definition trim_end_matches (c : ascii) (s : string) : string :=
  of_chars (trim_codes_end [[c]] (chars s)).

(** [str::rsplit_once(c)] for a [char] below 128: split at the last [c]. *)
Fixpoint split_once_list (c : ascii) (l : list ascii) : option (list ascii * list ascii) :=
  match l with
  | [] => None
  | a :: l' =>
      if Ascii.eqb a c then Some ([], l')
      else match split_once_list c l' with
           | Some (x, y) => Some (a :: x, y)
           | None => None
           end
  end.
Definition rsplit_once (c : ascii) (s : string) : option (string * string) :=
  match split_once_list c (rev (chars s)) with
  | Some (suf, pre) => Some (of_chars (rev pre), of_chars (rev suf))
  | None => None
  end.

(** [str::replace] of one [char] below 128 by a string. *)
Fixpoint replace_char (c : ascii) (by_ : string) (s : string) : string :=
  match s with
  | EmptyString => EmptyString
  | String a s' =>
      if Ascii.eqb a c then by_ +:+ replace_char c by_ s' else String a (replace_char c by_ s')
  end.

(** [str::replace] of a non-empty pattern; the length bounds the scan. *)
Fixpoint replace_list (fuel : nat) (pat by_ l : list ascii) : list ascii :=
  match fuel, l with
  | O, _ | _, [] => l
  | S fuel', a :: l' =>
      match drop_prefix pat l with
      | Some rest => by_ ++ replace_list fuel' pat by_ rest
      | None => a :: replace_list fuel' pat by_ l'
      end
  end.
Definition replace (pat by_ s : string) : string :=
  of_chars (replace_list (length (chars s)) (chars pat) (chars by_) (chars s)).

Definition ascii_lower (c : ascii) : ascii :=
  let n := nat_of_ascii c in
  if Nat.leb 65 n && Nat.leb n 90 then ascii_of_nat (n + 32) else c.

(** [str::eq_ignore_ascii_case]. *)
Definition eq_ignore_ascii_case (a b : string) : bool :=
  bool_decide (map ascii_lower (chars a) = map ascii_lower (chars b)).

(** [s.chars().all(|c| c.is_ascii_digit())]. *)
Definition all_ascii_digits (s : string) : bool :=
  forallb (fun c => match Int.digit c with Some _ => true | None => false end) (chars s).

(** [format!("{}", n)] of an unsigned integer. *)
Definition show (n : Z) : string := pretty n.

(** *** Decimal numbers *)

Definition is_digit (c : ascii) : bool := match Int.digit c with Some _ => true | None => false end.

Lemma digit_char n : (n < 10)%N -> Int.digit (pretty_N_char n) = Some (Z.of_N n).
Proof.
  intros Hn. assert (n ∈ [0; 1; 2; 3; 4; 5; 6; 7; 8; 9]%N) as H.
  { rewrite !elem_of_cons. lia. }
  repeat (apply elem_of_cons in H as [->|H]; [reflexivity|]). by apply elem_of_nil in H.
Qed.

Lemma go_digits n s : forallb is_digit (chars (pretty_N_go n s)) = forallb is_digit (chars s).
Proof.
  revert s. induction (N.lt_wf_0 n) as [n _ IH]; intros s. destruct (decide (n = 0%N)) as [->|Hn]; [done|].
  rewrite pretty_N_go_step by lia. rewrite IH by (apply N.div_lt; lia). cbn.
  unfold is_digit at 1. by rewrite digit_char by (apply N.mod_lt; lia).
Qed.

Lemma parse_go mx n s :
  (Z.of_N n <= mx)%Z -> Int.parse_digits mx 0 (pretty_N_go n s) = Int.parse_digits mx (Z.of_N n) s.
Proof.
  revert s. induction (N.lt_wf_0 n) as [n _ IH]; intros s Hmx. destruct (decide (n = 0%N)) as [->|Hn]; [done|].
  rewrite pretty_N_go_step by lia. pose proof (N.div_mod n 10 ltac:(lia)) as Hd.
  pose proof (N.mod_lt n 10 ltac:(lia)) as Hm. pose proof (N.div_lt n 10 ltac:(lia) ltac:(lia)) as Hl.
  rewrite IH by (try exact Hl; clear -Hl Hmx; lia). cbn. rewrite digit_char by done.
  replace (Z.of_N (n / 10) * 10 + Z.of_N (n mod 10))%Z with (Z.of_N n) by lia.
  by rewrite (proj2 (Z.ltb_ge _ _)) by lia.
Qed.

Lemma show_N n : (0 <= n)%Z -> show n = if decide (n = 0)%Z then "0" else pretty_N_go (Z.to_N n) "".
Proof. intros Hn. unfold show. destruct n; [done..|lia]. Qed.

(** A number that is shown is only digits, and is parsed back. *)
Lemma show_digits n : (0 <= n)%Z -> forallb is_digit (chars (show n)) = true.
Proof. intros Hn. rewrite show_N by done. case_decide; [done|]. by rewrite go_digits. Qed.

Lemma parse_show mx n : (0 <= n <= mx)%Z -> Int.parse_uint mx (show n) = Some n.
Proof.
  intros Hn. pose proof (show_digits n ltac:(lia)) as Hd. rewrite show_N in * by lia.
  case_decide as H0; [subst; destruct mx; [done | done | lia]|].
  pose proof (parse_go mx (Z.to_N n) "" ltac:(lia)) as Hp. rewrite Z2N.id in Hp by lia.
  change (Int.parse_digits mx n "") with (Some n) in Hp.
  assert (pretty_N_go (Z.to_N n) "" <> "") as Hne.
  { intros He. rewrite He in Hp. injection Hp. lia. }
  unfold Int.parse_uint. destruct (pretty_N_go _ _) as [|c [|c' s]]; [done..|].
  destruct (Ascii.eqb_spec c "+") as [->|]; [done | exact Hp].
Qed.

(** *** Trimming *)

Lemma drop_prefix_Some p l l' : drop_prefix p l = Some l' <-> l = p ++ l'.
Proof.
  revert l. induction p as [|a p IH]; intros [|b l]; cbn; try (split; congruence).
  destruct (Ascii.eqb_spec a b) as [->|Hne]; [rewrite IH|]; split; congruence.
Qed.

Lemma drop_code_Some codes l l' :
  drop_code codes l = Some l' -> exists c, c ∈ codes /\ l = c ++ l'.
Proof.
  induction codes as [|c codes IH]; cbn; [done|].
  destruct (drop_prefix c l) as [l1|] eqn:Hc; intros H.
  - simplify_eq. apply drop_prefix_Some in Hc as ->. exists c. split; [apply list_elem_of_here | done].
  - destruct (IH H) as (c' & Hc' & ->). exists c'. split; [by apply list_elem_of_further | done].
Qed.

Lemma drop_code_None codes l :
  drop_code codes l = None <-> forall c l', c ∈ codes -> l <> c ++ l'.
Proof.
  induction codes as [|c codes IH]; cbn.
  { split; [by intros _ c l' H%elem_of_nil | done]. }
  destruct (drop_prefix c l) as [l1|] eqn:Hc.
  - apply drop_prefix_Some in Hc as ->. split; [done|]. intros H. by destruct (H c l1 (list_elem_of_here _ _)).
  - rewrite IH. split; intros H c' l'; [|intros Hin; apply H; by apply list_elem_of_further].
    intros [->|Hin]%elem_of_cons; [|by apply H].
    intros Heq. apply drop_prefix_Some in Heq. congruence.
Qed.

(** A code that is dropped makes the text shorter. *)
Lemma drop_codes_spec codes : Forall (fun c => c <> []) codes -> forall fuel l, (length l <= fuel)%nat ->
  drop_code codes (drop_codes fuel codes l) = None /\ exists pre, l = pre ++ drop_codes fuel codes l.
Proof.
  intros Hne fuel. induction fuel as [|fuel IH]; intros l Hl.
  - destruct l; [|cbn in Hl; lia]. split; [|by exists []]. apply drop_code_None.
    intros [|a c] l' Hc; [|done]. rewrite Forall_forall in Hne. by apply Hne in Hc.
  - cbn. destruct (drop_code codes l) as [l'|] eqn:Hd; [|split; [done | by exists []]].
    apply drop_code_Some in Hd as (c & Hc & ->). rewrite Forall_forall in Hne. apply Hne in Hc.
    rewrite length_app in Hl. destruct c; [done|]. cbn in Hl.
    destruct (IH l' ltac:(lia)) as [H1 (pre & H2)]. split; [done|].
    exists ((a :: c) ++ pre). by rewrite <- app_assoc, <- H2.
Qed.

Lemma drop_codes_id codes fuel l : drop_code codes l = None -> drop_codes fuel codes l = l.
Proof. destruct fuel; cbn; [done|]. by intros ->. Qed.

(** The characters [trim] keeps have no white space at either end. *)
Definition trimmed (l : list ascii) : Prop :=
  drop_code white_space l = None /\ drop_code (map (@rev ascii) white_space) (rev l) = None.

Lemma trim_chars s : exists m, trim s = of_chars m /\ trimmed m.
Proof.
  unfold trim, trim_codes_end. set (m := rev _). exists m. split; [done|].
  assert (Forall (fun c => c <> []) white_space) as H1 by (repeat constructor; done).
  assert (Forall (fun c => c <> []) (map (@rev ascii) white_space)) as H2 by (repeat constructor; done).
  unfold m, trim_codes_start. set (l := chars s). set (l1 := drop_codes (length l) white_space l).
  destruct (drop_codes_spec _ H1 (length l) l (Nat.le_refl _)) as [Hs _]. fold l1 in Hs.
  destruct (drop_codes_spec _ H2 (length (rev l1)) (rev l1) (Nat.le_refl _)) as [He (pre & Hp)].
  set (e := drop_codes (length (rev l1)) (map (@rev ascii) white_space) (rev l1)) in *.
  split; [|by rewrite rev_involutive].
  apply drop_code_None. intros c l' Hc Heq. rewrite drop_code_None in Hs. apply (Hs c (l' ++ rev pre) Hc).
  rewrite app_assoc, <- Heq, <- rev_app_distr, <- Hp. by rewrite rev_involutive.
Qed.

Lemma trim_trimmed m : trimmed m -> trim (of_chars m) = of_chars m.
Proof.
  intros [H1 H2]. unfold trim, trim_codes_end, trim_codes_start.
  rewrite list_ascii_of_string_of_list_ascii, (drop_codes_id _ _ _ H1), (drop_codes_id _ _ _ H2).
  by rewrite rev_involutive.
Qed.

Lemma trim_idemp s : trim (trim s) = trim s.
Proof. destruct (trim_chars s) as (m & -> & Hm). by apply trim_trimmed. Qed.

(** No separator, no split. *)
Lemma split_once_list_None c l : forallb (fun a => negb (Ascii.eqb a c)) l = true -> split_once_list c l = None.
Proof.
  induction l as [|a l IH]; [done|]. cbn. intros [Ha%negb_true_iff Hl]%andb_prop.
  by rewrite Ha, IH.
Qed.

Lemma rsplit_once_None c s : forallb (fun a => negb (Ascii.eqb a c)) (chars s) = true -> rsplit_once c s = None.
Proof.
  intros H. unfold rsplit_once. rewrite split_once_list_None; [done|].
  rewrite forallb_forall in *. intros a Ha. apply H. by apply in_rev.
Qed.

(** The halves of a split. *)
Lemma split_once_list_Some c l x y : split_once_list c l = Some (x, y) -> l = x ++ c :: y.
Proof.
  revert x. induction l as [|a l IH]; intros x H; cbn in H; [done|].
  destruct (Ascii.eqb_spec a c) as [->|]; [by simplify_eq|].
  destruct (split_once_list c l) as [[x' y']|]; simplify_eq. cbn. by rewrite (IH x' eq_refl).
Qed.

Lemma rsplit_once_Some c s a b : rsplit_once c s = Some (a, b) -> chars s = chars a ++ c :: chars b.
Proof.
  unfold rsplit_once. destruct (split_once_list c (rev (chars s))) as [[x y]|] eqn:H; [|done].
  intros ?. simplify_eq. apply split_once_list_Some in H.
  rewrite !list_ascii_of_string_of_list_ascii. apply (f_equal (@rev ascii)) in H.
  rewrite rev_involutive, rev_app_distr in H. cbn in H. by rewrite <- app_assoc in H.
Qed.

End Str.

(** ** UTF-8 *)

Module Utf8.

Definition between (lo hi : nat) (c : ascii) : bool :=
  Nat.leb lo (nat_of_ascii c) && Nat.leb (nat_of_ascii c) hi.
Definition cont : ascii -> bool := between 128 191.

(** [str::from_utf8(bytes).is_ok()]: the table of well-formed sequences. *)
Fixpoint valid (l : list ascii) : bool :=
  match l with
  | [] => true
  | a :: l1 =>
      if between 0 127 a then valid l1
      else match l1 with
      | b :: l2 =>
          if between 194 223 a then cont b && valid l2
          else match l2 with
          | c :: l3 =>
              if between 224 224 a then between 160 191 b && cont c && valid l3
              else if between 225 236 a || between 238 239 a then cont b && cont c && valid l3
              else if between 237 237 a then between 128 159 b && cont c && valid l3
              else match l3 with
              | d :: l4 =>
                  if between 240 240 a then between 144 191 b && cont c && cont d && valid l4
                  else if between 241 243 a then cont b && cont c && cont d && valid l4
                  else if between 244 244 a then between 128 143 b && cont c && cont d && valid l4
                  else false
              | [] => false
              end
          | [] => false
          end
      | [] => false
      end
  end.

(** [String::from_utf8]. *)
Definition from_utf8 (l : list ascii) : result string string :=
  if valid l then Ok (string_of_list_ascii l) else Err "invalid utf-8 sequence".

End Utf8.

(** ** [format!] with named arguments *)

Module Fmt.

Inductive piece :=
  | Lit (s : list ascii)
  | Arg (name : list ascii).

(** The pieces of a format string: [{{] and [}}] are braces, [{name}] a hole.
    [lit] is the literal read so far and [hole] the name of the hole being read,
    both reversed.  [None] is what the compiler refuses. *)
Fixpoint scan (lit : list ascii) (hole : option (list ascii)) (l : list ascii) : option (list piece) :=
  match hole, l with
  | None, [] => Some [Lit (reverse lit)]
  | Some _, [] => None
  | None, a :: l' =>
      if Ascii.eqb a "{" then
        match l' with
        | b :: l'' =>
            if Ascii.eqb b "{" then scan ("{"%char :: lit) None l''
            else cons (Lit (reverse lit)) <$> scan [] (Some []) l'
        | [] => None
        end
      else if Ascii.eqb a "}" then
        match l' with
        | b :: l'' => if Ascii.eqb b "}" then scan ("}"%char :: lit) None l'' else None
        | [] => None
        end
      else scan (a :: lit) None l'
  | Some name, a :: l' =>
      if Ascii.eqb a "}" then cons (Arg (reverse name)) <$> scan [] None l'
      else scan [] (Some (a :: name)) l'
  end.

Definition pieces (template : string) : option (list piece) := scan [] None (Str.chars template).

Definition render_piece (args : list (string * string)) (p : piece) : option (list ascii) :=
  match p with
  | Lit s => Some s
  | Arg name => Str.chars ∘ snd <$> find (fun a => String.eqb a.1 (Str.of_chars name)) args
  end.

(** [format!(template, name = value, ...)]; [None] when the template is refused or
    names an argument that is not given. *)
Definition format (template : string) (args : list (string * string)) : option string :=
  ps ← pieces template;
  ls ← mapM (render_piece args) ps;
  Some (Str.of_chars (concat ls)).

End Fmt.
