(* ===== verification/Unicode.v ===== *)
(** * Unicode: code points, UTF-8 and UTF-16

    What the registry access needs of the standard library's text encodings: the
    code points of a [str], their UTF-16 units, and the facts that nothing is
    lost either way. *)

From S2P Require Import Prelude RustStd.

#[local] Open Scope Z_scope.

Definition code (c : ascii) : Z := Z.of_nat (nat_of_ascii c).
(** The payload of a continuation byte, [byte & 0x3F]. *)
Definition six (c : ascii) : Z := code c mod 64.

(** [str::chars] of valid UTF-8, as code points. *)
Fixpoint code_points (l : list ascii) : list Z :=
  match l with
  | [] => []
  | a :: l1 =>
      if Utf8.between 0 127 a then code a :: code_points l1
      else match l1 with
      | b :: l2 =>
          if Utf8.between 194 223 a then (code a mod 32 * 64 + six b) :: code_points l2
          else match l2 with
          | c :: l3 =>
              if Utf8.between 224 239 a then ((code a mod 16 * 64 + six b) * 64 + six c) :: code_points l3
              else match l3 with
              | d :: l4 => (((code a mod 8 * 64 + six b) * 64 + six c) * 64 + six d) :: code_points l4
              | [] => []
              end
          | [] => []
          end
      | [] => []
      end
  end.

(** A Unicode scalar value: Rust's [char]. *)
Definition scalar (c : Z) : Prop := 0 <= c < 55296 \/ 57344 <= c <= 1114111.

(** [char::encode_utf8]. *)
Definition byte (n : Z) : ascii := ascii_of_nat (Z.to_nat n).
Definition encode_utf8 (c : Z) : list ascii :=
  if c <? 128 then [byte c]
  else if c <? 2048 then [byte (192 + c / 64); byte (128 + c mod 64)]
  else if c <? 65536 then [byte (224 + c / 4096); byte (128 + c / 64 mod 64); byte (128 + c mod 64)]
  else [byte (240 + c / 262144); byte (128 + c / 4096 mod 64); byte (128 + c / 64 mod 64); byte (128 + c mod 64)].

(** [char::encode_utf16]. *)
Definition encode_utf16 (c : Z) : list Z :=
  if c <? 65536 then [c] else [55296 + (c - 65536) / 1024; 56320 + (c - 65536) mod 1024].

(** [char::decode_utf16], for paired surrogates. *)
Fixpoint decode_utf16 (l : list Z) : list Z :=
  match l with
  | [] => []
  | u :: l1 =>
      if (55296 <=? u) && (u <? 56320) then
        match l1 with
        | v :: l2 => (65536 + (u - 55296) * 1024 + (v - 56320)) :: decode_utf16 l2
        | [] => []
        end
      else u :: decode_utf16 l1
  end.

Lemma code_byte n : 0 <= n < 256 -> code (byte n) = n.
Proof. intros H. unfold code, byte. rewrite nat_ascii_embedding by lia. lia. Qed.

Lemma byte_code a : byte (code a) = a.
Proof. unfold code, byte. by rewrite Nat2Z.id, ascii_nat_embedding. Qed.

Lemma code_eq a n : code a = n -> a = byte n.
Proof. intros <-. by rewrite byte_code. Qed.

Lemma between_code lo hi a : Utf8.between lo hi a = true <-> Z.of_nat lo <= code a <= Z.of_nat hi.
Proof. unfold Utf8.between, code. rewrite andb_true_iff, !Nat.leb_le. lia. Qed.

Lemma between_code_false lo hi a : Utf8.between lo hi a = false <-> ~ (Z.of_nat lo <= code a <= Z.of_nat hi).
Proof. rewrite <- between_code. by destruct (Utf8.between lo hi a). Qed.

Ltac between_facts :=
  repeat match goal with
  | H : andb _ _ = true |- _ => apply andb_true_iff in H as [? ?]
  | H : Utf8.between _ _ _ = true |- _ => apply between_code in H
  | H : Utf8.cont _ = true |- _ => apply between_code in H
  end.

Lemma six_cont a : Utf8.cont a = true -> a = byte (128 + six a) /\ 0 <= six a < 64.
Proof.
  intros H. unfold Utf8.cont in H. apply between_code in H. unfold six. cbn in H.
  assert (code a mod 64 = code a - 128) as -> by (symmetry; apply (Z.mod_unique _ _ 2); lia).
  split; [|lia]. apply code_eq. lia.
Qed.

(** The lead byte fixes the width; the payload bits are the code point's. *)
Lemma encode_two a b :
  Utf8.between 194 223 a = true -> Utf8.cont b = true ->
  let c := code a mod 32 * 64 + six b in scalar c /\ encode_utf8 c = [a; b].
Proof.
  intros Ha [Hb Hs]%six_cont. apply between_code in Ha. cbn in Ha.
  assert (code a mod 32 = code a - 192) as -> by (symmetry; apply (Z.mod_unique _ _ 6); lia).
  set (c := _ + _). split; [unfold scalar; lia|]. unfold encode_utf8.
  destruct (Z.ltb_spec c 128); [lia|]. destruct (Z.ltb_spec c 2048); [|lia].
  replace (c / 64) with (code a - 192) by (apply (Z.div_unique _ _ _ (six b)); lia).
  replace (c mod 64) with (six b) by (apply (Z.mod_unique _ _ (code a - 192)); lia).
  rewrite <- Hb. by replace (192 + (code a - 192)) with (code a) by lia; rewrite byte_code.
Qed.

Lemma encode_three a b c :
  Utf8.between 224 239 a = true -> Utf8.cont b = true -> Utf8.cont c = true ->
  (code a = 224 -> 160 <= code b) -> (code a = 237 -> code b <= 159) ->
  let p := (code a mod 16 * 64 + six b) * 64 + six c in scalar p /\ encode_utf8 p = [a; b; c].
Proof.
  intros Ha Hb Hc Hlo Hhi. pose proof Hb as Hcb. apply between_code in Ha, Hcb. cbn in Ha, Hcb.
  assert (six b = code b - 128) as Hsb by (symmetry; apply (Z.mod_unique _ _ 2); lia).
  apply six_cont in Hb as [Hb Hb']. apply six_cont in Hc as [Hc Hc'].
  assert (code a mod 16 = code a - 224) as -> by (symmetry; apply (Z.mod_unique _ _ 14); lia).
  set (p := _ + six c). split; [unfold scalar; lia|]. unfold encode_utf8.
  destruct (Z.ltb_spec p 128); [lia|]. destruct (Z.ltb_spec p 2048); [lia|].
  destruct (Z.ltb_spec p 65536); [|lia].
  replace (p / 4096) with (code a - 224) by (apply (Z.div_unique _ _ _ (six b * 64 + six c)); lia).
  replace (p / 64) with ((code a - 224) * 64 + six b) by (apply (Z.div_unique _ _ _ (six c)); lia).
  replace (p mod 64) with (six c) by (apply (Z.mod_unique _ _ ((code a - 224) * 64 + six b)); lia).
  replace (((code a - 224) * 64 + six b) mod 64) with (six b) by (apply (Z.mod_unique _ _ (code a - 224)); lia).
  rewrite <- Hb, <- Hc. by replace (224 + (code a - 224)) with (code a) by lia; rewrite byte_code.
Qed.

Lemma encode_four a b c d :
  Utf8.between 240 244 a = true -> Utf8.cont b = true -> Utf8.cont c = true -> Utf8.cont d = true ->
  (code a = 240 -> 144 <= code b) -> (code a = 244 -> code b <= 143) ->
  let p := ((code a mod 8 * 64 + six b) * 64 + six c) * 64 + six d in scalar p /\ encode_utf8 p = [a; b; c; d].
Proof.
  intros Ha Hb Hc Hd Hlo Hhi. pose proof Hb as Hcb. apply between_code in Ha, Hcb. cbn in Ha, Hcb.
  assert (six b = code b - 128) as Hsb by (symmetry; apply (Z.mod_unique _ _ 2); lia).
  apply six_cont in Hb as [Hb Hb']. apply six_cont in Hc as [Hc Hc']. apply six_cont in Hd as [Hd Hd'].
  assert (code a mod 8 = code a - 240) as -> by (symmetry; apply (Z.mod_unique _ _ 30); lia).
  set (p := _ + six d). split; [unfold scalar; lia|]. unfold encode_utf8.
  destruct (Z.ltb_spec p 128); [lia|]. destruct (Z.ltb_spec p 2048); [lia|].
  destruct (Z.ltb_spec p 65536); [lia|].
  replace (p / 262144) with (code a - 240) by (apply (Z.div_unique _ _ _ ((six b * 64 + six c) * 64 + six d)); lia).
  replace (p / 4096) with ((code a - 240) * 64 + six b) by (apply (Z.div_unique _ _ _ (six c * 64 + six d)); lia).
  replace (p / 64) with (((code a - 240) * 64 + six b) * 64 + six c) by (apply (Z.div_unique _ _ _ (six d)); lia).
  replace (p mod 64) with (six d) by (apply (Z.mod_unique _ _ (((code a - 240) * 64 + six b) * 64 + six c)); lia).
  replace ((((code a - 240) * 64 + six b) * 64 + six c) mod 64) with (six c)
    by (apply (Z.mod_unique _ _ ((code a - 240) * 64 + six b)); lia).
  replace (((code a - 240) * 64 + six b) mod 64) with (six b) by (apply (Z.mod_unique _ _ (code a - 240)); lia).
  rewrite <- Hb, <- Hc, <- Hd. by replace (240 + (code a - 240)) with (code a) by lia; rewrite byte_code.
Qed.

Lemma encode_one a : Utf8.between 0 127 a = true -> scalar (code a) /\ encode_utf8 (code a) = [a].
Proof.
  intros Ha%between_code. cbn in Ha. split; [unfold scalar; lia|]. unfold encode_utf8.
  destruct (Z.ltb_spec (code a) 128); [|lia]. by rewrite byte_code.
Qed.

(** The rows of the table with three and four bytes. *)
Lemma valid_wide a b c l :
  Utf8.between 0 127 a = false -> Utf8.between 194 223 a = false -> Utf8.valid (a :: b :: c :: l) = true ->
  (Utf8.between 224 239 a = true /\ Utf8.cont b = true /\ Utf8.cont c = true /\ Utf8.valid l = true /\
    (code a = 224 -> 160 <= code b) /\ (code a = 237 -> code b <= 159)) \/
  exists d l', l = d :: l' /\ Utf8.between 224 239 a = false /\ Utf8.between 240 244 a = true /\
    Utf8.cont b = true /\ Utf8.cont c = true /\ Utf8.cont d = true /\ Utf8.valid l' = true /\
    (code a = 240 -> 144 <= code b) /\ (code a = 244 -> code b <= 143).
Proof.
  intros H1 H2. cbn [Utf8.valid]. rewrite H1, H2. clear H1 H2.
  destruct (Utf8.between 224 224 a) eqn:E1; [|destruct (Utf8.between 225 236 a) eqn:E2;
    [|destruct (Utf8.between 238 239 a) eqn:E3; [|destruct (Utf8.between 237 237 a) eqn:E4]]]; cbn [orb].
  1-4: intros Hv; left; between_facts; unfold Utf8.cont; rewrite !between_code; cbn in *; split_and!; (done || lia).
  destruct l as [|d l]; [done|]. intros Hv. right. exists d, l. apply between_code_false in E1, E2, E3, E4.
  split; [done|]. unfold Utf8.cont in *. rewrite between_code_false, !between_code.
  destruct (Utf8.between 240 240 a) eqn:F1; [|destruct (Utf8.between 241 243 a) eqn:F2;
    [|destruct (Utf8.between 244 244 a) eqn:F3; [|done]]].
  all: between_facts; cbn in *; split_and!; (done || lia).
Qed.

(** Valid UTF-8 is a sequence of encoded scalar values, and [code_points] reads
    them. *)
Lemma valid_uncons a l :
  Utf8.valid (a :: l) = true ->
  exists p rest, scalar p /\ a :: l = encode_utf8 p ++ rest /\ Utf8.valid rest = true /\
    code_points (a :: l) = p :: code_points rest.
Proof.
  intros Hv. cbn [code_points]. destruct (Utf8.between 0 127 a) eqn:H1.
  { cbn [Utf8.valid] in Hv. rewrite H1 in Hv. destruct (encode_one a H1) as [? He]. exists (code a), l. by rewrite He. }
  destruct l as [|b l]; [cbn [Utf8.valid] in Hv; by rewrite H1 in Hv|]. destruct (Utf8.between 194 223 a) eqn:H2.
  { cbn [Utf8.valid] in Hv. rewrite H1, H2 in Hv. apply andb_true_iff in Hv as [Hb Hv]. destruct (encode_two a b H2 Hb) as [? He].
    eexists _, l. split_and!; [done | by rewrite He | done | done]. }
  destruct l as [|c l]; [cbn [Utf8.valid] in Hv; by rewrite H1, H2 in Hv|].
  destruct (valid_wide a b c l H1 H2 Hv) as
    [(Ha & Hb & Hc & Hl & Hlo & Hhi) | (d & l' & -> & Hn & Ha & Hb & Hc & Hd & Hl & Hlo & Hhi)].
  - rewrite Ha. destruct (encode_three a b c Ha Hb Hc Hlo Hhi) as [? He].
    eexists _, l. split_and!; [done | by rewrite He | done | done].
  - rewrite Hn. destruct (encode_four a b c d Ha Hb Hc Hd Hlo Hhi) as [? He].
    eexists _, l'. split_and!; [done | by rewrite He | done | done].
Qed.

Lemma encode_utf8_nonempty p : (0 < length (encode_utf8 p))%nat.
Proof. unfold encode_utf8. repeat case_match; cbn; lia. Qed.

Lemma code_points_spec l :
  Utf8.valid l = true -> Forall scalar (code_points l) /\ concat (map encode_utf8 (code_points l)) = l.
Proof.
  induction l as [l IH] using (induction_ltof1 _ (@length ascii)). unfold ltof in IH.
  destruct l as [|a l]; [by split|]. intros Hv.
  destruct (valid_uncons a l Hv) as (p & rest & Hp & He & Hr & Hc). rewrite Hc.
  destruct (IH rest) as [H1 H2]; [| done |].
  - rewrite He, length_app. pose proof (encode_utf8_nonempty p). lia.
  - split; [by constructor|]. cbn [map concat]. by rewrite H2, He.
Qed.

(** UTF-16 loses nothing and fits 16-bit units. *)
Lemma encode_utf16_units p : scalar p -> Forall (fun u => 0 <= u < 65536) (encode_utf16 p).
Proof.
  intros Hp. unfold encode_utf16, scalar in *. destruct (Z.ltb_spec p 65536); [repeat constructor; lia|].
  pose proof (Z.mod_pos_bound (p - 65536) 1024). pose proof (Z.div_mod (p - 65536) 1024).
  repeat constructor; lia.
Qed.

Lemma encode_utf16_nonzero p : scalar p -> p <> 0 -> Forall (fun u => u <> 0) (encode_utf16 p).
Proof.
  intros Hp Hz. unfold encode_utf16, scalar in *. destruct (Z.ltb_spec p 65536); [repeat constructor; lia|].
  pose proof (Z.mod_pos_bound (p - 65536) 1024). pose proof (Z.div_mod (p - 65536) 1024).
  repeat constructor; lia.
Qed.

Lemma decode_encode_utf16 ps l :
  Forall scalar ps -> decode_utf16 (concat (map encode_utf16 ps) ++ l) = ps ++ decode_utf16 l.
Proof.
  induction 1 as [|p ps Hp Hps IH]; [done|]. cbn [map concat]. rewrite <- app_assoc.
  unfold encode_utf16, scalar in *. destruct (Z.ltb_spec p 65536).
  - cbn [app decode_utf16]. rewrite IH.
    destruct (Z.leb_spec 55296 p), (Z.ltb_spec p 56320); cbn; try done; lia.
  - pose proof (Z.mod_pos_bound (p - 65536) 1024). pose proof (Z.div_mod (p - 65536) 1024).
    cbn [app decode_utf16]. rewrite IH.
    destruct (Z.leb_spec 55296 (55296 + (p - 65536) / 1024)), (Z.ltb_spec (55296 + (p - 65536) / 1024) 56320); try lia.
    cbn [andb app]. f_equal. lia.
Qed.

(** A zero code point is a zero byte. *)
Lemma code_points_nonzero l :
  Utf8.valid l = true -> byte 0 ∉ l -> Forall (fun p => p <> 0) (code_points l).
Proof.
  intros Hv Hz. destruct (code_points_spec l Hv) as [_ He]. apply Forall_forall. intros p Hp ->. apply Hz.
  rewrite <- He. apply list_elem_of_In, in_concat. exists (encode_utf8 0). split; [|by left].
  apply in_map, list_elem_of_In. done.
Qed.
