(* ===== verification/Float.v ===== *)
(** * Float: IEEE-754 [f32] and [f64] values

    The sources compute rates, percentages and latencies in [f32] and export
    them as [f64].  Both formats are the executable [spec_float] of the standard
    library (binary32: 24 bits, exponent below 128; binary64: 53 bits, exponent
    below 1024), rounding to nearest even, with the NaN and infinity cases of
    the standard.  The file adds the methods of [f32] the sources call ([max],
    [clamp], [round]) and the saturating [as u32] cast. *)

From S2P Require Import Prelude RustStd.
From Stdlib Require Export SpecFloat.

#[local] Open Scope Z_scope.

Abbreviation f32 := spec_float.
Abbreviation f64 := spec_float.

Module F32.

Definition prec : Z := 24.
Definition emax : Z := 128.

Definition add : f32 -> f32 -> f32 := SFadd prec emax.
Definition sub : f32 -> f32 -> f32 := SFsub prec emax.
Definition mul : f32 -> f32 -> f32 := SFmul prec emax.
Definition div : f32 -> f32 -> f32 := SFdiv prec emax.

Definition ltb : f32 -> f32 -> bool := SFltb.
Definition leb : f32 -> f32 -> bool := SFleb.
Definition eqb : f32 -> f32 -> bool := SFeqb.

(** [n as f32] of an integer. *)
Definition of_Z (n : Z) : f32 := binary_normalize prec emax n 0 false.

Definition zero : f32 := S754_zero false.
Definition neg_zero : f32 := S754_zero true.
Definition one : f32 := Eval vm_compute in of_Z 1.
Definition half : f32 := Eval vm_compute in div (of_Z 1) (of_Z 2).
Definition eight : f32 := Eval vm_compute in of_Z 8.
Definition hundred : f32 := Eval vm_compute in of_Z 100.
Definition thousand : f32 := Eval vm_compute in of_Z 1000.
Definition million : f32 := Eval vm_compute in of_Z 1000000.

Definition is_nan (x : f32) : bool := match x with S754_nan => true | _ => false end.

(** [f32::max]: a NaN argument loses. *)
Definition max (x y : f32) : f32 :=
  if is_nan x then y else if is_nan y then x else if ltb x y then y else x.

(** [f32::clamp]: a NaN receiver stays. *)
Definition clamp (x lo hi : f32) : f32 :=
  let x := if ltb x lo then lo else x in
  if ltb hi x then hi else x.

(** The integer nearest to [m * 2^e], ties away from zero. *)
Definition round_half_up (m : positive) (e : Z) : Z :=
  if 0 <=? e then Z.pos m * 2 ^ e
  else (2 * Z.pos m + 2 ^ (- e)) / 2 ^ (1 - e).

(** [f32::round]. *)
Definition round (x : f32) : f32 :=
  match x with
  | S754_finite s m e =>
      match round_half_up m e with
      | 0 => S754_zero s
      | n => binary_normalize prec emax (if s then - n else n) 0 s
      end
  | _ => x
  end.

(** [x as u32]: truncation, saturating, NaN to zero. *)
Definition as_u32 (x : f32) : Z :=
  match x with
  | S754_nan | S754_zero _ => 0
  | S754_infinity s => if s then 0 else Int.u32_max
  | S754_finite true _ _ => 0
  | S754_finite false m e =>
      Z.min Int.u32_max (if 0 <=? e then Z.pos m * 2 ^ e else Z.pos m / 2 ^ (- e))
  end.

(** [x.is_sign_negative()] of a number that is not NaN. *)
Definition sign (x : f32) : bool :=
  match x with
  | S754_zero s | S754_infinity s | S754_finite s _ _ => s
  | S754_nan => false
  end.

End F32.

Module F64.

Definition prec : Z := 53.
Definition emax : Z := 1024.

Definition zero : f64 := S754_zero false.

(** [n as f64] of an integer. *)
Definition of_Z (n : Z) : f64 := binary_normalize prec emax n 0 false.

(** Convert a value to the format [(p, em)]. *)
Definition convert (p em : Z) (x : spec_float) : spec_float :=
  match x with
  | S754_finite s m e => binary_normalize p em (if s then Z.neg m else Z.pos m) e s
  | _ => x
  end.

(** [x as f64] of an [f32], and [x as f32] of an [f64]. *)
Definition of_f32 : f32 -> f64 := convert prec emax.
Definition to_f32 : f64 -> f32 := convert F32.prec F32.emax.

End F64.

(** ** Bounds *)

Lemma as_u32_range x : 0 <= F32.as_u32 x <= Int.u32_max.
Proof.
  unfold F32.as_u32, Int.u32_max. destruct x as [|[]| |[] m e]; try lia.
  destruct (Z.leb_spec 0 e).
  - pose proof (Z.pow_pos_nonneg 2 e); nia.
  - pose proof (Z.div_pos (Z.pos m) (2 ^ (- e)) ltac:(lia) ltac:(lia)). lia.
Qed.

#[export] Hint Resolve as_u32_range : telemy.

Lemma ltb_irrefl x : F32.ltb x x = false.
Proof.
  unfold F32.ltb, SFltb, SFcompare. destruct x as [|[]| |[] m e]; try done.
  - rewrite Z.compare_refl. cbn. change (Pos.compare_cont Eq m m) with (Pos.compare m m).
    by rewrite Pos.compare_refl.
  - rewrite Z.compare_refl. change (Pos.compare_cont Eq m m) with (Pos.compare m m).
    by rewrite Pos.compare_refl.
Qed.
