(* ===== verification/Net.v ===== *)
(** * Net: [IpAddr] and [SocketAddr] parsing of the standard library

    The recursive-descent parser of [core::net::parser], which
    [normalize_ip_string] and the latency probe call through [FromStr].  A
    parser takes the characters left and returns a value with what follows it;
    failing leaves the caller's characters untouched ([read_atomically]). *)

From S2P Require Import Prelude RustStd.

#[local] Open Scope Z_scope.

Module Net.

Abbreviation input := (list ascii).
Abbreviation parser A := (input -> option (A * input)).

Definition digit_value (c : ascii) : option Z :=
  let n := Z.of_nat (nat_of_ascii c) in
  if (48 <=? n) && (n <=? 57) then Some (n - 48)
  else if (97 <=? n) && (n <=? 102) then Some (n - 87)
  else if (65 <=? n) && (n <=? 70) then Some (n - 55) else None.

(** [char::to_digit(radix)] for a radix up to 16. *)
Definition to_digit (radix : Z) (c : ascii) : option Z :=
  match digit_value c with Some x => if x <? radix then Some x else None | None => None end.

Definition read_given_char (c : ascii) : parser unit :=
  fun l => match l with a :: l' => if Ascii.eqb a c then Some (tt, l') else None | [] => None end.

(** The digit loop of [read_number]: the value is checked against the maximum
    of the result type, the count against [max_digits]. *)
Fixpoint read_digits (radix mx : Z) (max_digits : option nat) (acc : Z) (count : nat) (l : input) :
    option (Z * nat * input) :=
  match l with
  | c :: l' =>
      match to_digit radix c with
      | Some d =>
          let acc := acc * radix + d in
          if mx <? acc then None
          else match max_digits with
               | Some m => if (m <? S count)%nat then None else read_digits radix mx max_digits acc (S count) l'
               | None => read_digits radix mx max_digits acc (S count) l'
               end
      | None => Some (acc, count, l)
      end
  | [] => Some (acc, count, [])
  end.

Definition read_number (radix mx : Z) (max_digits : option nat) (allow_zero_prefix : bool) : parser Z :=
  fun l =>
    let has_leading_zero := match l with c :: _ => Ascii.eqb c "0" | [] => false end in
    match read_digits radix mx max_digits 0 0 l with
    | Some (n, count, rest) =>
        if (count =? 0)%nat then None
        else if negb allow_zero_prefix && has_leading_zero && (1 <? count)%nat then None
        else Some (n, rest)
    | None => None
    end.

Definition read_separator {A} (sep : ascii) (index : nat) (inner : parser A) : parser A :=
  fun l =>
    match index with
    | O => inner l
    | S _ => match read_given_char sep l with Some (_, l') => inner l' | None => None end
    end.

(** The four groups of an IPv4 address, from group [i] on. *)
Fixpoint read_ipv4_groups (n i : nat) (l : input) : option (list Z * input) :=
  match n with
  | O => Some ([], l)
  | S n' =>
      match read_separator "." i (read_number 10 255 (Some 3%nat) false) l with
      | Some (g, l') =>
          match read_ipv4_groups n' (S i) l' with
          | Some (gs, rest) => Some (g :: gs, rest)
          | None => None
          end
      | None => None
      end
  end.

Definition read_ipv4_addr : parser (list Z) := read_ipv4_groups 4 0.

Definition v4_as_groups (a : list Z) : list Z :=
  match a with [o0; o1; o2; o3] => [o0 * 256 + o1; o2 * 256 + o3] | _ => [] end.

(** [read_groups]: the groups read, whether they end with an embedded IPv4
    address, and what follows.  [n] slots are left, [i] were read. *)
Fixpoint read_groups (n i : nat) (l : input) : list Z * bool * input :=
  match n with
  | O => ([], false, l)
  | S n' =>
      let embedded := match n' with O => None | S _ => read_separator ":" i read_ipv4_addr l end in
      match embedded with
      | Some (a, rest) => (v4_as_groups a, true, rest)
      | None =>
          match read_separator ":" i (read_number 16 65535 (Some 4%nat) true) l with
          | Some (g, l') =>
              let '(gs, v4, rest) := read_groups n' (S i) l' in (g :: gs, v4, rest)
          | None => ([], false, l)
          end
      end
  end.

Definition read_ipv6_addr : parser (list Z) :=
  fun l =>
    let '(head, head_ipv4, l) := read_groups 8 0 l in
    if (length head =? 8)%nat then Some (head, l)
    else if (head_ipv4 : bool) then None
    else
      match read_given_char ":" l with
      | Some (_, l) =>
          match read_given_char ":" l with
          | Some (_, l) =>
              let limit := (8 - (length head + 1))%nat in
              let '(tl, _, l) := read_groups limit 0 l in
              Some (head ++ replicate (8 - length head - length tl) 0 ++ tl, l)
          | None => None
          end
      | None => None
      end.

(** [p.or_else(q)]. *)
Definition or_else {A} (p q : parser A) : parser A :=
  fun l => match p l with Some r => Some r | None => q l end.

Definition read_ip_addr : parser (list Z) := or_else read_ipv4_addr read_ipv6_addr.

(** [parse_with]: the whole input must be consumed. *)
Definition parse_with {A} (p : parser A) (s : string) : option A :=
  match p (Str.chars s) with Some (a, []) => Some a | _ => None end.

(** [IpAddr::from_str(s).ok()]: four octets or eight 16-bit groups. *)
Definition parse_ip : string -> option (list Z) := parse_with read_ip_addr.

Definition read_port : parser Z :=
  fun l => match read_given_char ":" l with
           | Some (_, l) => read_number 10 65535 None true l
           | None => None
           end.

Definition read_socket_addr_v4 : parser (list Z * Z) :=
  fun l => match read_ipv4_addr l with
           | Some (ip, l) => match read_port l with Some (p, l) => Some ((ip, p), l) | None => None end
           | None => None
           end.

(** [%<scope>], optional. *)
Definition read_scope_id (l : input) : input :=
  match read_given_char "%" l with
  | Some (_, l') => match read_number 10 4294967295 None true l' with Some (_, l') => l' | None => l end
  | None => l
  end.

Definition read_socket_addr_v6 : parser (list Z * Z) :=
  fun l =>
    match read_given_char "[" l with
    | Some (_, l) =>
        match read_ipv6_addr l with
        | Some (ip, l) =>
            match read_given_char "]" (read_scope_id l) with
            | Some (_, l) => match read_port l with Some (p, l) => Some ((ip, p), l) | None => None end
            | None => None
            end
        | None => None
        end
    | None => None
    end.

(** [SocketAddr::from_str(s).ok()]. *)
Definition parse_socket_addr : string -> option (list Z * Z) :=
  parse_with (or_else read_socket_addr_v4 read_socket_addr_v6).

End Net.

(** ** Characters of an address *)

(** The characters an address is made of. *)
Definition ip_char (c : ascii) : bool :=
  match Net.to_digit 16 c with Some _ => true | None => Ascii.eqb c "." || Ascii.eqb c ":" end.

(** A parser takes only such characters, from the front. *)
Definition takes_ip_chars {A} (p : Net.parser A) : Prop :=
  forall l a rest, p l = Some (a, rest) -> exists used, l = used ++ rest /\ forallb ip_char used = true.

Lemma takes_char c : ip_char c = true -> takes_ip_chars (Net.read_given_char c).
Proof.
  intros Hc [|a l] u rest H; cbn in H; [done|].
  destruct (Ascii.eqb_spec a c) as [->|]; [|done]. simplify_eq. exists [c]. cbn. by rewrite Hc.
Qed.

Lemma to_digit_ip radix c d : Net.to_digit radix c = Some d -> radix <= 16 -> ip_char c = true.
Proof.
  unfold ip_char, Net.to_digit. intros H Hr.
  destruct (Net.digit_value c) as [x|]; [|done].
  destruct (Z.ltb_spec x radix); [|done].
  by destruct (Z.ltb_spec x 16); [|lia].
Qed.

Lemma takes_digits radix mx m : radix <= 16 -> forall l acc count n k rest,
  Net.read_digits radix mx m acc count l = Some (n, k, rest) ->
  exists used, l = used ++ rest /\ forallb ip_char used = true.
Proof.
  intros Hr l. induction l as [|c l IH]; intros acc count n k rest H; cbn [Net.read_digits] in H.
  - simplify_eq. by exists [].
  - destruct (Net.to_digit radix c) as [d|] eqn:Hd; [|simplify_eq; by exists []].
    destruct (mx <? _); [done|].
    assert (exists acc' count', Net.read_digits radix mx m acc' count' l = Some (n, k, rest)) as (a' & c' & H').
    { destruct m as [m|]; [destruct (m <? S count)%nat; [done|]|]; eauto. }
    apply IH in H' as (used & -> & Hu). exists (c :: used). split; [done|]. cbn.
    by rewrite (to_digit_ip _ _ _ Hd Hr).
Qed.

Lemma takes_number radix mx m z : radix <= 16 -> takes_ip_chars (Net.read_number radix mx m z).
Proof.
  intros Hr l a rest H. unfold Net.read_number in H.
  destruct (Net.read_digits radix mx m 0 0 l) as [[[n k] rest']|] eqn:Hd; [|done].
  apply takes_digits in Hd; [|done]. by split_matches_in H.
Qed.

(** Two parsers in a row. *)
Lemma takes_app (l used l' used' rest : list ascii) :
  l = used ++ l' -> forallb ip_char used = true -> l' = used' ++ rest -> forallb ip_char used' = true ->
  exists u, l = u ++ rest /\ forallb ip_char u = true.
Proof.
  intros -> Hu -> Hu'. exists (used ++ used'). by rewrite <- app_assoc, forallb_app, Hu, Hu'.
Qed.

Lemma takes_separator {A} sep i (p : Net.parser A) :
  ip_char sep = true -> takes_ip_chars p -> takes_ip_chars (Net.read_separator sep i p).
Proof.
  intros Hs Hp l a rest H. destruct i as [|i]; [by apply Hp in H|]. cbn in H.
  destruct (Net.read_given_char sep l) as [[u l']|] eqn:Hc; [|done].
  apply (takes_char sep Hs) in Hc as (u1 & H1 & H1'). apply Hp in H as (u2 & H2 & H2').
  by eapply takes_app.
Qed.

Lemma takes_ipv4_groups n : forall i, takes_ip_chars (Net.read_ipv4_groups n i).
Proof.
  induction n as [|n IH]; intros i l a rest H; cbn in H; [simplify_eq; by exists []|].
  destruct (Net.read_separator "." i _ l) as [[g l']|] eqn:Hg; [|done].
  destruct (Net.read_ipv4_groups n (S i) l') as [[gs r]|] eqn:Hr; [|done]. simplify_eq.
  apply takes_separator in Hg as (u1 & H1 & H1'); [|done | by apply takes_number].
  apply IH in Hr as (u2 & H2 & H2'). by eapply takes_app.
Qed.

Lemma takes_groups n : forall i l gs v4 rest,
  Net.read_groups n i l = (gs, v4, rest) -> exists used, l = used ++ rest /\ forallb ip_char used = true.
Proof.
  assert (forall l : Net.input, exists used, l = used ++ l /\ forallb ip_char used = true) as Hnil
    by (intros l; by exists []).
  induction n as [|n IH]; intros i l gs v4 rest H; cbn [Net.read_groups] in H; [simplify_eq; apply Hnil|].
  destruct (match n with O => None | S _ => Net.read_separator ":" i Net.read_ipv4_addr l end)
    as [[a r]|] eqn:He.
  - simplify_eq. destruct n; [done|].
    apply takes_separator in He; [done | done | apply takes_ipv4_groups].
  - clear He. destruct (Net.read_separator ":" i (Net.read_number 16 65535 (Some 4%nat) true) l)
      as [[g l']|] eqn:Hg; [|simplify_eq; apply Hnil].
    destruct (Net.read_groups n (S i) l') as [[gs' v4'] r] eqn:Hr. simplify_eq.
    apply takes_separator in Hg as (u1 & H1 & H1'); [|done | by apply takes_number].
    apply IH in Hr as (u2 & H2 & H2'). by eapply takes_app.
Qed.

Lemma takes_ipv6 : takes_ip_chars Net.read_ipv6_addr.
Proof.
  intros l a rest H. unfold Net.read_ipv6_addr in H.
  destruct (Net.read_groups 8 0 l) as [[hd v4] l1] eqn:H1.
  destruct (length hd =? 8)%nat; [simplify_eq; by eapply takes_groups|]. destruct v4; [done|].
  destruct (Net.read_given_char ":" l1) as [[x l2]|] eqn:H2; [|done].
  destruct (Net.read_given_char ":" l2) as [[y l3]|] eqn:H3; [|done].
  destruct (Net.read_groups (8 - (length hd + 1)) 0 l3) as [[tl z] l4] eqn:H4.
  injection H as _ ->.
  apply takes_groups in H1 as (u1 & E1 & F1). apply takes_groups in H4 as (u4 & E4 & F4).
  apply takes_char in H2 as (u2 & E2 & F2); [|done]. apply takes_char in H3 as (u3 & E3 & F3); [|done].
  destruct (takes_app _ _ _ _ _ E1 F1 E2 F2) as (u & E & F).
  destruct (takes_app _ _ _ _ _ E F E3 F3) as (u' & E' & F'). by eapply takes_app.
Qed.

(** An address is written with the characters of an address. *)
Lemma parse_ip_chars s a : Net.parse_ip s = Some a -> forallb ip_char (Str.chars s) = true.
Proof.
  unfold Net.parse_ip, Net.parse_with, Net.read_ip_addr, Net.or_else. intros H.
  assert (exists r, (Net.read_ipv4_addr (Str.chars s) = Some r \/ Net.read_ipv6_addr (Str.chars s) = Some r)
            /\ r = (a, [])) as ([? ?] & [Hr|Hr] & Heq).
  { destruct (Net.read_ipv4_addr (Str.chars s)) as [[? [|? ?]]|]; simplify_eq; eauto.
    destruct (Net.read_ipv6_addr (Str.chars s)) as [[? [|? ?]]|]; simplify_eq; eauto. }
  all: simplify_eq; first [apply takes_ipv4_groups in Hr | apply takes_ipv6 in Hr];
    destruct Hr as (u & Hu & F); rewrite app_nil_r in Hu; by subst.
Qed.

(** Examples of the standard library's documentation. *)
Example parse_ip_v4 : Net.parse_ip "203.0.113.7" = Some [203; 0; 113; 7].
Proof. reflexivity. Qed.
Example parse_ip_leading_zero : Net.parse_ip "203.0.113.07" = None.
Proof. reflexivity. Qed.
Example parse_ip_v6 : Net.parse_ip "2001:db8::1" = Some [8193; 3512; 0; 0; 0; 0; 0; 1].
Proof. reflexivity. Qed.
Example parse_ip_mapped : Net.parse_ip "::ffff:192.0.2.1" = Some [0; 0; 0; 0; 0; 65535; 49152; 513].
Proof. reflexivity. Qed.
Example parse_socket : Net.parse_socket_addr "1.1.1.1:443" = Some ([1; 1; 1; 1], 443).
Proof. reflexivity. Qed.
