(* ===== verification/Host.v ===== *)
(** * Host: files, environment variables and paths

    The operating system as [Config] and [Vault] use it: a map from paths to
    file contents, a map of environment variables, and an oracle that decides
    which file operations are refused.  A refused write may leave anything in
    the file it was writing.  Paths use [/] and have no [.] components. *)

From S2P Require Import Prelude RustStd Effects.

Record World := mkWorld {
  ops : nat; (* file operations performed, the index into the oracle *)
  files : gmap string string;
  vars : gmap string string;
}.

(** A refusal: the error text, and what a refused write leaves behind. *)
Record Host := { refused : nat -> option (string * option string) }.

Module Path.

(** [Path::parent]. *)
Definition parent (p : string) : option string :=
  let t := Str.trim_end_matches "/" p in
  if Str.is_empty t then None
  else match Str.rsplit_once "/" t with
       | None => Some ""
       | Some (d, _) =>
           let d := Str.trim_end_matches "/" d in
           Some (if Str.is_empty d then "/" else d)
       end.

(** [Path::join]. *)
Definition join (p q : string) : string :=
  if Str.starts_with "/" q then q
  else if Str.is_empty p then q
  else if Str.ends_with_char "/" p then p +:+ q else p +:+ "/" +:+ q.

End Path.

Section Host.
Context (host : Host).

(** [Box<dyn Error>] is its text. *)
Abbreviation IO := (eff World string).

(** [env::var(name).ok()]. *)
Definition env_var (name : string) : IO (option string) := gets (fun w => vars w !! name).

(** [path.exists()]. *)
Definition path_exists (path : string) : IO bool := gets (fun w => bool_decide (is_Some (files w !! path))).

Definition next_op (w : World) : World := mkWorld (S (ops w)) (files w) (vars w).
Definition set_file (path data : string) (w : World) : World :=
  mkWorld (ops w) (<[path := data]> (files w)) (vars w).

(** [fs::read_to_string]. *)
Definition read_to_string (path : string) : IO string := fun w =>
  match refused host (ops w) with
  | Some (e, _) => (Err e, next_op w)
  | None =>
      match files w !! path with
      | None => (Err "No such file or directory (os error 2)", next_op w)
      | Some data =>
          if Utf8.valid (Str.chars data) then (Ok data, next_op w)
          else (Err "stream did not contain valid UTF-8", next_op w)
      end
  end.

(** [fs::write]. *)
Definition write (path data : string) : IO unit := fun w =>
  match refused host (ops w) with
  | Some (e, left_) =>
      (Err e, next_op (match left_ with Some d => set_file path d w | None => w end))
  | None => (Ok tt, next_op (set_file path data w))
  end.

(** [fs::create_dir_all], which accepts the empty path. *)
Definition create_dir_all (path : string) : IO unit := fun w =>
  if Str.is_empty path then (Ok tt, w) else
  match refused host (ops w) with
  | Some (e, _) => (Err e, next_op w)
  | None => (Ok tt, next_op w)
  end.

(** A pure fallible step of an [IO] function: [r?]. *)
Definition lift {A} (r : result string A) : IO A :=
  match r with Ok a => mret a | Err e => throw e end.

(** [r.ok()] of an [IO] operation. *)
Definition attempt_ok {A} (m : IO A) : IO (option A) := fun w =>
  let (r, w) := m w in (Ok (ok r), w).

(** ** Rules *)

Lemma wp_read path (Q : result string string -> World -> Prop) w :
  (forall e, Q (Err e) (next_op w)) ->
  (forall data, files w !! path = Some data -> Q (Ok data) (next_op w)) ->
  wp (read_to_string path) Q w.
Proof.
  intros He Hok. unfold wp, outcome, final, read_to_string.
  destruct (refused host (ops w)) as [[e l]|]; [apply He|].
  destruct (files w !! path) eqn:Hp; [|apply He]. destruct (Utf8.valid _); [by apply Hok | apply He].
Qed.

Lemma wp_write path data (Q : result string unit -> World -> Prop) w :
  (forall e w', vars w' = vars w -> (forall p, p <> path -> files w' !! p = files w !! p) -> Q (Err e) w') ->
  Q (Ok tt) (next_op (set_file path data w)) ->
  wp (write path data) Q w.
Proof.
  intros He Hok. unfold wp, outcome, final, write.
  destruct (refused host (ops w)) as [[e [l|]]|]; [| |exact Hok]; apply He; try done.
  intros p Hp. cbn. by rewrite lookup_insert_ne.
Qed.

Lemma wp_create_dir_all path (Q : result string unit -> World -> Prop) w :
  (forall e, Q (Err e) (next_op w)) -> (forall n, Q (Ok tt) (mkWorld n (files w) (vars w))) ->
  wp (create_dir_all path) Q w.
Proof.
  intros He Hok. unfold wp, outcome, final, create_dir_all.
  destruct (Str.is_empty path); [specialize (Hok (ops w)); by destruct w|].
  destruct (refused host (ops w)) as [[e l]|]; [apply He | apply Hok].
Qed.

End Host.

(** What a world holds, the operation counter aside. *)
Definition same_content (w w' : World) : Prop := files w' = files w /\ vars w' = vars w.

#[export] Instance same_content_equivalence : Equivalence same_content.
Proof.
  split; [by intros w | by intros w w' [? ?] | intros w1 w2 w3 [H1 H2] [H3 H4]].
  split; congruence.
Qed.

Ltac host_prim :=
  idtac;
  lazymatch goal with
  | |- wp (env_var _) _ _ => apply wp_gets
  | |- wp (path_exists _) _ _ => apply wp_gets
  | |- wp (read_to_string _ _) _ _ => apply wp_read; intros
  | |- wp (write _ _ _) _ _ => apply wp_write; intros
  | |- wp (create_dir_all _ _) _ _ => apply wp_create_dir_all; intros
  | |- wp (lift _) _ _ => unfold lift
  end.
Ltac host_steps := repeat wp_step host_prim; cbn beta iota.
