(* ===== verification/Config.v ===== *)
(** * Config: the configuration file and its overrides ([src/config/mod.rs])

    Defaults, the environment overrides, validation, and the load, save and
    first-write of the file.  TOML is a parameter ([TomlCodec]). *)

From S2P Require Import Prelude RustStd Effects Host.

#[local] Open Scope Z_scope.

Definition CONFIG_FILE : string := "config.toml".
Definition ENV_PREFIX : string := "TELEMY_".

(** ** Data *)

Record ObsConfig := {
  host : string;
  port : Z; (* u16 *)
  password_key : option string;
  auto_detect_process : bool;
  process_name : string;
}.

Record ServerConfig := {
  server_port : Z; (* u16 *)
  token : option string;
}.

Record VaultConfig := { vault_path : option string }.

Record GrafanaConfig := {
  grafana_enabled : bool;
  endpoint : option string;
  auth_header : string;
  auth_value_key : option string;
  push_interval_ms : Z; (* u64 *)
}.

Record AegisConfig := {
  aegis_enabled : bool;
  aegis_base_url : option string;
  access_jwt_key : option string;
}.

Record NetworkConfig := { latency_target : string }.

Record StartupConfig := {
  enable_autostart : bool;
  app_name : string;
}.

Record TrayConfig := { tray_enable : bool }.

Record ThemeConfig := {
  font_family : string;
  bg : string;
  panel : string;
  muted : string;
  good : string;
  warn : string;
  bad : string;
  line : string;
}.

Record Config := mkConfig {
  obs : ObsConfig;
  server : ServerConfig;
  vault : VaultConfig;
  grafana : GrafanaConfig;
  aegis : AegisConfig;
  network : NetworkConfig;
  startup : StartupConfig;
  tray : TrayConfig;
  theme : ThemeConfig;
  output_names : gmap string string;
}.

Definition ObsConfig_default : ObsConfig := {|
  host := "127.0.0.1"; port := 4455; password_key := None; auto_detect_process := true;
  process_name := "obs64.exe" |}.
Definition ServerConfig_default : ServerConfig := {| server_port := 7070; token := None |}.
Definition GrafanaConfig_default : GrafanaConfig := {|
  grafana_enabled := false; endpoint := None; auth_header := "Authorization"; auth_value_key := None;
  push_interval_ms := 5000 |}.
Definition AegisConfig_default : AegisConfig := {|
  aegis_enabled := false; aegis_base_url := None; access_jwt_key := None |}.
Definition NetworkConfig_default : NetworkConfig := {| latency_target := "1.1.1.1:443" |}.
Definition StartupConfig_default : StartupConfig := {| enable_autostart := false; app_name := "Telemy" |}.
Definition TrayConfig_default : TrayConfig := {| tray_enable := true |}.
Definition ThemeConfig_default : ThemeConfig := {|
  font_family := "Arial, sans-serif"; bg := "#0b0e12"; panel := "#111723"; muted := "#8da3c1";
  good := "#33d17a"; warn := "#f6d32d"; bad := "#e01b24"; line := "#1f2a3a" |}.

Definition Config_default : Config := {|
  obs := ObsConfig_default; server := ServerConfig_default; vault := {| vault_path := None |};
  grafana := GrafanaConfig_default; aegis := AegisConfig_default; network := NetworkConfig_default;
  startup := StartupConfig_default; tray := TrayConfig_default; theme := ThemeConfig_default;
  output_names := ∅ |}.

(** ** Environment overrides *)

(** [var] is [env::var(..).ok()], at a name with its prefix. *)
Section Overrides.
Context (var : string -> option string).

Definition env (name : string) : option string := var (ENV_PREFIX +:+ name).

(** [if let Ok(val) = env::var(..) { field = val; }]. *)
Definition override_string (name : string) (current : string) : string := default current (env name).

(** [field = Some(val)]. *)
Definition override_option (name : string) (current : option string) : option string :=
  match env name with Some val => Some val | None => current end.

(** [if let Ok(n) = val.parse() { field = n; }]. *)
Definition override_parsed (parse : string -> option Z) (name : string) (current : Z) : Z :=
  match env name with Some val => default current (parse val) | None => current end.

(** [field = val.parse().unwrap_or(fallback)]. *)
Definition override_bool (fallback : bool) (name : string) (current : bool) : bool :=
  match env name with Some val => default fallback (parse_bool val) | None => current end.

Definition apply_env_overrides (self : Config) : Config := {|
  obs := {|
    host := override_string "OBS_HOST" (host (obs self));
    port := override_parsed Int.parse_u16 "OBS_PORT" (port (obs self));
    password_key := override_option "OBS_PASSWORD_KEY" (password_key (obs self));
    auto_detect_process := override_bool true "OBS_AUTO_DETECT" (auto_detect_process (obs self));
    process_name := process_name (obs self) |};
  server := {|
    server_port := override_parsed Int.parse_u16 "SERVER_PORT" (server_port (server self));
    token := override_option "SERVER_TOKEN" (token (server self)) |};
  vault := {| vault_path := override_option "VAULT_PATH" (vault_path (vault self)) |};
  grafana := {|
    grafana_enabled := override_bool false "GRAFANA_ENABLED" (grafana_enabled (grafana self));
    endpoint := override_option "GRAFANA_ENDPOINT" (endpoint (grafana self));
    auth_header := auth_header (grafana self);
    auth_value_key := override_option "GRAFANA_AUTH_VALUE_KEY" (auth_value_key (grafana self));
    push_interval_ms :=
      override_parsed Int.parse_u64 "GRAFANA_PUSH_INTERVAL_MS" (push_interval_ms (grafana self)) |};
  aegis := {|
    aegis_enabled := override_bool false "AEGIS_ENABLED" (aegis_enabled (aegis self));
    aegis_base_url := override_option "AEGIS_BASE_URL" (aegis_base_url (aegis self));
    access_jwt_key := override_option "AEGIS_ACCESS_JWT_KEY" (access_jwt_key (aegis self)) |};
  network := {| latency_target := override_string "LATENCY_TARGET" (latency_target (network self)) |};
  startup := {|
    enable_autostart := override_bool false "AUTOSTART" (enable_autostart (startup self));
    app_name := app_name (startup self) |};
  tray := {| tray_enable := override_bool true "TRAY_ENABLE" (tray_enable (tray self)) |};
  theme := theme self;
  output_names := output_names self |}.
End Overrides.

(** ** Validation *)

(** [o.as_deref().unwrap_or("")]. *)
Definition text (o : option string) : string := default "" o.

Definition validate (self : Config) : result string unit :=
  if port (obs self) =? 0 then Err "obs.port must be non-zero"
  else if server_port (server self) =? 0 then Err "server.port must be non-zero"
  else
    _ ← (if grafana_enabled (grafana self) then
           if Str.is_empty (text (endpoint (grafana self))) then
             Err "grafana.endpoint is required when grafana.enabled = true"
           else if bool_decide (auth_value_key (grafana self) = None) then
             Err "grafana.auth_value_key is required when grafana.enabled = true"
           else if push_interval_ms (grafana self) <? 500 then
             Err "grafana.push_interval_ms must be >= 500"
           else Ok tt
         else Ok tt);
    _ ← (if aegis_enabled (aegis self) then
           if Str.is_empty (Str.trim (text (aegis_base_url (aegis self)))) then
             Err "aegis.base_url is required when aegis.enabled = true"
           else if Str.is_empty (Str.trim (text (access_jwt_key (aegis self)))) then
             Err "aegis.access_jwt_key is required when aegis.enabled = true"
           else Ok tt
         else Ok tt);
    if Str.is_empty (Str.trim (latency_target (network self))) then Err "network.latency_target must be set"
    else Ok tt.

(** ** The file *)

(** [toml::to_string_pretty] and [toml::from_str]. *)
Class TomlCodec := {
  toml_to_string : Config -> result string string;
  toml_from_str : string -> result string Config;
}.

Section File.
Context {toml : TomlCodec} (h : Host).
Abbreviation IO := (eff World string).

Definition managed_config_path : IO string :=
  configured ← env_var (ENV_PREFIX +:+ "CONFIG_PATH");
  match configured with
  | Some path => mret path
  | None =>
      appdata ← env_var "APPDATA";
      mret (Path.join (Path.join (default "." appdata) "Telemy") CONFIG_FILE)
  end.

Definition active_config_path : IO string :=
  local_exists ← path_exists CONFIG_FILE;
  if (local_exists : bool) then mret CONFIG_FILE else managed_config_path.

(** [self.apply_env_overrides()?], which never fails. *)
Definition with_env_overrides (config : Config) : IO Config :=
  gets (fun w => apply_env_overrides (fun name => vars w !! name) config).

Definition load : IO Config :=
  config_path ← active_config_path;
  raw ← attempt_ok (read_to_string h config_path);
  let config :=
    match raw with
    | Some raw => match toml_from_str raw with Ok file_config => file_config | Err _ => Config_default end
    | None => Config_default
    end in
  config ← with_env_overrides config;
  lift (validate config) ;;
  mret config.

(** [if let Some(parent) = path.parent() { if !parent.is_empty() { create_dir_all } }]. *)
Definition create_parent (path : string) : IO unit :=
  match Path.parent path with
  | Some parent => if negb (Str.is_empty parent) then create_dir_all h parent else mret tt
  | None => mret tt
  end.

Definition write_default (path : string) : IO unit :=
  already ← path_exists path;
  if (already : bool) then throw "config.toml already exists"
  else
    create_parent path ;;
    data ← lift (toml_to_string Config_default);
    write h path data.

Definition save (self : Config) : IO unit :=
  path ← active_config_path;
  lift (validate self) ;;
  data ← lift (toml_to_string self);
  create_parent path ;;
  write h path data.

Definition default_path : IO string := managed_config_path.
End File.
