(* ===== verification/ConfigSpec.v ===== *)
(** * ConfigSpec: what loading and saving the configuration promise *)

From S2P Require Import Prelude RustStd Effects Host Config.

#[local] Open Scope Z_scope.

(** Ports and intervals are in the range of their Rust types. *)
Definition Config_wf (c : Config) : Prop :=
  0 <= port (obs c) <= Int.u16_max /\ 0 <= server_port (server c) <= Int.u16_max /\
  0 <= push_interval_ms (grafana c) <= Int.u64_max.

(** ** Helper lemmas *)

Section OverrideLemmas.
Context (var : string -> option string).

Lemma override_string_idemp n x : override_string var n (override_string var n x) = override_string var n x.
Proof. unfold override_string. by destruct (env var n). Qed.

Lemma override_option_idemp n x : override_option var n (override_option var n x) = override_option var n x.
Proof. unfold override_option. by destruct (env var n). Qed.

Lemma override_parsed_idemp p n x : override_parsed var p n (override_parsed var p n x) = override_parsed var p n x.
Proof. unfold override_parsed. destruct (env var n) as [s|]; [|done]. by destruct (p s). Qed.

Lemma override_bool_idemp b n x : override_bool var b n (override_bool var b n x) = override_bool var b n x.
Proof. unfold override_bool. by destruct (env var n). Qed.

Lemma override_parsed_range mx n x :
  0 <= mx -> 0 <= x <= mx -> 0 <= override_parsed var (Int.parse_uint mx) n x <= mx.
Proof.
  intros Hmx Hx. unfold override_parsed. destruct (env var n) as [s|]; [|done].
  destruct (Int.parse_uint mx s) eqn:Hs; [|done]. cbn. by apply Int.parse_uint_range in Hs.
Qed.
End OverrideLemmas.

#[export] Hint Rewrite override_string_idemp override_option_idemp override_parsed_idemp override_bool_idemp
  : overrides.

(** ** Properties *)

(** Environment overrides.  A set variable wins over the file whatever the
    file says, an unset one leaves it alone, applying the overrides twice is
    applying them once, and ports and intervals stay in range because a value
    that does not parse is ignored. *)
Theorem env_overrides_spec (var : string -> option string) (c : Config) :
  apply_env_overrides var (apply_env_overrides var c) = apply_env_overrides var c /\
  (Config_wf c -> Config_wf (apply_env_overrides var c)) /\
  ((forall n, var (ENV_PREFIX +:+ n) = None) -> apply_env_overrides var c = c) /\
  (forall v, var (ENV_PREFIX +:+ "SERVER_TOKEN") = Some v ->
     token (server (apply_env_overrides var c)) = Some v) /\
  (forall v p, var (ENV_PREFIX +:+ "OBS_PORT") = Some v -> Int.parse_u16 v = Some p ->
     port (obs (apply_env_overrides var c)) = p).
Proof.
  split_and!.
  - unfold apply_env_overrides. cbn. autorewrite with overrides. done.
  - intros (H1 & H2 & H3). split_and!; by apply override_parsed_range.
  - intros H. unfold apply_env_overrides, override_string, override_option, override_parsed, override_bool, env.
    rewrite !H. by destruct c as [[] [] [] [] [] [] [] [] ? ?].
  - intros v Hv. cbn. unfold override_option, env. by rewrite Hv.
  - intros v p Hv Hp. cbn. unfold override_parsed, env. by rewrite Hv, Hp.
Qed.

(** The conditions a configuration must meet. *)
Definition acceptable (c : Config) : Prop :=
  port (obs c) <> 0 /\ server_port (server c) <> 0 /\
  (grafana_enabled (grafana c) = true ->
     text (endpoint (grafana c)) <> "" /\ is_Some (auth_value_key (grafana c)) /\
     500 <= push_interval_ms (grafana c)) /\
  (aegis_enabled (aegis c) = true ->
     Str.trim (text (aegis_base_url (aegis c))) <> "" /\ Str.trim (text (access_jwt_key (aegis c))) <> "") /\
  Str.trim (latency_target (network c)) <> "".

Lemma is_empty_true s : Str.is_empty s = true <-> s = "".
Proof. apply String.eqb_eq. Qed.
Lemma is_empty_false s : Str.is_empty s = false <-> s <> "".
Proof. apply String.eqb_neq. Qed.

(** A check: an error unless the condition holds. *)
Lemma check_empty e s (r : result string unit) : (if Str.is_empty s then Err e else r) = Ok tt <-> s <> "" /\ r = Ok tt.
Proof. rewrite <- is_empty_false. destruct (Str.is_empty s); naive_solver. Qed.

Lemma check_none {A} `{EqDecision A} e (o : option A) (r : result string unit) :
  (if bool_decide (o = None) then Err e else r) = Ok tt <-> is_Some o /\ r = Ok tt.
Proof.
  case_bool_decide as Ho; [subst; split; [done | by intros [[? ?] _]]|].
  rewrite <- not_eq_None_Some. tauto.
Qed.

Lemma check_ltb e a b : (if a <? b then Err e else Ok tt : result string unit) = Ok tt <-> b <= a.
Proof. destruct (Z.ltb_spec a b); split; try done; lia. Qed.

Lemma check_eqb e a b (r : result string unit) : (if a =? b then Err e else r) = Ok tt <-> a <> b /\ r = Ok tt.
Proof. destruct (Z.eqb_spec a b); naive_solver. Qed.

Lemma check_seq (r1 r2 : result string unit) :
  (_ ← r1; r2) = Ok tt <-> r1 = Ok tt /\ r2 = Ok tt.
Proof. destruct r1 as [[]|]; naive_solver. Qed.

Lemma check_enabled (b : bool) (r : result string unit) :
  (if b then r else Ok tt) = Ok tt <-> (b = true -> r = Ok tt).
Proof. destruct b; naive_solver. Qed.

Lemma validate_acceptable (c : Config) : validate c = Ok tt <-> acceptable c.
Proof.
  unfold validate, acceptable.
  rewrite !check_eqb, !check_seq, check_empty, !check_enabled, !check_empty, check_none, check_ltb.
  assert (@Ok string unit tt = Ok tt) by done. tauto.
Qed.

(** Validation is complete and precise.  A configuration is accepted exactly
    when its ports are non-zero, an enabled exporter has an endpoint, a vault
    key and an interval of at least half a second, an enabled control plane has
    a URL and a token key that are not blank, and the latency target is not
    blank. *)
Theorem validate_spec (c : Config) : validate c = Ok tt <-> acceptable c.
Proof. apply validate_acceptable. Qed.

Section FileProperties.
Context {toml : TomlCodec} (h : Host).

(** The configuration a file stands for: an unreadable or malformed one is the
    default. *)
Definition file_config (raw : option string) : Config :=
  match raw with
  | Some raw => match toml_from_str raw with Ok c => c | Err _ => Config_default end
  | None => Config_default
  end.

(** [active_config_path] as a function of the world. *)
Definition managed_path (w : World) : string :=
  match vars w !! (ENV_PREFIX +:+ "CONFIG_PATH") with
  | Some p => p
  | None => Path.join (Path.join (default "." (vars w !! "APPDATA")) "Telemy") CONFIG_FILE
  end.
Definition active_path (w : World) : string :=
  if bool_decide (is_Some (files w !! CONFIG_FILE)) then CONFIG_FILE else managed_path w.

Lemma active_config_path_run w : active_config_path w = (Ok (active_path w), w).
Proof.
  unfold active_config_path, active_path, managed_path, managed_config_path, mbind, eff_bind, path_exists,
    env_var, gets.
  destruct (bool_decide _); [done|]. by destruct (vars w !! _).
Qed.

(** The environment of a world, as the overrides read it. *)
Definition overridden (w : World) (c : Config) : Config := apply_env_overrides (fun name => vars w !! name) c.

Lemma load_run w :
  let raw := ok (outcome (read_to_string h (active_path w)) w) in
  let w' := final (read_to_string h (active_path w)) w in
  load h w = (validate (overridden w' (file_config raw)) ≫= fun _ => Ok (overridden w' (file_config raw)), w').
Proof.
  cbv zeta. unfold load, mbind, eff_bind. rewrite active_config_path_run. unfold attempt_ok, outcome, final.
  destruct (read_to_string h (active_path w) w) as [raw w']. cbn [fst snd].
  unfold with_env_overrides, gets, lift, result_bind. change (match ok raw with
    | Some raw0 => match toml_from_str raw0 with Ok file_config0 => file_config0 | Err _ => Config_default end
    | None => Config_default end) with (file_config (ok raw)).
  change (apply_env_overrides (fun name => vars w' !! name) (file_config (ok raw)))
    with (overridden w' (file_config (ok raw))).
  by destruct (validate (overridden w' (file_config (ok raw)))) as [[]|].
Qed.

Lemma read_run path w :
  let w' := final (read_to_string h path) w in
  same_content w w' /\
  (forall data, outcome (read_to_string h path) w = Ok data -> files w !! path = Some data).
Proof.
  change (wp (read_to_string h path) (fun x w' => same_content w w' /\
    forall data, x = Ok data -> files w !! path = Some data) w).
  apply wp_read; [by intros e | intros data Hd; split; [done|congruence]].
Qed.

(** What loading gives.  Loading never changes a file.  It returns a
    configuration exactly when the overridden contents of the active file are
    acceptable, and then exactly those; a file that is missing, unreadable or
    malformed stands for the defaults. *)
Theorem load_spec w :
  let c := overridden w (file_config (ok (outcome (read_to_string h (active_path w)) w))) in
  same_content w (final (load h) w) /\
  (outcome (load h) w = Ok c /\ acceptable c \/
   exists e, outcome (load h) w = Err e /\ ~ acceptable c) /\
  (forall raw e, files w !! active_path w = Some raw -> toml_from_str raw = Err e ->
     c = overridden w Config_default).
Proof.
  intros c. destruct (read_run (active_path w) w) as [[Hf Hv] Hd].
  assert (load h w = (validate c ≫= fun _ => Ok c, final (read_to_string h (active_path w)) w)) as Hl.
  { rewrite load_run. unfold overridden. rewrite Hv. done. }
  unfold outcome at 1 2, final at 1. rewrite Hl. cbn [fst snd]. split_and!; [done | |].
  - pose proof (validate_acceptable c) as Ha. destruct (validate c) as [[]|e]; [left; by rewrite <- Ha|].
    right. exists e. split; [done|]. intros Hc. by apply Ha in Hc.
  - intros raw e Hraw He. unfold c.
    destruct (outcome (read_to_string h (active_path w)) w) as [data|] eqn:Ho; [|done].
    specialize (Hd data eq_refl). simplify_eq. cbn. by rewrite He.
Qed.

Lemma wp_create_parent path (Q : result string unit -> World -> Prop) w :
  (forall e, Q (Err e) (next_op w)) -> (forall n, Q (Ok tt) (mkWorld n (files w) (vars w))) ->
  wp (create_parent h path) Q w.
Proof.
  intros He Hok. unfold create_parent.
  assert (Q (Ok tt) w) by (specialize (Hok (ops w)); by destruct w).
  destruct (Path.parent path) as [d|]; [|by apply wp_ret].
  destruct (negb (Str.is_empty d)); [by apply wp_create_dir_all | by apply wp_ret].
Qed.

(** Saving writes the active file and nothing else. *)
Lemma save_writes c w :
  wp (save h c) (fun x w' => vars w' = vars w /\
    (forall p, p <> active_path w -> files w' !! p = files w !! p) /\
    (x = Ok tt -> validate c = Ok tt /\ exists data, toml_to_string c = Ok data /\
       files w' = <[active_path w := data]> (files w))) w.
Proof.
  unfold save. apply wp_bind, (wp_run _ _ _ _ _ (active_config_path_run w)), wp_bind.
  destruct (validate c) as [[]|e]; [apply wp_ret | by apply wp_throw].
  apply wp_bind. destruct (toml_to_string c) as [data|e]; [apply wp_ret | by apply wp_throw].
  apply wp_bind, wp_create_parent; [by intros e | intros n].
  apply wp_write; [by intros e w' ? ? | cbn].
  split_and!; [done | intros p Hp; by rewrite lookup_insert_ne | intros _; eauto].
Qed.

(** Writing the active file does not move it. *)
Lemma active_path_insert w w' data :
  vars w' = vars w -> files w' = <[active_path w := data]> (files w) -> active_path w' = active_path w.
Proof.
  intros Hv Hf. assert (managed_path w' = managed_path w) as Hm by (unfold managed_path; by rewrite Hv).
  unfold active_path at 1. rewrite Hm, Hf.
  destruct (decide (active_path w = CONFIG_FILE)) as [->|Hne].
  - rewrite lookup_insert_eq, bool_decide_eq_true_2; eauto.
  - by rewrite lookup_insert_ne.
Qed.

(** Save, then look at the active file. *)
Lemma save_active c w :
  wp (save h c) (fun x w' => vars w' = vars w /\ (x = Ok tt -> acceptable c /\ exists data,
    toml_to_string c = Ok data /\ files w' !! active_path w' = Some data /\ active_path w' = active_path w)) w.
Proof.
  refine (wp_mono _ _ _ _ _ (save_writes c w)). intros x w' (Hv & _ & Hok). split; [done|].
  intros Hx. destruct (Hok Hx) as (Hc%validate_acceptable & data & Hd & Hf). split; [done|].
  exists data. pose proof (active_path_insert w w' data Hv Hf) as Hp.
  split_and!; [done | by rewrite Hp, Hf, lookup_insert_eq | done].
Qed.

(** C21: a saved configuration is the one that loads.  If saving succeeds, it was
    acceptable, only the active file changed, and a later load that can read the
    file returns it with the environment overrides, which still win, provided
    that the result is acceptable too. *)
Theorem save_load_roundtrip c w :
  (forall c data, toml_to_string c = Ok data -> toml_from_str data = Ok c /\ Utf8.valid (Str.chars data) = true) ->
  outcome (save h c) w = Ok tt ->
  let w' := final (save h c) w in
  acceptable c /\ active_path w' = active_path w /\
  (forall p, p <> active_path w -> files w' !! p = files w !! p) /\
  (refused h (ops w') = None -> acceptable (overridden w c) -> outcome (load h) w' = Ok (overridden w c)).
Proof.
  intros Htoml Hok w'. destruct (save_writes c w) as (Hv & Hf & Hdata).
  destruct (Hdata Hok) as (Hc%validate_acceptable & data & Hs & Hfiles). fold w' in Hv, Hf, Hfiles.
  pose proof (active_path_insert w w' data Hv Hfiles) as Hpath.
  split_and!; [done..|]. intros Hr Ha. destruct (Htoml c data Hs) as [Hparse Hutf].
  assert (outcome (read_to_string h (active_path w')) w' = Ok data) as Hread.
  { unfold outcome, read_to_string. rewrite Hr, Hpath, Hfiles, lookup_insert_eq, Hutf. done. }
  unfold outcome. rewrite load_run. cbn [fst]. rewrite Hread. cbn [ok file_config].
  destruct (read_run (active_path w') w') as [[_ Hv'] _]. unfold overridden in *. rewrite Hv', Hv, Hparse.
  apply validate_acceptable in Ha. by rewrite Ha.
Qed.
End FileProperties.

(** ** Witness *)

#[local] Instance ObsConfig_eq_dec : EqDecision ObsConfig.
Proof. solve_decision. Defined.
#[local] Instance ServerConfig_eq_dec : EqDecision ServerConfig.
Proof. solve_decision. Defined.
#[local] Instance VaultConfig_eq_dec : EqDecision VaultConfig.
Proof. solve_decision. Defined.
#[local] Instance GrafanaConfig_eq_dec : EqDecision GrafanaConfig.
Proof. solve_decision. Defined.
#[local] Instance AegisConfig_eq_dec : EqDecision AegisConfig.
Proof. solve_decision. Defined.
#[local] Instance NetworkConfig_eq_dec : EqDecision NetworkConfig.
Proof. solve_decision. Defined.
#[local] Instance StartupConfig_eq_dec : EqDecision StartupConfig.
Proof. solve_decision. Defined.
#[local] Instance TrayConfig_eq_dec : EqDecision TrayConfig.
Proof. solve_decision. Defined.
#[local] Instance ThemeConfig_eq_dec : EqDecision ThemeConfig.
Proof. solve_decision. Defined.
#[local] Instance Config_eq_dec : EqDecision Config.
Proof. solve_decision. Defined.

(** A codec that knows the default configuration. *)
#[local] Instance demo_toml : TomlCodec := {|
  toml_to_string := fun c => if decide (c = Config_default) then Ok "[obs]" else Err "unsupported";
  toml_from_str := fun s => if String.eqb s "[obs]" then Ok Config_default else Err "expected table" |}.

Definition demo_host : Host := {| refused := fun _ => None |}.
Definition demo_world : World := mkWorld 0 ∅ {["APPDATA" := "C:/Users/me/AppData"]}.

Lemma save_load_roundtrip_witness :
  outcome (load demo_host) (final (save demo_host Config_default) demo_world) = Ok Config_default.
Proof.
  refine (proj2 (proj2 (proj2 (save_load_roundtrip demo_host Config_default demo_world _ eq_refl))) eq_refl _).
  - intros c data H. cbn in *. destruct (decide (c = Config_default)) as [->|]; [|done].
    injection H as <-. by split.
  - apply validate_acceptable. reflexivity.
Defined.
