(* ===== verification/Model.v ===== *)
(** * Model: the telemetry frame ([src/model/mod.rs])

    The value [MetricsHub::collect] produces twice a second and every consumer
    (dashboard socket, Grafana exporter, IPC status snapshot) reads.  Integers
    are [Z] at the width of the field; floats are the formats of [Float]. *)

From S2P Require Import Prelude RustStd Float.

Record ObsFrame := {
  connected : bool;
  streaming : bool;
  recording : bool;
  studio_mode : bool;
  total_dropped_frames : Z; (* u64 *)
  total_frames : Z; (* u64 *)
  render_missed_frames : Z; (* u32 *)
  render_total_frames : Z; (* u32 *)
  output_skipped_frames : Z; (* u32 *)
  output_total_frames : Z; (* u32 *)
  active_fps : f32;
  available_disk_space_mb : f64;
}.

Record SystemFrame := {
  cpu_percent : f32;
  mem_percent : f32;
  gpu_percent : option f32;
  gpu_temp_c : option f32;
}.

Record NetworkFrame := {
  upload_mbps : f32;
  download_mbps : f32;
  latency_ms : f32;
}.

Record StreamOutput := {
  so_name : string;
  bitrate_kbps : Z; (* u32 *)
  drop_pct : f32;
  fps : f32;
  encoding_lag_ms : f32;
}.

Record TelemetryFrame := {
  timestamp_unix : Z; (* u64 *)
  health : f32;
  obs : ObsFrame;
  system : SystemFrame;
  streams : list StreamOutput;
  network : NetworkFrame;
}.

(** [ObsFrame::default()]. *)
Definition ObsFrame_default : ObsFrame := {|
  connected := false; streaming := false; recording := false; studio_mode := false;
  total_dropped_frames := 0; total_frames := 0;
  render_missed_frames := 0; render_total_frames := 0;
  output_skipped_frames := 0; output_total_frames := 0;
  active_fps := F32.zero; available_disk_space_mb := F64.zero |}.

Definition SystemFrame_default : SystemFrame := {|
  cpu_percent := F32.zero; mem_percent := F32.zero; gpu_percent := None; gpu_temp_c := None |}.

Definition NetworkFrame_default : NetworkFrame := {|
  upload_mbps := F32.zero; download_mbps := F32.zero; latency_ms := F32.zero |}.

(** [TelemetryFrame::default()], the first value of the watch channel. *)
Definition TelemetryFrame_default : TelemetryFrame := {|
  timestamp_unix := 0; health := F32.zero; obs := ObsFrame_default;
  system := SystemFrame_default; streams := []; network := NetworkFrame_default |}.

(** The fields are in the range of their Rust types. *)
Definition StreamOutput_wf (o : StreamOutput) : Prop := (0 <= bitrate_kbps o <= Int.u32_max)%Z.
Definition TelemetryFrame_wf (f : TelemetryFrame) : Prop := Forall StreamOutput_wf (streams f).
