(* ===== verification/Metrics.v ===== *)
(** * Metrics: the telemetry collector ([src/metrics/mod.rs])

    One pass of [MetricsHub::collect] over a [Sources] record, which holds what
    the OBS socket, the operating system, the GPU library and the network answer
    during that pass. *)

From S2P Require Import Prelude RustStd Float Net Model.

#[local] Open Scope Z_scope.

(** ** What the outside answers during one pass *)

Record OutputStatus := {
  os_total_frames : Z; (* u32 *)
  os_skipped_frames : Z; (* u32 *)
  os_duration_ms : Z; (* i128 *)
  os_bytes : Z; (* u64 *)
}.

Record StreamStatus := {
  ss_active : bool;
  ss_total_frames : Z; (* u32 *)
  ss_skipped_frames : Z; (* u32 *)
}.

Record ObsStats := {
  average_frame_render_time : f64;
  st_render_skipped_frames : Z; (* u32 *)
  st_render_total_frames : Z; (* u32 *)
  st_output_skipped_frames : Z; (* u32 *)
  st_output_total_frames : Z; (* u32 *)
  st_active_fps : f64;
  st_available_disk_space : f64;
}.

(** [None] is an error of the call.  Instants are nanoseconds. *)
Record Sources (Client : Type) := {
  unix_time : option Z; (* seconds; None before the epoch *)
  process_check_at : Z; (* the reading of [elapsed] *)
  process_check_now : Z; (* the reading assigned *)
  processes : list string;
  connect : string -> Z -> option string -> option Client;
  outputs_list : Client -> option (list string);
  output_status : Client -> string -> option OutputStatus;
  streaming_status : Client -> option StreamStatus;
  general_stats : Client -> option ObsStats;
  recording_active : Client -> option bool;
  studio_mode_enabled : Client -> option bool;
  cpu_usage : f32;
  total_memory : Z; (* u64 *)
  used_memory : Z; (* u64 *)
  interfaces : list (Z * Z); (* (received(), transmitted()) of each, u64 *)
  network_now : Z;
  gpu : option (option Z * option Z); (* device 0: utilisation and temperature *)
  probe : list Z * Z -> option Z; (* milliseconds of a connection made within 250 ms *)
}.
Arguments unix_time {Client} _.
Arguments process_check_at {Client} _.
Arguments process_check_now {Client} _.
Arguments processes {Client} _.
Arguments connect {Client} _ _ _ _.
Arguments outputs_list {Client} _ _.
Arguments output_status {Client} _ _ _.
Arguments streaming_status {Client} _ _.
Arguments general_stats {Client} _ _.
Arguments recording_active {Client} _ _.
Arguments studio_mode_enabled {Client} _ _.
Arguments cpu_usage {Client} _.
Arguments total_memory {Client} _.
Arguments used_memory {Client} _.
Arguments interfaces {Client} _.
Arguments network_now {Client} _.
Arguments gpu {Client} _.
Arguments probe {Client} _ _.

(** ** The hub *)

(** The library handles ([sys], [networks], [nvml]) are the [Sources]. *)
Record MetricsHub (Client : Type) := mkHub {
  obs_host : string;
  obs_port : Z; (* u16 *)
  obs_password : option string;
  obs_client : option Client;
  last_net_at : option Z;
  last_rx_bytes : Z; (* u64 *)
  last_tx_bytes : Z; (* u64 *)
  latency_target : string;
  obs_auto_detect : bool;
  obs_process_name : string;
  last_process_check : Z;
  obs_process_running : bool;
}.
Arguments mkHub {Client} _ _ _ _ _ _ _ _ _ _ _ _.
Arguments obs_host {Client} _.
Arguments obs_port {Client} _.
Arguments obs_password {Client} _.
Arguments obs_client {Client} _.
Arguments last_net_at {Client} _.
Arguments last_rx_bytes {Client} _.
Arguments last_tx_bytes {Client} _.
Arguments latency_target {Client} _.
Arguments obs_auto_detect {Client} _.
Arguments obs_process_name {Client} _.
Arguments last_process_check {Client} _.
Arguments obs_process_running {Client} _.

Definition second : Z := 1000000000.

Definition compute_health (outputs : list StreamOutput) : f32 :=
  match outputs with
  | [] => F32.zero
  | _ =>
      let sum := fold_left F32.add (map drop_pct outputs) F32.neg_zero in
      let avg_drop := F32.div sum (F32.of_Z (Z.of_nat (length outputs))) in
      F32.clamp (F32.sub F32.one avg_drop) F32.zero F32.one
  end.

(** [Duration::as_secs_f32]. *)
Definition as_secs_f32 (ns : Z) : f32 :=
  F32.add (F32.of_Z (ns / second)) (F32.div (F32.of_Z (ns mod second)) (F32.of_Z second)).

(** The statistics of one output: the [if let Ok(status)] block. *)
Definition stream_output (name : string) (status : option OutputStatus) : StreamOutput :=
  match status with
  | None => {| so_name := name; bitrate_kbps := 0; drop_pct := F32.zero; fps := F32.zero;
               encoding_lag_ms := F32.zero |}
  | Some st =>
      let total_frames := F32.of_Z (os_total_frames st) in
      let skipped_frames := F32.of_Z (os_skipped_frames st) in
      let duration_secs := F32.div (F32.of_Z (os_duration_ms st)) F32.thousand in
      let bytes := F32.of_Z (os_bytes st) in
      {| so_name := name;
         bitrate_kbps :=
           if F32.ltb F32.zero duration_secs
           then F32.as_u32 (F32.round (F32.div (F32.div (F32.mul bytes F32.eight) duration_secs) F32.thousand))
           else 0;
         drop_pct :=
           if F32.ltb F32.zero total_frames then F32.div skipped_frames total_frames else F32.zero;
         fps :=
           if F32.ltb F32.zero total_frames
           then if F32.ltb F32.zero duration_secs then F32.div total_frames duration_secs else F32.zero
           else F32.zero;
         encoding_lag_ms := F32.zero |}
  end.

Definition set_drop_pct (x : f32) (o : StreamOutput) : StreamOutput := {|
  so_name := so_name o; bitrate_kbps := bitrate_kbps o; drop_pct := x; fps := fps o;
  encoding_lag_ms := encoding_lag_ms o |}.
Definition set_encoding_lag_ms (x : f32) (o : StreamOutput) : StreamOutput := {|
  so_name := so_name o; bitrate_kbps := bitrate_kbps o; drop_pct := drop_pct o; fps := fps o;
  encoding_lag_ms := x |}.

(** Assignments of the three [if let] blocks to the OBS frame. *)
Definition with_stream_status (st : StreamStatus) (f : ObsFrame) : ObsFrame := {|
  connected := true; streaming := ss_active st; recording := recording f; studio_mode := studio_mode f;
  total_dropped_frames := ss_skipped_frames st; total_frames := ss_total_frames st;
  render_missed_frames := render_missed_frames f; render_total_frames := render_total_frames f;
  output_skipped_frames := output_skipped_frames f; output_total_frames := output_total_frames f;
  active_fps := active_fps f; available_disk_space_mb := available_disk_space_mb f |}.
Definition with_stats (st : ObsStats) (f : ObsFrame) : ObsFrame := {|
  connected := connected f; streaming := streaming f; recording := recording f; studio_mode := studio_mode f;
  total_dropped_frames := total_dropped_frames f; total_frames := total_frames f;
  render_missed_frames := st_render_skipped_frames st; render_total_frames := st_render_total_frames st;
  output_skipped_frames := st_output_skipped_frames st; output_total_frames := st_output_total_frames st;
  active_fps := F64.to_f32 (st_active_fps st); available_disk_space_mb := st_available_disk_space st |}.
Definition with_recording (b : bool) (f : ObsFrame) : ObsFrame := {|
  connected := connected f; streaming := streaming f; recording := b; studio_mode := studio_mode f;
  total_dropped_frames := total_dropped_frames f; total_frames := total_frames f;
  render_missed_frames := render_missed_frames f; render_total_frames := render_total_frames f;
  output_skipped_frames := output_skipped_frames f; output_total_frames := output_total_frames f;
  active_fps := active_fps f; available_disk_space_mb := available_disk_space_mb f |}.
Definition with_studio_mode (b : bool) (f : ObsFrame) : ObsFrame := {|
  connected := connected f; streaming := streaming f; recording := recording f; studio_mode := b;
  total_dropped_frames := total_dropped_frames f; total_frames := total_frames f;
  render_missed_frames := render_missed_frames f; render_total_frames := render_total_frames f;
  output_skipped_frames := output_skipped_frames f; output_total_frames := output_total_frames f;
  active_fps := active_fps f; available_disk_space_mb := available_disk_space_mb f |}.

Section Hub.
Context {Client : Type}.
Implicit Types (self : MetricsHub Client) (src : Sources Client).

(** [MetricsHub::new] at the instant [now]. *)
Definition new (host : string) (port : Z) (password : option string) (target : string)
    (auto_detect : bool) (process : string) (now : Z) : MetricsHub Client :=
  mkHub host port password None None 0 0 target auto_detect process (now - 5 * second) true.

Definition set_obs_client (c : option Client) self : MetricsHub Client :=
  mkHub (obs_host self) (obs_port self) (obs_password self) c (last_net_at self) (last_rx_bytes self)
    (last_tx_bytes self) (latency_target self) (obs_auto_detect self) (obs_process_name self)
    (last_process_check self) (obs_process_running self).

(** [str::to_lowercase] of process names, a Unicode table. *)
Context (to_lowercase : string -> string).

Definition refresh_obs_process src self : MetricsHub Client :=
  if Z.max 0 (process_check_at src - last_process_check self) <? 2 * second then self
  else
    let target := to_lowercase (obs_process_name self) in
    mkHub (obs_host self) (obs_port self) (obs_password self) (obs_client self) (last_net_at self)
      (last_rx_bytes self) (last_tx_bytes self) (latency_target self) (obs_auto_detect self)
      (obs_process_name self) (process_check_now src)
      (existsb (fun name => String.eqb (to_lowercase name) target) (processes src)).

(** A failed attempt only logs and sleeps. *)
Definition try_connect_obs src self : MetricsHub Client :=
  match connect src (obs_host self) (obs_port self) (obs_password self) with
  | Some client => set_obs_client (Some client) self
  | None => self
  end.

(** The five queries of a connected client, each only while the client is kept. *)
Definition collect_outputs src (client : option Client) : list StreamOutput * option Client :=
  match client with
  | None => ([], None)
  | Some c =>
      match outputs_list src c with
      | Some list => (map (fun name => stream_output name (output_status src c name)) list, Some c)
      | None => ([], None)
      end
  end.

Definition collect_streaming src (outputs : list StreamOutput) (client : option Client) :
    list StreamOutput * ObsFrame * option Client :=
  match client with
  | None => (outputs, ObsFrame_default, None)
  | Some c =>
      match streaming_status src c with
      | Some st =>
          let drop := if 0 <? ss_total_frames st
                      then F32.div (F32.of_Z (ss_skipped_frames st)) (F32.of_Z (ss_total_frames st))
                      else F32.zero in
          (map (fun o => if F32.eqb (drop_pct o) F32.zero then set_drop_pct drop o else o) outputs,
           with_stream_status st ObsFrame_default, Some c)
      | None => (outputs, ObsFrame_default, None)
      end
  end.

Definition collect_stats src (outputs : list StreamOutput) (obs : ObsFrame) (client : option Client) :
    list StreamOutput * ObsFrame :=
  match client with
  | Some c =>
      match general_stats src c with
      | Some st =>
          (map (set_encoding_lag_ms (F64.to_f32 (average_frame_render_time st))) outputs, with_stats st obs)
      | None => (outputs, obs)
      end
  | None => (outputs, obs)
  end.

Definition collect_recording src (obs : ObsFrame) (client : option Client) : ObsFrame :=
  match client with
  | Some c => match recording_active src c with Some b => with_recording b obs | None => obs end
  | None => obs
  end.

Definition collect_studio_mode src (obs : ObsFrame) (client : option Client) : ObsFrame :=
  match client with
  | Some c => with_studio_mode (default false (studio_mode_enabled src c)) obs
  | None => obs
  end.

(** The [if let Some(client)] block of [collect]. *)
Definition collect_obs src (client : option Client) : list StreamOutput * ObsFrame * option Client :=
  let (outputs, client) := collect_outputs src client in
  let '(outputs, obs, client) := collect_streaming src outputs client in
  let (outputs, obs) := collect_stats src outputs obs client in
  let obs := collect_recording src obs client in
  let obs := collect_studio_mode src obs client in
  (outputs, obs, client).

Definition collect_system src : f32 * f32 :=
  let mem_total := F32.of_Z (total_memory src) in
  let mem_used := F32.of_Z (used_memory src) in
  (cpu_usage src,
   if F32.ltb F32.zero mem_total then F32.mul (F32.div mem_used mem_total) F32.hundred else F32.zero).

(** The two sums over the interfaces. *)
Definition rx_total src : Z := fold_left (Int.saturating_add Int.u64_max) (map fst (interfaces src)) 0.
Definition tx_total src : Z := fold_left (Int.saturating_add Int.u64_max) (map snd (interfaces src)) 0.

Definition mbps (delta : Z) (dt : f32) : f32 :=
  F32.div (F32.div (F32.mul (F32.of_Z delta) F32.eight) dt) F32.million.

Definition collect_network src self : f32 * f32 * MetricsHub Client :=
  let rx_bytes := rx_total src in
  let tx_bytes := tx_total src in
  let now := network_now src in
  let rates :=
    match last_net_at self with
    | Some prev =>
        let dt := as_secs_f32 (Z.max 0 (now - prev)) in
        if F32.ltb F32.zero dt then
          (mbps (Int.saturating_sub tx_bytes (last_tx_bytes self)) dt,
           mbps (Int.saturating_sub rx_bytes (last_rx_bytes self)) dt)
        else (F32.zero, F32.zero)
    | None => (F32.zero, F32.zero)
    end in
  (rates.1, rates.2,
   mkHub (obs_host self) (obs_port self) (obs_password self) (obs_client self) (Some now) rx_bytes tx_bytes
     (latency_target self) (obs_auto_detect self) (obs_process_name self) (last_process_check self)
     (obs_process_running self)).

Definition collect_gpu src : option f32 * option f32 :=
  match gpu src with
  | Some (util, temp) => (F32.of_Z <$> util, F32.of_Z <$> temp)
  | None => (None, None)
  end.

Definition collect_latency src self : f32 :=
  match Net.parse_socket_addr (latency_target self) with
  | None => F32.zero
  | Some addr => match probe src addr with Some ms => F32.of_Z ms | None => F32.zero end
  end.

(** One pass: [None] is the error of a clock before the epoch. *)
Definition collect src self : option TelemetryFrame * MetricsHub Client :=
  match unix_time src with
  | None => (None, self)
  | Some ts =>
      let self := if obs_auto_detect self then refresh_obs_process src self else self in
      let self :=
        match obs_client self with
        | None => if obs_process_running self then try_connect_obs src self else self
        | Some _ => self
        end in
      let '(outputs, obs, client) := collect_obs src (obs_client self) in
      let self := set_obs_client client self in
      let health := compute_health outputs in
      let (cpu, mem) := collect_system src in
      let (gpu_util, gpu_temp) := collect_gpu src in
      let '(upload, download, self) := collect_network src self in
      let latency := collect_latency src self in
      (Some {| timestamp_unix := ts; health := health; obs := obs;
               system := {| cpu_percent := cpu; mem_percent := mem; gpu_percent := gpu_util;
                            gpu_temp_c := gpu_temp |};
               streams := outputs;
               network := {| upload_mbps := upload; download_mbps := download; latency_ms := latency |} |},
       self)
  end.
End Hub.
