(* ===== verification/MetricsSpec.v ===== *)
(** * MetricsSpec: what a collected frame promises *)

From S2P Require Import Prelude RustStd Float Net Model Metrics.

#[local] Open Scope Z_scope.

(** ** Float lemmas *)

Lemma compare_swap x y :
  SFcompare y x = match SFcompare x y with Some c => Some (CompOpp c) | None => None end.
Proof.
  destruct x as [[]|[]| |[] mx ex], y as [[]|[]| |[] my ey]; try reflexivity; cbn;
    rewrite (Z.compare_antisym ex ey); destruct (ex ?= ey) eqn:He; cbn; try reflexivity;
    change (Pos.compare_cont Eq) with Pos.compare; rewrite (Pos.compare_antisym mx my);
    by destruct (mx ?= my)%positive.
Qed.

Lemma compare_total x y : F32.is_nan x = false -> F32.is_nan y = false -> SFcompare x y <> None.
Proof.
  destruct x as [[]|[]| |[] mx ex], y as [[]|[]| |[] my ey]; try done; cbn; destruct (ex ?= ey); done.
Qed.

(** Off NaN, not below is above or equal. *)
Lemma not_ltb_leb x y :
  F32.is_nan x = false -> F32.is_nan y = false -> F32.ltb x y = false -> F32.leb y x = true.
Proof.
  intros Hx Hy. unfold F32.ltb, F32.leb, SFltb, SFleb. rewrite (compare_swap x y).
  pose proof (compare_total x y Hx Hy). destruct (SFcompare x y) as [[]|]; done.
Qed.

(** Clamping to [0, 1] gives a value of the interval, or NaN from NaN. *)
Lemma clamp_unit x :
  F32.is_nan x = false ->
  F32.leb F32.zero (F32.clamp x F32.zero F32.one) = true /\ F32.leb (F32.clamp x F32.zero F32.one) F32.one = true.
Proof.
  intros Hx. unfold F32.clamp. destruct (F32.ltb x F32.zero) eqn:H0; [by split|].
  destruct (F32.ltb F32.one x) eqn:H1; [by split|]. split; by apply not_ltb_leb.
Qed.

Lemma zero_times_over (dt : f32) : F32.ltb F32.zero dt = true -> mbps 0 dt = F32.zero.
Proof. destruct dt as [[]|[]| |[] m e]; try done. Qed.

(** ** Helper lemmas *)

Definition is_nan_or_unit (x : f32) : Prop :=
  x = S754_nan \/ (F32.leb F32.zero x = true /\ F32.leb x F32.one = true).

Lemma clamp_nan_or_unit x : is_nan_or_unit (F32.clamp x F32.zero F32.one).
Proof.
  destruct (F32.is_nan x) eqn:Hx; [|right; by apply clamp_unit]. left. by destruct x.
Qed.

Lemma health_range outputs : is_nan_or_unit (compute_health outputs).
Proof. destruct outputs; [right; by split | apply clamp_nan_or_unit]. Qed.

Section Spec.
Context {Client : Type} (to_lowercase : string -> string).
Implicit Types (self : MetricsHub Client) (src : Sources Client).

Lemma stream_output_wf name st : StreamOutput_wf (stream_output name st).
Proof.
  unfold StreamOutput_wf, stream_output. destruct st as [st|]; cbn; [|unfold Int.u32_max; lia].
  destruct (F32.ltb _ _); [apply as_u32_range | unfold Int.u32_max; lia].
Qed.

Lemma Forall_map_wf f outputs :
  (forall o, bitrate_kbps (f o) = bitrate_kbps o) ->
  Forall StreamOutput_wf outputs -> Forall StreamOutput_wf (map f outputs).
Proof. intros Hf H. apply Forall_map. eapply Forall_impl; [exact H|]. intros o. unfold StreamOutput_wf. by rewrite Hf. Qed.

(** What the OBS block gives, by what OBS answered. *)
Lemma collect_obs_cases src client :
  let '(outputs, obs, client') := collect_obs src client in
  Forall StreamOutput_wf outputs /\
  match client' with
  | Some c => client = Some c /\ (exists st, streaming_status src c = Some st /\ connected obs = true /\
      streaming obs = ss_active st /\ total_frames obs = ss_total_frames st) /\
      (exists names, outputs_list src c = Some names /\ map so_name outputs = names)
  | None => obs = ObsFrame_default /\
      (forall c, client = Some c -> outputs_list src c = None \/ streaming_status src c = None)
  end.
Proof.
  unfold collect_obs, collect_outputs, collect_streaming.
  destruct client as [c|]; [|split; [constructor | by split]].
  destruct (outputs_list src c) as [names|] eqn:Hl; [|split; [constructor | split; [done|]; intros c' ?; simplify_eq; by left]].
  assert (Forall StreamOutput_wf (map (fun name => stream_output name (output_status src c name)) names)) as Hwf.
  { apply Forall_map, Forall_true. intros. apply stream_output_wf. }
  destruct (streaming_status src c) as [st|] eqn:Hs;
    [|split; [exact Hwf | split; [done|]; intros c' ?; simplify_eq; by right]].
  set (outs := map _ (map _ names)).
  assert (Forall StreamOutput_wf outs /\ map so_name outs = names) as [Hw Hn].
  { unfold outs. split.
    - apply Forall_map_wf; [|done]. intros o. by destruct (F32.eqb _ _).
    - rewrite !map_map. rewrite <- (map_id names) at 2. apply map_ext. intros n.
      destruct (F32.eqb _ _); cbn; unfold stream_output; by destruct (output_status src c n). }
  unfold collect_stats, collect_recording, collect_studio_mode.
  destruct (general_stats src c) as [gs|], (recording_active src c) as [rec|]; cbn;
    (split; [first [done | by apply Forall_map_wf]|]); (split; [done|]);
    (split; [by exists st | exists names; split; [exact Hl | rewrite ?map_map; exact Hn]]).
Qed.

(** The frame of a pass and the client kept afterwards. *)
Lemma collect_frame src self frame self' :
  collect to_lowercase src self = (Some frame, self') ->
  exists client, collect_obs src client = (streams frame, obs frame, obs_client self') /\
    health frame = compute_health (streams frame) /\ unix_time src = Some (timestamp_unix frame).
Proof.
  unfold collect. destruct (unix_time src) as [ts|]; [|done].
  set (s1 := if obs_auto_detect self then _ else _).
  set (s2 := match obs_client s1 with Some _ => _ | None => _ end).
  destruct (collect_obs src (obs_client s2)) as [[outputs o] c] eqn:Ho.
  unfold collect_system, collect_network. destruct (collect_gpu src). intros H. injection H as <- <-.
  by exists (obs_client s2).
Qed.

Lemma collect_frame_wf src self frame self' :
  collect to_lowercase src self = (Some frame, self') -> TelemetryFrame_wf frame /\ is_nan_or_unit (health frame).
Proof.
  intros (client & Hc & Hh & _)%collect_frame. pose proof (collect_obs_cases src client) as H. rewrite Hc in H.
  rewrite Hh. split; [apply H | apply health_range].
Qed.

(** ** Properties *)

(** A collected frame is well formed.  Whatever the sources answer, the
    bitrates fit their 32 bits, the health lies between 0 and 1 (or is NaN), and
    it is zero without outputs; OBS counts as connected exactly when the client
    is kept, which is when both the output list and the streaming status
    answered in this pass, and otherwise the OBS part of the frame is all
    default. *)
Theorem collected_frame src self frame self' :
  collect to_lowercase src self = (Some frame, self') ->
  TelemetryFrame_wf frame /\ is_nan_or_unit (health frame) /\
  (streams frame = [] -> health frame = F32.zero) /\
  match obs_client self' with
  | Some c => connected (obs frame) = true /\ (exists st, streaming_status src c = Some st /\
      streaming (obs frame) = ss_active st) /\ outputs_list src c = Some (map so_name (streams frame))
  | None => obs frame = ObsFrame_default
  end.
Proof.
  intros (client & Hc & Hh & _)%collect_frame. pose proof (collect_obs_cases src client) as H. rewrite Hc in H.
  destruct H as [Hwf Hobs]. rewrite Hh.
  split; [exact Hwf|]. split; [apply health_range|]. split; [by intros ->|].
  destruct (obs_client self') as [c|]; [|exact (proj1 Hobs)].
  destruct Hobs as (_ & (st & Hs & Hcon & Hst & _) & (names & Hn & <-)). eauto.
Qed.

(** Network rates.  The first pass reports zero.  Afterwards the rates are
    computed from the differences of the two sums, floored at zero; since the
    operating-system library already reports the bytes since its previous
    refresh, a link with steady traffic, which yields the same counts at every
    refresh, is reported as idle. *)
Theorem network_rates src self :
  (last_net_at self = None -> fst (collect_network src self) = (F32.zero, F32.zero)) /\
  (rx_total src <= last_rx_bytes self -> tx_total src <= last_tx_bytes self ->
   fst (collect_network src self) = (F32.zero, F32.zero)) /\
  (let self' := snd (collect_network src self) in
   last_net_at self' = Some (network_now src) /\ last_rx_bytes self' = rx_total src /\
   last_tx_bytes self' = tx_total src) /\
  (forall src', interfaces src' = interfaces src ->
   fst (collect_network src' (snd (collect_network src self))) = (F32.zero, F32.zero)).
Proof.
  assert (forall src self, rx_total src <= last_rx_bytes self -> tx_total src <= last_tx_bytes self ->
    fst (collect_network src self) = (F32.zero, F32.zero)) as Hzero.
  { clear. intros src self Hr Ht. unfold collect_network. cbn. destruct (last_net_at self) as [prev|]; [|done].
    destruct (F32.ltb F32.zero (as_secs_f32 (Z.max 0 (network_now src - prev)))) eqn:Hdt; [|done].
    unfold Int.saturating_sub. rewrite (Z.max_l 0 (tx_total src - _)), (Z.max_l 0 (rx_total src - _)) by lia.
    by rewrite (zero_times_over _ Hdt). }
  split_and!; try done.
  - intros Hn. unfold collect_network. by rewrite Hn.
  - auto.
  - intros src' Hi. apply Hzero; cbn; unfold rx_total, tx_total; by rewrite Hi.
Qed.

(** The process check gates the connection.  When a check is due and no
    process has the configured name up to case, no connection is attempted: the
    hub stays without a client, the frame says that OBS is not connected and
    has no outputs, and the check is not due again for two seconds. *)
Theorem process_gate src self frame self' :
  collect to_lowercase src self = (Some frame, self') ->
  obs_auto_detect self = true -> 2 * second <= process_check_at src - last_process_check self ->
  obs_client self = None ->
  (forall name, In name (processes src) -> to_lowercase name <> to_lowercase (obs_process_name self)) ->
  obs_process_running self' = false /\ obs_client self' = None /\ connected (obs frame) = false /\
  streams frame = [] /\ last_process_check self' = process_check_now src.
Proof.
  intros Hc Ha Ht Hn Hp. unfold collect in Hc. destruct (unix_time src) as [ts|]; [|done]. rewrite Ha in Hc.
  unfold refresh_obs_process in Hc. rewrite (proj2 (Z.ltb_ge _ _)) in Hc by lia. cbn [obs_client obs_process_running] in Hc.
  rewrite Hn in Hc.
  assert (existsb (fun name => String.eqb (to_lowercase name) (to_lowercase (obs_process_name self))) (processes src)
    = false) as He.
  { apply not_true_iff_false. intros (name & Hin & Heq%String.eqb_eq)%existsb_exists. by apply (Hp name). }
  rewrite He in Hc. cbn in Hc. destruct (collect_gpu src). injection Hc as <- <-. done.
Qed.
End Spec.

(** ** Witnesses *)

(** OBS with one output, and a host with one interface. *)
Definition demo_sources : Sources unit := {|
  unix_time := Some 1700000000; process_check_at := 10 * second; process_check_now := 10 * second;
  processes := ["explorer.exe"]; connect := fun _ _ _ => Some tt;
  outputs_list := fun _ => Some ["main"];
  output_status := fun _ _ => Some {| os_total_frames := 600; os_skipped_frames := 6; os_duration_ms := 10000;
                                      os_bytes := 7500000 |};
  streaming_status := fun _ => Some {| ss_active := true; ss_total_frames := 600; ss_skipped_frames := 6 |};
  general_stats := fun _ => None; recording_active := fun _ => Some false; studio_mode_enabled := fun _ => None;
  cpu_usage := F32.zero; total_memory := 16; used_memory := 8; interfaces := [(1000, 500)];
  network_now := 10 * second; gpu := None; probe := fun _ => Some 12 |}.
Definition demo_hub (auto : bool) : MetricsHub unit := new "127.0.0.1" 4455 None "1.1.1.1:443" auto "obs64.exe" 0.

Lemma collected_frame_witness :
  exists frame self', collect (fun s => s) demo_sources (demo_hub false) = (Some frame, self') /\
    map bitrate_kbps (streams frame) = [6000] /\ is_nan_or_unit (health frame).
Proof.
  eexists _, _. split; [vm_compute; reflexivity|]. split; [reflexivity|].
  eapply (collected_frame (fun s => s) demo_sources (demo_hub false)). vm_compute. reflexivity.
Defined.

Lemma process_gate_witness :
  exists frame self', collect (fun s => s) demo_sources (demo_hub true) = (Some frame, self') /\
    connected (obs frame) = false.
Proof.
  eexists _, _. split; [vm_compute; reflexivity|].
  eapply (process_gate (fun s => s) demo_sources (demo_hub true)); [vm_compute; reflexivity | reflexivity | | reflexivity |].
  - vm_compute. discriminate.
  - intros name [<-|[]]. discriminate.
Defined.
