(* ===== verification/Startup.v ===== *)
(** * Startup: autostart ([src/startup/mod.rs])

    On Windows autostart is a value of the user's [Run] key, named after the
    application and holding the path of the executable.  The registry is seen
    through its calls: each may be refused, and the list of the calls made is
    the state.  Off Windows the function refuses. *)

From S2P Require Import Prelude RustStd Unicode Effects.

#[local] Open Scope Z_scope.

(** ** Text for the Windows API *)

(** UTF-16 and a final zero. *)
Definition to_wide (s : string) : list Z := concat (map encode_utf16 (code_points (Str.chars s))) ++ [0].

(** What the system reads behind a [PCWSTR]: up to the first zero. *)
Fixpoint pcwstr (units : list Z) : list Z :=
  match units with
  | [] => []
  | u :: units' => if u =? 0 then [] else u :: pcwstr units'
  end.

(** [slice::from_raw_parts(value.as_ptr() as *const u8, value.len() * 2)]: the
    units in memory, low byte first. *)
Definition raw_bytes (units : list Z) : list Z := units ≫= fun u => [u mod 256; u / 256].

(** ** The registry *)

Inductive RegCall :=
  | RegOpenKeyExW (sub_key : list Z) (* under HKEY_CURRENT_USER, for KEY_SET_VALUE *)
  | RegSetValueExW (name : list Z) (reg_sz : list Z)
  | RegDeleteValueW (name : list Z)
  | RegCloseKey.

(** The operating system: the path of the executable ([to_string_lossy] of
    [current_exe]), and the calls of the registry that are refused, by number. *)
Class Windows := {
  current_exe : result string string;
  reg_refused : nat -> option string;
}.

(** What [App] needs of this module. *)
Class Autostart := set_autostart : string -> bool -> eff (list RegCall) string unit.

Section Windows.
Context {windows : Windows}.

Definition reg_call (c : RegCall) : eff (list RegCall) string unit := fun calls =>
  (match reg_refused (length calls) with Some e => Err e | None => Ok tt end, calls ++ [c]).

Definition run_key : string := "Software\Microsoft\Windows\CurrentVersion\Run".

#[export] Instance windows_autostart : Autostart := fun app_name enable =>
  exe ← (fun calls => (current_exe, calls));
  let key_path := to_wide run_key in
  reg_call (RegOpenKeyExW (pcwstr key_path)) ;;
  if (enable : bool) then
    let value := to_wide exe in
    reg_call (RegSetValueExW (pcwstr (to_wide app_name)) (raw_bytes value))
  else attempt (reg_call (RegDeleteValueW (pcwstr (to_wide app_name)))).
End Windows.

(** The implementation off Windows. *)
Definition portable_autostart : Autostart := fun _ _ => throw "autostart is only supported on Windows".

(** ** Properties *)

(** How the system reads a [REG_SZ] value back. *)
Fixpoint units_of (bytes : list Z) : list Z :=
  match bytes with
  | lo :: hi :: bytes' => (lo + 256 * hi) :: units_of bytes'
  | _ => []
  end.
Definition reg_text (bytes : list Z) : list ascii := concat (map encode_utf8 (decode_utf16 (pcwstr (units_of bytes)))).

Lemma units_of_raw_bytes units : Forall (fun u => 0 <= u < 65536) units -> units_of (raw_bytes units) = units.
Proof.
  induction 1 as [|u units Hu _ IH]; [done|]. cbn. change (mbind _ units) with (raw_bytes units). rewrite IH.
  f_equal. pose proof (Z.div_mod u 256). lia.
Qed.

Lemma raw_bytes_range units :
  Forall (fun u => 0 <= u < 65536) units -> Forall (fun b => 0 <= b < 256) (raw_bytes units).
Proof.
  induction 1 as [|u units Hu _ IH]; [constructor|]. cbn. change (mbind _ units) with (raw_bytes units).
  pose proof (Z.mod_pos_bound u 256). pose proof (Z.div_mod u 256). repeat constructor; try done; lia.
Qed.

Lemma pcwstr_app units l : Forall (fun u => u <> 0) units -> pcwstr (units ++ 0 :: l) = units.
Proof.
  induction 1 as [|u units Hu _ IH]; [done|]. cbn. destruct (Z.eqb_spec u 0); [done|]. by rewrite IH.
Qed.

Definition plain_text (s : string) : Prop := Utf8.valid (Str.chars s) = true /\ byte 0 ∉ Str.chars s.

Lemma to_wide_units s : Utf8.valid (Str.chars s) = true -> Forall (fun u => 0 <= u < 65536) (to_wide s).
Proof.
  intros Hv. destruct (code_points_spec _ Hv) as [Hs _]. unfold to_wide. apply Forall_app. split; [|repeat constructor; lia].
  induction Hs; [constructor|]. cbn. apply Forall_app. split; [by apply encode_utf16_units | done].
Qed.

Lemma pcwstr_to_wide s :
  plain_text s -> pcwstr (to_wide s) = concat (map encode_utf16 (code_points (Str.chars s))).
Proof.
  intros [Hv Hz]. pose proof (code_points_nonzero _ Hv Hz) as Hnz. destruct (code_points_spec _ Hv) as [Hs _].
  apply pcwstr_app. induction Hs as [|p ps Hp Hs IH]; [constructor|]. inversion_clear Hnz.
  cbn. apply Forall_app. split; [by apply encode_utf16_nonzero | auto].
Qed.

Lemma wide_text s :
  plain_text s -> concat (map encode_utf8 (decode_utf16 (pcwstr (to_wide s)))) = Str.chars s.
Proof.
  intros Hs. rewrite pcwstr_to_wide by done. destruct Hs as [Hv _]. destruct (code_points_spec _ Hv) as [Hs He].
  rewrite <- (app_nil_r (concat (map encode_utf16 _))), decode_encode_utf16 by done. cbn. by rewrite app_nil_r.
Qed.

Lemma reg_text_to_wide s : plain_text s -> reg_text (raw_bytes (to_wide s)) = Str.chars s.
Proof.
  intros Hs. unfold reg_text. rewrite units_of_raw_bytes by (apply to_wide_units, Hs). by apply wide_text.
Qed.

(** C32: autostart writes what Windows reads back.  However the registry answers,
    enabling makes at most two calls: it opens the user's [Run] key, and when
    that is granted sets one value whose name and text, decoded from the bytes
    in memory, are the application's name and the path of the executable, with
    one final zero and every byte in range.  It succeeds exactly when both
    calls are granted.  Disabling deletes the value of that name, and succeeds
    even when there is none.  No call closes the key that was opened. *)
Theorem autostart_roundtrip {windows : Windows} app_name exe enable :
  plain_text app_name -> plain_text exe -> current_exe = Ok exe ->
  let (r, calls) := windows_autostart app_name enable [] in
  let open := RegOpenKeyExW (pcwstr (to_wide run_key)) in
  match reg_refused 0 with
  | Some e => r = Err e /\ calls = [open]
  | None =>
      exists name, concat (map encode_utf8 (decode_utf16 name)) = Str.chars app_name /\
        if enable then
          exists data, calls = [open; RegSetValueExW name data] /\
            reg_text data = Str.chars exe /\ Forall (fun b => 0 <= b < 256) data /\
            (exists text, data = text ++ [0; 0]) /\
            r = match reg_refused 1 with Some e => Err e | None => Ok tt end
        else calls = [open; RegDeleteValueW name] /\ r = Ok tt
  end /\ RegCloseKey ∉ calls.
Proof.
  intros Ha He Hexe. unfold windows_autostart, mbind, eff_bind, reg_call, attempt, final. rewrite Hexe. cbn [length app].
  destruct (reg_refused 0) as [e|].
  { split; [done|]. by intros ?%list_elem_of_singleton. }
  destruct enable; cbn [length app].
  - split; [|by intros [? | [? | ?%elem_of_nil]%elem_of_cons]%elem_of_cons].
    exists (pcwstr (to_wide app_name)). split; [by apply wide_text|]. eexists. split_and!; [done | by apply reg_text_to_wide | | | done].
    + apply raw_bytes_range, to_wide_units, He.
    + unfold to_wide, raw_bytes. rewrite bind_app. by eexists.
  - split; [|by intros [? | [? | ?%elem_of_nil]%elem_of_cons]%elem_of_cons].
    exists (pcwstr (to_wide app_name)). split; [by apply wide_text | done].
Qed.

#[local] Instance demo_windows : Windows := {| current_exe := Ok "C:\telemy.exe"; reg_refused := fun _ => None |}.

Lemma autostart_roundtrip_witness :
  exists data, snd (windows_autostart "Telemy" true []) =
      [RegOpenKeyExW (pcwstr (to_wide run_key)); RegSetValueExW (pcwstr (to_wide "Telemy")) data] /\
    reg_text data = Str.chars "C:\telemy.exe".
Proof.
  assert (plain_text "Telemy" /\ plain_text "C:\telemy.exe") as [Ha He].
  { split; (split; [done | apply (bool_decide_unpack _); by vm_compute]). }
  pose proof (autostart_roundtrip "Telemy" "C:\telemy.exe" true Ha He eq_refl) as H.
  destruct H as [(name & Hn & data & Hc & Hd & _) _]. exists data. split; [|exact Hd].
  vm_compute in Hc |- *. congruence.
Defined.
