(* ===== verification/Tray.v ===== *)
(** * Tray: the tray icon ([src/tray/mod.rs])

    On Windows the tray runs on its own thread: it builds an icon with four menu
    items, whose callbacks run when they are clicked, and polls a flag twice a
    second until it is set.  The state is what the callbacks touch: the flag,
    the shutdown channel, the processes they start and the text they hand to the
    clipboard.  Off Windows the function refuses. *)

From S2P Require Import Prelude RustStd Channels.

#[local] Open Scope Z_scope.

Inductive MenuItem := OpenDashboard | Settings | CopyDashboardUrl | Quit.
#[global] Instance MenuItem_eq_dec : EqDecision MenuItem.
Proof. solve_decision. Defined.

Definition menu_label (i : MenuItem) : string :=
  match i with
  | OpenDashboard => "Open Dashboard"
  | Settings => "Settings"
  | CopyDashboardUrl => "Copy Dashboard URL"
  | Quit => "Quit"
  end.

Record Tray := mkTray {
  shutdown_flag : bool;
  shutdown_tx : Watch.t bool;
  processes : list (string * list string); (* started, with their arguments *)
  clipboard : list string; (* texts handed to [clip] *)
}.

(** The window system: the icon, the items, and which [clip] processes start. *)
Class TrayItem := {
  new_tray : result string unit;
  add_menu_item : MenuItem -> result string unit;
  clip_starts : nat -> bool; (* by the number of processes started before *)
}.

Section Tray.
Context {tray_item : TrayItem}.
Context (dashboard_url settings_url : string).

(** [Command::new(..).args(..).spawn()]. *)
Definition spawn (program : string) (args : list string) (s : Tray) : Tray :=
  mkTray (shutdown_flag s) (shutdown_tx s) (processes s ++ [(program, args)]) (clipboard s).

(** [cmd /C start "" url]. *)
Definition open_in_browser (url : string) : Tray -> Tray := spawn "cmd" ["/C"; "start"; ""; url].

Definition on_click (i : MenuItem) (s : Tray) : Tray :=
  match i with
  | OpenDashboard => open_in_browser dashboard_url s
  | Settings => open_in_browser settings_url s
  | CopyDashboardUrl =>
      if clip_starts (length (processes s)) then
        let s := spawn "clip" [] s in
        mkTray (shutdown_flag s) (shutdown_tx s) (processes s) (clipboard s ++ [dashboard_url])
      else s
  | Quit => mkTray true (Watch.send true (shutdown_tx s)) (processes s) (clipboard s)
  end.

(** The items, in the order they are added; the first failure is returned. *)
Definition build_menu : result string unit :=
  new_tray ;; add_menu_item OpenDashboard ;; add_menu_item Settings ;; add_menu_item CopyDashboardUrl ;;
  add_menu_item Quit.

(** What happens to the thread: a click, or the next poll of the flag. *)
Inductive TrayEvent := Click (i : MenuItem) | Poll.

(** The [loop]: whether it was left, and the state. *)
Fixpoint tray_loop (events : list TrayEvent) (s : Tray) : bool * Tray :=
  match events with
  | [] => (false, s)
  | Poll :: events' => if shutdown_flag s then (true, s) else tray_loop events' s
  | Click i :: events' => tray_loop events' (on_click i s)
  end.

(** [start_tray]: [None] while the loop runs. *)
Definition start_tray (events : list TrayEvent) (s : Tray) : option (result string unit) * Tray :=
  match build_menu with
  | Err e => (Some (Err e), s)
  | Ok _ => let (left_, s) := tray_loop events s in (if left_ then Some (Ok tt) else None, s)
  end.
End Tray.

(** [start_tray] off Windows. *)
Definition start_tray_stub : result string unit := Err "tray is only supported on Windows".

(** ** Properties *)

Section TrayProperties.
Context {tray_item : TrayItem} (dashboard_url settings_url : string).

(** The clicks the thread handles: up to the first poll after a quit. *)
Fixpoint handled (quit : bool) (events : list TrayEvent) : list MenuItem :=
  match events with
  | [] => []
  | Poll :: events' => if quit then [] else handled quit events'
  | Click i :: events' => i :: handled (quit || bool_decide (i = Quit)) events'
  end.

(** A poll comes after a quit. *)
Fixpoint leaves (quit : bool) (events : list TrayEvent) : bool :=
  match events with
  | [] => false
  | Poll :: events' => quit || leaves quit events'
  | Click i :: events' => leaves (quit || bool_decide (i = Quit)) events'
  end.

Definition quits (clicks : list MenuItem) : nat := length (filter (fun i => i = Quit) clicks).

(** The pages a click opens. *)
Definition page_of (i : MenuItem) : option (string * list string) :=
  match i with
  | OpenDashboard => Some ("cmd", ["/C"; "start"; ""; dashboard_url])
  | Settings => Some ("cmd", ["/C"; "start"; ""; settings_url])
  | CopyDashboardUrl | Quit => None
  end.

Definition is_browser (p : string * list string) : Prop := p.1 = "cmd".
#[local] Instance is_browser_dec p : Decision (is_browser p).
Proof. unfold is_browser. apply _. Defined.

Definition click (s : Tray) (i : MenuItem) : Tray := on_click dashboard_url settings_url i s.

Lemma quits_cons i clicks : quits (i :: clicks) = (quits clicks + if bool_decide (i = Quit) then 1 else 0)%nat.
Proof. unfold quits. rewrite filter_cons. case_bool_decide; case_decide; cbn; (lia || done). Qed.

Lemma quits_pos clicks : (0 < quits clicks)%nat <-> Quit ∈ clicks.
Proof.
  induction clicks as [|i clicks IH]; [split; [cbn; lia | by intros ?%elem_of_nil]|].
  rewrite quits_cons, elem_of_cons, <- IH. case_bool_decide; cbn iota; split; [by left | lia | right; lia | intros [?|?]; [done | lia]].
Qed.

(** One click, on each thing it may touch. *)
Lemma click_flag s i : shutdown_flag (click s i) = shutdown_flag s || bool_decide (i = Quit).
Proof. destruct i; cbn; [.. | by destruct (shutdown_flag s)]; try destruct (clip_starts _); by rewrite orb_false_r. Qed.

Lemma click_shutdown s i :
  shutdown_tx (click s i) = if bool_decide (i = Quit) then Watch.send true (shutdown_tx s) else shutdown_tx s.
Proof. destruct i; cbn; try destruct (clip_starts _); done. Qed.

Lemma click_browser s i : filter is_browser (processes (click s i)) = filter is_browser (processes s) ++ omap page_of [i].
Proof.
  destruct i; cbn; try destruct (clip_starts _); cbn; rewrite ?filter_app, ?app_nil_r; try done.
Qed.

Lemma click_clipboard s i : clipboard (click s i) = clipboard s \/ clipboard (click s i) = clipboard s ++ [dashboard_url].
Proof. destruct i; cbn; [by left.. | destruct (clip_starts _); [by right | by left] | by left]. Qed.

(** The loop is the clicks it handles. *)
Lemma tray_loop_clicks events : forall s,
  tray_loop dashboard_url settings_url events s =
    (leaves (shutdown_flag s) events, fold_left click (handled (shutdown_flag s) events) s).
Proof.
  induction events as [|[i|] events IH]; intros s; [done | |].
  - cbn. rewrite IH. change (on_click dashboard_url settings_url i s) with (click s i). by rewrite click_flag.
  - cbn. destruct (shutdown_flag s) eqn:Hf; [done|]. by rewrite IH, Hf.
Qed.

Lemma clicks_effect clicks : forall s,
  let s' := fold_left click clicks s in
  shutdown_flag s' = shutdown_flag s || (0 <? quits clicks)%nat /\
  Watch.version (shutdown_tx s') = (Watch.version (shutdown_tx s) + quits clicks)%nat /\
  Watch.borrow (shutdown_tx s') = (if (0 <? quits clicks)%nat then true else Watch.borrow (shutdown_tx s)) /\
  filter is_browser (processes s') = filter is_browser (processes s) ++ omap page_of clicks /\
  (exists n, clipboard s' = clipboard s ++ repeat dashboard_url n).
Proof.
  induction clicks as [|i clicks IH]; intros s.
  { cbn. rewrite orb_false_r, app_nil_r, Nat.add_0_r. split_and!; try done. exists 0%nat. by rewrite app_nil_r. }
  cbn [fold_left]. destruct (IH (click s i)) as (Hf & Hv & Hb & Hp & n & Hc). rewrite quits_cons.
  rewrite click_flag in Hf. rewrite click_shutdown in Hv, Hb. rewrite click_browser, <- app_assoc, <- omap_app in Hp.
  split_and!; [rewrite Hf | rewrite Hv | rewrite Hb | exact Hp |].
  - case_bool_decide; cbn iota; [|by rewrite orb_false_r, Nat.add_0_r]. rewrite (proj2 (Nat.ltb_lt 0 (quits clicks + _))) by lia.
    by rewrite !orb_true_r.
  - case_bool_decide; cbn [Watch.send Watch.version]; lia.
  - case_bool_decide; cbn iota; [|by rewrite Nat.add_0_r]. rewrite (proj2 (Nat.ltb_lt 0 (quits clicks + _))) by lia.
    by destruct (_ <? _)%nat.
  - destruct (click_clipboard s i) as [Hcl|Hcl]; rewrite Hcl in Hc; [by exists n|].
    exists (S n). by rewrite Hc, <- app_assoc.
Qed.

(** The tray does what its menu says.  If an item cannot be added the thread
    ends with that error and nothing happens.  Otherwise it runs until the first
    poll after a quit, and then ends normally.  Until then each click on
    "Open Dashboard" or "Settings" starts the browser on that page, in the order
    of the clicks; the text handed to the clipboard is always the dashboard
    address; and the shutdown channel changes only by a quit, to [true], once
    per click. *)
Theorem tray_obeys_menu events s :
  shutdown_flag s = false ->
  match build_menu with
  | Err e => start_tray dashboard_url settings_url events s = (Some (Err e), s)
  | Ok _ =>
      let (r, s') := start_tray dashboard_url settings_url events s in
      let clicks := handled false events in
      r = (if leaves false events then Some (Ok tt) else None) /\
      (shutdown_flag s' = true <-> Quit ∈ clicks) /\
      Watch.version (shutdown_tx s') = (Watch.version (shutdown_tx s) + quits clicks)%nat /\
      Watch.borrow (shutdown_tx s') = (if bool_decide (Quit ∈ clicks) then true else Watch.borrow (shutdown_tx s)) /\
      filter is_browser (processes s') = filter is_browser (processes s) ++ omap page_of clicks /\
      (exists n, clipboard s' = clipboard s ++ repeat dashboard_url n)
  end.
Proof.
  intros Hs. unfold start_tray. destruct build_menu as [[]|e]; [|done]. rewrite tray_loop_clicks, Hs.
  destruct (clicks_effect (handled false events) s) as (Hf & Hv & Hb & Hp & Hc). rewrite Hs in Hf.
  assert ((0 <? quits (handled false events))%nat = bool_decide (Quit ∈ handled false events)) as Hq.
  { pose proof (quits_pos (handled false events)) as Hq.
    destruct (Nat.ltb_spec 0 (quits (handled false events))), (bool_decide_reflect (Quit ∈ handled false events)); (done || naive_solver lia). }
  rewrite Hq in Hf, Hb. split_and!; try done. rewrite Hf. cbn. by rewrite bool_decide_eq_true.
Qed.
End TrayProperties.

#[local] Instance demo_tray_item : TrayItem := {|
  new_tray := Ok tt; add_menu_item := fun _ => Ok tt; clip_starts := fun _ => true |}.

Definition demo_tray : Tray := mkTray false (Watch.channel false) [] [].

Lemma tray_obeys_menu_witness :
  let (r, s') := start_tray "http://d" "http://s" [Poll; Click Settings; Click Quit; Poll; Click OpenDashboard] demo_tray in
  r = Some (Ok tt) /\ Watch.borrow (shutdown_tx s') = true /\ Watch.version (shutdown_tx s') = 1%nat /\
  shutdown_flag s' = true.
Proof.
  destruct (tray_obeys_menu "http://d" "http://s" [Poll; Click Settings; Click Quit; Poll; Click OpenDashboard] demo_tray eq_refl)
    as (H1 & H2 & H3 & H4 & _).
  split_and!; [exact H1 | exact H4 | exact H3 | apply H2; right; left].
Defined.
