(* ===== verification/Dashboard.v ===== *)
(** * Dashboard: the dashboard's socket ([handle_socket] of [src/server/mod.rs])

    Once the upgrade of [/ws] is granted, a task pushes the latest frame to the
    browser at every tick, until the browser closes the socket or a send fails.
    A run is the list of the events its [select!] sees, each with the frame the
    watch channel holds at that moment. *)

From S2P Require Import Prelude RustStd Float Model Channels.

#[local] Open Scope Z_scope.

(** The [serde_json::json!] object, field by field. *)
Record Payload := {
  pl_ts : Z;
  pl_health : f32;
  pl_obs : ObsFrame;
  pl_system : SystemFrame;
  pl_network : NetworkFrame;
  pl_outputs : list StreamOutput;
}.

Definition payload_of (frame : TelemetryFrame) : Payload := {|
  pl_ts := timestamp_unix frame; pl_health := health frame; pl_obs := obs frame; pl_system := system frame;
  pl_network := network frame; pl_outputs := streams frame |}.

(** What [socket.recv()] yields, as far as it is looked at. *)
Inductive Message := Close | Other.

Inductive SocketEvent :=
  | Tick (sent : bool) (* the ticker; whether the send succeeds *)
  | Received (m : option (result string Message)). (* None when the stream has ended *)

Record Socket := mkSocket {
  pushed : list Payload; (* sent, oldest first *)
  open : bool; (* the loop runs *)
}.

Definition new_socket : Socket := mkSocket [] true.

(** One turn of the [select!]. *)
Definition on_event (rx : Watch.t TelemetryFrame) (e : SocketEvent) (s : Socket) : Socket :=
  if open s then
    match e with
    | Tick sent =>
        let frame := Watch.borrow rx in
        let payload := payload_of frame in
        if sent then mkSocket (pushed s ++ [payload]) true else mkSocket (pushed s) false
    | Received (Some (Ok Close)) | Received None => mkSocket (pushed s) false
    | Received _ => s
    end
  else s.

(** [handle_socket]. *)
Definition handle_socket (events : list (SocketEvent * Watch.t TelemetryFrame)) : Socket :=
  fold_left (fun s '(e, rx) => on_event rx e s) events new_socket.

(** ** Properties *)

(** An event that ends the loop. *)
Definition ends (e : SocketEvent) : bool :=
  match e with
  | Tick sent => negb sent
  | Received (Some (Ok Close)) | Received None => true
  | Received _ => false
  end.

(** The events up to the first that ends the loop. *)
Fixpoint live {A} (events : list (SocketEvent * A)) : list (SocketEvent * A) :=
  match events with
  | [] => []
  | (e, x) :: events' => if ends e then [] else (e, x) :: live events'
  end.

Definition tick_frame (ev : SocketEvent * Watch.t TelemetryFrame) : option Payload :=
  match ev with (Tick _, rx) => Some (payload_of (Watch.borrow rx)) | _ => None end.

Lemma on_event_closed rx e s : open s = false -> on_event rx e s = s.
Proof. unfold on_event. by intros ->. Qed.

Lemma handle_socket_from events : forall s,
  open s = true ->
  fold_left (fun s '(e, rx) => on_event rx e s) events s =
    mkSocket (pushed s ++ omap tick_frame (live events)) (negb (existsb (fun ev => ends ev.1) events)).
Proof.
  induction events as [|[e rx] events IH]; intros s Hs; [destruct s; cbn in *; by rewrite Hs, app_nil_r|].
  cbn [fold_left live existsb fst]. destruct (ends e) eqn:He; cbn [orb negb].
  - assert (on_event rx e s = mkSocket (pushed s) false) as ->.
    { unfold on_event. rewrite Hs. by destruct e as [[]|[[[]|]|]]. }
    rewrite app_nil_r. clear IH. induction events as [|[e' rx'] events IH]; [done | exact IH].
  - rewrite IH by (unfold on_event; rewrite Hs; destruct e as [[]|[[[]|]|]]; done).
    f_equal. unfold on_event. rewrite Hs. destruct e as [[]|[[[]|]|]]; try done. cbn. by rewrite <- app_assoc.
Qed.
