(* ===== verification/Exporters.v ===== *)
(** * Exporters: the Grafana exporter ([src/exporters/mod.rs]) and its task

    [GrafanaExporter::new] builds one histogram per metric and installs the
    provider that pushes them; [GrafanaExporter::record] turns a frame into
    measurements.  The metrics library is a parameter: its histograms are an
    abstract type made from a name, and building the push pipeline may fail.  The
    task that start-up spawns around them ([src/app/mod.rs]) retries the
    construction with a growing pause, then records the latest frame at every
    tick. *)

From S2P Require Import Prelude RustStd Float Model.

#[local] Open Scope Z_scope.

(** ** Data *)

(** One histogram per metric. *)
Record GrafanaExporter (Histogram : Type) := mkExporter {
  h_health : Histogram;
  h_cpu : Histogram;
  h_mem : Histogram;
  h_gpu : Histogram;
  h_gpu_temp : Histogram;
  h_upload : Histogram;
  h_download : Histogram;
  h_latency : Histogram;
  h_out_bitrate : Histogram;
  h_out_drop : Histogram;
  h_out_fps : Histogram;
  h_out_lag : Histogram;
  h_render_missed : Histogram;
  h_render_total : Histogram;
  h_output_skipped : Histogram;
  h_output_total : Histogram;
  h_active_fps : Histogram;
  h_disk_space : Histogram;
}.
Arguments mkExporter {Histogram} _ _ _ _ _ _ _ _ _ _ _ _ _ _ _ _ _ _.
Arguments h_health {Histogram} _.
Arguments h_cpu {Histogram} _.
Arguments h_mem {Histogram} _.
Arguments h_gpu {Histogram} _.
Arguments h_gpu_temp {Histogram} _.
Arguments h_upload {Histogram} _.
Arguments h_download {Histogram} _.
Arguments h_latency {Histogram} _.
Arguments h_out_bitrate {Histogram} _.
Arguments h_out_drop {Histogram} _.
Arguments h_out_fps {Histogram} _.
Arguments h_out_lag {Histogram} _.
Arguments h_render_missed {Histogram} _.
Arguments h_render_total {Histogram} _.
Arguments h_output_skipped {Histogram} _.
Arguments h_output_total {Histogram} _.
Arguments h_active_fps {Histogram} _.
Arguments h_disk_space {Histogram} _.

(** What one [histogram.record(value, labels)] hands over. *)
Record Measurement (Histogram : Type) := mkMeasurement {
  instrument : Histogram;
  value : f64;
  labels : list (string * string);
}.
Arguments mkMeasurement {Histogram} _ _ _.
Arguments instrument {Histogram} _.
Arguments value {Histogram} _.
Arguments labels {Histogram} _.

(** The push pipeline installed as the global provider. *)
Record Provider := {
  provider_endpoint : string;
  provider_headers : gmap string string;
  provider_interval_ms : Z;
}.

(** The metrics library. *)
Class Meter (Histogram : Type) := {
  f64_histogram : string -> Histogram; (* meter.f64_histogram(name).init() *)
  build_metrics_exporter : nat -> string -> gmap string string -> result string unit; (* at an attempt *)
}.

Section Exporter.
Context {Histogram : Type} {meter : Meter Histogram}.

(** [GrafanaExporter::new], at the [n]-th attempt, with the provider it installs. *)
Definition new (n : nat) (endpoint auth_header : string) (auth_value : option string) (interval_ms : Z) :
    result string (GrafanaExporter Histogram * Provider) :=
  let headers : gmap string string := match auth_value with Some v => {[auth_header := v]} | None => ∅ end in
  build_metrics_exporter n endpoint headers ;;
  let provider := {| provider_endpoint := endpoint; provider_headers := headers;
                     provider_interval_ms := interval_ms |} in
  Ok (mkExporter
        (f64_histogram "telemy.health")
        (f64_histogram "telemy.system.cpu_percent")
        (f64_histogram "telemy.system.mem_percent")
        (f64_histogram "telemy.system.gpu_percent")
        (f64_histogram "telemy.system.gpu_temp_c")
        (f64_histogram "telemy.network.upload_mbps")
        (f64_histogram "telemy.network.download_mbps")
        (f64_histogram "telemy.network.latency_ms")
        (f64_histogram "telemy.output.bitrate_kbps")
        (f64_histogram "telemy.output.drop_pct")
        (f64_histogram "telemy.output.fps")
        (f64_histogram "telemy.output.encoding_lag_ms")
        (f64_histogram "telemy.obs.render_missed_frames")
        (f64_histogram "telemy.obs.render_total_frames")
        (f64_histogram "telemy.obs.output_skipped_frames")
        (f64_histogram "telemy.obs.output_total_frames")
        (f64_histogram "telemy.obs.active_fps")
        (f64_histogram "telemy.obs.disk_space_mb"), provider).

(** [opt.unwrap_or(0.0) as f64]. *)
Definition or_zero (x : option f32) : f64 := F64.of_f32 (default F32.zero x).

Definition record_frame (self : GrafanaExporter Histogram) (frame : TelemetryFrame) : list (Measurement Histogram) :=
  [ mkMeasurement (h_health self) (F64.of_f32 (health frame)) [];
    mkMeasurement (h_cpu self) (F64.of_f32 (cpu_percent (system frame))) [];
    mkMeasurement (h_mem self) (F64.of_f32 (mem_percent (system frame))) [];
    mkMeasurement (h_gpu self) (or_zero (gpu_percent (system frame))) [];
    mkMeasurement (h_gpu_temp self) (or_zero (gpu_temp_c (system frame))) [];
    mkMeasurement (h_upload self) (F64.of_f32 (upload_mbps (network frame))) [];
    mkMeasurement (h_download self) (F64.of_f32 (download_mbps (network frame))) [];
    mkMeasurement (h_latency self) (F64.of_f32 (latency_ms (network frame))) [];
    mkMeasurement (h_render_missed self) (F64.of_Z (render_missed_frames (obs frame))) [];
    mkMeasurement (h_render_total self) (F64.of_Z (render_total_frames (obs frame))) [];
    mkMeasurement (h_output_skipped self) (F64.of_Z (output_skipped_frames (obs frame))) [];
    mkMeasurement (h_output_total self) (F64.of_Z (output_total_frames (obs frame))) [];
    mkMeasurement (h_active_fps self) (F64.of_f32 (active_fps (obs frame))) [];
    mkMeasurement (h_disk_space self) (available_disk_space_mb (obs frame)) [] ].

Definition record_output (self : GrafanaExporter Histogram) (out : StreamOutput) : list (Measurement Histogram) :=
  let labels := [("output", so_name out)] in
  [ mkMeasurement (h_out_bitrate self) (F64.of_Z (bitrate_kbps out)) labels;
    mkMeasurement (h_out_drop self) (F64.of_f32 (drop_pct out)) labels;
    mkMeasurement (h_out_fps self) (F64.of_f32 (fps out)) labels;
    mkMeasurement (h_out_lag self) (F64.of_f32 (encoding_lag_ms out)) labels ].

(** [GrafanaExporter::record]. *)
Definition record (self : GrafanaExporter Histogram) (frame : TelemetryFrame) : list (Measurement Histogram) :=
  record_frame self frame ++ (streams frame ≫= record_output self).

(** ** The task *)

Inductive TaskState :=
  | Constructing (backoff_ms : Z)
  | Recording (exporter : GrafanaExporter Histogram)
  | Panicked.

Record ExporterTask := mkTask {
  task_state : TaskState;
  pauses : list Z; (* milliseconds slept after the failures, oldest first *)
  recorded : list (Measurement Histogram);
  provider : option Provider; (* the global one *)
}.

Definition spawn_exporter : ExporterTask := mkTask (Constructing 1000) [] [] None.

(** [backoff_ms = (backoff_ms * 2).min(30_000)]. *)
Definition next_backoff (backoff_ms : Z) : Z := Z.min (backoff_ms * 2) 30000.

(** The arguments the task captured. *)
Context (endpoint auth_header : string) (auth_value : option string) (interval_ms : Z).

(** One wake-up of the task: another attempt after a pause, or a tick, at which
    the watched frame is [frame].  [tokio::time::interval] panics on a zero
    period. *)
Definition wake (frame : TelemetryFrame) (t : ExporterTask) : ExporterTask :=
  match task_state t with
  | Constructing backoff_ms =>
      match new (length (pauses t)) endpoint auth_header auth_value interval_ms with
      | Ok (exporter, p) =>
          mkTask (if interval_ms =? 0 then Panicked else Recording exporter) (pauses t) (recorded t) (Some p)
      | Err _ => mkTask (Constructing (next_backoff backoff_ms)) (pauses t ++ [backoff_ms]) (recorded t) (provider t)
      end
  | Recording exporter => mkTask (Recording exporter) (pauses t) (recorded t ++ record exporter frame) (provider t)
  | Panicked => t
  end.

Definition run_exporter (frames : list TelemetryFrame) : ExporterTask := fold_left (fun t f => wake f t) frames spawn_exporter.
End Exporter.
