(* ===== verification/ExportersSpec.v ===== *)
(** * ExportersSpec: what the exporter and its task promise

    Every metric has its own series, and the task's pauses and panics are
    bounded by what the configuration was validated for. *)

From S2P Require Import Prelude RustStd Float Model Exporters.

#[local] Open Scope Z_scope.

(** A series of the metrics backend: the instrument and its labels. *)
Definition series {Histogram} (m : Measurement Histogram) : Histogram * list (string * string) :=
  (instrument m, labels m).

(** The instruments and labels one frame is recorded under. *)
Definition frame_names : list string :=
  ["telemy.health"; "telemy.system.cpu_percent"; "telemy.system.mem_percent"; "telemy.system.gpu_percent";
   "telemy.system.gpu_temp_c"; "telemy.network.upload_mbps"; "telemy.network.download_mbps";
   "telemy.network.latency_ms"; "telemy.obs.render_missed_frames"; "telemy.obs.render_total_frames";
   "telemy.obs.output_skipped_frames"; "telemy.obs.output_total_frames"; "telemy.obs.active_fps";
   "telemy.obs.disk_space_mb"].
Definition output_metric_names : list string :=
  ["telemy.output.bitrate_kbps"; "telemy.output.drop_pct"; "telemy.output.fps"; "telemy.output.encoding_lag_ms"].
Definition frame_series (frame : TelemetryFrame) : list (string * list (string * string)) :=
  map (fun n => (n, [])) frame_names
  ++ (map so_name (streams frame) ≫= fun o => map (fun n => (n, [("output", o)])) output_metric_names).

(** The pause after the failure of attempt [i], in milliseconds. *)
Definition backoff_at (i : nat) : Z := Z.min (1000 * 2 ^ Z.of_nat i) 30000.

(** ** Helper lemmas *)

Lemma nodup_map_inj {A B} (f : A -> B) l : (forall a b, f a = f b -> a = b) -> NoDup l -> NoDup (map f l).
Proof. intros Hf Hl. assert (Inj (=) (=) f) by (intros a b; apply Hf). by apply NoDup_fmap_2. Qed.

Lemma in_map_pair (n : string) ls names lab :
  (n, ls) ∈ map (fun m : string => (m, lab)) names -> ls = (lab : list (string * string)).
Proof. intros H. apply list_elem_of_fmap in H as (? & [= _ ->] & _). done. Qed.

Lemma frame_series_nodup frame : NoDup (map so_name (streams frame)) -> NoDup (frame_series frame).
Proof.
  intros Hn. unfold frame_series. apply NoDup_app. split_and!.
  - apply nodup_map_inj; [by intros a b [= ->]|]. apply (bool_decide_unpack _). by vm_compute.
  - intros [n ls] Hin%in_map_pair Hout. subst ls.
    apply list_elem_of_bind in Hout as (o & Hout%in_map_pair & _). done.
  - induction Hn as [|o os Ho Hn IH]; [constructor|]. cbn [mbind list_bind]. apply NoDup_app. split_and!; [| |exact IH].
    + apply nodup_map_inj; [by intros a b [= ->]|]. apply (bool_decide_unpack _). by vm_compute.
    + intros [n ls] Hin%in_map_pair Hout. subst ls.
      apply list_elem_of_bind in Hout as (o' & [= ->]%in_map_pair & Ho'). done.
Qed.

Lemma backoff_at_next i : next_backoff (backoff_at i) = backoff_at (S i).
Proof.
  unfold next_backoff, backoff_at. rewrite Nat2Z.inj_succ, Z.pow_succ_r by lia.
  pose proof (Z.pow_pos_nonneg 2 (Z.of_nat i)). lia.
Qed.

Lemma backoff_at_bounds i : 1000 <= backoff_at i <= 30000.
Proof. unfold backoff_at. pose proof (Z.pow_pos_nonneg 2 (Z.of_nat i)). lia. Qed.

Section Exporter.
Context {Histogram : Type} {meter : Meter Histogram}.

Lemma new_exporter_fields n endpoint header auth interval exporter p frame :
  new n endpoint header auth interval = Ok (exporter, p) ->
  map series (record exporter frame) =
    map (fun '(n, ls) => (f64_histogram n, ls)) (frame_series frame).
Proof.
  unfold new. destruct (build_metrics_exporter _ _ _) as [[]|]; [|done]. intros [= <- <-].
  unfold record, frame_series. rewrite !map_app. f_equal.
  induction (streams frame) as [|o os IH]; [done|]. cbn [map mbind list_bind]. by rewrite !map_app, IH.
Qed.

(** ** Series *)

(** No two metrics share a series.  When the metrics library tells
    instruments apart by their name and the outputs of the frame have distinct
    names, recording the frame gives every measurement an instrument and labels
    of its own: fourteen without labels and four for each output, under the
    names the dashboards query. *)
Theorem exporter_series_distinct n endpoint header auth interval exporter p frame :
  (forall a b : string, f64_histogram (Histogram:=Histogram) a = f64_histogram b -> a = b) ->
  NoDup (map so_name (streams frame)) ->
  new n endpoint header auth interval = Ok (exporter, p) ->
  NoDup (map series (record exporter frame)) /\
  map series (record exporter frame) = map (fun '(n, ls) => (f64_histogram n, ls)) (frame_series frame) /\
  length (record exporter frame) = (14 + 4 * length (streams frame))%nat.
Proof.
  intros Hinj Hn Hnew. pose proof (new_exporter_fields _ _ _ _ _ _ _ frame Hnew) as Hs. split_and!; [|exact Hs|].
  - rewrite Hs. apply nodup_map_inj; [|by apply frame_series_nodup].
    intros [a la] [b lb] [= Hab ->]. by rewrite (Hinj _ _ Hab).
  - unfold record. rewrite length_app. cbn [length record_frame]. f_equal. clear.
    induction (streams frame) as [|o os IH]; [done|]. cbn [mbind list_bind]. rewrite length_app, IH. cbn. lia.
Qed.

(** ** The task *)

Context (endpoint auth_header : string) (auth_value : option string) (interval_ms : Z).
Notation attempt n := (new n endpoint auth_header auth_value interval_ms).
Notation task := (run_exporter endpoint auth_header auth_value interval_ms).

Lemma run_exporter_snoc frames f :
  task (frames ++ [f]) = wake endpoint auth_header auth_value interval_ms f (task frames).
Proof. unfold run_exporter. by rewrite fold_left_app. Qed.

(** What the task has done after some wake-ups. *)
Definition task_explained (frames : list TelemetryFrame) (t : ExporterTask) : Prop :=
  let n := length (pauses t) in
  pauses t = map backoff_at (seq 0 n) /\
  (forall i, (i < n)%nat -> is_ok (attempt i) = false) /\
  match task_state t with
  | Constructing backoff_ms =>
      n = length frames /\ backoff_ms = backoff_at n /\ recorded t = [] /\ provider t = None
  | Recording exporter =>
      interval_ms <> 0 /\ (n < length frames)%nat /\
      (exists p, attempt n = Ok (exporter, p) /\ provider t = Some p) /\
      recorded t = (drop (S n) frames ≫= record exporter)
  | Panicked => interval_ms = 0 /\ is_ok (attempt n) = true /\ recorded t = []
  end.

Lemma task_is_explained frames : task_explained frames (task frames).
Proof.
  induction frames as [|f frames IH] using rev_ind; [split_and!; try done; intros i Hi; cbn in Hi; lia|].
  rewrite run_exporter_snoc. destruct (task frames) as [st ps rec prov]. unfold wake, task_explained in *.
  cbn [task_state pauses recorded provider] in *. destruct IH as (Hp & Herr & Hst).
  destruct st as [b|e|].
  - destruct Hst as (Hn & -> & -> & ->).
    destruct (attempt (length ps)) as [[exporter p]|e] eqn:Hnew; cbn [task_state pauses recorded provider].
    + assert (length ps < length (frames ++ [f]))%nat by (rewrite length_app; cbn; lia).
      split; [done|]. split; [done|]. destruct (Z.eqb_spec interval_ms 0) as [Hz|Hz].
      { split_and!; [done | by rewrite Hnew | done]. }
      split_and!; [done | lia | by exists p |].
      by rewrite drop_ge by (rewrite length_app; cbn; lia).
    + rewrite length_app. cbn [length]. rewrite Nat.add_1_r, length_app, Nat.add_1_r, seq_S, map_app, <- Hp.
      split_and!; try done; [| by rewrite Hn | apply backoff_at_next].
      intros i Hi. destruct (decide (i = length ps)) as [->|]; [by rewrite Hnew | apply Herr; lia].
  - destruct Hst as (Hz & Hlt & Hpr & ->). split; [done|]. split; [done|].
    split_and!; [done | rewrite length_app; cbn; lia | done |].
    cbn [recorded pauses]. rewrite drop_app_le by lia. rewrite bind_app. cbn. by rewrite app_nil_r.
  - done.
Qed.

(** The exporter task's pauses and measurements.  After any number of
    wake-ups the task has slept after its failures [1000 * 2^i] milliseconds
    capped at 30 seconds, never less than one second, with no overflow of the
    64-bit delay.  Construction is attempted until it succeeds the first time;
    from then on every tick records the frame of that tick, in order, and only
    that.  The task dies only of a zero push interval. *)
Theorem exporter_retries frames :
  let t := task frames in
  let n := length (pauses t) in
  pauses t = map backoff_at (seq 0 n) /\
  Forall (fun ms => 1000 <= ms <= 30000 /\ ms * 2 <= Int.u64_max) (pauses t) /\
  (forall i, (i < n)%nat -> is_ok (attempt i) = false) /\
  match task_state t with
  | Constructing backoff_ms => n = length frames /\ recorded t = []
  | Recording exporter =>
      (exists p, attempt n = Ok (exporter, p)) /\ recorded t = (drop (S n) frames ≫= record exporter)
  | Panicked => interval_ms = 0
  end.
Proof.
  intros t n. destruct (task_is_explained frames) as (Hp & Herr & Hst). fold t in Hp, Herr, Hst. fold n in Hp, Herr, Hst.
  split_and!; [exact Hp | | exact Herr |].
  - rewrite Hp. apply Forall_forall. intros ms (i & -> & _)%list_elem_of_fmap.
    pose proof (backoff_at_bounds i). unfold Int.u64_max. lia.
  - destruct (task_state t); naive_solver.
Qed.
End Exporter.

(** ** Witnesses *)

#[local] Instance demo_meter : Meter string := {|
  f64_histogram := fun name => name;
  build_metrics_exporter := fun n _ _ => if (n <? 2)%nat then Err "tls" else Ok tt |}.

Definition demo_exporter_frame : TelemetryFrame := {|
  timestamp_unix := 7; health := F32.one; obs := ObsFrame_default; system := SystemFrame_default;
  streams := [ {| so_name := "main"; bitrate_kbps := 6000; drop_pct := F32.zero; fps := F32.zero; encoding_lag_ms := F32.zero |};
               {| so_name := "backup"; bitrate_kbps := 2500; drop_pct := F32.zero; fps := F32.zero; encoding_lag_ms := F32.zero |} ];
  network := NetworkFrame_default |}.

Lemma exporter_series_distinct_witness :
  exists exporter p, new 2 "https://otlp" "Authorization" (Some "k") 5000 = Ok (exporter, p) /\
    length (record exporter demo_exporter_frame) = 22%nat /\
    NoDup (map series (record exporter demo_exporter_frame)).
Proof.
  eexists _, _. split; [reflexivity|].
  destruct (exporter_series_distinct (meter:=demo_meter) 2 "https://otlp" "Authorization" (Some "k") 5000 _ _ demo_exporter_frame
    ltac:(intros a b Hab; exact Hab) ltac:(apply (bool_decide_unpack _); by vm_compute) eq_refl) as (H1 & _ & H2).
  split; [exact H2 | exact H1].
Defined.

Lemma exporter_retries_witness :
  let t := run_exporter "https://otlp" "Authorization" (Some "k") 5000 (repeat demo_exporter_frame 4) in
  pauses t = [1000; 2000] /\ length (recorded t) = 22%nat /\ is_ok (new (Histogram:=string) 1 "https://otlp" "Authorization" (Some "k") 5000) = false.
Proof.
  split_and!; [by vm_compute | by vm_compute |].
  destruct (exporter_retries "https://otlp" "Authorization" (Some "k") 5000 (repeat demo_exporter_frame 4)) as (_ & _ & H & _).
  apply (H 1%nat). vm_compute. lia.
Defined.
