(* ===== verification/Security.v ===== *)
(** * Security: the secrets vault ([src/security/mod.rs])

    A map from keys to base64 text of protected values, rewritten to its file on
    every store.  Base64, the Windows data-protection calls and the JSON of the
    file are parameters; off Windows the protection is the identity, as in the
    source. *)

From stdpp Require Import sorting.
From S2P Require Import Prelude RustStd Effects Host.

(** ** Parameters *)

Abbreviation bytes := (list ascii).

(** [general_purpose::STANDARD] of the [base64] crate. *)
Class Base64 := {
  encode : bytes -> string;
  decode : string -> result string bytes;
}.
Class Base64Laws {b64 : Base64} := decode_encode : forall data, decode (encode data) = Ok data.

(** [protect] and [unprotect]. *)
Class DataProtection := {
  protect : bytes -> result string bytes;
  unprotect : bytes -> result string bytes;
}.

(** A length a Windows blob can carry. *)
Definition fits (data : bytes) : Prop := (Z.of_nat (length data) <= Int.u32_max)%Z.

Class DataProtectionLaws {dp : DataProtection} :=
  unprotect_protect : forall data sealed, fits data -> protect data = Ok sealed -> unprotect sealed = Ok data.

(** The implementation off Windows: encoded, not encrypted. *)
#[export] Instance portable_protection : DataProtection | 10 := {| protect := Ok; unprotect := Ok |}.

#[export] Instance portable_protection_laws : DataProtectionLaws (dp := portable_protection).
Proof. intros data sealed _. cbn. congruence. Qed.

(** The Windows data-protection calls: from the bytes of the blob they read to
    the bytes of the blob they return. *)
Class Crypt := {
  CryptProtectData : bytes -> result string bytes;
  CryptUnprotectData : bytes -> result string bytes;
}.
Class CryptLaws {crypt : Crypt} := crypt_unprotect_protect : forall data sealed,
  CryptProtectData data = Ok sealed -> fits sealed /\ CryptUnprotectData sealed = Ok data.

(** The bytes behind [CRYPT_INTEGER_BLOB { cbData: data.len() as u32, .. }]. *)
Definition in_blob (data : bytes) : bytes := take (Z.to_nat (Int.cast 32 (Z.of_nat (length data)))) data.

(** The implementation on Windows; the returned blob is copied and freed. *)
Definition dpapi_protection {crypt : Crypt} : DataProtection := {|
  protect := fun data => CryptProtectData (in_blob data);
  unprotect := fun data => CryptUnprotectData (in_blob data) |}.

Lemma in_blob_fits data : fits data -> in_blob data = data.
Proof.
  unfold in_blob, fits, Int.cast, Int.u32_max. intros H. rewrite Z.mod_small by lia. apply take_ge. lia.
Qed.

Lemma dpapi_protection_laws {crypt : Crypt} {laws : CryptLaws} : DataProtectionLaws (dp := dpapi_protection).
Proof.
  intros data sealed Hd H. cbn in *. rewrite in_blob_fits in H by done.
  apply crypt_unprotect_protect in H as [Hs Hu]. by rewrite in_blob_fits.
Qed.

(** [serde_json] at [VaultStore]. *)
Abbreviation VaultStore := (gmap string string).
Class VaultJson := {
  vault_to_string : VaultStore -> result string string;
  vault_from_str : string -> result string VaultStore;
}.
Class VaultJsonLaws {vj : VaultJson} := vault_from_to : forall store data,
  vault_to_string store = Ok data ->
  vault_from_str data = Ok store /\ Utf8.valid (Str.chars data) = true.

(** ** The vault *)

Record Vault := mkVault {
  path : string;
  entries : VaultStore;
}.

Section Vault.
Context {b64 : Base64} {dp : DataProtection} {vj : VaultJson} (h : Host).

Definition default_vault_path : eff World string string :=
  base ← env_var "APPDATA";
  mret (Path.join (Path.join (default "." base) "Telemy") "vault.json").

(** [if let Some(parent) = path.parent() { fs::create_dir_all(parent)?; }]. *)
Definition make_parent (path : string) : eff World string unit :=
  match Path.parent path with Some parent => create_dir_all h parent | None => mret tt end.

(** [Vault::new]. *)
Definition new (configured : option string) : eff World string Vault :=
  path ← (match configured with Some p => mret p | None => default_vault_path end);
  make_parent path ;;
  exists_ ← path_exists path;
  if (exists_ : bool) then
    raw ← read_to_string h path;
    mret (mkVault path (match vault_from_str raw with Ok store => store | Err _ => ∅ end))
  else mret (mkVault path ∅).

(** The methods run on the vault and the world. *)
Abbreviation VM := (eff (Vault * World) string).

Definition on_world {A} (m : eff World string A) : VM A := fun '(self, w) =>
  let (r, w) := m w in (r, (self, w)).

Definition persist : VM unit :=
  data ← (fun s => (vault_to_string (entries s.1), s));
  path ← gets (fun s => path s.1);
  on_world (write h path data).

Definition insert_entry (key encoded : string) (s : Vault * World) : Vault * World :=
  (mkVault (path s.1) (<[key := encoded]> (entries s.1)), s.2).

(** [Vault::store]. *)
Definition store (key value : string) : VM unit :=
  encrypted ← (fun s => (protect (Str.chars value), s));
  let encoded := encode encrypted in
  modify (insert_entry key encoded) ;;
  persist.

(** [Vault::retrieve]. *)
Definition retrieve (key : string) (self : Vault) : result string string :=
  encoded ← ok_or (entries self !! key) "missing vault key";
  encrypted ← decode encoded;
  decrypted ← unprotect encrypted;
  Utf8.from_utf8 decrypted.

Definition string_le (a b : string) : Prop := String.leb a b = true.
#[global] Instance string_le_dec a b : Decision (string_le a b).
Proof. unfold string_le. apply _. Defined.

(** [Vault::list_keys]. *)
Definition list_keys (self : Vault) : list string := merge_sort string_le (map fst (map_to_list (entries self))).
End Vault.

(** ** Properties *)

Section VaultProperties.
Context {b64 : Base64} {dp : DataProtection} {vj : VaultJson} (h : Host).
Context {b64_laws : Base64Laws} {dp_laws : DataProtectionLaws} {vj_laws : VaultJsonLaws}.

(** Retrieving what an insertion stored. *)
Lemma retrieve_inserted key value sealed self :
  fits (Str.chars value) -> protect (Str.chars value) = Ok sealed -> Utf8.valid (Str.chars value) = true ->
  entries self !! key = Some (encode sealed) -> retrieve key self = Ok value.
Proof.
  intros Hl Hp Hv He. unfold retrieve. rewrite He. cbn. rewrite decode_encode. cbn.
  rewrite (unprotect_protect _ _ Hl Hp). cbn. unfold Utf8.from_utf8.
  by rewrite Hv, string_of_list_ascii_of_string.
Qed.

Lemma retrieve_ext key self self' :
  entries self' !! key = entries self !! key -> retrieve key self' = retrieve key self.
Proof. unfold retrieve. by intros ->. Qed.

Lemma wp_make_parent p (Q : result string unit -> World -> Prop) w :
  (forall e, Q (Err e) (next_op w)) -> (forall n, Q (Ok tt) (mkWorld n (files w) (vars w))) ->
  wp (make_parent h p) Q w.
Proof.
  intros He Hok. unfold make_parent. destruct (Path.parent p); [by apply wp_create_dir_all|].
  apply wp_ret. specialize (Hok (ops w)). by destruct w.
Qed.

(** The three ways a store ends. *)
Lemma store_cases key value self w :
  let s := final (store h key value) (self, w) in
  (exists e, protect (Str.chars value) = Err e /\ outcome (store h key value) (self, w) = Err e /\ s = (self, w)) \/
  (exists sealed e, protect (Str.chars value) = Ok sealed /\ outcome (store h key value) (self, w) = Err e /\
     s.1 = mkVault (path self) (<[key := encode sealed]> (entries self))) \/
  (exists sealed data, protect (Str.chars value) = Ok sealed /\ outcome (store h key value) (self, w) = Ok tt /\
     s.1 = mkVault (path self) (<[key := encode sealed]> (entries self)) /\
     vault_to_string (entries s.1) = Ok data /\ vars s.2 = vars w /\ files s.2 = <[path self := data]> (files w)).
Proof.
  cbv zeta. unfold store, persist, on_world, write, outcome, final, mbind, eff_bind, modify, gets. cbn.
  destruct (protect (Str.chars value)) as [sealed|e]; [right | left; eauto]. cbn.
  destruct (vault_to_string (<[key:=encode sealed]> (entries self))) as [data|e] eqn:Hd; cbn; [|left; eauto].
  destruct (refused h (ops w)) as [[e l]|]; cbn; [left; eauto | right].
  exists sealed, data. split_and!; done.
Qed.

(** C22: the vault gives back what it was given.  However a store ends, a key
    other than the stored one retrieves as before; once the value is protected,
    the key retrieves the stored text, even when writing the file then failed.
    Any UTF-8 text up to 4 GiB works, whatever protection is used. *)
Theorem store_retrieve key value self w :
  fits (Str.chars value) -> Utf8.valid (Str.chars value) = true ->
  let self' := (final (store h key value) (self, w)).1 in
  (forall k, k <> key -> retrieve k self' = retrieve k self) /\
  (is_ok (protect (Str.chars value)) = true -> retrieve key self' = Ok value) /\
  (is_ok (protect (Str.chars value)) = false -> self' = self).
Proof.
  intros Hl Hv self'. unfold self'.
  destruct (store_cases key value self w)
    as [(e & Hp & _ & ->) | [(sealed & e & Hp & _ & ->) | (sealed & data & Hp & _ & -> & _)]]; rewrite Hp; cbn.
  - done.
  - split_and!; [intros k Hk; apply retrieve_ext; by apply lookup_insert_ne | | done].
    intros _. eapply retrieve_inserted; [done..|]. apply lookup_insert_eq.
  - split_and!; [intros k Hk; apply retrieve_ext; by apply lookup_insert_ne | | done].
    intros _. eapply retrieve_inserted; [done..|]. apply lookup_insert_eq.
Qed.

(** Opening the file a successful store left. *)
Lemma reopen_stored key value self w w' :
  outcome (store h key value) (self, w) = Ok tt ->
  let self' := (final (store h key value) (self, w)).1 in
  files w' = files (final (store h key value) (self, w)).2 ->
  (forall n, refused h n = None) ->
  exists w'', new h (Some (path self)) w' = (Ok self', w'') /\ files w'' = files w'.
Proof.
  intros Hok self' Hw Hserved. unfold self'.
  destruct (store_cases key value self w)
    as [(e & _ & Ho & _) | [(sealed & e & _ & Ho & _) | (sealed & data & Hp & _ & Hs & Hd & _ & Hf)]];
    [congruence | congruence |]. rewrite Hf in Hw. destruct (vault_from_to _ _ Hd) as [Hparse Hutf].
  rewrite Hs in Hparse |- *. cbn [entries] in Hparse.
  assert (exists w1, make_parent h (path self) w' = (Ok tt, w1) /\ files w1 = files w') as (w1 & H1 & Hf1).
  { unfold make_parent. destruct (Path.parent (path self)) as [d|]; [|by eexists]. unfold create_dir_all.
    destruct (Str.is_empty d); [by eexists|]. rewrite Hserved. by eexists. }
  exists (next_op w1). split; [|exact Hf1].
  unfold new, mbind, eff_bind, mret, eff_ret. rewrite H1. unfold path_exists, gets, read_to_string.
  rewrite Hf1, Hw, lookup_insert_eq, bool_decide_eq_true_2 by eauto.
  by rewrite Hserved, Hf1, Hw, lookup_insert_eq, Hutf, Hparse.
Qed.

(** A stored secret survives a restart.  After a store that succeeded, a
    vault opened on the same path in any later world with the same files (and
    an operating system that serves the two operations) holds the same entries:
    it lists the same keys and retrieves the same values. *)
Theorem store_survives_restart key value self w w' :
  outcome (store h key value) (self, w) = Ok tt ->
  let self' := (final (store h key value) (self, w)).1 in
  files w' = files (final (store h key value) (self, w)).2 ->
  (forall n, refused h n = None) ->
  exists w'', new h (Some (path self)) w' = (Ok self', w'') /\ files w'' = files w'.
Proof. apply reopen_stored. Qed.

(** C34: what the 32-bit length of a blob keeps.  On Windows a sealed value is
    unsealed to its first [n mod 2^32] bytes, [n] being its length: exactly the
    value below 4 GiB, and a proper prefix of it, without an error, from there
    on.  Sealed values always fit, so nothing more is lost on the way back. *)
Theorem dpapi_truncates {crypt : Crypt} {laws : CryptLaws} data sealed :
  protect (DataProtection := dpapi_protection) data = Ok sealed ->
  unprotect (DataProtection := dpapi_protection) sealed =
    Ok (take (Z.to_nat (Z.of_nat (length data) mod 2 ^ 32)) data) /\
  (unprotect (DataProtection := dpapi_protection) sealed = Ok data <-> fits data).
Proof.
  intros H. cbn in *. destruct (crypt_unprotect_protect _ _ H) as [Hs Hu]. rewrite (in_blob_fits _ Hs), Hu.
  split; [done|]. split; [|by intros ->%in_blob_fits].
  intros [= Hd]. apply (f_equal length) in Hd. unfold in_blob, Int.cast in Hd. rewrite length_take in Hd.
  unfold fits, Int.u32_max. pose proof (Z.mod_pos_bound (Z.of_nat (length data)) (2 ^ 32)). lia.
Qed.

(** A vault file that does not parse is replaced.  Opening it succeeds with
    no keys, every retrieval then fails as missing, and the first store that
    succeeds leaves a file with that single entry: the other secrets are gone
    without an error. *)
Theorem corrupt_vault_is_replaced p raw key value w e :
  files w !! p = Some raw -> vault_from_str raw = Err e ->
  wp (new h (Some p)) (fun x w1 => forall self, x = Ok self ->
    list_keys self = [] /\ (forall k, retrieve k self = Err "missing vault key") /\
    (outcome (store h key value) (self, w1) = Ok tt ->
     exists encoded data, vault_to_string {[key := encoded]} = Ok data /\
       files (final (store h key value) (self, w1)).2 = <[p := data]> (files w))) w.
Proof.
  intros Hraw Hbad. unfold new. apply wp_bind, wp_ret, wp_bind.
  apply wp_make_parent; [by intros e1 self|]. intros n. apply wp_bind, wp_gets. cbn [files].
  rewrite bool_decide_eq_true_2 by eauto. apply wp_bind, wp_read; [by intros e1 self|].
  intros data Hd. cbn [files] in Hd. apply wp_ret. intros self [= <-]. simplify_eq. rewrite Hbad.
  split_and!; [done | done |]. intros Hok.
  destruct (store_cases key value (mkVault p ∅) (next_op (mkWorld n (files w) (vars w))))
    as [(e1 & _ & Ho & _) | [(sealed & e1 & _ & Ho & _) | (sealed & data' & _ & _ & Hs & Hd' & _ & Hf)]];
    [congruence | congruence |].
  exists (encode sealed), data'. split; [|exact Hf]. by rewrite Hs in Hd'.
Qed.
End VaultProperties.

(** ** Witnesses *)

(** Base64 that leaves the text alone, and a JSON that knows one vault. *)
#[local] Instance demo_base64 : Base64 := {| encode := Str.of_chars; decode := fun s => Ok (Str.chars s) |}.
#[local] Instance demo_base64_laws : Base64Laws.
Proof. intros data. cbn. by rewrite list_ascii_of_string_of_list_ascii. Defined.

Definition demo_store : VaultStore := {["obs_password" := "s3cret"]}.
#[local] Instance demo_json : VaultJson := {|
  vault_to_string := fun s => if decide (s = demo_store) then Ok "{...}" else Err "unsupported";
  vault_from_str := fun s => if String.eqb s "{...}" then Ok demo_store else Err "expected value" |}.
#[local] Instance demo_json_laws : VaultJsonLaws.
Proof.
  intros s data H. cbn in *. destruct (decide (s = demo_store)) as [->|]; [|done].
  injection H as <-. by split.
Defined.

Definition demo_host : Host := {| refused := fun _ => None |}.
Definition demo_world : World := mkWorld 0 {["v.json" := "{"]} ∅.
Definition demo_vault : Vault := mkVault "v.json" ∅.

Lemma store_retrieve_witness :
  retrieve "obs_password" (final (store demo_host "obs_password" "s3cret") (demo_vault, demo_world)).1 = Ok "s3cret".
Proof. apply (store_retrieve demo_host "obs_password" "s3cret" demo_vault demo_world); [by vm_compute | reflexivity..]. Defined.

Lemma store_survives_restart_witness :
  exists w'', new demo_host (Some "v.json") (mkWorld 9 {["v.json" := "{...}"]} ∅) =
    (Ok (mkVault "v.json" demo_store), w'') /\ files w'' = {["v.json" := "{...}"]}.
Proof.
  assert (mkVault "v.json" demo_store =
    (final (store demo_host "obs_password" "s3cret") (demo_vault, demo_world)).1) as -> by (vm_compute; reflexivity).
  refine (store_survives_restart demo_host "obs_password" "s3cret" demo_vault demo_world
    (mkWorld 9 {["v.json" := "{...}"]} ∅) _ _ _); [vm_compute; reflexivity | vm_compute; reflexivity | reflexivity].
Defined.

(** A sealing that marks its input. *)
#[local] Instance demo_crypt : Crypt := {|
  CryptProtectData := fun data =>
    if (length data <? 64)%nat then Ok ("!"%char :: data) else Err "too large";
  CryptUnprotectData := fun data => match data with _ :: d => Ok d | [] => Err "invalid data" end |}.
#[local] Instance demo_crypt_laws : CryptLaws.
Proof.
  intros data sealed. unfold CryptProtectData, CryptUnprotectData. cbn -[Nat.ltb]. destruct (Nat.ltb_spec (length data) 64) as [Hl|Hl]; [|done]. intros [= <-]. split; [|done].
  unfold fits, Int.u32_max. cbn [length]. lia.
Qed.

Lemma dpapi_truncates_witness :
  unprotect (DataProtection := dpapi_protection) (Str.chars "!s3cret") = Ok (Str.chars "s3cret").
Proof.
  destruct (dpapi_truncates (Str.chars "s3cret") (Str.chars "!s3cret")) as [H _]; [by vm_compute|].
  rewrite H. vm_compute. reflexivity.
Defined.

Lemma corrupt_vault_is_replaced_witness :
  list_keys (mkVault "v.json" ∅) = [] /\
  files (final (store demo_host "obs_password" "s3cret") (demo_vault, mkWorld 1 {["v.json" := "{"]} ∅)).2 =
    {["v.json" := "{...}"]}.
Proof.
  pose proof (corrupt_vault_is_replaced demo_host "v.json" "{" "obs_password" "s3cret" demo_world
    "expected value" eq_refl eq_refl) as H.
  split; [exact (proj1 (H demo_vault eq_refl)) | reflexivity].
Defined.
