(* ===== verification/Aegis.v ===== *)
(** * Aegis: the control-plane client ([src/aegis/mod.rs])

    The relay session the backend returns, the requests the client builds, and
    how responses are read.  The HTTP stack is a set of parameters: URL handling
    ([UrlOps]), header values, JSON bodies, and the transport that answers a
    request. *)

From S2P Require Import Prelude RustStd Net.

(** ** Data *)

Record RelayStartClientContext := {
  obs_connected : option bool;
  ctx_mode : option string;
  requested_by : option string;
}.

Record RelayStartRequest := {
  region_preference : option string;
  client_context : option RelayStartClientContext;
}.

Record RelayStopRequest := {
  stop_session_id : string;
  stop_reason : string;
}.

Record RelayStopResponse := {
  stopped_session_id : string;
  stopped_status : string;
  stopped_at : option string;
}.

Record RelayEndpoint := {
  instance_id : option string;
  public_ip : option string;
  srt_port : option Z; (* u16 *)
  ws_url : option string;
}.

Record RelayCredentials := {
  pair_token : option string;
  relay_ws_token : option string;
}.

Record RelayTimers := {
  grace_window_seconds : option Z; (* u64 *)
  grace_remaining_seconds : option Z; (* u64 *)
  max_session_seconds : option Z; (* u64 *)
  max_session_remaining_seconds : option Z; (* u64 *)
}.

Record RelayUsage := {
  started_at : option string;
  ended_at : option string;
  duration_seconds : option Z; (* u64 *)
}.

Record RelaySession := {
  session_id : string;
  status : string;
  user_id : option string;
  region : option string;
  relay : option RelayEndpoint;
  credentials : option RelayCredentials;
  timers : option RelayTimers;
  usage : option RelayUsage;
}.

Record RelaySessionEnvelope := { session : RelaySession }.

(** [RelaySession::default()]. *)
Definition RelaySession_default : RelaySession := {|
  session_id := ""; status := ""; user_id := None; region := None; relay := None;
  credentials := None; timers := None; usage := None |}.

(** ** Normalisation of the relay address *)

(** Drop the prefix length of a CIDR notation, when it is one. *)
Definition normalize_ip_string (raw : string) : string :=
  let trimmed := Str.trim raw in
  match Str.rsplit_once "/" trimmed with
  | Some (candidate_ip, suffix) =>
      if negb (Str.is_empty suffix) && Str.all_ascii_digits suffix
         && bool_decide (is_Some (Net.parse_ip candidate_ip))
      then candidate_ip
      else trimmed
  | None => trimmed
  end.

Definition RelayEndpoint_normalize (self : RelayEndpoint) : RelayEndpoint := {|
  instance_id := instance_id self; public_ip := normalize_ip_string <$> public_ip self;
  srt_port := srt_port self; ws_url := ws_url self |}.

Definition normalize (self : RelaySession) : RelaySession := {|
  session_id := session_id self; status := status self; user_id := user_id self;
  region := region self; relay := RelayEndpoint_normalize <$> relay self;
  credentials := credentials self; timers := timers self; usage := usage self |}.

(** ** Errors *)

Inductive ControlPlaneError :=
  | CP_Config (text : string)
  | CP_Url (err : string)
  | CP_Http (err : string)
  | CP_Json (err : string)
  | CP_InvalidHeaderValue (err : string)
  | CP_Api (api_status : Z) (body : string).

(** [impl Display for ControlPlaneError]. *)
Definition ControlPlaneError_to_string (e : ControlPlaneError) : string :=
  match e with
  | CP_Config text => "config error: " +:+ text
  | CP_Url err => "url error: " +:+ err
  | CP_Http err => "http error: " +:+ err
  | CP_Json err => "json error: " +:+ err
  | CP_InvalidHeaderValue err => "invalid header value: " +:+ err
  | CP_Api status body => "api error " +:+ Str.show status +:+ ": " +:+ body
  end.

(** ** The HTTP stack *)

(** The [url] crate. *)
Class UrlOps (Url : Type) := {
  url_parse : string -> result string Url;
  url_path : Url -> string;
  url_set_path : string -> Url -> Url;
  url_join : Url -> string -> result string Url;
}.

(** [serde_json] at the types of the API. *)
Class ApiJson := {
  start_request_to_vec : RelayStartRequest -> result string string;
  stop_request_to_vec : RelayStopRequest -> result string string;
  session_envelope_from_str : string -> result string RelaySessionEnvelope;
  stop_response_from_str : string -> result string RelayStopResponse;
}.

Record Request (Url : Type) := mkRequest {
  method : string;
  url : Url;
  headers : list (string * string);
  request_body : option string;
}.
Arguments mkRequest {Url} _ _ _ _.
Arguments method {Url} _.
Arguments url {Url} _.
Arguments headers {Url} _.
Arguments request_body {Url} _.

(** [reqwest] and [http]: whether a client can be built, which strings are header
    values, and the answer to a request with the outcome of reading its text. *)
Record HttpStack (Url : Type) := {
  client_build : Z -> result string unit;
  header_value_from_str : string -> result string string;
  execute : Request Url -> result string (Z * result string string);
}.
Arguments client_build {Url} _ _.
Arguments header_value_from_str {Url} _ _.
Arguments execute {Url} _ _.

Definition DEFAULT_TIMEOUT_SECS : Z := 15.
Definition DEFAULT_CLIENT_PLATFORM : string := "windows".
Definition DEFAULT_CLIENT_VERSION : string := "0.0.3".

Record ControlPlaneClient (Url : Type) := mkClient {
  base_url : Url;
  access_jwt : string;
  client_version : string;
  client_platform : string;
}.
Arguments mkClient {Url} _ _ _ _.
Arguments base_url {Url} _.
Arguments access_jwt {Url} _.
Arguments client_version {Url} _.
Arguments client_platform {Url} _.

Record ControlPlaneClientBuilder := mkBuilder {
  b_base_url : string;
  b_access_jwt : string;
  b_client_version : string;
  b_client_platform : string;
  b_timeout : Z; (* seconds *)
}.

(** [ControlPlaneClientBuilder::new] and its setters. *)
Definition builder_new (url jwt : string) : ControlPlaneClientBuilder :=
  mkBuilder url jwt DEFAULT_CLIENT_VERSION DEFAULT_CLIENT_PLATFORM DEFAULT_TIMEOUT_SECS.
Definition builder_client_version (x : string) (b : ControlPlaneClientBuilder) :=
  mkBuilder (b_base_url b) (b_access_jwt b) x (b_client_platform b) (b_timeout b).
Definition builder_client_platform (x : string) (b : ControlPlaneClientBuilder) :=
  mkBuilder (b_base_url b) (b_access_jwt b) (b_client_version b) x (b_timeout b).
Definition builder_timeout (x : Z) (b : ControlPlaneClientBuilder) :=
  mkBuilder (b_base_url b) (b_access_jwt b) (b_client_version b) (b_client_platform b) x.

Definition blank (s : string) : bool := Str.is_empty (Str.trim s).

(** ** Responses *)

Definition is_success (status : Z) : bool := (200 <=? status)%Z && (status <? 300)%Z.

Section Responses.
Context `{!ApiJson}.

Definition parse_relay_active_response (status : Z) (body : string) :
    result ControlPlaneError (option RelaySession) :=
  if (status =? 204)%Z then Ok None
  else if negb (is_success status) then Err (CP_Api status body)
  else
    envelope ← map_err CP_Json (session_envelope_from_str body);
    Ok (Some (normalize (session envelope))).

Definition parse_relay_start_response (status : Z) (body : string) :
    result ControlPlaneError RelaySession :=
  if negb ((status =? 200)%Z || (status =? 201)%Z) then Err (CP_Api status body)
  else
    envelope ← map_err CP_Json (session_envelope_from_str body);
    Ok (normalize (session envelope)).

Definition parse_relay_stop_response (status : Z) (body : string) :
    result ControlPlaneError RelayStopResponse :=
  if negb (is_success status) then Err (CP_Api status body)
  else map_err CP_Json (stop_response_from_str body).
End Responses.

(** ** The client *)

Section Client.
Context {Url : Type} `{!UrlOps Url} `{!ApiJson} (http : HttpStack Url).

Definition from_parts (base_url_ access_jwt_ client_version_ client_platform_ : string) (timeout : Z) :
    result ControlPlaneError (ControlPlaneClient Url) :=
  if blank access_jwt_ then Err (CP_Config "control-plane access JWT must not be empty")
  else if blank client_version_ then Err (CP_Config "client version header value must not be empty")
  else if blank client_platform_ then Err (CP_Config "client platform header value must not be empty")
  else
    parsed ← map_err CP_Url (url_parse (Str.trim base_url_));
    let parsed :=
      if negb (Str.ends_with_char "/" (url_path parsed))
      then url_set_path (Str.trim_end_matches "/" (url_path parsed) +:+ "/") parsed
      else parsed in
    _ ← map_err CP_Http (client_build http timeout);
    Ok (mkClient parsed access_jwt_ client_version_ client_platform_).

Definition build (b : ControlPlaneClientBuilder) : result ControlPlaneError (ControlPlaneClient Url) :=
  from_parts (b_base_url b) (b_access_jwt b) (b_client_version b) (b_client_platform b) (b_timeout b).

Definition ControlPlaneClient_new (url jwt : string) : result ControlPlaneError (ControlPlaneClient Url) :=
  build (builder_new url jwt).

Implicit Types self : ControlPlaneClient Url.

Definition common_headers self : result ControlPlaneError (list (string * string)) :=
  auth ← map_err CP_InvalidHeaderValue (header_value_from_str http ("Bearer " +:+ access_jwt self));
  version ← map_err CP_InvalidHeaderValue (header_value_from_str http (Str.trim (client_version self)));
  platform ← map_err CP_InvalidHeaderValue (header_value_from_str http (Str.trim (client_platform self)));
  Ok [("authorization", auth); ("x-aegis-client-version", version); ("x-aegis-client-platform", platform)].

Definition build_request_builder (m path : string) self : result ControlPlaneError (Request Url) :=
  u ← map_err CP_Url (url_join (base_url self) ("api/v1/" +:+ path));
  hs ← common_headers self;
  Ok (mkRequest m u hs None).

(** [RequestBuilder::header]: an invalid value fails the final [build]. *)
Definition header (name value : string) (r : Request Url) : result ControlPlaneError (Request Url) :=
  v ← map_err CP_Http (header_value_from_str http value);
  Ok (mkRequest (method r) (url r) (headers r ++ [(name, v)]) (request_body r)).

Definition body (b : string) (r : Request Url) : Request Url :=
  mkRequest (method r) (url r) (headers r) (Some b).

Definition build_request (m path : string) self : result ControlPlaneError (Request Url) :=
  build_request_builder m path self.

Definition build_relay_active_request self : result ControlPlaneError (Request Url) :=
  build_request "GET" "relay/active" self.

Definition build_relay_start_request (idempotency_key : string) (request : RelayStartRequest) self :
    result ControlPlaneError (Request Url) :=
  if blank idempotency_key then Err (CP_Config "Idempotency-Key must not be empty for relay/start")
  else
    b ← map_err CP_Json (start_request_to_vec request);
    r ← build_request_builder "POST" "relay/start" self;
    r ← header "idempotency-key" (Str.trim idempotency_key) r;
    r ← header "content-type" "application/json" r;
    Ok (body b r).

Definition build_relay_stop_request (request : RelayStopRequest) self :
    result ControlPlaneError (Request Url) :=
  b ← map_err CP_Json (stop_request_to_vec request);
  r ← build_request_builder "POST" "relay/stop" self;
  r ← header "content-type" "application/json" r;
  Ok (body b r).

(** [self.http.execute(req).await?], its status, and [resp.text().await?]. *)
Definition fetch (r : Request Url) : result ControlPlaneError (Z * string) :=
  answer ← map_err CP_Http (execute http r);
  let (status, text) := (answer : Z * result string string) in
  b ← map_err CP_Http text;
  Ok (status, b).

Definition relay_active self : result ControlPlaneError (option RelaySession) :=
  r ← build_request "GET" "relay/active" self;
  answer ← fetch r;
  parse_relay_active_response answer.1 answer.2.

Definition relay_start (idempotency_key : string) (request : RelayStartRequest) self :
    result ControlPlaneError RelaySession :=
  r ← build_relay_start_request idempotency_key request self;
  answer ← fetch r;
  parse_relay_start_response answer.1 answer.2.

Definition relay_stop (request : RelayStopRequest) self : result ControlPlaneError RelayStopResponse :=
  r ← build_relay_stop_request request self;
  answer ← fetch r;
  parse_relay_stop_response answer.1 answer.2.
End Client.
