(* ===== verification/AegisSpec.v ===== *)
(** * AegisSpec: what the control-plane client promises

    Address normalisation, the validity of a client that could be built, the
    shape of the requests it sends, and how responses map to results. *)

From S2P Require Import Prelude RustStd Net Aegis.

#[local] Open Scope Z_scope.

(** ** Helper lemmas *)

Lemma no_white_space (codes : list (list ascii)) l :
  forallb (fun c => match c with a :: _ => negb (ip_char a) | [] => false end) codes = true ->
  forallb ip_char l = true -> Str.drop_code codes l = None.
Proof.
  intros Hcodes Hl. apply Str.drop_code_None. intros c l' Hc ->.
  rewrite forallb_forall in Hcodes. specialize (Hcodes c (proj1 (list_elem_of_In _ _) Hc)).
  destruct c as [|a c]; [done|]. cbn in Hl, Hcodes. by destruct (ip_char a).
Qed.

Lemma ip_trimmed s : forallb ip_char (Str.chars s) = true -> Str.trim s = s.
Proof.
  intros H. rewrite <- (string_of_list_ascii_of_string s) at 1 2. apply Str.trim_trimmed. split.
  - by apply no_white_space.
  - apply no_white_space; [done|]. rewrite forallb_forall in *. intros a Ha. apply H. by apply in_rev.
Qed.

Lemma ip_no_slash s : forallb ip_char (Str.chars s) = true -> Str.rsplit_once "/" s = None.
Proof.
  intros H. apply Str.rsplit_once_None. rewrite forallb_forall in *. intros a Ha. specialize (H a Ha).
  by destruct (Ascii.eqb_spec a "/") as [->|].
Qed.

(** The two outcomes of the normalisation. *)
Lemma normalize_ip_cases raw :
  let r := normalize_ip_string raw in
  (r = Str.trim raw /\ forall ip n, Str.rsplit_once "/" (Str.trim raw) = Some (ip, n) ->
     Str.is_empty n = true \/ Str.all_ascii_digits n = false \/ Net.parse_ip ip = None) \/
  (exists n, Str.rsplit_once "/" (Str.trim raw) = Some (r, n) /\ n <> "" /\
     Str.all_ascii_digits n = true /\ is_Some (Net.parse_ip r)).
Proof.
  cbv zeta. unfold normalize_ip_string. destruct (Str.rsplit_once "/" (Str.trim raw)) as [[ip n]|]; [|by left].
  destruct (negb (Str.is_empty n) && Str.all_ascii_digits n && bool_decide (is_Some (Net.parse_ip ip))) eqn:Hb.
  - right. apply andb_prop in Hb as [[Hn Hd]%andb_prop Hip%bool_decide_eq_true].
    exists n. split_and!; try done. intros ->. done.
  - left. split; [done|]. intros ip' n' ?. simplify_eq.
    apply andb_false_iff in Hb as [[Hn%negb_false_iff|Hd]%andb_false_iff|Hip%bool_decide_eq_false]; [by left|auto|].
    right. right. destruct (Net.parse_ip ip'); [|done]. by destruct Hip.
Qed.

Lemma normalize_ip_idemp raw : normalize_ip_string (normalize_ip_string raw) = normalize_ip_string raw.
Proof.
  destruct (normalize_ip_cases raw) as [[Hr _]|(n & _ & _ & _ & [a Ha])].
  - rewrite Hr at 1. unfold normalize_ip_string. by rewrite Str.trim_idemp.
  - set (r := normalize_ip_string raw) in *. apply parse_ip_chars in Ha.
    unfold normalize_ip_string. rewrite (ip_trimmed _ Ha), (ip_no_slash _ Ha). done.
Qed.

Lemma normalize_idemp s : normalize (normalize s) = normalize s.
Proof.
  destruct s as [? ? ? ? [[? [ip|] ? ?]|] ? ? ?]; unfold normalize, RelayEndpoint_normalize; cbn; [|done..].
  by rewrite normalize_ip_idemp.
Qed.

Lemma map_err_ok {E F A} (f : E -> F) (r : result E A) a : map_err f r = Ok a <-> r = Ok a.
Proof. destruct r; cbn; split; congruence. Qed.

Section ClientProperties.
Context {Url : Type} {url_ops : UrlOps Url} {api_json : ApiJson} (http : HttpStack Url).
Implicit Types self : ControlPlaneClient Url.

Lemma build_request_builder_ok m path self r :
  build_request_builder http m path self = Ok r ->
  exists auth version platform,
    url_join (base_url self) ("api/v1/" +:+ path) = Ok (url r) /\
    header_value_from_str http ("Bearer " +:+ access_jwt self) = Ok auth /\
    header_value_from_str http (Str.trim (client_version self)) = Ok version /\
    header_value_from_str http (Str.trim (client_platform self)) = Ok platform /\
    method r = m /\ request_body r = None /\
    headers r = [("authorization", auth); ("x-aegis-client-version", version);
                 ("x-aegis-client-platform", platform)].
Proof.
  unfold build_request_builder, common_headers. intros H.
  apply result_bind_ok in H as (u & Hu%map_err_ok & H).
  apply result_bind_ok in H as (hs & Hhs & H). injection H as <-.
  apply result_bind_ok in Hhs as (a & Ha%map_err_ok & Hhs).
  apply result_bind_ok in Hhs as (v & Hv%map_err_ok & Hhs).
  apply result_bind_ok in Hhs as (p & Hp%map_err_ok & Hhs). injection Hhs as <-.
  exists a, v, p. by split_and!.
Qed.

Lemma header_ok name value r r' :
  header http name value r = Ok r' ->
  exists v, header_value_from_str http value = Ok v /\ method r' = method r /\ url r' = url r /\
    request_body r' = request_body r /\ headers r' = headers r ++ [(name, v)].
Proof.
  intros H. apply result_bind_ok in H as (v & Hv%map_err_ok & H). injection H as <-.
  by exists v.
Qed.

(** Only an answer is an API error. *)
Definition not_api {A} (r : result ControlPlaneError A) : Prop :=
  forall status b, r <> Err (CP_Api status b).

Lemma not_api_bind {A B} (m : result ControlPlaneError A) (f : A -> result ControlPlaneError B) :
  not_api m -> (forall a, not_api (f a)) -> not_api (m ≫= f).
Proof.
  intros Hm Hf status b. destruct m as [a|e]; [apply Hf|]. intros [= ->]. by apply (Hm status b).
Qed.

Lemma not_api_map_err {E A} (f : E -> ControlPlaneError) (r : result E A) :
  (forall e status b, f e <> CP_Api status b) -> not_api (map_err f r).
Proof. intros Hf status b. destruct r; cbn; [done|]. intros [= Heq]. by apply (Hf _ _ _ Heq). Qed.

Lemma not_api_ok {A} (a : A) : not_api (Ok a).
Proof. done. Qed.

Lemma not_api_request_builder m path self : not_api (build_request_builder http m path self).
Proof.
  unfold build_request_builder, common_headers.
  repeat first [apply not_api_ok | apply not_api_map_err; done | apply not_api_bind; [|intros ?]].
Qed.

Lemma not_api_start key request self : not_api (build_relay_start_request http key request self).
Proof.
  unfold build_relay_start_request, header. destruct (blank key); [done|].
  repeat first [apply not_api_ok | apply not_api_request_builder | apply not_api_map_err; done
               | apply not_api_bind; [|intros ?]].
Qed.

Lemma not_api_fetch r : not_api (fetch http r).
Proof.
  unfold fetch. apply not_api_bind; [by apply not_api_map_err|]. intros [status text].
  apply not_api_bind; [by apply not_api_map_err | done].
Qed.

Lemma is_success_spec status : is_success status = true <-> 200 <= status < 300.
Proof. unfold is_success. lia. Qed.

(** ** Properties *)

(** A client that can be built is usable.  [from_parts] succeeds only with a
    non-blank token, version and platform and a URL that parses, keeps the
    three strings as given, and its base path ends with a slash, so that
    joining [api/v1/...] extends the path instead of replacing its last
    segment. *)
Theorem client_well_formed u jwt version platform timeout self :
  (forall p u, Str.ends_with_char "/" p = true -> url_path (url_set_path p u) = p) ->
  from_parts http u jwt version platform timeout = Ok self ->
  blank jwt = false /\ blank version = false /\ blank platform = false /\
  is_ok (url_parse (Url:=Url) (Str.trim u)) = true /\
  access_jwt self = jwt /\ client_version self = version /\ client_platform self = platform /\
  Str.ends_with_char "/" (url_path (base_url self)) = true.
Proof.
  intros Hset H. unfold from_parts in H.
  destruct (blank jwt); [done|]. destruct (blank version); [done|]. destruct (blank platform); [done|].
  apply result_bind_ok in H as (parsed & Hp%map_err_ok & H).
  apply result_bind_ok in H as ([] & _ & H). injection H as <-. cbn [access_jwt client_version client_platform base_url].
  split_and!; try done; [by rewrite Hp|].
  destruct (Str.ends_with_char "/" (url_path parsed)) eqn:Hs; cbn [negb]; [done|].
  assert (forall s, Str.ends_with_char "/" (s +:+ "/") = true) as Hslash.
  { intros s. unfold Str.ends_with_char. 
    assert (Str.chars (s +:+ "/") = Str.chars s ++ ["/"%char]) as ->
      by (induction s as [|a s IH]; [done | cbn; by rewrite <- IH]).
    by rewrite rev_app_distr. }
  by rewrite Hset.
Qed.

(** The shape of a relay start.  A blank idempotency key never reaches the
    network, whatever the transport would answer; a request that is built is a
    POST to [api/v1/relay/start] with the bearer token, the client headers, the
    trimmed key and a JSON body, in that order and nothing else. *)
Theorem relay_start_request_shape key request self :
  match build_relay_start_request http key request self with
  | Ok r => blank key = false /\ method r = "POST" /\
      url_join (base_url self) "api/v1/relay/start" = Ok (url r) /\
      (exists b, start_request_to_vec request = Ok b /\ request_body r = Some b) /\
      (headers r).*1 = ["authorization"; "x-aegis-client-version"; "x-aegis-client-platform";
                       "idempotency-key"; "content-type"] /\
      Forall2 (fun value sent => header_value_from_str http value = Ok sent)
        ["Bearer " +:+ access_jwt self; Str.trim (client_version self); Str.trim (client_platform self);
         Str.trim key; "application/json"] ((headers r).*2)
  | Err e => relay_start http key request self = Err e
  end /\
  (blank key = true ->
   relay_start http key request self = Err (CP_Config "Idempotency-Key must not be empty for relay/start")).
Proof.
  split; [|intros Hb; unfold relay_start, build_relay_start_request; by rewrite Hb].
  destruct (build_relay_start_request http key request self) as [r|e] eqn:Hr;
    [|unfold relay_start; by rewrite Hr].
  unfold build_relay_start_request in Hr. destruct (blank key); [done|].
  apply result_bind_ok in Hr as (b & Hb%map_err_ok & Hr).
  apply result_bind_ok in Hr as (r1 & H1 & Hr). apply build_request_builder_ok in H1.
  destruct H1 as (a & v & p & Hu & Ha & Hv & Hp & Hm & _ & Hh).
  apply result_bind_ok in Hr as (r2 & (k & Hk & Hm2 & Hu2 & _ & Hh2)%header_ok & Hr).
  apply result_bind_ok in Hr as (r3 & (c & Hc & Hm3 & Hu3 & _ & Hh3)%header_ok & Hr).
  injection Hr as <-. unfold body. cbn [method url headers request_body].
  rewrite Hh3, Hh2, Hh, Hm3, Hm2, Hm, Hu3, Hu2. cbn.
  split_and!; try done; [by exists b | repeat constructor; done].
Qed.

(** An answer read by [parse], or the error of an exchange that gave none. *)
Definition exchanged (req : result ControlPlaneError (Request Url)) : result ControlPlaneError (Z * string) :=
  r ← req; fetch http r.

Lemma exchanged_cases {A} (req : result ControlPlaneError (Request Url)) (parse : Z -> string -> result ControlPlaneError A) :
  not_api req ->
  match exchanged req with
  | Ok (status, b) => (r ← req; answer ← fetch http r; parse answer.1 answer.2) = parse status b
  | Err e => (r ← req; answer ← fetch http r; parse answer.1 answer.2) = Err e /\ forall status b, e <> CP_Api status b
  end.
Proof.
  intros Hreq. unfold exchanged. destruct req as [r|e]; cbn; [|split; [done|]; intros status b ->; by apply (Hreq status b)].
  pose proof (not_api_fetch r) as Hf. destruct (fetch http r) as [[status b]|e] eqn:He; cbn; [done|].
  split; [done|]. intros status b ->. by apply (Hf status b).
Qed.

(** A session in the body of an answer, with its address normalised. *)
Definition session_in (b : string) (s : RelaySession) : Prop :=
  exists e, session_envelope_from_str b = Ok e /\ s = normalize (session e).

(** C40: what an answer means, error by error.  When the exchange gives an answer,
    asking for the active relay says there is no session exactly on 204; returns
    a session exactly on another 2xx answer whose body has it; and is an API
    error, with the status and the body of the answer unchanged, exactly outside
    2xx, and a JSON error exactly when the body of another 2xx answer does not
    parse.  Starting returns the session exactly on 200 or 201 with a body that
    has it, and is the API error exactly on every other status.  An exchange that
    gives no answer ends both with its own error, which is never an API error.
    Every session that is returned has a clean address. *)
Theorem relay_answers key request self :
  let active := relay_active http self in
  let start := relay_start http key request self in
  match exchanged (build_request http "GET" "relay/active" self) with
  | Ok (status, b) =>
      (active = Ok None <-> status = 204) /\
      (forall s, active = Ok (Some s) <-> 200 <= status < 300 /\ status <> 204 /\ session_in b s) /\
      (forall st body, active = Err (CP_Api st body) <-> st = status /\ body = b /\ ~ 200 <= status < 300) /\
      (forall e, active = Err (CP_Json e) <->
         200 <= status < 300 /\ status <> 204 /\ session_envelope_from_str b = Err e)
  | Err e => active = Err e /\ forall st body, e <> CP_Api st body
  end /\
  match exchanged (build_relay_start_request http key request self) with
  | Ok (status, b) =>
      (forall s, start = Ok s <-> (status = 200 \/ status = 201) /\ session_in b s) /\
      (forall st body, start = Err (CP_Api st body) <-> st = status /\ body = b /\ status <> 200 /\ status <> 201) /\
      (forall e, start = Err (CP_Json e) <-> (status = 200 \/ status = 201) /\ session_envelope_from_str b = Err e)
  | Err e => start = Err e /\ forall st body, e <> CP_Api st body
  end /\
  (forall s, active = Ok (Some s) \/ start = Ok s -> normalize s = s).
Proof.
  cbv zeta. unfold relay_active, relay_start.
  pose proof (exchanged_cases (build_request http "GET" "relay/active" self) parse_relay_active_response
    (not_api_request_builder _ _ _)) as Ha.
  pose proof (exchanged_cases (build_relay_start_request http key request self) parse_relay_start_response
    (not_api_start _ _ _)) as Hs.
  unfold session_in. split_and!.
  - destruct (exchanged (build_request _ _ _ _)) as [[status b]|e]; [rewrite Ha | exact Ha].
    unfold parse_relay_active_response. pose proof (is_success_spec status) as H2.
    destruct (Z.eqb_spec status 204) as [->|Hne]; [|destruct (is_success status); cbn [negb]];
      [| destruct (session_envelope_from_str b); cbn |]; naive_solver.
  - destruct (exchanged (build_relay_start_request _ _ _ _)) as [[status b]|e]; [rewrite Hs | exact Hs].
    unfold parse_relay_start_response.
    destruct (Z.eqb_spec status 200), (Z.eqb_spec status 201); cbn [negb orb];
      try (destruct (session_envelope_from_str b); cbn); naive_solver.
  - intros s [H|H].
    + destruct (exchanged (build_request _ _ _ _)) as [[status b]|e]; [rewrite Ha in H | destruct Ha as [Ha _]; congruence].
      unfold parse_relay_active_response in H. repeat case_match; try done;
        destruct (session_envelope_from_str b); cbn in H; simplify_eq; apply normalize_idemp.
    + destruct (exchanged (build_relay_start_request _ _ _ _)) as [[status b]|e]; [rewrite Hs in H | destruct Hs as [Hs _]; congruence].
      unfold parse_relay_start_response in H. repeat case_match; try done;
        destruct (session_envelope_from_str b); cbn in H; simplify_eq; apply normalize_idemp.
Qed.
End ClientProperties.

(** The relay address is cleaned, once.  The result is the trimmed text
    without a [/n] suffix when what precedes it is an IP address, and the
    trimmed text otherwise; an address is never changed, and cleaning twice is
    cleaning once. *)
Theorem normalize_ip_spec raw :
  let r := normalize_ip_string raw in
  normalize_ip_string r = r /\
  (r = Str.trim raw \/
   exists n, Str.rsplit_once "/" (Str.trim raw) = Some (r, n) /\ n <> "" /\
     Str.all_ascii_digits n = true /\ is_Some (Net.parse_ip r)) /\
  (is_Some (Net.parse_ip raw) -> r = raw).
Proof.
  cbv zeta. split; [apply normalize_ip_idemp|]. split.
  { destruct (normalize_ip_cases raw) as [[Hr _]|H]; [by left | by right]. }
  intros [a Ha]. apply parse_ip_chars in Ha. unfold normalize_ip_string.
  by rewrite (ip_trimmed _ Ha), (ip_no_slash _ Ha).
Qed.

(** ** Witnesses *)

(** A URL is its path; every string is a header value; nothing answers. *)
#[local] Instance demo_url : UrlOps string := {|
  url_parse := Ok; url_path := fun u => u; url_set_path := fun p _ => p; url_join := fun u p => Ok (u +:+ p) |}.
Definition demo_http : HttpStack string := {|
  client_build := fun _ => Ok tt; header_value_from_str := Ok; execute := fun _ => Err "refused" |}.

Lemma client_well_formed_witness :
  from_parts demo_http " https://cp.example/base " "jwt" "0.0.3" "windows" 15 =
    Ok (mkClient "https://cp.example/base/" "jwt" "0.0.3" "windows") /\
  Str.ends_with_char "/" "https://cp.example/base/" = true.
Proof.
  split; [reflexivity|].
  refine (proj2 (proj2 (proj2 (proj2 (proj2 (proj2 (proj2
    (client_well_formed demo_http " https://cp.example/base " "jwt" "0.0.3" "windows" 15
      (mkClient "https://cp.example/base/" "jwt" "0.0.3" "windows") _ _))))))));
    [reflexivity | reflexivity].
Defined.
