(* ===== verification/Ipc.v ===== *)
(** * Ipc: data and pure operations of the plugin protocol ([src/ipc/mod.rs])

    Envelopes and payloads, the wire names of the enumerations, the
    protocol-error window, the per-session overrides and the status snapshot.
    The frame codec is in [IpcWire], the session loop in [IpcSession].
    Instants and durations are nanoseconds in [Z]. *)

From stdpp Require Import sorting.
From S2P Require Import Prelude RustStd Float Model Aegis.

#[local] Open Scope Z_scope.

(** ** Constants *)

Definition IPC_PROTOCOL_VERSION : Z := 1.
Definition MAX_FRAME_SIZE : Z := 64 * 1024.
Definition CMD_PIPE_NAME : string := "\\.\pipe\aegis_cmd_v1".
Definition EVT_PIPE_NAME : string := "\\.\pipe\aegis_evt_v1".

Definition from_millis (n : Z) : Z := n * 1000000.
Definition from_secs (n : Z) : Z := n * 1000000000.

Definition READ_POLL_TIMEOUT : Z := from_millis 250.
Definition STATUS_PUSH_INTERVAL : Z := from_millis 1000.
Definition HEARTBEAT_TIMEOUT : Z := from_millis 3500.
Definition PROTOCOL_ERROR_WINDOW : Z := from_secs 10.
Definition PROTOCOL_ERROR_RESET_THRESHOLD : nat := 5.

(** [env!("CARGO_PKG_VERSION")], from Cargo.toml. *)
Definition CARGO_PKG_VERSION : string := "0.0.3".

(** ** Debug status, shared with the HTTP server *)

Record IpcSwitchRequestDebug := {
  req_request_id : string;
  req_scene_name : string;
  req_reason : string;
  req_deadline_ms : Z;
  req_ts_unix_ms : Z;
}.

Record IpcSwitchResultDebug := {
  res_request_id : string;
  res_status : string;
  res_error : option string;
  res_ts_unix_ms : Z;
}.

Record IpcDebugStatus := {
  session_connected : bool;
  pending_switch_count : Z; (* u32 *)
  last_switch_request : option IpcSwitchRequestDebug;
  last_switch_result : option IpcSwitchResultDebug;
  last_notice : option string;
  updated_ts_unix_ms : option Z;
}.

(** [new_debug_status]: [IpcDebugStatus::default()]. *)
Definition new_debug_status : IpcDebugStatus := {|
  session_connected := false; pending_switch_count := 0; last_switch_request := None;
  last_switch_result := None; last_notice := None; updated_ts_unix_ms := None |}.

(** ** Messages *)

Inductive Priority := Critical | High | Normal | Low.

Record Envelope (T : Type) := mkEnvelope {
  v : Z; (* u8 *)
  id : string;
  ts_unix_ms : Z; (* u64 *)
  message_type : string;
  priority : Priority;
  payload : T;
}.
Arguments mkEnvelope {T} _ _ _ _ _ _.
Arguments v {T} _.
Arguments id {T} _.
Arguments ts_unix_ms {T} _.
Arguments message_type {T} _.
Arguments priority {T} _.
Arguments payload {T} _.

Record HelloPayload := {
  plugin_version : string;
  hello_protocol_version : Z; (* u8 *)
  obs_pid : Z; (* u32 *)
  capabilities : list string;
}.

Record PingPayload := { ping_nonce : string }.

Record RequestStatusPayload := mkRequestStatus { }.

Record HelloAckPayload := {
  core_version : string;
  ack_protocol_version : Z; (* u8 *)
  ack_capabilities : list string;
}.

Record PongPayload := { pong_nonce : string }.

Record SceneSwitchResultPayload := {
  result_request_id : string;
  result_ok : bool;
  result_error : option string;
}.

Record ObsShutdownNoticePayload := { shutdown_reason : string }.

Record SwitchScenePayload := {
  request_id : string;
  scene_name : string;
  reason : string;
  deadline_ms : Z; (* u64 *)
}.

Record SetModeRequestPayload := { mode_request : string }.

Record SetSettingRequestPayload := {
  setting_key : string;
  setting_value : bool;
}.

Inductive SnapshotMode := ModeStudio | ModeIrl.

Inductive SnapshotHealth := Good | Degraded | Offline.

Inductive RelayStatus := Inactive | Provisioning | Active | Grace.

Inductive StateModeV1 :=
  | SM_Studio | SM_IrlConnecting | SM_IrlActive | SM_IrlGrace | SM_Degraded | SM_Fatal.

#[global] Instance Priority_eq_dec : EqDecision Priority.
Proof. solve_decision. Defined.
#[global] Instance SnapshotMode_eq_dec : EqDecision SnapshotMode.
Proof. solve_decision. Defined.
#[global] Instance StateModeV1_eq_dec : EqDecision StateModeV1.
Proof. solve_decision. Defined.

Record RelaySnapshot := {
  relay_status : RelayStatus;
  relay_region : option string;
  relay_grace_remaining_seconds : Z; (* u64 *)
}.

Record StatusSnapshotSettingsPayload := {
  set_auto_scene_switch : option bool;
  set_low_quality_fallback : option bool;
  set_manual_override : option bool;
  set_chat_bot : option bool;
  set_alerts : option bool;
}.

Record StatusSnapshotPayload := {
  snap_mode : SnapshotMode;
  snap_state_mode : StateModeV1;
  snap_health : SnapshotHealth;
  snap_bitrate_kbps : Z; (* u32 *)
  snap_rtt_ms : Z; (* u32 *)
  snap_override_enabled : bool;
  snap_relay : RelaySnapshot;
  snap_settings : option StatusSnapshotSettingsPayload;
}.

Inductive UserNoticeLevel := Info | Warn | Error.

Record UserNoticePayload := {
  level : UserNoticeLevel;
  message : string;
}.

Inductive ProtocolErrorCode := FrameTooLarge | DecodeFailed | UnknownType | Timeout | InvalidPayload.

Record ProtocolErrorPayload := {
  code : ProtocolErrorCode;
  error_message : string;
  related_message_id : option string;
}.

(** The payload types the core writes to the event pipe. *)
Inductive EvtPayload :=
  | EvtHelloAck (p : HelloAckPayload)
  | EvtPong (p : PongPayload)
  | EvtStatusSnapshot (p : StatusSnapshotPayload)
  | EvtSwitchScene (p : SwitchScenePayload)
  | EvtUserNotice (p : UserNoticePayload)
  | EvtProtocolError (p : ProtocolErrorPayload).

Inductive CoreIpcCommand :=
  | SwitchScene (cmd_scene_name : string) (cmd_reason : string) (cmd_deadline_ms : Z).

Record PendingSwitchScene := {
  pending_scene_name : string;
  deadline_at : Z; (* Instant *)
}.

(** ** Wire names: [#[serde(rename_all = ...)]] on the enumerations *)

Definition Priority_name (p : Priority) : string :=
  match p with
  | Critical => "critical" | High => "high" | Normal => "normal" | Low => "low"
  end.

Definition SnapshotMode_name (m : SnapshotMode) : string :=
  match m with ModeStudio => "studio" | ModeIrl => "irl" end.

Definition SnapshotHealth_name (h : SnapshotHealth) : string :=
  match h with Good => "good" | Degraded => "degraded" | Offline => "offline" end.

Definition RelayStatus_name (s : RelayStatus) : string :=
  match s with
  | Inactive => "inactive" | Provisioning => "provisioning" | Active => "active" | Grace => "grace"
  end.

Definition StateModeV1_name (m : StateModeV1) : string :=
  match m with
  | SM_Studio => "STUDIO" | SM_IrlConnecting => "IRL_CONNECTING" | SM_IrlActive => "IRL_ACTIVE"
  | SM_IrlGrace => "IRL_GRACE" | SM_Degraded => "DEGRADED" | SM_Fatal => "FATAL"
  end.

Definition UserNoticeLevel_name (l : UserNoticeLevel) : string :=
  match l with Info => "info" | Warn => "warn" | Error => "error" end.

Definition ProtocolErrorCode_name (c : ProtocolErrorCode) : string :=
  match c with
  | FrameTooLarge => "frame_too_large" | DecodeFailed => "decode_failed"
  | UnknownType => "unknown_type" | Timeout => "timeout" | InvalidPayload => "invalid_payload"
  end.

(** ** Protocol-error window *)

Module ProtocolErrorTracker.

(** [recent : VecDeque<Instant>], front first. *)
Definition t : Type := list Z.

Definition new : t := [].

(** [now.duration_since(x)], which saturates at zero. *)
Definition duration_since (now x : Z) : Z := Z.max 0 (now - x).

(** The [while let Some(front)] loop. *)
Fixpoint pop_stale (now : Z) (recent : t) : t :=
  match recent with
  | [] => []
  | front :: recent' =>
      if PROTOCOL_ERROR_WINDOW <? duration_since now front then pop_stale now recent'
      else recent
  end.

(** The clock reading [now] is the caller's. *)
Definition record_and_should_reset (now : Z) (self : t) : bool * t :=
  let recent := pop_stale now (self ++ [now]) in
  (bool_decide (PROTOCOL_ERROR_RESET_THRESHOLD < length recent)%nat, recent).

End ProtocolErrorTracker.

(** ** Session overrides *)

Module SessionOverrides.

Record t := mk {
  mode : option SnapshotMode;
  auto_scene_switch : option bool;
  low_quality_fallback : option bool;
  manual_override : option bool;
  chat_bot : option bool;
  alerts : option bool;
}.

Definition default : t := mk None None None None None None.

Definition set_mode_if_changed (m : SnapshotMode) (self : t) : bool * t :=
  if bool_decide (mode self = Some m) then (false, self)
  else (true, mk (Some m) (auto_scene_switch self) (low_quality_fallback self)
                 (manual_override self) (chat_bot self) (alerts self)).

Definition apply_setting_if_changed (key : string) (value : bool) (self : t) :
    result unit bool * t :=
  let '(mk m a l o c n) := self in
  if String.eqb key "auto_scene_switch" then
    if bool_decide (a = Some value) then (Ok false, self) else (Ok true, mk m (Some value) l o c n)
  else if String.eqb key "low_quality_fallback" then
    if bool_decide (l = Some value) then (Ok false, self) else (Ok true, mk m a (Some value) o c n)
  else if String.eqb key "manual_override" then
    if bool_decide (o = Some value) then (Ok false, self) else (Ok true, mk m a l (Some value) c n)
  else if String.eqb key "chat_bot" then
    if bool_decide (c = Some value) then (Ok false, self) else (Ok true, mk m a l o (Some value) n)
  else if String.eqb key "alerts" then
    if bool_decide (n = Some value) then (Ok false, self) else (Ok true, mk m a l o c (Some value))
  else (Err tt, self).

Definition is_some {A} (o : option A) : bool := match o with Some _ => true | None => false end.

Definition has_any_settings (self : t) : bool :=
  is_some (auto_scene_switch self) || is_some (low_quality_fallback self)
  || is_some (manual_override self) || is_some (chat_bot self) || is_some (alerts self).

End SessionOverrides.

(** ** Status snapshot *)

Definition derive_state_mode (frame : TelemetryFrame) (relay_session : option RelaySession) :
    StateModeV1 :=
  if negb (connected (obs frame)) then SM_Degraded
  else match status <$> relay_session with
       | Some s =>
           if String.eqb s "provisioning" then SM_IrlConnecting
           else if String.eqb s "active" then SM_IrlActive
           else if String.eqb s "grace" then SM_IrlGrace
           else SM_Studio
       | None => SM_Studio
       end.

(** The [relay] field: the [match relay_session] of the builder. *)
Definition relay_snapshot (relay_session : option RelaySession) : RelaySnapshot :=
  match relay_session with
  | Some session =>
      {| relay_status :=
           if String.eqb (status session) "provisioning" then Provisioning
           else if String.eqb (status session) "active" then Active
           else if String.eqb (status session) "grace" then Grace
           else Inactive;
         relay_region := region session;
         relay_grace_remaining_seconds :=
           unwrap_or (timers session ≫= grace_remaining_seconds) 0 |}
  | None =>
      {| relay_status := Inactive; relay_region := None; relay_grace_remaining_seconds := 0 |}
  end.

Definition build_status_snapshot_with_overrides (frame : TelemetryFrame)
    (relay_session : option RelaySession) (overrides : SessionOverrides.t) :
    StatusSnapshotPayload :=
  let state_mode := derive_state_mode frame relay_session in
  let mode :=
    match state_mode with
    | SM_IrlConnecting | SM_IrlActive | SM_IrlGrace => ModeIrl
    | _ => ModeStudio
    end in
  let mode := match SessionOverrides.mode overrides with Some m => m | None => mode end in
  let health :=
    if negb (connected (obs frame)) then Offline
    else if F32.ltb (health frame) F32.half then Degraded
    else Good in
  let bitrate_kbps :=
    fold_left (Int.saturating_add Int.u32_max) (map bitrate_kbps (streams frame)) 0 in
  {| snap_mode := mode;
     snap_state_mode := state_mode;
     snap_health := health;
     snap_bitrate_kbps := bitrate_kbps;
     snap_rtt_ms := F32.as_u32 (F32.round (F32.max (latency_ms (network frame)) F32.zero));
     snap_override_enabled := unwrap_or (SessionOverrides.manual_override overrides) false;
     snap_relay := relay_snapshot relay_session;
     snap_settings :=
       if SessionOverrides.has_any_settings overrides then
         Some {| set_auto_scene_switch := SessionOverrides.auto_scene_switch overrides;
                 set_low_quality_fallback := SessionOverrides.low_quality_fallback overrides;
                 set_manual_override := SessionOverrides.manual_override overrides;
                 set_chat_bot := SessionOverrides.chat_bot overrides;
                 set_alerts := SessionOverrides.alerts overrides |}
       else None |}.

Definition build_status_snapshot (frame : TelemetryFrame) (relay_session : option RelaySession) :
    StatusSnapshotPayload :=
  build_status_snapshot_with_overrides frame relay_session SessionOverrides.default.

(** ** Protocol-error window: abstract specification *)

(** What the protocol document asks for: count the errors of the last ten
    seconds in the whole history. *)
Definition recent_errors (now : Z) (history : list Z) : list Z :=
  filter (fun x => now - x <= PROTOCOL_ERROR_WINDOW) history.

Definition spec_should_reset (now : Z) (history : list Z) : bool :=
  bool_decide (PROTOCOL_ERROR_RESET_THRESHOLD < length (recent_errors now history))%nat.

(** The tracker after a history of errors, oldest first. *)
Definition track (history : list Z) : ProtocolErrorTracker.t :=
  fold_left (fun self x => snd (ProtocolErrorTracker.record_and_should_reset x self)) history
    ProtocolErrorTracker.new.

(** [Instant] readings do not go back. *)
Definition ascending (l : list Z) : Prop := StronglySorted Z.le l.

Lemma ascending_snoc l x :
  ascending (l ++ [x]) <-> ascending l /\ Forall (fun y => y <= x) l.
Proof.
  unfold ascending. rewrite StronglySorted_app, Forall_forall. split.
  - intros (H1 & H2 & _). split; [done|]. intros y Hy. apply H1; [done|]. by apply list_elem_of_singleton.
  - intros (H1 & H2). split_and!; [|done | repeat constructor].
    intros y x' Hy ->%list_elem_of_singleton. auto.
Qed.

Lemma ascending_filter (P : Z -> Prop) `{!forall x, Decision (P x)} l :
  ascending l -> ascending (filter P l).
Proof.
  induction 1 as [|x l Hs IH Hf]; [constructor|].
  rewrite filter_cons. case_decide; [|done]. constructor; [done|].
  rewrite Forall_forall in *. intros y [_ Hy]%list_elem_of_filter. auto.
Qed.

Lemma recent_errors_all now l :
  Forall (fun x => now - x <= PROTOCOL_ERROR_WINDOW) l -> recent_errors now l = l.
Proof.
  unfold recent_errors. induction 1; [done|]. rewrite filter_cons. case_decide; [by f_equal | done].
Qed.

Lemma pop_stale_filter now l :
  ascending l -> Forall (fun x => x <= now) l ->
  ProtocolErrorTracker.pop_stale now l = recent_errors now l.
Proof.
  intros Hs Hle. induction Hs as [|x l Hs IH Hx]; [done|].
  apply Forall_cons in Hle as [Hxn Hle]. cbn [ProtocolErrorTracker.pop_stale].
  unfold ProtocolErrorTracker.duration_since. rewrite Z.max_r by lia.
  destruct (Z.ltb_spec PROTOCOL_ERROR_WINDOW (now - x)).
  - rewrite IH by done. unfold recent_errors. rewrite filter_cons. case_decide; [lia | done].
  - symmetry. apply recent_errors_all. constructor; [lia|].
    eapply Forall_impl; [exact Hx|]. cbn. intros. lia.
Qed.

Lemma recent_errors_mono t now l :
  t <= now -> recent_errors now (recent_errors t l) = recent_errors now l.
Proof.
  intros Hn. unfold recent_errors. induction l as [|x l IH]; [done|].
  rewrite !filter_cons. repeat case_decide; rewrite ?filter_cons; repeat case_decide; try lia; congruence.
Qed.

Lemma record_recent t now history :
  ascending (history ++ [now]) -> t <= now ->
  ProtocolErrorTracker.record_and_should_reset now (recent_errors t history) =
    (spec_should_reset now (history ++ [now]), recent_errors now (history ++ [now])).
Proof.
  intros [Hh Hle]%ascending_snoc Ht.
  unfold ProtocolErrorTracker.record_and_should_reset, spec_should_reset.
  assert (Forall (fun x => x <= now) (recent_errors t history)) as Hle'.
  { rewrite Forall_forall in *. intros x [_ Hx]%list_elem_of_filter. auto. }
  replace (ProtocolErrorTracker.pop_stale now (recent_errors t history ++ [now]))
    with (recent_errors now (history ++ [now])); [done|].
  rewrite pop_stale_filter.
  - unfold recent_errors. rewrite !filter_app. f_equal. symmetry. by apply recent_errors_mono.
  - apply ascending_snoc. split; [by apply ascending_filter | done].
  - apply Forall_app; split; [done | repeat constructor; lia].
Qed.

Lemma track_recent history now :
  ascending (history ++ [now]) -> exists t, t <= now /\ track history = recent_errors t history.
Proof.
  revert now. induction history as [|x history IH] using rev_ind; intros now Hs.
  - exists now. split; [lia | done].
  - apply ascending_snoc in Hs as [Hs Hle].
    apply Forall_app in Hle as [_ Hxn]. apply Forall_inv in Hxn.
    destruct (IH x Hs) as (t & Ht & Htr). exists x. split; [done|].
    unfold track in *. rewrite fold_left_app, Htr. cbn [fold_left].
    by rewrite (record_recent t x history Hs Ht).
Qed.

(** ** Overrides: the five settings as one table *)

(** The slot of a key: [None] for a key that is not supported. *)
Definition setting_of (o : SessionOverrides.t) (key : string) : option (option bool) :=
  if String.eqb key "auto_scene_switch" then Some (SessionOverrides.auto_scene_switch o)
  else if String.eqb key "low_quality_fallback" then Some (SessionOverrides.low_quality_fallback o)
  else if String.eqb key "manual_override" then Some (SessionOverrides.manual_override o)
  else if String.eqb key "chat_bot" then Some (SessionOverrides.chat_bot o)
  else if String.eqb key "alerts" then Some (SessionOverrides.alerts o)
  else None.

(** Case analysis on which key a string is. *)
Ltac split_keys :=
  repeat match goal with
         | |- context [ String.eqb ?x ?y ] => destruct (String.eqb_spec x y); subst
         | H : context [ String.eqb ?x ?y ] |- _ => destruct (String.eqb_spec x y); subst
         end.

Lemma apply_setting_unsupported key value o :
  setting_of o key = None ->
  SessionOverrides.apply_setting_if_changed key value o = (Err tt, o).
Proof. destruct o. unfold setting_of, SessionOverrides.apply_setting_if_changed. split_keys; done. Qed.

Lemma apply_setting_same key value o :
  setting_of o key = Some (Some value) ->
  SessionOverrides.apply_setting_if_changed key value o = (Ok false, o).
Proof.
  destruct o. unfold setting_of, SessionOverrides.apply_setting_if_changed. cbn.
  split_keys; intros; simplify_eq; by case_bool_decide.
Qed.

Lemma apply_setting_changed key value o cur :
  setting_of o key = Some cur -> cur <> Some value ->
  exists o', SessionOverrides.apply_setting_if_changed key value o = (Ok true, o')
    /\ SessionOverrides.mode o' = SessionOverrides.mode o
    /\ forall key', setting_of o' key' =
         if String.eqb key' key then Some (Some value) else setting_of o key'.
Proof.
  destruct o. unfold setting_of, SessionOverrides.apply_setting_if_changed. cbn.
  intros Hk Hne.
  split_keys; simplify_eq; case_bool_decide; try done; eexists; (split; [reflexivity|]); cbn;
    (split; [done|]); intros key'; split_keys; done.
Qed.

(** A no-op really is one. *)
Lemma apply_setting_unchanged key value o o' :
  SessionOverrides.apply_setting_if_changed key value o = (Ok false, o') -> o' = o.
Proof. destruct o. unfold SessionOverrides.apply_setting_if_changed. by intros H; split_matches_in H. Qed.

Lemma has_any_settings_spec o :
  SessionOverrides.has_any_settings o = true <->
  exists key value, setting_of o key = Some (Some value).
Proof.
  split.
  - destruct o as [m [a|] [l|] [o|] [c|] [n|]]; cbn; intros H; try discriminate;
      first [ by exists "auto_scene_switch", a | by exists "low_quality_fallback", l
            | by exists "manual_override", o | by exists "chat_bot", c | by exists "alerts", n ].
  - intros (key & value & H). destruct o. unfold setting_of in H. cbn in H.
    split_keys; simplify_eq; unfold SessionOverrides.has_any_settings; cbn; by rewrite ?orb_true_r.
Qed.

(** ** Snapshot arithmetic *)

Lemma foldr_add_nonneg l : Forall (fun x => 0 <= x) l -> 0 <= foldr Z.add 0 l.
Proof. induction 1; cbn; lia. Qed.

Lemma saturating_fold mx l : forall acc,
  0 <= acc <= mx -> Forall (fun x => 0 <= x) l ->
  fold_left (Int.saturating_add mx) l acc = Z.min mx (acc + foldr Z.add 0 l).
Proof.
  induction l as [|x l IH]; cbn; intros acc Hacc Hl; [lia|].
  apply Forall_cons in Hl as [Hx Hl]. pose proof (foldr_add_nonneg l Hl).
  unfold Int.saturating_add in *. rewrite IH by (done || lia). lia.
Qed.

(** The relay statuses that put the session in IRL mode. *)
Definition irl_status (s : string) : bool :=
  String.eqb s "provisioning" || String.eqb s "active" || String.eqb s "grace".

Definition irl_relay (relay_session : option RelaySession) : bool :=
  match relay_session with Some session => irl_status (status session) | None => false end.

(** ** Properties *)

(** C25: the protocol-error tracker refines the protocol's rule.  Recording an
    error at [now] after any history of errors asks for a reset exactly when
    more than five errors of the whole history, this one included, are at most
    ten seconds old, although the tracker forgets old errors as it goes. *)
Theorem tracker_refines_window (history : list Z) (now : Z) :
  ascending (history ++ [now]) ->
  fst (ProtocolErrorTracker.record_and_should_reset now (track history)) =
    spec_should_reset now (history ++ [now]).
Proof.
  intros Hs. destruct (track_recent history now Hs) as (t & Ht & ->).
  by rewrite (record_recent t now history Hs Ht).
Qed.

(** Applying a setting is an update of a five-entry table.  A key outside
    the table is rejected and nothing changes; otherwise the slot of the key
    takes the value, no other setting and not the mode is touched, and the
    result says whether the slot really changed. *)
Theorem apply_setting_spec (key : string) (value : bool) (o : SessionOverrides.t) :
  let (res, o') := SessionOverrides.apply_setting_if_changed key value o in
  match setting_of o key with
  | None => res = Err tt /\ o' = o
  | Some cur =>
      res = Ok (bool_decide (cur <> Some value))
      /\ (cur = Some value -> o' = o)
      /\ SessionOverrides.mode o' = SessionOverrides.mode o
      /\ forall key', setting_of o' key' =
           if String.eqb key' key then Some (Some value) else setting_of o key'
  end.
Proof.
  destruct (setting_of o key) as [cur|] eqn:Hk.
  - destruct (decide (cur = Some value)) as [->|Hne].
    + rewrite (apply_setting_same _ _ _ Hk), bool_decide_false by tauto. split_and!; [done..|].
      intros key'. destruct (String.eqb_spec key' key) as [->|]; [exact Hk | reflexivity].
    + destruct (apply_setting_changed _ _ _ _ Hk Hne) as (o' & -> & Hm & Ho).
      rewrite bool_decide_true by done. split_and!; done.
  - by rewrite (apply_setting_unsupported _ _ _ Hk).
Qed.

(** How a snapshot classifies the session.  Without OBS the state is
    DEGRADED and the health offline; with OBS the state follows the relay
    status and the health is never offline.  The dock mode is IRL exactly when
    OBS is connected and the relay is provisioning, active or in grace, unless
    the user chose a mode, which then wins; the state machine's mode and the
    health ignore the choice.  FATAL is never reported. *)
Theorem snapshot_classification (frame : TelemetryFrame) (relay : option RelaySession)
    (o : SessionOverrides.t) :
  let snap := build_status_snapshot_with_overrides frame relay o in
  let up := connected (obs frame) in
  (snap_state_mode snap = SM_Degraded <-> up = false)
  /\ (snap_health snap = Offline <-> up = false)
  /\ snap_state_mode snap <> SM_Fatal
  /\ snap_mode snap =
       unwrap_or (SessionOverrides.mode o) (if up && irl_relay relay then ModeIrl else ModeStudio)
  /\ (snap_state_mode snap = SM_Studio <-> up = true /\ irl_relay relay = false)
  /\ snap_state_mode snap = snap_state_mode (build_status_snapshot frame relay)
  /\ snap_health snap = snap_health (build_status_snapshot frame relay).
Proof.
  cbn. unfold derive_state_mode, irl_relay, irl_status.
  destruct (connected (obs frame)), relay as [r|], (SessionOverrides.mode o);
    cbn; split_keys; cbn; destruct (F32.ltb (health frame) F32.half); naive_solver.
Qed.

(** Snapshot numbers stay in their 32-bit fields.  The bitrate is the exact
    sum over the outputs, saturated at [u32::MAX], and the round-trip time fits
    whatever the measured latency is, NaN and infinities included. *)
Theorem snapshot_numbers (frame : TelemetryFrame) (relay : option RelaySession)
    (o : SessionOverrides.t) :
  TelemetryFrame_wf frame ->
  let snap := build_status_snapshot_with_overrides frame relay o in
  snap_bitrate_kbps snap =
    Z.min Int.u32_max (foldr Z.add 0 (map bitrate_kbps (streams frame)))
  /\ 0 <= snap_bitrate_kbps snap <= Int.u32_max
  /\ 0 <= snap_rtt_ms snap <= Int.u32_max.
Proof.
  intros Hwf. cbn. assert (Forall (fun x => 0 <= x) (map bitrate_kbps (streams frame))) as Hpos.
  { apply Forall_map. eapply Forall_impl; [exact Hwf|]. cbn. intros x Hx. apply Hx. }
  rewrite (saturating_fold Int.u32_max) by (done || unfold Int.u32_max; lia).
  rewrite Z.add_0_l. split; [done|]. split; [|apply as_u32_range].
  pose proof (foldr_add_nonneg _ Hpos). unfold Int.u32_max. lia.
Qed.

(** Settings reach the dock.  A snapshot carries a settings object exactly
    when some setting was made, the object agrees with the table key by key,
    and [override_enabled] is the manual override, off until it is set. *)
Theorem snapshot_settings (frame : TelemetryFrame) (relay : option RelaySession)
    (o : SessionOverrides.t) :
  let snap := build_status_snapshot_with_overrides frame relay o in
  (snap_settings snap = None <-> forall key cur, setting_of o key = Some cur -> cur = None)
  /\ (snap_override_enabled snap = true <-> setting_of o "manual_override" = Some (Some true))
  /\ match snap_settings snap with
     | Some p =>
         setting_of o "auto_scene_switch" = Some (set_auto_scene_switch p)
         /\ setting_of o "low_quality_fallback" = Some (set_low_quality_fallback p)
         /\ setting_of o "manual_override" = Some (set_manual_override p)
         /\ setting_of o "chat_bot" = Some (set_chat_bot p)
         /\ setting_of o "alerts" = Some (set_alerts p)
     | None => True
     end.
Proof.
  cbn. pose proof (has_any_settings_spec o) as Hany. split_and!.
  - destruct (SessionOverrides.has_any_settings o); split; try done.
    + intros H. destruct Hany as [(key & value & Hk) _]; [done|]. by specialize (H _ _ Hk).
    + intros _ key [b|] Hk; [|done]. destruct Hany as [_ Hany]. discriminate Hany; eauto.
  - cbn. destruct (SessionOverrides.manual_override o) as [[]|]; cbn; naive_solver.
  - by destruct (SessionOverrides.has_any_settings o).
Qed.

(** ** Witnesses *)

Lemma tracker_refines_window_witness :
  fst (ProtocolErrorTracker.record_and_should_reset (from_secs 12)
         (track [0; from_secs 3; from_secs 4; from_secs 5; from_secs 6; from_secs 7])) = true.
Proof.
  rewrite (tracker_refines_window [0; from_secs 3; from_secs 4; from_secs 5; from_secs 6; from_secs 7]).
  - reflexivity.
  - unfold from_secs. repeat constructor; lia.
Defined.

Definition demo_output (kbps : Z) : StreamOutput := {|
  so_name := "adv_stream"; bitrate_kbps := kbps; drop_pct := F32.zero; fps := F32.zero;
  encoding_lag_ms := F32.zero |}.

Definition demo_frame : TelemetryFrame := {|
  timestamp_unix := 0; health := F32.one; obs := ObsFrame_default; system := SystemFrame_default;
  streams := [demo_output 4000000000; demo_output 4000000000];
  network := {| upload_mbps := F32.zero; download_mbps := F32.zero;
                latency_ms := F32.div (F32.of_Z 724) (F32.of_Z 10) |} |}.

Lemma snapshot_numbers_witness :
  snap_bitrate_kbps (build_status_snapshot demo_frame None) = Int.u32_max
  /\ snap_rtt_ms (build_status_snapshot demo_frame None) = 72.
Proof.
  split; [|vm_compute; reflexivity].
  assert (TelemetryFrame_wf demo_frame) as Hwf.
  { repeat constructor; vm_compute; discriminate. }
  destruct (snapshot_numbers demo_frame None SessionOverrides.default Hwf) as [H _]. exact H.
Defined.
