(* ===== verification/Msgpack.v ===== *)
(** * Msgpack: the values of [serde_json] and their MessagePack encoding

    [rmp_serde] and [serde_json] are not part of the repository: the components
    take them as the classes [WireCodec] and [PayloadCodec].  This file is the
    published format restricted to what the protocol's messages contain (null,
    booleans, unsigned integers, strings, arrays, maps), as [rmp] writes it:
    every length and number in the shortest form.  [Schema] makes the classes'
    instances of it, on which the tests of the crate are run and the laws the
    components assume are proved. *)

From Stdlib Require Import Strings.Byte.
From S2P Require Import Prelude RustStd.
From coqutil Require Word.LittleEndianList.

#[local] Open Scope Z_scope.

Abbreviation bytes := (list Byte.byte).

#[local] Unset Elimination Schemes.
(** [serde_json::Value]; an object's keys are distinct. *)
Inductive Json :=
  | JNull
  | JBool (b : bool)
  | JNum (n : Z)
  | JStr (s : string)
  | JArr (l : list Json)
  | JObj (m : list (string * Json)).
#[local] Set Elimination Schemes.

Section Induction.
Variable P : Json -> Prop.
Hypothesis null : P JNull.
Hypothesis bool_ : forall b, P (JBool b).
Hypothesis num : forall n, P (JNum n).
Hypothesis str : forall s, P (JStr s).
Hypothesis arr : forall l, Forall P l -> P (JArr l).
Hypothesis obj : forall m, Forall (fun kv => P kv.2) m -> P (JObj m).

Fixpoint Json_ind (j : Json) : P j :=
  match j with
  | JNull => null
  | JBool b => bool_ b
  | JNum n => num n
  | JStr s => str s
  | JArr l => arr l ((fix all l := match l return Forall P l with
                                   | [] => Forall_nil_2 _
                                   | j :: l => Forall_cons_2 _ _ _ (Json_ind j) (all l)
                                   end) l)
  | JObj m => obj m ((fix all m := match m return Forall (fun kv : string * Json => P kv.2) m with
                                   | [] => Forall_nil_2 _
                                   | kv :: m => Forall_cons_2 _ _ _ (Json_ind kv.2) (all m)
                                   end) m)
  end.
End Induction.

(** ** Bytes *)

Definition to_byte (n : Z) : Byte.byte := default x00%byte (Byte.of_N (Z.to_N n)).
Definition of_byte (b : Byte.byte) : Z := Z.of_N (Byte.to_N b).

(** Big endian, on [w] bytes. *)
Definition be (w : nat) (n : Z) : bytes := reverse (LittleEndianList.le_split w n).
Definition from_be (bs : bytes) : Z := LittleEndianList.le_combine (reverse bs).

Definition bytes_of (s : string) : bytes := list_byte_of_string s.
Definition text_of (bs : bytes) : string := string_of_list_byte bs.

(** ** Headers: a kind and a number, which is a value or a length *)

Inductive Kind := KNum | KStr | KArr | KMap.

(** The first of the one-byte forms of a kind, and how many there are. *)
Definition fix_base (k : Kind) : Z := match k with KNum => 0 | KMap => 128 | KArr => 144 | KStr => 160 end.
Definition fix_count (k : Kind) : Z := match k with KNum => 128 | KMap | KArr => 16 | KStr => 32 end.
(** The markers of the other forms, with the bytes of the number that follows. *)
Definition sized (k : Kind) : list (Z * nat) :=
  match k with
  | KNum => [(204, 1%nat); (205, 2%nat); (206, 4%nat); (207, 8%nat)]
  | KStr => [(217, 1%nat); (218, 2%nat); (219, 4%nat)]
  | KArr => [(220, 2%nat); (221, 4%nat)]
  | KMap => [(222, 2%nat); (223, 4%nat)]
  end.
Definition limit (k : Kind) : Z := match k with KNum => 2 ^ 64 | _ => 2 ^ 32 end.

Definition write_header (k : Kind) (n : Z) : bytes :=
  if n <? fix_count k then [to_byte (fix_base k + n)]
  else match List.find (fun f => n <? 2 ^ (8 * Z.of_nat f.2)) (sized k) with
       | Some (marker, w) => to_byte marker :: be w n
       | None => []
       end.

Inductive Marker :=
  | Unit (j : Json)
  | Fix (k : Kind) (n : Z)
  | Sized (k : Kind) (w : nat).

Definition kinds : list Kind := [KNum; KStr; KArr; KMap].
Definition marker_of (b : Z) : option Marker :=
  if b =? 192 then Some (Unit JNull)
  else if b =? 194 then Some (Unit (JBool false))
  else if b =? 195 then Some (Unit (JBool true))
  else match List.find (fun k => (fix_base k <=? b) && (b <? fix_base k + fix_count k)) kinds with
       | Some k => Some (Fix k (b - fix_base k))
       | None =>
           head (omap (fun k => (fun f => Sized k f.2) <$> List.find (fun f => f.1 =? b) (sized k)) kinds)
       end.

Inductive Header := HUnit (j : Json) | HLen (k : Kind) (n : Z).

(** The first [n] bytes and the rest; [None] past the end. *)
Fixpoint split_at (n : nat) (bs : bytes) : option (bytes * bytes) :=
  match n, bs with
  | O, _ => Some ([], bs)
  | S _, [] => None
  | S n, b :: bs => '(x, y) ← split_at n bs; Some (b :: x, y)
  end.

Definition read_header (bs : bytes) : option (Header * bytes) :=
  match bs with
  | [] => None
  | b :: bs =>
      match marker_of (of_byte b) with
      | None => None
      | Some (Unit j) => Some (HUnit j, bs)
      | Some (Fix k n) => Some (HLen k n, bs)
      | Some (Sized k w) => '(x, bs) ← split_at w bs; Some (HLen k (from_be x), bs)
      end
  end.

(** ** Values *)

Definition length_z {A} (l : list A) : Z := Z.of_nat (length l).

Definition encode_str (s : string) : bytes := let bs := bytes_of s in write_header KStr (length_z bs) ++ bs.

Fixpoint encode (j : Json) : bytes :=
  match j with
  | JNull => [to_byte 192]
  | JBool b => [to_byte (if b then 195 else 194)]
  | JNum n => write_header KNum n
  | JStr s => encode_str s
  | JArr l => write_header KArr (length_z l) ++ mjoin (map encode l)
  | JObj m => write_header KMap (length_z m) ++ mjoin (map (fun kv => encode_str kv.1 ++ encode kv.2) m)
  end.

Section Decode.
Context {A : Type} (item : bytes -> option (A * bytes)).
Fixpoint times (n : nat) (bs : bytes) : option (list A * bytes) :=
  match n with
  | O => Some ([], bs)
  | S n => '(a, bs) ← item bs; '(l, bs) ← times n bs; Some (a :: l, bs)
  end.
End Decode.

(** Strings are UTF-8. *)
Definition decode_text (n : Z) (bs : bytes) : option (string * bytes) :=
  if length_z bs <? n then None
  else '(x, bs) ← split_at (Z.to_nat n) bs;
       let s := text_of x in if Utf8.valid (Str.chars s) then Some (s, bs) else None.

Definition decode_str (bs : bytes) : option (string * bytes) :=
  match read_header bs with Some (HLen KStr n, bs) => decode_text n bs | _ => None end.

(** [depth] bounds the nesting.  An item takes a byte, so a length beyond the
    rest of the input cannot be met. *)
Fixpoint decode (depth : nat) (bs : bytes) : option (Json * bytes) :=
  match depth with
  | O => None
  | S depth =>
      match read_header bs with
      | None => None
      | Some (HUnit j, bs) => Some (j, bs)
      | Some (HLen KNum n, bs) => Some (JNum n, bs)
      | Some (HLen KStr n, bs) => '(s, bs) ← decode_text n bs; Some (JStr s, bs)
      | Some (HLen KArr n, bs) =>
          if length_z bs <? n then None
          else '(l, bs) ← times (decode depth) (Z.to_nat n) bs; Some (JArr l, bs)
      | Some (HLen KMap n, bs) =>
          if length_z bs <? n then None
          else '(m, bs) ← times (fun bs => '(k, bs) ← decode_str bs; '(j, bs) ← decode depth bs; Some ((k, j), bs))
                 (Z.to_nat n) bs;
               Some (JObj m, bs)
      end
  end.

(** The nesting [rmp_serde] accepts. *)
Definition DEPTH : nat := 1024.

(** What the format can hold. *)
Definition text_fits (s : string) : bool := (length_z (bytes_of s) <? 2 ^ 32) && Utf8.valid (Str.chars s).
Fixpoint fits (j : Json) : bool :=
  match j with
  | JNull | JBool _ => true
  | JNum n => (0 <=? n) && (n <? 2 ^ 64)
  | JStr s => text_fits s
  | JArr l => (length_z l <? 2 ^ 32) && forallb fits l
  | JObj m => (length_z m <? 2 ^ 32) && forallb (fun kv => text_fits kv.1 && fits kv.2) m
  end.
Fixpoint depth (j : Json) : nat :=
  match j with
  | JArr l => S (list_max (map depth l))
  | JObj m => S (list_max (map (fun kv => depth kv.2) m))
  | _ => 0%nat
  end.

(** ** Round trip *)

Lemma of_to_byte n : 0 <= n < 256 -> of_byte (to_byte n) = n.
Proof.
  intros Hn. unfold of_byte, to_byte.
  destruct (Byte.of_N (Z.to_N n)) as [b|] eqn:Hb.
  - apply Byte.to_of_N in Hb. cbn. lia.
  - apply Byte.of_N_None_iff in Hb. lia.
Qed.

Lemma length_be w n : length (be w n) = w.
Proof. unfold be. by rewrite length_reverse, LittleEndianList.length_le_split. Qed.

Lemma from_be_be w n : 0 <= n < 2 ^ (8 * Z.of_nat w) -> from_be (be w n) = n.
Proof.
  intros Hn. unfold from_be, be. rewrite reverse_involutive, LittleEndianList.le_combine_split.
  apply Z.mod_small. by rewrite Z.mul_comm.
Qed.

Lemma split_at_app n x bs : length x = n -> split_at n (x ++ bs) = Some (x, bs).
Proof. intros <-. induction x as [|b x IH]; [by destruct bs|]. cbn. by rewrite IH. Qed.

(** The one-byte forms are told apart, and from every other marker. *)
Lemma marker_of_fix k n : 0 <= n < fix_count k -> marker_of (fix_base k + n) = Some (Fix k n).
Proof.
  intros Hn. unfold marker_of, kinds. set (b := fix_base k + n).
  assert (b < 192) by (subst b; destruct k; cbn in *; lia).
  rewrite (proj2 (Z.eqb_neq b 192)), (proj2 (Z.eqb_neq b 194)), (proj2 (Z.eqb_neq b 195)) by lia.
  assert (forall k', (fix_base k' <=? b) && (b <? fix_base k' + fix_count k') = match k, k' with
    | KNum, KNum | KStr, KStr | KArr, KArr | KMap, KMap => true | _, _ => false end) as Hk.
  { subst b. intros []; destruct k; cbn in *; lia. }
  cbn -[fix_base fix_count Z.leb Z.ltb]. rewrite !Hk. subst b. destruct k; do 2 f_equal; lia.
Qed.

Lemma marker_of_sized k m w : (m, w) ∈ sized k -> marker_of m = Some (Sized k w) /\ 0 <= m < 256.
Proof. destruct k; cbn; rewrite !elem_of_cons; intros; destruct_or?; simplify_eq; try done; by rewrite elem_of_nil in *. Qed.

Lemma fix_bounds k n : 0 <= n < fix_count k -> 0 <= fix_base k + n < 256.
Proof. destruct k; cbn; lia. Qed.

(** The widest form reaches the limit. *)
Lemma find_sized k n : n < limit k -> exists m w, List.find (fun f => n <? 2 ^ (8 * Z.of_nat f.2)) (sized k) = Some (m, w).
Proof. destruct k; cbn -[Z.ltb]; intros Hn; repeat (case_match; [by eauto|]); rewrite ?Z.ltb_ge in *; cbn -[Z.le Z.lt] in *; lia. Qed.

Lemma read_write_header k n bs : 0 <= n < limit k -> read_header (write_header k n ++ bs) = Some (HLen k n, bs).
Proof.
  intros Hn. unfold write_header. destruct (n <? fix_count k) eqn:Hf.
  - cbn. rewrite of_to_byte by (apply fix_bounds; lia). by rewrite marker_of_fix by lia.
  - destruct (find_sized k n) as (m & w & Hs); [lia|]. rewrite Hs.
    apply List.find_some in Hs as [Hin Hw]. apply list_elem_of_In in Hin.
    destruct (marker_of_sized k m w Hin) as [Hm Hb]. cbn -[Z.pow] in *.
    rewrite of_to_byte, Hm by done. cbn. rewrite split_at_app by apply length_be. cbn.
    rewrite from_be_be by lia. done.
Qed.

Lemma read_header_nonempty bs x : read_header bs = Some x -> bs <> [].
Proof. by destruct bs. Qed.

Lemma text_of_bytes_of s : text_of (bytes_of s) = s.
Proof. apply string_of_list_byte_of_string. Qed.

Lemma decode_text_app s bs : text_fits s = true -> decode_text (length_z (bytes_of s)) (bytes_of s ++ bs) = Some (s, bs).
Proof.
  intros [_ Hv]%andb_prop. unfold decode_text, length_z. rewrite length_app.
  destruct (Z.ltb_spec (Z.of_nat (length (bytes_of s) + length bs)) (Z.of_nat (length (bytes_of s)))); [lia|].
  rewrite Nat2Z.id, split_at_app by done. cbn. by rewrite text_of_bytes_of, Hv.
Qed.

Lemma length_limit {A} k (l : list A) : (length_z l <? 2 ^ 32) = true -> k <> KNum -> 0 <= length_z l < limit k.
Proof. intros H Hk. apply Z.ltb_lt in H. unfold length_z in *. split; [lia|]. by destruct k. Qed.

Lemma read_encode_str s bs : text_fits s = true ->
  read_header (encode_str s ++ bs) = Some (HLen KStr (length_z (bytes_of s)), bytes_of s ++ bs).
Proof.
  intros [Hl _]%andb_prop. unfold encode_str. rewrite <- app_assoc. by apply read_write_header, length_limit.
Qed.

Lemma decode_encode_str s bs : text_fits s = true -> decode_str (encode_str s ++ bs) = Some (s, bs).
Proof. intros Hs. unfold decode_str. rewrite read_encode_str by done. by apply decode_text_app. Qed.

(** A reader of items reads back a list of them. *)
Lemma times_mjoin {A} (item : bytes -> option (A * bytes)) (enc : A -> bytes) (l : list A) :
  Forall (fun a => forall bs, item (enc a ++ bs) = Some (a, bs)) l ->
  forall bs, times item (length l) (mjoin (map enc l) ++ bs) = Some (l, bs).
Proof.
  induction 1 as [|a l Ha _ IH]; intros bs; [done|]. cbn. rewrite <- app_assoc, Ha. cbn. by rewrite IH.
Qed.

(** So every item takes a byte. *)
Lemma length_mjoin_map {A} (enc : A -> bytes) (l : list A) :
  Forall (fun a => enc a <> []) l -> (length l <= length (mjoin (map enc l)))%nat.
Proof.
  induction 1 as [|a l Ha _ IH]; [done|].
  change (mjoin (map enc (a :: l))) with (enc a ++ mjoin (map enc l)). rewrite length_app.
  destruct (enc a); [done|]. rewrite !length_cons. lia.
Qed.

(** The common part of arrays and maps. *)
Lemma times_encoded {A} (item : bytes -> option (A * bytes)) (enc : A -> bytes) (l : list A) bs :
  Forall (fun a => forall bs, item (enc a ++ bs) = Some (a, bs)) l -> Forall (fun a => enc a <> []) l ->
  (length_z (mjoin (map enc l) ++ bs) <? length_z l) = false /\
  times item (Z.to_nat (length_z l)) (mjoin (map enc l) ++ bs) = Some (l, bs).
Proof.
  intros Hi Hn. split.
  - apply length_mjoin_map in Hn. unfold length_z in *. rewrite length_app. apply Z.ltb_ge. lia.
  - unfold length_z. rewrite Nat2Z.id. by apply times_mjoin.
Qed.

Lemma write_header_nonempty k n bs : 0 <= n < limit k -> write_header k n ++ bs <> [].
Proof. intros Hn. eapply read_header_nonempty, (read_write_header k n bs Hn). Qed.

Lemma encode_str_nonempty s : text_fits s = true -> encode_str s <> [].
Proof. intros Hs. rewrite <- (app_nil_r (encode_str s)). eapply read_header_nonempty, (read_encode_str s [] Hs). Qed.

Lemma encode_nonempty j : fits j = true -> encode j <> [].
Proof.
  destruct j as [|[]| | |l|m]; cbn -[Z.pow]; try done; intros Hf.
  - rewrite <- (app_nil_r (write_header _ _)). apply write_header_nonempty. change (limit KNum) with (2 ^ 64). lia.
  - by apply encode_str_nonempty.
  - apply andb_prop in Hf as [Hl _]. by apply write_header_nonempty, length_limit.
  - apply andb_prop in Hf as [Hl _]. by apply write_header_nonempty, length_limit.
Qed.

Lemma list_max_lt {A} (f : A -> nat) l n : (list_max (map f l) < n)%nat -> Forall (fun a => (f a < n)%nat) l.
Proof.
  intros H. destruct n as [|n]; [lia|]. apply le_S_n in H. apply list_max_le, Forall_map in H.
  eapply Forall_impl; [exact H|]. cbn. lia.
Qed.

(** Decoding reads back what encoding wrote, and stops at its end. *)
Lemma decode_encode_app j : forall d bs, fits j = true -> (depth j < d)%nat -> decode d (encode j ++ bs) = Some (j, bs).
Proof.
  induction j as [|[]|n|s|l IH|m IH] using Json_ind; intros [|d] bs Hf Hd; try (cbn in Hd; lia); try done;
    cbn [encode decode]; cbn -[Z.pow] in Hf.
  - rewrite read_write_header; [done|]. change (limit KNum) with (2 ^ 64). lia.
  - rewrite read_encode_str by done. cbn. by rewrite decode_text_app.
  - apply andb_prop in Hf as [Hl Hf]. cbn in Hd. apply PeanoNat.lt_S_n, list_max_lt in Hd.
    apply Is_true_eq_left, forallb_True in Hf.
    rewrite <- app_assoc, read_write_header by (by apply length_limit).
    destruct (times_encoded (decode d) encode l bs) as [-> Ht]; [..|by rewrite Ht];
      rewrite Forall_forall in *; intros j Hj.
    + intros. apply IH; [done|apply Is_true_true, Hf, Hj|by apply Hd].
    + apply encode_nonempty, Is_true_true, Hf, Hj.
  - apply andb_prop in Hf as [Hl Hf]. cbn in Hd. apply PeanoNat.lt_S_n, (list_max_lt (fun kv : string * Json => depth kv.2)) in Hd.
    apply Is_true_eq_left, forallb_True in Hf.
    rewrite <- app_assoc, read_write_header by (by apply length_limit).
    match goal with |- context [times ?f] => destruct (times_encoded f (fun kv : string * Json => encode_str kv.1 ++ encode kv.2) m bs) as [-> Ht] end;
      [..|by rewrite Ht]; rewrite Forall_forall in *; intros [k j] Hkj; specialize (Hf _ Hkj); specialize (IH _ Hkj); specialize (Hd _ Hkj);
      cbn in Hf, IH, Hd |- *; apply Is_true_true, andb_prop in Hf as [Hk Hf].
    + intros bs'. rewrite <- app_assoc, decode_encode_str by tauto. cbn. by rewrite IH by tauto.
    + intros [Hn _]%app_eq_nil. by apply (encode_str_nonempty k).
Qed.
