(* ===== verification/IpcWire.v ===== *)
(** * IpcWire: the frame codec ([read_frame], [write_frame] of [src/ipc/mod.rs])

    A frame is a little-endian [u32] length followed by that many bytes of
    MessagePack.  The MessagePack library is not part of the repository: it is
    the class [WireCodec], with its documented round trip as the class
    [WireCodecLaws].  The pipe is a script of reader events: bytes arriving in
    chunks of any size, the poll timer of the caller expiring, a transport
    error; the end of the script is the end of the stream. *)

From S2P Require Import Prelude RustStd Ipc.
From Stdlib Require Import Strings.Byte.
From coqutil Require Word.LittleEndianList.

#[local] Open Scope Z_scope.

Abbreviation bytes := (list Byte.byte).

(** ** I/O errors and the reader *)

Inductive ErrorKind := InvalidData | UnexpectedEof | BrokenPipe | OtherKind.

#[global] Instance ErrorKind_eq_dec : EqDecision ErrorKind.
Proof. solve_decision. Defined.

Record IoError := {
  kind : ErrorKind;
  msg : string; (* to_string() *)
}.

Inductive RdEvent :=
  | Chunk (bs : bytes)
  | Idle
  | Broken (e : IoError).

Abbreviation Reader := (list RdEvent).

(** [timeout(READ_POLL_TIMEOUT, f).await]: ready, or elapsed. *)
Inductive Poll (A : Type) := Ready (r : result IoError A) | Elapsed.
Arguments Ready {A} r.
Arguments Elapsed {A}.

(** [n as u32] little endian, and back. *)
Definition u32_le (n : Z) : bytes := LittleEndianList.le_split 4 (Int.cast 32 n).
Definition from_u32_le (bs : bytes) : Z := LittleEndianList.le_combine bs.

(** [read_exact] of [n] bytes under the caller's timer, [acc] being what the
    call has taken from the pipe so far.  When the timer expires the future is
    dropped, and [acc] with it. *)
Fixpoint read_exact (n : nat) (acc : bytes) (r : Reader) : Poll bytes * Reader :=
  match n with
  | O => (Ready (Ok acc), r)
  | S _ =>
      match r with
      | [] => (Ready (Err {| kind := UnexpectedEof; msg := "unexpected end of file" |}), [])
      | Idle :: r' => (Elapsed, r')
      | Broken e :: r' => (Ready (Err e), r')
      | Chunk bs :: r' =>
          if (n <? length bs)%nat then (Ready (Ok (acc ++ take n bs)), Chunk (drop n bs) :: r')
          else read_exact (n - length bs) (acc ++ bs) r'
      end
  end.

(** ** The codec *)

(** [rmp_serde::to_vec_named] and [rmp_serde::from_slice]. *)
Class WireCodec (Out In : Type) := {
  to_vec_named : Out -> result string bytes;
  from_slice : bytes -> result string In;
}.

(** Documented behaviour: decoding an encoded message gives the message, seen
    at the reader's type. *)
Class WireCodecLaws (Out In : Type) `{WireCodec Out In} (view : Out -> In) := {
  decode_encode : forall m bs, to_vec_named m = Ok bs -> from_slice bs = Ok (view m);
}.

Section Frames.
Context {Out In : Type} `{!WireCodec Out In}.

Definition read_frame (r : Reader) : Poll In * Reader :=
  match read_exact 4 [] r with
  | (Ready (Ok header), r) =>
      let len := from_u32_le header in
      if MAX_FRAME_SIZE <? len then
        (Ready (Err {| kind := InvalidData; msg := "frame too large: " +:+ Str.show len |}), r)
      else
        match read_exact (Z.to_nat len) [] r with
        | (Ready (Ok buf), r) =>
            (Ready (map_err (fun err => {| kind := InvalidData; msg := "decode failed: " +:+ err |})
                      (from_slice buf)), r)
        | (Ready (Err e), r) => (Ready (Err e), r)
        | (Elapsed, r) => (Elapsed, r)
        end
  | (Ready (Err e), r) => (Ready (Err e), r)
  | (Elapsed, r) => (Elapsed, r)
  end.

(** The bytes [write_frame] puts on the pipe, or its encoding error. *)
Definition write_frame (message : Out) : result IoError bytes :=
  payload ← map_err (fun err => {| kind := InvalidData; msg := "encode failed: " +:+ err |})
              (to_vec_named message);
  if MAX_FRAME_SIZE <? Z.of_nat (length payload) then
    Err {| kind := InvalidData;
           msg := "encoded frame too large: " +:+ Str.show (Z.of_nat (length payload)) |}
  else Ok (u32_le (Z.of_nat (length payload)) ++ payload).

End Frames.

(** ** What a reader still holds *)

Definition is_chunk (e : RdEvent) : Prop := match e with Chunk _ => True | _ => False end.

(** The bytes of a script of chunks. *)
Definition flatten (r : Reader) : bytes :=
  mjoin (map (fun e => match e with Chunk bs => bs | _ => [] end) r).

(** Every poll that does not end the session makes this smaller. *)
Definition event_size (e : RdEvent) : nat :=
  match e with Chunk bs => S (length bs) | _ => 1%nat end.
Definition reader_size (r : Reader) : nat := sum_list_with event_size r.

Lemma flatten_cons bs r : flatten (Chunk bs :: r) = bs ++ flatten r.
Proof. reflexivity. Qed.

(** ** Little-endian length *)

Lemma length_u32_le n : length (u32_le n) = 4%nat.
Proof. apply LittleEndianList.length_le_split. Qed.

Lemma from_u32_le_u32_le n : 0 <= n < 2 ^ 32 -> from_u32_le (u32_le n) = n.
Proof.
  intros Hn. unfold from_u32_le, u32_le, Int.cast.
  rewrite LittleEndianList.le_combine_split. change (Z.of_nat 4 * 8) with 32.
  rewrite Z.mod_mod by done. by apply Z.mod_small.
Qed.

Lemma from_u32_le_nonneg bs : 0 <= from_u32_le bs.
Proof. apply LittleEndianList.le_combine_bound. Qed.

(** ** [read_exact] *)

(** Chunk boundaries do not matter: from chunks holding at least [n] bytes the
    call takes exactly the first [n], and leaves the rest to the next call. *)
Lemma read_exact_chunks (pre post : Reader) : forall n acc,
  Forall is_chunk pre -> (n <= length (flatten pre))%nat ->
  exists pre', read_exact n acc (pre ++ post) = (Ready (Ok (acc ++ take n (flatten pre))), pre' ++ post)
    /\ Forall is_chunk pre' /\ flatten pre' = drop n (flatten pre).
Proof.
  induction pre as [|e pre IH]; intros n acc Hc Hn.
  - cbn in Hn. assert (n = 0)%nat as -> by lia. exists []. destruct post; cbn; by rewrite app_nil_r.
  - apply Forall_cons in Hc as [He Hc]. destruct e as [bs| |]; [|done|done].
    rewrite flatten_cons in *. rewrite length_app in Hn.
    destruct n as [|n']; [exists (Chunk bs :: pre); cbn; rewrite app_nil_r; auto |].
    set (n := S n') in *. change (read_exact n acc ((Chunk bs :: pre) ++ post)) with
      (if (n <? length bs)%nat then (Ready (Ok (acc ++ take n bs)), Chunk (drop n bs) :: pre ++ post)
       else read_exact (n - length bs) (acc ++ bs) (pre ++ post)).
    destruct (Nat.ltb_spec n (length bs)) as [Hlt|Hge].
    + exists (Chunk (drop n bs) :: pre). rewrite take_app_le, drop_app_le, flatten_cons by lia.
      split_and!; [done | by constructor | done].
    + destruct (IH (n - length bs)%nat (acc ++ bs) Hc ltac:(lia)) as (pre' & -> & Hc' & Hf).
      exists pre'. rewrite take_app_ge, drop_app_ge by lia. by rewrite <- app_assoc.
Qed.

(** A timer that expires before the [n]-th byte discards what was taken. *)
Lemma read_exact_idle (pre post : Reader) : forall n acc,
  Forall is_chunk pre -> (length (flatten pre) < n)%nat ->
  read_exact n acc (pre ++ Idle :: post) = (Elapsed, post).
Proof.
  induction pre as [|e pre IH]; intros n acc Hc Hn.
  - destruct n; [cbn in Hn; lia | done].
  - apply Forall_cons in Hc as [He Hc]. destruct e as [bs| |]; [|done|done].
    rewrite flatten_cons, length_app in Hn. destruct n as [|n']; [lia|].
    cbn [app read_exact]. destruct (Nat.ltb_spec (S n') (length bs)); [lia|].
    apply IH; [done|lia].
Qed.

Lemma reader_size_cons e r : reader_size (e :: r) = (event_size e + reader_size r)%nat.
Proof. reflexivity. Qed.

(** A call only consumes, and consumes something when it must read. *)
Lemma read_exact_size r : forall n acc p r',
  read_exact n acc r = (p, r') ->
  (reader_size r' <= reader_size r)%nat
  /\ (n <> 0%nat -> (exists e, p = Ready (Err e) /\ kind e = UnexpectedEof) \/
       (reader_size r' < reader_size r)%nat).
Proof.
  induction r as [|e r IH]; intros n acc p r' H.
  - destruct n; cbn in H; simplify_eq; [done|]. split; [done|]. intros _. left. eauto.
  - destruct n as [|n]; [cbn in H; simplify_eq; done|].
    rewrite reader_size_cons. destruct e as [bs| |e]; cbn [read_exact] in H; cbn [event_size].
    + destruct (Nat.ltb_spec (S n) (length bs)); simplify_eq.
      * rewrite reader_size_cons. cbn [event_size]. rewrite length_drop. lia.
      * apply IH in H as [H _]. lia.
    + simplify_eq; lia.
    + simplify_eq; lia.
Qed.

(** ** [read_frame] *)

Section FrameLemmas.
Context {Out In : Type} `{!WireCodec Out In}.

Lemma write_frame_inv (m : Out) bs :
  write_frame m = Ok bs ->
  exists p, to_vec_named m = Ok p /\ Z.of_nat (length p) <= MAX_FRAME_SIZE
    /\ bs = u32_le (Z.of_nat (length p)) ++ p.
Proof.
  unfold write_frame. intros H. apply result_bind_ok in H as (p & Hp & H).
  destruct (to_vec_named m) as [p'|] eqn:E; cbn in Hp; [|done]. simplify_eq.
  destruct (Z.ltb_spec MAX_FRAME_SIZE (Z.of_nat (length p))); simplify_eq. eauto.
Qed.

(** Reading the length prefix. *)
Lemma read_header (pre post : Reader) (n : Z) (rest : bytes) :
  Forall is_chunk pre -> flatten pre = u32_le n ++ rest ->
  exists pre', read_exact 4 [] (pre ++ post) = (Ready (Ok (u32_le n)), pre' ++ post)
    /\ Forall is_chunk pre' /\ flatten pre' = rest.
Proof.
  intros Hc Hf.
  destruct (read_exact_chunks pre post 4 [] Hc) as (pre1 & H1 & Hc1 & Hf1).
  { rewrite Hf, length_app, length_u32_le. lia. }
  rewrite Hf, take_app_length' in H1 by (by rewrite length_u32_le).
  rewrite Hf, drop_app_length' in Hf1 by (by rewrite length_u32_le).
  eauto.
Qed.

(** A frame of legal length is consumed to its last byte, and no further. *)
Lemma read_frame_body (pre post : Reader) (body rest : bytes) :
  Forall is_chunk pre -> Z.of_nat (length body) <= MAX_FRAME_SIZE ->
  flatten pre = u32_le (Z.of_nat (length body)) ++ body ++ rest ->
  exists pre', read_frame (pre ++ post) =
      (Ready (map_err (fun err => {| kind := InvalidData; msg := "decode failed: " +:+ err |})
                (from_slice body)), pre' ++ post)
    /\ Forall is_chunk pre' /\ flatten pre' = rest.
Proof.
  intros Hc Hn Hf. destruct (read_header pre post _ _ Hc Hf) as (pre1 & H1 & Hc1 & Hf1).
  unfold MAX_FRAME_SIZE in *. unfold read_frame, MAX_FRAME_SIZE. rewrite H1.
  rewrite from_u32_le_u32_le by lia. destruct (Z.ltb_spec (64 * 1024) (Z.of_nat (length body))); [lia|].
  rewrite Nat2Z.id.
  destruct (read_exact_chunks pre1 post (length body) [] Hc1) as (pre2 & H2 & Hc2 & Hf2).
  { rewrite Hf1, length_app. lia. }
  rewrite Hf1, take_app_length in H2. rewrite Hf1, drop_app_length in Hf2.
  exists pre2. by rewrite H2.
Qed.

(** A length above the limit is refused after its four bytes. *)
Lemma read_frame_refused (pre post : Reader) (n : Z) (rest : bytes) :
  Forall is_chunk pre -> MAX_FRAME_SIZE < n < 2 ^ 32 -> flatten pre = u32_le n ++ rest ->
  exists pre', read_frame (pre ++ post) =
      (Ready (Err {| kind := InvalidData; msg := "frame too large: " +:+ Str.show n |}), pre' ++ post)
    /\ Forall is_chunk pre' /\ flatten pre' = rest.
Proof.
  intros Hc Hn Hf. destruct (read_header pre post _ _ Hc Hf) as (pre1 & H1 & Hc1 & Hf1).
  exists pre1. unfold read_frame. rewrite H1, from_u32_le_u32_le by (unfold MAX_FRAME_SIZE in *; lia).
  by destruct (Z.ltb_spec MAX_FRAME_SIZE n); [|lia].
Qed.

Lemma read_frame_size (r r' : Reader) (p : Poll In) :
  read_frame r = (p, r') ->
  (exists e, p = Ready (Err e) /\ kind e = UnexpectedEof) \/ (reader_size r' < reader_size r)%nat.
Proof.
  unfold read_frame. intros H. destruct (read_exact 4 [] r) as [p1 r1] eqn:E1.
  apply read_exact_size in E1 as [_ E1]. specialize (E1 ltac:(done)).
  destruct p1 as [[header|e]|].
  - destruct E1 as [(e & He & _)|E1]; [done|]. right.
    destruct (MAX_FRAME_SIZE <? _); simplify_eq; [done|].
    destruct (read_exact _ _ r1) as [p2 r2] eqn:E2. apply read_exact_size in E2 as [E2 _].
    destruct p2 as [[]|]; simplify_eq; lia.
  - simplify_eq. destruct E1 as [(e' & He & Hk)|E1]; [left; simplify_eq; eauto | by right].
  - simplify_eq. destruct E1 as [(e' & He & _)|E1]; [done | by right].
Qed.
End FrameLemmas.

(** Successive reads of one reader. *)
Fixpoint read_frames {Out In} `{!WireCodec Out In} (n : nat) (r : Reader) : list (Poll In) * Reader :=
  match n with
  | O => ([], r)
  | S n' =>
      let (p, r1) := read_frame r in
      let (ps, r2) := read_frames n' r1 in (p :: ps, r2)
  end.

Section RoundTrip.
Context {Out In : Type} `{Laws : WireCodecLaws Out In view}.

Lemma read_written_frame (m : Out) bs rest (pre post : Reader) :
  write_frame m = Ok bs -> Forall is_chunk pre -> flatten pre = bs ++ rest ->
  exists pre', read_frame (pre ++ post) = (Ready (Ok (view m)), pre' ++ post)
    /\ Forall is_chunk pre' /\ flatten pre' = rest.
Proof.
  intros (p & Hp & Hlen & ->)%write_frame_inv Hc Hf. rewrite <- app_assoc in Hf.
  destruct (read_frame_body pre post p rest Hc Hlen Hf) as (pre' & -> & Hrest).
  exists pre'. by rewrite (decode_encode _ _ Hp).
Qed.

Lemma read_written_frames (ms : list Out) : forall bss rest (pre post : Reader),
  Forall2 (fun m bs => write_frame m = Ok bs) ms bss ->
  Forall is_chunk pre -> flatten pre = mjoin bss ++ rest ->
  exists pre', read_frames (length ms) (pre ++ post) = (map (fun m => Ready (Ok (view m))) ms, pre' ++ post)
    /\ Forall is_chunk pre' /\ flatten pre' = rest.
Proof.
  induction ms as [|m ms IH]; intros bss rest pre post Hw Hc Hf.
  - apply Forall2_nil_inv_l in Hw as ->. exists pre. auto.
  - apply Forall2_cons_inv_l in Hw as (bs & bss' & Hm & Hms & ->).
    cbn in Hf. rewrite <- app_assoc in Hf.
    destruct (read_written_frame m bs _ pre post Hm Hc Hf) as (pre1 & E1 & Hc1 & Hf1).
    destruct (IH bss' rest pre1 post Hms Hc1 Hf1) as (pre2 & E2 & Hc2 & Hf2).
    exists pre2. cbn [length read_frames map]. by rewrite E1, E2.
Qed.
End RoundTrip.

(** A frame cut by the poll timer: everything read so far is gone. *)
Lemma read_frame_cut {Out In} `{!WireCodec Out In} (m : Out) bs (p q : bytes) (pre post : Reader) :
  write_frame m = Ok bs -> bs = p ++ q -> q <> [] -> Forall is_chunk pre -> flatten pre = p ->
  read_frame (pre ++ Idle :: post) = (Elapsed, post).
Proof.
  intros (body & Hp & Hlen & ->)%write_frame_inv Hbs Hq Hc Hf.
  assert (length p < 4 + length body)%nat as Hshort.
  { apply (f_equal length) in Hbs. rewrite !length_app, length_u32_le in Hbs.
    destruct q; cbn in Hbs; [done|lia]. }
  unfold MAX_FRAME_SIZE in *. unfold read_frame, MAX_FRAME_SIZE.
  destruct (decide (length p < 4)%nat) as [Hl|Hl].
  { rewrite read_exact_idle; [done|done|]. by rewrite Hf. }
  destruct (read_header pre (Idle :: post) (Z.of_nat (length body)) (drop 4 p) Hc) as (pre1 & -> & Hc1 & Hf1).
  { rewrite Hf. rewrite <- (take_drop 4 p) at 1. f_equal.
    rewrite <- (take_app_le p q 4) by lia. rewrite <- Hbs.
    rewrite take_app_length'; [done|]. by rewrite length_u32_le. }
  rewrite from_u32_le_u32_le by lia. destruct (Z.ltb_spec (64 * 1024) (Z.of_nat (length body))); [lia|].
  rewrite Nat2Z.id, read_exact_idle; [done|done|]. rewrite Hf1, length_drop. lia.
Qed.

(** ** Properties *)

(** C8: what is written is read back.  Any sequence of messages written with
    [write_frame], cut into chunks in any way by the pipe, is returned by as
    many calls of [read_frame], in order, and the bytes that follow stay in the
    pipe untouched. *)
Theorem frame_stream_roundtrip {Out In : Type} `{WireCodecLaws Out In view}
    (ms : list Out) (bss : list bytes) (rest : bytes) (pre post : Reader) :
  Forall2 (fun m bs => write_frame m = Ok bs) ms bss ->
  Forall is_chunk pre -> flatten pre = mjoin bss ++ rest ->
  exists pre', read_frames (length ms) (pre ++ post) = (map (fun m => Ready (Ok (view m))) ms, pre' ++ post)
    /\ Forall is_chunk pre' /\ flatten pre' = rest.
Proof. apply read_written_frames. Qed.

(** The length prefix is faithful.  A frame that is written is at most
    4 + 65536 bytes, and its first four bytes decode to exactly the number of
    bytes that follow: the [as u32] cast never truncates. *)
Theorem write_frame_length {Out In : Type} `{!WireCodec Out In} (m : Out) bs :
  write_frame m = Ok bs ->
  (4 <= length bs)%nat /\ Z.of_nat (length bs) <= 4 + MAX_FRAME_SIZE
  /\ from_u32_le (take 4 bs) = Z.of_nat (length bs) - 4.
Proof.
  intros (p & Hp & Hlen & ->)%write_frame_inv.
  rewrite length_app, length_u32_le, take_app_length' by (by rewrite length_u32_le).
  rewrite from_u32_le_u32_le by (unfold MAX_FRAME_SIZE in *; lia). lia.
Qed.

(** C35: the reader is not cancellation safe.  When the 250 ms poll timer
    expires while a frame is partly read, the poll reports only the timeout and
    the bytes already taken are lost: the next read starts in the middle of the
    frame, whatever message it carries and wherever it is cut. *)
Theorem poll_timeout_loses_partial_frame {Out In : Type} `{!WireCodec Out In}
    (m : Out) bs (p q : bytes) (pre post : Reader) :
  write_frame m = Ok bs -> bs = p ++ q -> q <> [] -> Forall is_chunk pre -> flatten pre = p ->
  read_frame (pre ++ Idle :: Chunk q :: post) = (Elapsed, Chunk q :: post).
Proof. intros. by eapply read_frame_cut. Qed.

(** A frame refused for its size is not skipped.  Only its four length
    bytes are consumed: its body is read as frames, so a message embedded at
    the start of the body of an oversized frame is delivered by the next
    read. *)
Theorem refused_frame_body_is_parsed {Out In : Type} `{WireCodecLaws Out In view}
    (n : Z) (m : Out) bs rest (pre post : Reader) :
  MAX_FRAME_SIZE < n < 2 ^ 32 -> write_frame m = Ok bs ->
  Forall is_chunk pre -> flatten pre = u32_le n ++ bs ++ rest ->
  exists pre', read_frames 2 (pre ++ post) =
      ([Ready (Err {| kind := InvalidData; msg := "frame too large: " +:+ Str.show n |});
        Ready (Ok (view m))], pre' ++ post)
    /\ Forall is_chunk pre' /\ flatten pre' = rest.
Proof.
  intros Hn Hw Hc Hf. destruct (read_frame_refused pre post n _ Hc Hn Hf) as (pre1 & E1 & Hc1 & Hf1).
  destruct (read_written_frame m bs rest pre1 post Hw Hc1 Hf1) as (pre2 & E2 & Hrest).
  exists pre2. cbn [read_frames]. by rewrite E1, E2.
Qed.

(** ** Witnesses *)

(** A codec whose messages are their own encoding. *)
#[local] Instance raw_codec : WireCodec bytes bytes := {| to_vec_named := Ok; from_slice := Ok |}.
#[local] Instance raw_codec_laws : WireCodecLaws bytes bytes (fun m => m).
Proof. constructor. cbn. congruence. Defined.

Definition demo_frame : bytes := [x03; x00; x00; x00; x01; x02; x03]%byte.

Lemma frame_stream_roundtrip_witness :
  exists pre', read_frames 2 ([Chunk [x03; x00; x00]%byte; Chunk [x00; x01; x02; x03; x00; x00]%byte;
                               Chunk [x00; x00; xff]%byte] ++ [Idle]) =
      ([Ready (Ok [x01; x02; x03]%byte); Ready (Ok [])], pre' ++ [Idle])
    /\ Forall is_chunk pre' /\ flatten pre' = [xff]%byte.
Proof.
  refine (frame_stream_roundtrip (view := fun m => m) [[x01; x02; x03]%byte; []]
            [demo_frame; [x00; x00; x00; x00]%byte] _ _ _ _ _ _); repeat constructor.
Defined.

Lemma write_frame_length_witness :
  write_frame [x01; x02; x03]%byte = Ok demo_frame /\ from_u32_le (take 4 demo_frame) = 3.
Proof.
  split; [reflexivity |].
  apply (write_frame_length [x01; x02; x03]%byte demo_frame). reflexivity.
Defined.

Lemma poll_timeout_loses_partial_frame_witness :
  read_frame ([Chunk [x03; x00; x00; x00; x01]%byte] ++ Idle :: Chunk [x02; x03]%byte :: []) =
    (Elapsed, [Chunk [x02; x03]%byte]).
Proof.
  apply (poll_timeout_loses_partial_frame [x01; x02; x03]%byte demo_frame
           [x03; x00; x00; x00; x01]%byte);
    [reflexivity | reflexivity | discriminate | repeat constructor | reflexivity].
Defined.

Lemma refused_frame_body_is_parsed_witness :
  exists pre', read_frames 2 ([Chunk ([x00; x00; x01; x01] ++ demo_frame)%byte] ++ []) =
      ([Ready (Err {| kind := InvalidData; msg := "frame too large: 16842752" |});
        Ready (Ok [x01; x02; x03]%byte)], pre' ++ [])
    /\ Forall is_chunk pre' /\ flatten pre' = [].
Proof.
  refine (refused_frame_body_is_parsed (view := fun m => m) 16842752 [x01; x02; x03]%byte demo_frame
            [] _ _ _ _ _ _);
    [unfold MAX_FRAME_SIZE; lia | reflexivity | repeat constructor | reflexivity].
Defined.
