(* ===== verification/IpcSession.v ===== *)
(** * IpcSession: the session loop ([handle_session_io] of [src/ipc/mod.rs])

    One client session: the loop that forwards core commands, expires pending
    scene switches, pushes status, watches the heartbeat, polls one frame and
    dispatches it.  The world of the session is an environment of oracles (clock
    increments, wall clock, fresh identifiers, transport results, the watched
    telemetry frame and relay session, hash-map iteration order), each indexed
    by the number of effects performed so far, and a state holding the inbox,
    the command receiver, the frames written and the locals of the function. *)

From S2P Require Import Prelude Effects RustStd Float Model Aegis Ipc IpcWire.

#[local] Open Scope Z_scope.

(** ** World *)

(** [serde_json::from_value] at a payload type. *)
Class FromValue (Value T : Type) := from_value : Value -> result string T.

Class PayloadCodec (Value : Type) := {
  value_hello :: FromValue Value HelloPayload;
  value_ping :: FromValue Value PingPayload;
  value_request_status :: FromValue Value RequestStatusPayload;
  value_set_mode :: FromValue Value SetModeRequestPayload;
  value_set_setting :: FromValue Value SetSettingRequestPayload;
  value_scene_switch_result :: FromValue Value SceneSwitchResultPayload;
  value_obs_shutdown :: FromValue Value ObsShutdownNoticePayload;
}.

Record Env := {
  env_tick : nat -> N; (* nanoseconds since the previous clock reading *)
  env_unix_ms : nat -> Z; (* SystemTime::now(), milliseconds *)
  env_uuid : nat -> string; (* Uuid::new_v4().to_string() *)
  env_write : nat -> option IoError; (* transport result of a frame write *)
  env_frame : nat -> TelemetryFrame; (* rx.borrow().clone() *)
  env_relay : nat -> option RelaySession; (* aegis_session_snapshot.lock() *)
  env_order : nat -> list (string * PendingSwitchScene) -> list (string * PendingSwitchScene);
    (* iteration order of a HashMap *)
}.

Record State := mkState {
  steps : nat; (* effects performed, the index into the oracles *)
  clock : Z; (* the last Instant read *)
  inbox : Reader;
  core_cmd_rx : list (option CoreIpcCommand); (* results of try_recv; None is Err(_) *)
  out : list (Envelope EvtPayload); (* frames written, oldest first *)
  debug_status : IpcDebugStatus;
  protocol_errors : ProtocolErrorTracker.t;
  pending_switches : gmap string PendingSwitchScene;
  session_overrides : SessionOverrides.t;
  handshake_complete : bool;
  last_ping_at : Z;
  last_status_push_at : Z;
}.

(** ** Assignments *)

Definition with_steps n s := mkState n (clock s) (inbox s) (core_cmd_rx s) (out s) (debug_status s)
  (protocol_errors s) (pending_switches s) (session_overrides s) (handshake_complete s)
  (last_ping_at s) (last_status_push_at s).
Definition with_clock c s := mkState (steps s) c (inbox s) (core_cmd_rx s) (out s) (debug_status s)
  (protocol_errors s) (pending_switches s) (session_overrides s) (handshake_complete s)
  (last_ping_at s) (last_status_push_at s).
Definition with_inbox r s := mkState (steps s) (clock s) r (core_cmd_rx s) (out s) (debug_status s)
  (protocol_errors s) (pending_switches s) (session_overrides s) (handshake_complete s)
  (last_ping_at s) (last_status_push_at s).
Definition with_core_cmd_rx q s := mkState (steps s) (clock s) (inbox s) q (out s) (debug_status s)
  (protocol_errors s) (pending_switches s) (session_overrides s) (handshake_complete s)
  (last_ping_at s) (last_status_push_at s).
Definition with_out o s := mkState (steps s) (clock s) (inbox s) (core_cmd_rx s) o (debug_status s)
  (protocol_errors s) (pending_switches s) (session_overrides s) (handshake_complete s)
  (last_ping_at s) (last_status_push_at s).
Definition with_debug_status d s := mkState (steps s) (clock s) (inbox s) (core_cmd_rx s) (out s) d
  (protocol_errors s) (pending_switches s) (session_overrides s) (handshake_complete s)
  (last_ping_at s) (last_status_push_at s).
Definition with_protocol_errors t s := mkState (steps s) (clock s) (inbox s) (core_cmd_rx s) (out s)
  (debug_status s) t (pending_switches s) (session_overrides s) (handshake_complete s)
  (last_ping_at s) (last_status_push_at s).
Definition with_pending_switches m s := mkState (steps s) (clock s) (inbox s) (core_cmd_rx s) (out s)
  (debug_status s) (protocol_errors s) m (session_overrides s) (handshake_complete s)
  (last_ping_at s) (last_status_push_at s).
Definition with_session_overrides o s := mkState (steps s) (clock s) (inbox s) (core_cmd_rx s) (out s)
  (debug_status s) (protocol_errors s) (pending_switches s) o (handshake_complete s)
  (last_ping_at s) (last_status_push_at s).
Definition with_handshake_complete h s := mkState (steps s) (clock s) (inbox s) (core_cmd_rx s) (out s)
  (debug_status s) (protocol_errors s) (pending_switches s) (session_overrides s) h
  (last_ping_at s) (last_status_push_at s).
Definition with_last_ping_at t s := mkState (steps s) (clock s) (inbox s) (core_cmd_rx s) (out s)
  (debug_status s) (protocol_errors s) (pending_switches s) (session_overrides s)
  (handshake_complete s) t (last_status_push_at s).
Definition with_last_status_push_at t s := mkState (steps s) (clock s) (inbox s) (core_cmd_rx s) (out s)
  (debug_status s) (protocol_errors s) (pending_switches s) (session_overrides s)
  (handshake_complete s) (last_ping_at s) t.

(** Updates in place. *)
Definition advance_clock (d : Z) (s : State) : State := with_clock (clock s + d) s.
Definition push_out (m : Envelope EvtPayload) (s : State) : State := with_out (out s ++ [m]) s.
Definition update_debug (f : IpcDebugStatus -> IpcDebugStatus) (s : State) : State :=
  with_debug_status (f (debug_status s)) s.
Definition insert_pending (i : string) (p : PendingSwitchScene) (s : State) : State :=
  with_pending_switches (<[i := p]> (pending_switches s)) s.
Definition remove_pending (i : string) (s : State) : State :=
  with_pending_switches (delete i (pending_switches s)) s.

(** Assignments to fields of the debug status. *)
Definition set_pending_switch_count n d := {|
  session_connected := session_connected d; pending_switch_count := n;
  last_switch_request := last_switch_request d; last_switch_result := last_switch_result d;
  last_notice := last_notice d; updated_ts_unix_ms := updated_ts_unix_ms d |}.
Definition set_last_switch_request r d := {|
  session_connected := session_connected d; pending_switch_count := pending_switch_count d;
  last_switch_request := Some r; last_switch_result := last_switch_result d;
  last_notice := last_notice d; updated_ts_unix_ms := updated_ts_unix_ms d |}.
Definition set_last_switch_result r d := {|
  session_connected := session_connected d; pending_switch_count := pending_switch_count d;
  last_switch_request := last_switch_request d; last_switch_result := Some r;
  last_notice := last_notice d; updated_ts_unix_ms := updated_ts_unix_ms d |}.
Definition set_last_notice n d := {|
  session_connected := session_connected d; pending_switch_count := pending_switch_count d;
  last_switch_request := last_switch_request d; last_switch_result := last_switch_result d;
  last_notice := Some n; updated_ts_unix_ms := updated_ts_unix_ms d |}.
Definition set_updated_ts t d := {|
  session_connected := session_connected d; pending_switch_count := pending_switch_count d;
  last_switch_request := last_switch_request d; last_switch_result := last_switch_result d;
  last_notice := last_notice d; updated_ts_unix_ms := Some t |}.
Definition set_session_connected b d := {|
  session_connected := b; pending_switch_count := pending_switch_count d;
  last_switch_request := last_switch_request d; last_switch_result := last_switch_result d;
  last_notice := last_notice d; updated_ts_unix_ms := updated_ts_unix_ms d |}.

(** The ways to leave the function: its [io::Result<()>]. *)
Abbreviation Exit := (result IoError unit).

Definition show_bool (b : bool) : string := if b then "true" else "false".

Section Session.
Context {Value : Type} `{!WireCodec (Envelope EvtPayload) (Envelope Value)} `{!PayloadCodec Value}.
Context (E : Env).

Abbreviation M := (eff State Exit).

(** ** Effects *)

Definition tick : M nat := fun s => (Ok (steps s), with_steps (S (steps s)) s).

(** [Instant::now()]. *)
Definition now : M Z :=
  n ← tick; modify (advance_clock (Z.of_N (env_tick E n))) ;; gets clock.

(** [instant.elapsed()]. *)
Definition elapsed (since : Z) : M Z := t ← now; mret (ProtocolErrorTracker.duration_since t since).

Definition now_unix_ms : M Z := n ← tick; mret (env_unix_ms E n).

Definition new_uuid : M string := n ← tick; mret (env_uuid E n).

Definition borrow_frame : M TelemetryFrame := n ← tick; mret (env_frame E n).

Definition lock_relay_session : M (option RelaySession) := n ← tick; mret (env_relay E n).

Definition make_envelope (ty : string) (pr : Priority) (p : EvtPayload) : M (Envelope EvtPayload) :=
  uuid ← new_uuid; ts ← now_unix_ms; mret (mkEnvelope IPC_PROTOCOL_VERSION uuid ts ty pr p).

Definition make_protocol_error (c : ProtocolErrorCode) (message : string)
    (related_message_id : option string) : M (Envelope EvtPayload) :=
  make_envelope "protocol_error" High
    (EvtProtocolError {| code := c; error_message := message;
                         related_message_id := related_message_id |}).

(** [write_frame(evt_writer, &m).await?]. *)
Definition send (m : Envelope EvtPayload) : M unit :=
  match write_frame m with
  | Err e => throw (Err e)
  | Ok _ =>
      n ← tick;
      match env_write E n with
      | Some e => throw (Err e)
      | None => modify (push_out m)
      end
  end.

Definition update_debug_status (f : IpcDebugStatus -> IpcDebugStatus) : M unit :=
  modify (update_debug f) ;;
  ts ← now_unix_ms;
  modify (update_debug (set_updated_ts ts)).

(** [protocol_errors.record_and_should_reset()]. *)
Definition record_and_should_reset : M bool :=
  t ← now;
  errors ← gets protocol_errors;
  let (reset, errors) := ProtocolErrorTracker.record_and_should_reset t errors in
  modify (with_protocol_errors errors) ;; mret reset.

Definition user_notice (l : UserNoticeLevel) (pr : Priority) (text : string) : M (Envelope EvtPayload) :=
  make_envelope "user_notice" pr (EvtUserNotice {| level := l; message := text |}).

(** [pending_switches.len() as u32]. *)
Definition pending_len (s : State) : Z := Int.cast 32 (Z.of_nat (size (pending_switches s))).

(** ** Core commands *)

Definition handle_command (cmd : CoreIpcCommand) : M unit :=
  let '(SwitchScene scene_name reason deadline_ms) := cmd in
  request_id ← new_uuid;
  request_ts ← now_unix_ms;
  let p := {| request_id := request_id; scene_name := scene_name; reason := reason;
              deadline_ms := deadline_ms |} in
  evt ← make_envelope "switch_scene" Critical (EvtSwitchScene p);
  send evt ;;
  t ← now;
  modify (insert_pending request_id {| pending_scene_name := scene_name;
                                       deadline_at := t + from_millis deadline_ms |}) ;;
  len ← gets pending_len;
  update_debug_status (fun d =>
    set_last_switch_request
      {| req_request_id := request_id; req_scene_name := scene_name; req_reason := reason;
         req_deadline_ms := deadline_ms; req_ts_unix_ms := request_ts |}
      (set_pending_switch_count len d)).

(** [while let Ok(cmd) = core_cmd_rx.try_recv()]. *)
Fixpoint drain_commands (cmds : list (option CoreIpcCommand)) : M unit :=
  match cmds with
  | [] => mret tt
  | None :: rest => modify (with_core_cmd_rx rest)
  | Some cmd :: rest =>
      modify (with_core_cmd_rx rest) ;;
      handshake ← gets handshake_complete;
      (if (handshake : bool) then handle_command cmd else mret tt) ;;
      drain_commands rest
  end.

Definition forward_commands : M unit := cmds ← gets core_cmd_rx; drain_commands cmds.

(** ** Pending scene switches *)

Definition expire_one (id : string) : M unit :=
  pending ← gets pending_switches;
  match pending !! id with
  | None => mret tt
  | Some expired =>
      modify (remove_pending id) ;;
      notice ← user_notice Warn High
        ("Scene switch to '" +:+ pending_scene_name expired +:+ "' timed out (request " +:+ id +:+ ")");
      attempt (send notice) ;;
      len ← gets pending_len;
      ts ← now_unix_ms;
      update_debug_status (fun d =>
        set_last_notice
          ("Scene switch '" +:+ pending_scene_name expired +:+ "' timed out (" +:+ id +:+ ")")
          (set_last_switch_result
             {| res_request_id := id; res_status := "timeout"; res_error := None;
                res_ts_unix_ms := ts |}
             (set_pending_switch_count len d)))
  end.

(** [(now >= pending.deadline_at).then_some(id)] over the map's entries. *)
Definition expired_ids (t : Z) (entries : list (string * PendingSwitchScene)) : list string :=
  omap (fun '(id, p) => if deadline_at p <=? t then Some id else None) entries.

Definition expire_pending : M unit :=
  pending ← gets pending_switches;
  if bool_decide (pending = ∅) then mret tt
  else
    t ← now;
    n ← tick;
    for_each expire_one (expired_ids t (env_order E n (map_to_list pending))).

(** ** Status and heartbeat *)

(** Build and write a [status_snapshot], then restart the push timer. *)
Definition push_status_snapshot (pr : Priority) : M unit :=
  frame ← borrow_frame;
  relay ← lock_relay_session;
  overrides ← gets session_overrides;
  snapshot ← make_envelope "status_snapshot" pr
    (EvtStatusSnapshot (build_status_snapshot_with_overrides frame relay overrides));
  send snapshot ;;
  t ← now;
  modify (with_last_status_push_at t).

Definition periodic_status : M unit :=
  handshake ← gets handshake_complete;
  if (handshake : bool) then
    last ← gets last_status_push_at;
    dt ← elapsed last;
    if STATUS_PUSH_INTERVAL <=? dt then push_status_snapshot Normal else mret tt
  else mret tt.

Definition check_heartbeat : M unit :=
  handshake ← gets handshake_complete;
  if (handshake : bool) then
    last ← gets last_ping_at;
    dt ← elapsed last;
    if HEARTBEAT_TIMEOUT <=? dt then
      protocol_error ← make_protocol_error Timeout "Heartbeat timeout (missing ping)" None;
      attempt (send protocol_error) ;;
      update_debug_status (set_last_notice "Heartbeat timeout (missing ping)") ;;
      throw (Ok tt)
    else mret tt
  else mret tt.

(** ** Incoming frames *)

(** [timeout(READ_POLL_TIMEOUT, read_frame(cmd_reader)).await]. *)
Definition poll_read : M (Poll (Envelope Value)) := fun s =>
  match read_frame (inbox s) with
  | (Elapsed, r) => (Ok Elapsed, advance_clock READ_POLL_TIMEOUT (with_inbox r s))
  | (p, r) => (Ok p, with_inbox r s)
  end.

(** [if protocol_errors.record_and_should_reset() { return Ok(()) }]. *)
Definition count_protocol_error : M unit :=
  reset ← record_and_should_reset;
  if (reset : bool) then throw (Ok tt) else mret tt.

(** [None] is [continue]. *)
Definition poll_incoming : M (option (Envelope Value)) :=
  p ← poll_read;
  match p with
  | Elapsed => mret None
  | Ready (Ok frame) => mret (Some frame)
  | Ready (Err err) =>
      if bool_decide (kind err = InvalidData) then
        let c := if Str.contains "frame too large" (msg err) then FrameTooLarge else DecodeFailed in
        protocol_error ← make_protocol_error c (msg err) None;
        attempt (send protocol_error) ;;
        update_debug_status (set_last_notice "IPC decode/frame protocol error") ;;
        count_protocol_error ;;
        mret None
      else throw (Err err)
  end.

(** ** Dispatch *)

Definition decode_payload {T} `{!FromValue Value T} (envelope : Envelope Value) : result IoError T :=
  map_err (fun err => {| kind := InvalidData; msg := "payload decode failed: " +:+ err |})
    (from_value (payload envelope)).

Definition emit_protocol_error_for_payload (incoming : Envelope Value) (err : IoError) : M unit :=
  protocol_error ← make_protocol_error InvalidPayload (msg err) (Some (id incoming));
  send protocol_error.

(** The [match decode_payload(&incoming)] at the head of every command: an
    undecodable payload is reported and counted, and ends the iteration. *)
Definition with_payload {T} `{!FromValue Value T} (incoming : Envelope Value) (handle : T -> M unit) :
    M unit :=
  match decode_payload incoming with
  | Ok p => handle p
  | Err err => emit_protocol_error_for_payload incoming err ;; count_protocol_error
  end.

Definition on_hello (hello : HelloPayload) : M unit :=
  if negb (hello_protocol_version hello =? IPC_PROTOCOL_VERSION) then
    notice ← user_notice Error High
      ("Protocol mismatch (plugin " +:+ Str.show (hello_protocol_version hello) +:+ ", core "
       +:+ Str.show IPC_PROTOCOL_VERSION +:+ ")");
    send notice ;;
    update_debug_status (set_last_notice "IPC protocol mismatch") ;;
    throw (Ok tt)
  else
    ack ← make_envelope "hello_ack" High
      (EvtHelloAck {| core_version := CARGO_PKG_VERSION;
                      ack_protocol_version := IPC_PROTOCOL_VERSION;
                      ack_capabilities := ["state_machine"; "aegis"; "ipc_stub"] |});
    send ack ;;
    modify (with_handshake_complete true) ;;
    t1 ← now; modify (with_last_ping_at t1) ;;
    t2 ← now; modify (with_last_status_push_at (t2 - STATUS_PUSH_INTERVAL)).

Definition on_ping (ping : PingPayload) : M unit :=
  pong ← make_envelope "pong" Normal (EvtPong {| pong_nonce := ping_nonce ping |});
  send pong ;;
  t ← now; modify (with_last_ping_at t).

Definition on_request_status (_ : RequestStatusPayload) : M unit := push_status_snapshot High.

Definition on_set_mode_request (incoming : Envelope Value) (req : SetModeRequestPayload) : M unit :=
  let normalized :=
    if String.eqb (mode_request req) "studio" then Some ModeStudio
    else if String.eqb (mode_request req) "irl" then Some ModeIrl
    else None in
  match normalized with
  | None =>
      protocol_error ← make_protocol_error InvalidPayload
        ("Invalid mode for set_mode_request: " +:+ mode_request req) (Some (id incoming));
      send protocol_error
  | Some m =>
      overrides ← gets session_overrides;
      let (changed, overrides) := SessionOverrides.set_mode_if_changed m overrides in
      modify (with_session_overrides overrides) ;;
      if negb changed then mret tt
      else
        notice ← user_notice Info Normal ("Dock mode override set to " +:+ mode_request req);
        attempt (send notice) ;;
        push_status_snapshot High
  end.

Definition on_set_setting_request (incoming : Envelope Value) (req : SetSettingRequestPayload) :
    M unit :=
  overrides ← gets session_overrides;
  let (res, overrides) :=
    SessionOverrides.apply_setting_if_changed (setting_key req) (setting_value req) overrides in
  modify (with_session_overrides overrides) ;;
  match res with
  | Err _ =>
      protocol_error ← make_protocol_error InvalidPayload
        ("Unsupported setting key for set_setting_request: " +:+ setting_key req) (Some (id incoming));
      send protocol_error
  | Ok changed =>
      if negb changed then mret tt
      else
        notice ← user_notice Info Normal
          ("Dock setting '" +:+ setting_key req +:+ "' set to " +:+ show_bool (setting_value req));
        attempt (send notice) ;;
        push_status_snapshot High
  end.

Definition on_scene_switch_result (result : SceneSwitchResultPayload) : M unit :=
  pending ← gets pending_switches;
  modify (remove_pending (result_request_id result)) ;;
  ts ← now_unix_ms;
  match pending !! result_request_id result with
  | None =>
      update_debug_status (fun d =>
        set_last_notice "scene_switch_result for unknown request"
          (set_last_switch_result
             {| res_request_id := result_request_id result; res_status := "unknown_request";
                res_error := result_error result; res_ts_unix_ms := ts |} d))
  | Some _ =>
      len ← gets pending_len;
      update_debug_status (fun d =>
        set_last_switch_result
          {| res_request_id := result_request_id result;
             res_status := if result_ok result then "ok" else "error";
             res_error := result_error result; res_ts_unix_ms := ts |}
          (set_pending_switch_count len d))
  end.

Definition on_obs_shutdown_notice (notice : ObsShutdownNoticePayload) : M unit :=
  update_debug_status (set_last_notice ("obs shutdown notice: " +:+ shutdown_reason notice)) ;;
  throw (Ok tt).

Definition on_unknown (incoming : Envelope Value) : M unit :=
  protocol_error ← make_protocol_error UnknownType
    ("Unsupported IPC command in core stub: " +:+ message_type incoming) (Some (id incoming));
  send protocol_error ;;
  update_debug_status (set_last_notice ("Unsupported IPC command: " +:+ message_type incoming)) ;;
  count_protocol_error.

Definition dispatch (incoming : Envelope Value) : M unit :=
  if negb (v incoming =? IPC_PROTOCOL_VERSION) then
    notice ← user_notice Error High
      ("IPC protocol version mismatch: plugin=" +:+ Str.show (v incoming) +:+ ", core="
       +:+ Str.show IPC_PROTOCOL_VERSION);
    send notice ;;
    update_debug_status (set_last_notice "IPC envelope version mismatch") ;;
    throw (Ok tt)
  else
    let ty := message_type incoming in
    if String.eqb ty "hello" then with_payload incoming on_hello
    else if String.eqb ty "ping" then with_payload incoming on_ping
    else if String.eqb ty "request_status" then with_payload incoming on_request_status
    else if String.eqb ty "set_mode_request" then with_payload incoming (on_set_mode_request incoming)
    else if String.eqb ty "set_setting_request" then
      with_payload incoming (on_set_setting_request incoming)
    else if String.eqb ty "scene_switch_result" then with_payload incoming on_scene_switch_result
    else if String.eqb ty "obs_shutdown_notice" then with_payload incoming on_obs_shutdown_notice
    else on_unknown incoming.

(** ** The loop *)

Definition iteration : M unit :=
  forward_commands ;;
  expire_pending ;;
  periodic_status ;;
  check_heartbeat ;;
  incoming ← poll_incoming;
  match incoming with
  | None => mret tt
  | Some m => dispatch m
  end.

(** The [loop]: [None] when the fuel runs out first. *)
Fixpoint session_loop (fuel : nat) (s : State) : option Exit * State :=
  match fuel with
  | O => (None, s)
  | S fuel' =>
      match iteration s with
      | (Ok _, s') => session_loop fuel' s'
      | (Err x, s') => (Some x, s')
      end
  end.

(** The locals on entry: two readings of the clock. *)
Definition enter_session (steps0 : nat) (clock0 : Z) (r : Reader)
    (cmds : list (option CoreIpcCommand)) (d : IpcDebugStatus) : State :=
  let s := mkState steps0 clock0 r cmds [] d ProtocolErrorTracker.new ∅ SessionOverrides.default
             false clock0 clock0 in
  final (t1 ← now; modify (with_last_ping_at t1) ;; t2 ← now; modify (with_last_status_push_at t2)) s.

(** An iteration that does not end the session takes an event from the reader,
    so the size of the script bounds their number. *)
Definition session_fuel (r : Reader) : nat := S (reader_size r).

Definition handle_session_io (steps0 : nat) (clock0 : Z) (r : Reader)
    (cmds : list (option CoreIpcCommand)) (d : IpcDebugStatus) : option Exit * State :=
  session_loop (session_fuel r) (enter_session steps0 clock0 r cmds d).
End Session.
