(* ===== verification/IpcSessionFacts.v ===== *)
(** * IpcSessionFacts: what the session loop guarantees

    Symbolic-execution rules for the effects of [IpcSession], the invariants of
    a session (handshake gating, the ledger of pending scene switches), the
    termination of the loop, heartbeat liveness, and the functional behaviour of
    the commands. *)

From S2P Require Import Prelude Effects RustStd Float Model Aegis Ipc IpcWire IpcSession.

#[local] Open Scope Z_scope.

(** The environment moved on: only the oracle index and the clock changed. *)
Definition later (n : nat) (c : Z) (s : State) : State := with_clock c (with_steps n s).

(** ** Rules for the effects *)

Section Rules.
Context {Value : Type} `{!WireCodec (Envelope EvtPayload) (Envelope Value)} `{!PayloadCodec Value}.
Context (E : Env).
Abbreviation post A := (result Exit A -> State -> Prop).

Lemma with_steps_refl s : with_steps (steps s) s = s.
Proof. by destruct s. Qed.

Lemma wp_tick (Q : post nat) s :
  (forall n n', Q (Ok n) (with_steps n' s)) -> wp tick Q s.
Proof. intros H. apply H. Qed.

Lemma wp_now (Q : post Z) s :
  (forall n c, clock s <= c -> Q (Ok c) (later n c s)) -> wp (now E) Q s.
Proof. intros H. apply H. cbn. lia. Qed.

Lemma wp_elapsed since (Q : post Z) s :
  (forall n c, clock s <= c -> Q (Ok (ProtocolErrorTracker.duration_since c since)) (later n c s)) ->
  wp (elapsed E since) Q s.
Proof. intros H. apply wp_bind, wp_now. intros. by apply wp_ret, H. Qed.

(** The same, with the reading made explicit. *)
Lemma wp_tick_exact (Q : post nat) s :
  Q (Ok (steps s)) (with_steps (S (steps s)) s) -> wp tick Q s.
Proof. intros H. exact H. Qed.

Lemma wp_now_exact (Q : post Z) s :
  let t := clock s + Z.of_N (env_tick E (steps s)) in
  Q (Ok t) (later (S (steps s)) t s) -> wp (now E) Q s.
Proof. intros t H. exact H. Qed.

Lemma wp_elapsed_exact since (Q : post Z) s :
  let t := clock s + Z.of_N (env_tick E (steps s)) in
  Q (Ok (ProtocolErrorTracker.duration_since t since)) (later (S (steps s)) t s) ->
  wp (elapsed E since) Q s.
Proof. intros t H. exact H. Qed.

Lemma wp_now_unix_ms (Q : post Z) s :
  (forall n ts, Q (Ok ts) (with_steps n s)) -> wp (now_unix_ms E) Q s.
Proof. intros H. apply H. Qed.

Lemma wp_new_uuid (Q : post string) s :
  (forall n u, Q (Ok u) (with_steps n s)) -> wp (new_uuid E) Q s.
Proof. intros H. apply H. Qed.

Lemma wp_borrow_frame (Q : post TelemetryFrame) s :
  (forall n f, Q (Ok f) (with_steps n s)) -> wp (borrow_frame E) Q s.
Proof. intros H. apply H. Qed.

Lemma wp_lock_relay_session (Q : post (option RelaySession)) s :
  (forall n r, Q (Ok r) (with_steps n s)) -> wp (lock_relay_session E) Q s.
Proof. intros H. apply H. Qed.

Lemma wp_make_envelope ty pr p (Q : post (Envelope EvtPayload)) s :
  (forall n uuid ts, Q (Ok (mkEnvelope IPC_PROTOCOL_VERSION uuid ts ty pr p)) (with_steps n s)) ->
  wp (make_envelope E ty pr p) Q s.
Proof.
  intros H. exact (H (S (S (steps s))) (env_uuid E (steps s)) (env_unix_ms E (S (steps s)))).
Qed.

Lemma wp_user_notice l pr text (Q : post (Envelope EvtPayload)) s :
  (forall n uuid ts, Q (Ok (mkEnvelope IPC_PROTOCOL_VERSION uuid ts "user_notice" pr
                        (EvtUserNotice {| level := l; message := text |}))) (with_steps n s)) ->
  wp (user_notice E l pr text) Q s.
Proof.
  intros H. exact (H (S (S (steps s))) (env_uuid E (steps s)) (env_unix_ms E (S (steps s)))).
Qed.

Lemma wp_make_protocol_error c text rel (Q : post (Envelope EvtPayload)) s :
  (forall n uuid ts, Q (Ok (mkEnvelope IPC_PROTOCOL_VERSION uuid ts "protocol_error" High
     (EvtProtocolError {| code := c; error_message := text; related_message_id := rel |})))
     (with_steps n s)) ->
  wp (make_protocol_error E c text rel) Q s.
Proof.
  intros H. exact (H (S (S (steps s))) (env_uuid E (steps s)) (env_unix_ms E (S (steps s)))).
Qed.

(** A write either fails and leaves the session to its error, or appends a
    message that has a frame. *)
Lemma wp_send m (Q : post unit) s :
  (forall n e, Q (Err (Err e)) (with_steps n s)) ->
  (forall n, is_ok (write_frame m) = true -> Q (Ok tt) (push_out m (with_steps n s))) ->
  wp (send E m) Q s.
Proof.
  intros Herr Hok. unfold send. destruct (write_frame m) as [bs|e].
  - unfold wp, outcome, final, tick, mbind, eff_bind. cbn.
    destruct (env_write E (steps s)); [apply Herr | by apply Hok].
  - apply wp_throw. rewrite <- (with_steps_refl s). apply Herr.
Qed.

Lemma wp_update_debug_status f (Q : post unit) s :
  (forall n ts, Q (Ok tt)
     (update_debug (set_updated_ts ts) (with_steps n (update_debug f s)))) ->
  wp (update_debug_status E f) Q s.
Proof. intros H. apply H. Qed.

Lemma wp_record (Q : post bool) s :
  (forall n c, clock s <= c ->
     let (reset, errors) := ProtocolErrorTracker.record_and_should_reset c (protocol_errors s) in
     Q (Ok reset) (with_protocol_errors errors (later n c s))) ->
  wp (record_and_should_reset E) Q s.
Proof.
  intros H. apply wp_bind, wp_now. intros n c Hc. specialize (H n c Hc). cbn beta iota.
  apply wp_bind, wp_gets. cbn beta iota. change (protocol_errors (later n c s)) with (protocol_errors s).
  destruct (ProtocolErrorTracker.record_and_should_reset c (protocol_errors s)). exact H.
Qed.

(** Counting an error either lets the session go on or ends it normally. *)
Lemma wp_count_protocol_error (Q : post unit) s :
  (forall n c errors, clock s <= c ->
     ProtocolErrorTracker.record_and_should_reset c (protocol_errors s) = (true, errors) ->
     Q (Err (Ok tt)) (with_protocol_errors errors (later n c s))) ->
  (forall n c errors, clock s <= c ->
     ProtocolErrorTracker.record_and_should_reset c (protocol_errors s) = (false, errors) ->
     Q (Ok tt) (with_protocol_errors errors (later n c s))) ->
  wp (count_protocol_error E) Q s.
Proof.
  intros Ht Hf. apply wp_bind, wp_record. intros n c Hc.
  destruct (ProtocolErrorTracker.record_and_should_reset c (protocol_errors s)) as [[] errors] eqn:Hr.
  - by apply Ht.
  - by apply Hf.
Qed.

Lemma wp_push_status_snapshot pr (Q : post unit) s :
  (forall n e, Q (Err (Err e)) (with_steps n s)) ->
  (forall n n' c uuid ts frame relay, clock s <= c ->
     let m := mkEnvelope IPC_PROTOCOL_VERSION uuid ts "status_snapshot" pr
       (EvtStatusSnapshot (build_status_snapshot_with_overrides frame relay (session_overrides s))) in
     is_ok (write_frame m) = true ->
     Q (Ok tt) (with_last_status_push_at c (later n' c (push_out m (with_steps n s))))) ->
  wp (push_status_snapshot E pr) Q s.
Proof.
  intros Herr Hok. unfold push_status_snapshot.
  apply wp_bind, wp_borrow_frame. intros n1 frame. apply wp_bind, wp_lock_relay_session. intros n2 relay.
  apply wp_bind, wp_gets. apply wp_bind, wp_make_envelope. intros n3 uuid ts.
  apply wp_bind, wp_send; [intros n4 e | intros n4 Hm]; [exact (Herr n4 e)|].
  apply wp_bind, wp_now. intros n5 c Hc. apply wp_modify. exact (Hok n4 n5 c uuid ts frame relay Hc Hm).
Qed.

(** A poll consumes from the inbox; a timeout lets 250 ms pass. *)
Lemma wp_poll_read (Q : post (Poll (Envelope Value))) s :
  (let (p, r) := read_frame (inbox s) in
   match p with
   | Elapsed => Q (Ok Elapsed) (advance_clock READ_POLL_TIMEOUT (with_inbox r s))
   | Ready _ => Q (Ok p) (with_inbox r s)
   end) -> wp poll_read Q s.
Proof.
  unfold wp, outcome, final, poll_read. destruct (read_frame (inbox s)) as [[r|] s']; done.
Qed.

End Rules.

(** Apply the rule of the effect at the head. *)
Ltac session_prim :=
  idtac;
  lazymatch goal with
  | |- wp tick _ _ => apply wp_tick; intros
  | |- wp (now _) _ _ => apply wp_now; intros
  | |- wp (elapsed _ _) _ _ => apply wp_elapsed; intros
  | |- wp (now_unix_ms _) _ _ => apply wp_now_unix_ms; intros
  | |- wp (new_uuid _) _ _ => apply wp_new_uuid; intros
  | |- wp (make_envelope _ _ _ _) _ _ => apply wp_make_envelope; intros
  | |- wp (user_notice _ _ _ _) _ _ => apply wp_user_notice; intros
  | |- wp (make_protocol_error _ _ _ _) _ _ => apply wp_make_protocol_error; intros
  | |- wp (send _ _) _ _ => apply wp_send; intros
  | |- wp (update_debug_status _ _) _ _ => apply wp_update_debug_status; intros
  | |- wp (count_protocol_error _) _ _ => apply wp_count_protocol_error; intros
  | |- wp (push_status_snapshot _ _) _ _ => apply wp_push_status_snapshot; intros
  | |- wp poll_read _ _ => apply wp_poll_read
  end.

Ltac session_step := wp_step session_prim.
Ltac session_steps := repeat session_step; cbn beta iota.

(** ** The ledger of a session *)

Definition is_hello_ack (m : Envelope EvtPayload) : Prop :=
  match payload m with EvtHelloAck _ => True | _ => False end.

Definition switch_scene_of (m : Envelope EvtPayload) : option SwitchScenePayload :=
  match payload m with EvtSwitchScene sp => Some sp | _ => None end.

(** The [type] an envelope has for its payload. *)
Definition type_of (p : EvtPayload) : string :=
  match p with
  | EvtHelloAck _ => "hello_ack" | EvtPong _ => "pong" | EvtStatusSnapshot _ => "status_snapshot"
  | EvtSwitchScene _ => "switch_scene" | EvtUserNotice _ => "user_notice" | EvtProtocolError _ => "protocol_error"
  end.

(** What ties the frames written, the pending map, the reported count and the
    handshake together. *)
Record ledger_on (o : list (Envelope EvtPayload)) (count : Z)
    (pending : gmap string PendingSwitchScene) (handshake : bool) : Prop := {
  ledger_version : Forall (fun m => v m = IPC_PROTOCOL_VERSION /\ message_type m = type_of (payload m)) o;
  ledger_ack : handshake = true -> Exists is_hello_ack o;
  ledger_gated : forall o1 m o2, o = o1 ++ m :: o2 -> is_Some (switch_scene_of m) ->
    Exists is_hello_ack o1;
  ledger_pending : forall i p, pending !! i = Some p ->
    exists m sp, m ∈ o /\ switch_scene_of m = Some sp
      /\ request_id sp = i /\ scene_name sp = pending_scene_name p;
  ledger_count : count = Int.cast 32 (Z.of_nat (size pending));
}.

Definition Ledger (s : State) : Prop :=
  ledger_on (out s) (pending_switch_count (debug_status s)) (pending_switches s) (handshake_complete s).

Lemma snoc_split {A} (l : list A) x l1 y l2 :
  l ++ [x] = l1 ++ y :: l2 -> (l2 = [] /\ l = l1 /\ x = y) \/ exists l2', l2 = l2' ++ [x] /\ l = l1 ++ y :: l2'.
Proof.
  induction l2 as [|z l2 _] using rev_ind; intros H.
  - left. by apply app_inj_tail in H as [-> ->].
  - right. rewrite app_comm_cons, app_assoc in H. apply app_inj_tail in H as [-> ->]. eauto.
Qed.

Section LedgerLemmas.
Context {o : list (Envelope EvtPayload)} {count : Z} {pending : gmap string PendingSwitchScene}
  {handshake : bool} (L : ledger_on o count pending handshake).

Lemma ledger_write m handshake' :
  v m = IPC_PROTOCOL_VERSION /\ message_type m = type_of (payload m) ->
  (is_Some (switch_scene_of m) -> handshake = true) ->
  (handshake' = true -> handshake = true \/ is_hello_ack m) ->
  ledger_on (o ++ [m]) count pending handshake'.
Proof.
  intros Hv Hsw Hh. destruct L as [Lv La Lg Lp Lc]. constructor; [| | | |done].
  - apply Forall_app. auto.
  - intros H. apply Exists_app. destruct (Hh H) as [Hh'|Hm]; [left; auto | right; by constructor].
  - intros o1 m' o2 Ho Hm. destruct (snoc_split _ _ _ _ _ Ho) as [(-> & -> & ->)|(o2' & -> & Ho')].
    + apply La, Hsw, Hm.
    + exact (Lg _ _ _ Ho' Hm).
  - intros i p Hp. destruct (Lp i p Hp) as (m' & sp & Hm & H). exists m', sp. set_solver.
Qed.

Lemma ledger_insert m sp p :
  m ∈ o -> switch_scene_of m = Some sp -> pending_scene_name p = scene_name sp ->
  ledger_on o (Int.cast 32 (Z.of_nat (size (<[request_id sp := p]> pending))))
    (<[request_id sp := p]> pending) handshake.
Proof.
  intros Hm Hsp Hp. destruct L as [Lv La Lg Lp Lc]. constructor; [done..| |done].
  intros i q Hq. destruct (decide (request_id sp = i)) as [<-|Hne].
  - rewrite lookup_insert_eq in Hq. simplify_eq. exists m, sp. by rewrite Hp.
  - rewrite lookup_insert_ne in Hq by done. auto.
Qed.

Lemma ledger_delete i :
  ledger_on o (Int.cast 32 (Z.of_nat (size (delete i pending)))) (delete i pending) handshake.
Proof.
  destruct L as [Lv La Lg Lp Lc]. constructor; [done..| |done].
  intros j q [_ Hq]%lookup_delete_Some. auto.
Qed.
End LedgerLemmas.

(** Close a ledger goal: up to conversion the state is the one of [L], after
    some frames that are not [switch_scene]. *)
Ltac ledger_frames L :=
  first [ exact L
        | refine (ledger_write _ _ _ _ _ _);
          [ ledger_frames L | by split | by intros [? ?] | first [by left | by right] ] ].
Ltac ledger L := lazymatch goal with |- Ledger _ => ledger_frames L end.

Section LedgerSession.
Context {Value : Type} `{!WireCodec (Envelope EvtPayload) (Envelope Value)} `{!PayloadCodec Value}.
Context (E : Env).

Lemma ledger_push_status_snapshot pr : preserves Ledger (push_status_snapshot E pr).
Proof. apply preserves_wp. intros s L. apply wp_push_status_snapshot; intros; ledger L. Qed.

Lemma ledger_handle_command cmd s :
  Ledger s -> handshake_complete s = true -> Ledger (final (handle_command E cmd) s).
Proof.
  intros L Hh. change (wp (handle_command E cmd) (fun _ s' => Ledger s') s).
  destruct cmd as [sc re dl]. unfold handle_command. session_steps; [exact L|].
  match goal with |- context [push_out ?m] => set (evt := m) end.
  assert (Ledger (push_out evt s)) as L'.
  { apply (ledger_write L); [by split | by intros _ | by left]. }
  refine (ledger_insert L' evt _ _ _ eq_refl _); [set_solver | reflexivity].
Qed.

Lemma ledger_expire_one i : preserves Ledger (expire_one E i).
Proof.
  apply preserves_wp. intros s L. pose proof (ledger_delete L i) as L'. unfold expire_one.
  session_steps.
  all: first [exact L | exact L' | idtac].
  refine (ledger_write L' _ _ _ _ _); [by split | by intros [? ?] | by left].
Qed.

Lemma ledger_drain_commands cmds : preserves Ledger (drain_commands E cmds).
Proof.
  induction cmds as [|[cmd|] cmds IH]; cbn [drain_commands]; [apply preserves_ret | |].
  - apply preserves_bind; [by apply preserves_modify | intros _].
    apply preserves_wp. intros s L. apply wp_bind, wp_gets, wp_bind.
    destruct (handshake_complete s) eqn:Hh.
    + pose proof (ledger_handle_command cmd s L Hh) as L'. unfold wp.
      destruct (outcome (handle_command E cmd) s); [by apply IH | done].
    + apply wp_ret. by apply IH.
  - by apply preserves_modify.
Qed.

Lemma ledger_expire_pending : preserves Ledger (expire_pending E).
Proof.
  unfold expire_pending. apply preserves_bind; [apply preserves_gets | intros m]. case_bool_decide.
  { apply preserves_ret. }
  apply preserves_bind; [intros s L; exact L | intros t].
  apply preserves_bind; [intros s L; exact L | intros n].
  apply preserves_for_each, ledger_expire_one.
Qed.

(** Every case of a step: execute it, and close the resulting states. *)
Ltac ledger_step := apply preserves_wp; intros s L; session_steps; try ledger L.

Lemma ledger_periodic_status : preserves Ledger (periodic_status E).
Proof. unfold periodic_status. ledger_step. Qed.

Lemma ledger_check_heartbeat : preserves Ledger (check_heartbeat E).
Proof. unfold check_heartbeat. ledger_step. Qed.

Lemma ledger_count_protocol_error : preserves Ledger (count_protocol_error E).
Proof. ledger_step. Qed.

Lemma ledger_poll_incoming : preserves Ledger (poll_incoming E).
Proof.
  apply preserves_wp. intros s L. apply wp_bind, wp_poll_read.
  destruct (read_frame (inbox s)) as [[[frame|err]|] r]; [exact L | | exact L].
  case_bool_decide; [|exact L]. session_steps; ledger L.
Qed.

Lemma ledger_with_payload {T} `{!FromValue Value T} incoming (handle : T -> eff State Exit unit) :
  (forall p, preserves Ledger (handle p)) -> preserves Ledger (with_payload E incoming handle).
Proof.
  intros H. unfold with_payload. destruct (decode_payload incoming); [apply H|].
  unfold emit_protocol_error_for_payload. ledger_step.
Qed.

Lemma ledger_on_hello hello : preserves Ledger (on_hello E hello).
Proof.
  apply preserves_wp. intros s L. unfold on_hello. session_steps; ledger L.
Qed.

Lemma ledger_on_scene_switch_result r : preserves Ledger (on_scene_switch_result E r).
Proof.
  apply preserves_wp. intros s L. unfold on_scene_switch_result. session_steps.
  - exact (ledger_delete L (result_request_id r)).
  - pose proof (ledger_delete L (result_request_id r)) as L'.
    cbn [pending_switches] in *. match goal with H : _ = None |- _ => rewrite (delete_id _ _ H) in L' end.
    destruct L as [Lv La Lg Lp Lc], L' as [_ _ _ Lp' Lc'].
    constructor; [exact Lv | exact La | exact Lg | | ]; cbn in *.
    + intros j p [_ Hq]%lookup_delete_Some. by apply Lp.
    + rewrite delete_id; done.
Qed.

Lemma ledger_dispatch incoming : preserves Ledger (dispatch E incoming).
Proof.
  unfold dispatch. destruct (negb (v incoming =? IPC_PROTOCOL_VERSION)); [ledger_step|].
  repeat match goal with
    | |- preserves _ (if ?b then _ else _) => destruct b; [apply ledger_with_payload; intros p |]
    end.
  - apply ledger_on_hello.
  - unfold on_ping. ledger_step.
  - apply ledger_push_status_snapshot.
  - unfold on_set_mode_request. ledger_step.
  - unfold on_set_setting_request. ledger_step.
  - apply ledger_on_scene_switch_result.
  - unfold on_obs_shutdown_notice. ledger_step.
  - unfold on_unknown. ledger_step.
Qed.
End LedgerSession.

(** ** The loop *)

(** The types of the command pipe. *)
Definition known_type (ty : string) : bool :=
  existsb (String.eqb ty)
    ["hello"; "ping"; "request_status"; "set_mode_request"; "set_setting_request";
     "scene_switch_result"; "obs_shutdown_notice"].

(** The payload of a message of known type does not decode as that type's. *)
Definition undecodable `{!PayloadCodec Value} (m : Envelope Value) : bool :=
  let p := payload m in
  let ty := message_type m in
  if String.eqb ty "hello" then negb (is_ok (from_value p : result string HelloPayload))
  else if String.eqb ty "ping" then negb (is_ok (from_value p : result string PingPayload))
  else if String.eqb ty "request_status" then
    negb (is_ok (from_value p : result string RequestStatusPayload))
  else if String.eqb ty "set_mode_request" then
    negb (is_ok (from_value p : result string SetModeRequestPayload))
  else if String.eqb ty "set_setting_request" then
    negb (is_ok (from_value p : result string SetSettingRequestPayload))
  else if String.eqb ty "scene_switch_result" then
    negb (is_ok (from_value p : result string SceneSwitchResultPayload))
  else if String.eqb ty "obs_shutdown_notice" then
    negb (is_ok (from_value p : result string ObsShutdownNoticePayload))
  else false.

(** A decodable request whose mode or setting key is not supported. *)
Definition refused_request `{!PayloadCodec Value} (m : Envelope Value) : bool :=
  if String.eqb (message_type m) "set_mode_request" then
    match from_value (payload m) : result string SetModeRequestPayload with
    | Ok p => negb (String.eqb (mode_request p) "studio") && negb (String.eqb (mode_request p) "irl")
    | Err _ => false
    end
  else if String.eqb (message_type m) "set_setting_request" then
    match from_value (payload m) : result string SetSettingRequestPayload with
    | Ok p => negb (existsb (String.eqb (setting_key p))
                ["auto_scene_switch"; "low_quality_fallback"; "manual_override"; "chat_bot"; "alerts"])
    | Err _ => false
    end
  else false.

Lemma refused_request_cases `{!PayloadCodec Value} (m : Envelope Value) :
  refused_request m = true ->
  (message_type m = "set_mode_request" /\ exists p, from_value (payload m) = Ok p /\
     String.eqb (mode_request p) "studio" = false /\ String.eqb (mode_request p) "irl" = false) \/
  (message_type m = "set_setting_request" /\ exists p, from_value (payload m) = Ok p /\
     forall o, SessionOverrides.apply_setting_if_changed (setting_key p) (setting_value p) o = (Err tt, o)).
Proof.
  unfold refused_request. destruct (String.eqb_spec (message_type m) "set_mode_request") as [Hty|_].
  - destruct (from_value (payload m)) as [p|] eqn:Hp; [|done]. intros [H1%negb_true_iff H2%negb_true_iff]%andb_prop.
    left. eauto.
  - destruct (String.eqb_spec (message_type m) "set_setting_request") as [Hty|_]; [|done].
    destruct (from_value (payload m)) as [p|] eqn:Hp; [|done]. intros Hk%negb_true_iff.
    right. split; [done|]. exists p. split; [done|]. intros [mo a l ov c n].
    unfold SessionOverrides.apply_setting_if_changed. cbn [existsb] in Hk.
    repeat (apply orb_false_iff in Hk as [-> Hk]). done.
Qed.

Section Loop.
Context {Value : Type} `{!WireCodec (Envelope EvtPayload) (Envelope Value)} `{!PayloadCodec Value}.
Context (E : Env).

Lemma ledger_iteration : preserves Ledger (iteration E).
Proof.
  apply preserves_bind; [|intros _].
  { apply preserves_bind; [apply preserves_gets | apply ledger_drain_commands]. }
  apply preserves_bind; [apply ledger_expire_pending | intros _].
  apply preserves_bind; [apply ledger_periodic_status | intros _].
  apply preserves_bind; [apply ledger_check_heartbeat | intros _].
  apply preserves_bind; [apply ledger_poll_incoming | intros [m|]].
  - apply ledger_dispatch.
  - apply preserves_ret.
Qed.

Lemma session_loop_preserves (I : State -> Prop) :
  preserves I (iteration E) -> forall fuel s, I s -> I (snd (session_loop E fuel s)).
Proof.
  intros HI fuel. induction fuel as [|fuel IH]; intros s Hs; [exact Hs|].
  cbn. specialize (HI s Hs). unfold final in HI.
  destruct (iteration E s) as [[[]|x] s']; [by apply IH | exact HI].
Qed.

(** *** What the phases before the poll leave alone *)

(** The handshake [h], the last ping [p], the inbox [r] and the tracker [t] are
    fixed, and the clock is past [c]. *)
Definition quiet (h : bool) (p c : Z) (r : Reader) (t : ProtocolErrorTracker.t) (s : State) : Prop :=
  handshake_complete s = h /\ last_ping_at s = p /\ c <= clock s /\ inbox s = r /\ protocol_errors s = t.

(** [m] stays quiet and does not end the session normally. *)
Definition quietly {A} h p c r t (m : eff State Exit A) : Prop :=
  forall s, quiet h p c r t s -> wp m (fun x s' => quiet h p c r t s' /\ x <> Err (Ok tt)) s.

Section Quiet.
Context {h : bool} {p c : Z} {r : Reader} {t : ProtocolErrorTracker.t}.

Lemma quiet_refl s : quiet (handshake_complete s) (last_ping_at s) (clock s) (inbox s) (protocol_errors s) s.
Proof. by repeat split. Qed.

Lemma quietly_bind {A B} (m : eff State Exit A) (f : A -> eff State Exit B) :
  quietly h p c r t m -> (forall a, quietly h p c r t (f a)) -> quietly h p c r t (m ≫= f).
Proof.
  intros Hm Hf s Hs. apply wp_bind. refine (wp_mono _ _ _ _ _ (Hm s Hs)).
  intros [a|x] s' [Hs' Hx]; [by apply Hf | split; congruence].
Qed.

Lemma quietly_ret {A} (a : A) : quietly h p c r t (mret a).
Proof. by intros s Hs. Qed.

Lemma quietly_gets {A} (f : State -> A) : quietly h p c r t (gets f).
Proof. by intros s Hs. Qed.

Lemma quietly_for_each {A} (f : A -> eff State Exit unit) l :
  (forall a, quietly h p c r t (f a)) -> quietly h p c r t (for_each f l).
Proof. intros Hf. induction l; [apply quietly_ret | by apply quietly_bind]. Qed.

(** Execute: in every final state the quiet part is the initial one. *)
Ltac stay_quiet :=
  intros s Hs; session_steps;
  (split; [destruct Hs as (? & ? & ? & ? & ?); repeat split; cbn in *; solve [assumption | lia]
          | discriminate]).

Lemma quietly_handle_command cmd : quietly h p c r t (handle_command E cmd).
Proof. destruct cmd. unfold handle_command. stay_quiet. Qed.

Lemma quietly_drain_commands cmds : quietly h p c r t (drain_commands E cmds).
Proof.
  induction cmds as [|[cmd|] cmds IH]; cbn [drain_commands]; [apply quietly_ret | |stay_quiet].
  apply quietly_bind; [stay_quiet | intros _].
  apply quietly_bind; [apply quietly_gets | intros b].
  apply quietly_bind; [|done]. destruct b; [apply quietly_handle_command | apply quietly_ret].
Qed.

Lemma quietly_forward_commands : quietly h p c r t (forward_commands E).
Proof. apply quietly_bind; [apply quietly_gets | apply quietly_drain_commands]. Qed.

Lemma quietly_expire_one i : quietly h p c r t (expire_one E i).
Proof. unfold expire_one. stay_quiet. Qed.

Lemma quietly_expire_pending : quietly h p c r t (expire_pending E).
Proof.
  apply quietly_bind; [apply quietly_gets | intros m]. case_bool_decide; [apply quietly_ret|].
  apply quietly_bind; [stay_quiet | intros t0].
  apply quietly_bind; [intros s Hs; by split | intros n].
  apply quietly_for_each, quietly_expire_one.
Qed.

Lemma quietly_periodic_status : quietly h p c r t (periodic_status E).
Proof. unfold periodic_status. stay_quiet. Qed.

(** The heartbeat check either stays quiet or ends the session with its notice. *)
Lemma check_heartbeat_quiet s :
  quiet h p c r t s ->
  wp (check_heartbeat E) (fun x s' => quiet h p c r t s' /\
    (x = Err (Ok tt) -> last_notice (debug_status s') = Some "Heartbeat timeout (missing ping)")) s.
Proof.
  intros Hs. unfold check_heartbeat. session_steps;
    (split; [destruct Hs as (? & ? & ? & ? & ?); repeat split; cbn in *; solve [assumption | lia] | done]).
Qed.
End Quiet.

(** *** Dispatching does not touch the inbox *)

Definition inbox_is (r : Reader) (s : State) : Prop := inbox s = r.

(** Execute: whatever is written, the inbox is the same. *)
Ltac same_inbox := apply preserves_wp; intros s Hs; session_steps; exact Hs.

Lemma inbox_with_payload r {T} `{!FromValue Value T} incoming (handle : T -> eff State Exit unit) :
  (forall p, preserves (inbox_is r) (handle p)) -> preserves (inbox_is r) (with_payload E incoming handle).
Proof.
  intros H. unfold with_payload. destruct (decode_payload incoming); [apply H|].
  unfold emit_protocol_error_for_payload. same_inbox.
Qed.

Lemma inbox_dispatch r incoming : preserves (inbox_is r) (dispatch E incoming).
Proof.
  unfold dispatch. destruct (negb (v incoming =? IPC_PROTOCOL_VERSION)); [same_inbox|].
  repeat match goal with
    | |- preserves _ (if ?b then _ else _) => destruct b; [apply inbox_with_payload; intros p |]
    end;
  unfold on_hello, on_ping, on_request_status, on_set_mode_request, on_set_setting_request,
    on_scene_switch_result, on_obs_shutdown_notice, on_unknown; same_inbox.
Qed.

(** *** Dispatch by type *)

Lemma with_payload_ok {T} `{!FromValue Value T} (m : Envelope Value) (f : T -> eff State Exit unit) p :
  from_value (payload m) = Ok p -> with_payload E m f = f p.
Proof. unfold with_payload, decode_payload. by intros ->. Qed.

Lemma with_payload_err {T} `{!FromValue Value T} (m : Envelope Value) (f : T -> eff State Exit unit) err :
  from_value (payload m) = Err err ->
  with_payload E m f =
    (emit_protocol_error_for_payload E m {| kind := InvalidData; msg := "payload decode failed: " +:+ err |} ;;
     count_protocol_error E).
Proof. unfold with_payload, decode_payload. by intros ->. Qed.

(** The handler of each type, for a message of the right version. *)
Lemma dispatch_cases m :
  v m = IPC_PROTOCOL_VERSION ->
  (message_type m = "hello" -> dispatch E m = with_payload E m (on_hello E)) /\
  (message_type m = "ping" -> dispatch E m = with_payload E m (on_ping E)) /\
  (message_type m = "request_status" -> dispatch E m = with_payload E m (on_request_status E)) /\
  (message_type m = "set_mode_request" -> dispatch E m = with_payload E m (on_set_mode_request E m)) /\
  (message_type m = "set_setting_request" ->
     dispatch E m = with_payload E m (on_set_setting_request E m)) /\
  (message_type m = "scene_switch_result" -> dispatch E m = with_payload E m (on_scene_switch_result E)) /\
  (message_type m = "obs_shutdown_notice" -> dispatch E m = with_payload E m (on_obs_shutdown_notice E)).
Proof. intros Hv. unfold dispatch. rewrite Hv. split_and!; by intros ->. Qed.

Lemma dispatch_undecodable m :
  v m = IPC_PROTOCOL_VERSION -> known_type (message_type m) = true -> undecodable m = true ->
  exists err, dispatch E m =
    (emit_protocol_error_for_payload E m {| kind := InvalidData; msg := "payload decode failed: " +:+ err |} ;;
     count_protocol_error E).
Proof.
  intros Hv Hk Hu. unfold undecodable in Hu. unfold dispatch. rewrite Hv. cbn [negb Z.eqb IPC_PROTOCOL_VERSION].
  unfold known_type in Hk. cbn [existsb] in Hk. change (negb (1 =? 1)) with false. cbv iota.
  repeat match goal with
    | |- context [if String.eqb ?a ?b then _ else _] =>
        destruct (String.eqb a b);
        [match type of Hu with negb (is_ok ?r) = true => destruct r eqn:Hr; [done|] end;
         eexists; by apply with_payload_err|]
    end.
  done.
Qed.

Lemma dispatch_unknown m :
  v m = IPC_PROTOCOL_VERSION -> known_type (message_type m) = false -> dispatch E m = on_unknown E m.
Proof.
  intros Hv Hk. unfold dispatch, known_type in *. rewrite Hv. cbn [existsb] in Hk.
  repeat (apply orb_false_iff in Hk as [-> Hk]). done.
Qed.

(** *** Progress and termination *)

Lemma poll_incoming_progress s a :
  outcome (poll_incoming E) s = Ok a ->
  (reader_size (inbox (final (poll_incoming E) s)) < reader_size (inbox s))%nat.
Proof.
  enough (wp (poll_incoming E) (fun x s' => forall a, x = Ok a ->
            (reader_size (inbox s') < reader_size (inbox s))%nat) s) as H by exact (H a).
  apply wp_bind, wp_poll_read. destruct (read_frame (inbox s)) as [p r] eqn:Hr.
  apply read_frame_size in Hr as [(e & -> & Hk)|Hr].
  - rewrite bool_decide_eq_false_2 by (rewrite Hk; discriminate). by intros b.
  - destruct p as [[frame|err]|]; [by intros b _ | | by intros b _].
    case_bool_decide; [|by intros b]. session_steps; intros; exact Hr.
Qed.

(** One iteration, cut at the poll: before it the session stays quiet or ends. *)
Lemma wp_iteration (Q : result Exit unit -> State -> Prop) s :
  let quiet := quiet (handshake_complete s) (last_ping_at s) (clock s) (inbox s) (protocol_errors s) in
  (forall x s', quiet s' ->
     (x = Ok tt -> last_notice (debug_status s') = Some "Heartbeat timeout (missing ping)") ->
     Q (Err x) s') ->
  (forall s0 s1, quiet s0 -> check_heartbeat E s0 = (Ok tt, s1) -> quiet s1 ->
     wp (poll_incoming E) (fun x s' => match x with
         | Ok None => Q (Ok tt) s'
         | Ok (Some m) => wp (dispatch E m) Q s'
         | Err x => Q (Err x) s'
         end) s1) ->
  wp (iteration E) Q s.
Proof.
  intros quiet_s Hexit Hpoll.
  assert (forall A (m : eff State Exit A) (f : A -> eff State Exit unit) s0,
    quietly (handshake_complete s) (last_ping_at s) (clock s) (inbox s) (protocol_errors s) m -> quiet_s s0 ->
    (forall a s', quiet_s s' -> wp (f a) Q s') -> wp (m ≫= f) Q s0) as Hphase.
  { intros A m f s0 Hm Hs0 Hf. apply wp_bind. refine (wp_mono _ _ _ _ _ (Hm s0 Hs0)).
    intros [a|x] s' [Hs' Hx]; [by apply Hf|]. apply Hexit; [done|]. intros ->. done. }
  apply Hphase; [apply quietly_forward_commands | apply quiet_refl | intros _ s1 H1].
  apply Hphase; [apply quietly_expire_pending | done | intros _ s2 H2].
  apply Hphase; [apply quietly_periodic_status | done | intros _ s3 H3].
  destruct (check_heartbeat E s3) as [x s4] eqn:Hc.
  destruct (proj1 (wp_run _ _ _ _ _ Hc) (check_heartbeat_quiet s3 H3)) as [H4 Hn].
  apply wp_bind, (wp_run _ _ _ _ _ Hc). destruct x as [[]|x].
  - apply wp_bind. refine (wp_mono _ _ _ _ _ (Hpoll s3 s4 H3 Hc H4)). by intros [[m|]|x] s'.
  - apply Hexit; [done|]. intros ->. by apply Hn.
Qed.

Lemma iteration_progress s s' :
  iteration E s = (Ok tt, s') -> (reader_size (inbox s') < reader_size (inbox s))%nat.
Proof.
  enough (wp (iteration E) (fun x s' => x = Ok tt ->
            (reader_size (inbox s') < reader_size (inbox s))%nat) s) as H.
  { unfold wp, outcome, final in H. intros Heq. rewrite Heq in H. by apply H. }
  apply wp_iteration; [done|]. intros _ s1 _ _ (_ & _ & _ & Hr & _).
  pose proof (poll_incoming_progress s1) as Hp. unfold wp.
  destruct (outcome (poll_incoming E) s1) as [a|x]; [|done]. specialize (Hp a eq_refl).
  rewrite Hr in Hp. destruct a as [m|]; [|by intros _].
  intros _. by rewrite (inbox_dispatch _ m _ eq_refl).
Qed.

Lemma session_loop_terminates fuel s :
  (reader_size (inbox s) < fuel)%nat -> exists x s', session_loop E fuel s = (Some x, s').
Proof.
  revert s. induction fuel as [|fuel IH]; intros s Hs; [lia|]. cbn.
  destruct (iteration E s) as [[[]|x] s'] eqn:Hi; [|eauto].
  apply iteration_progress in Hi. apply IH. lia.
Qed.

(** More fuel does not change a finished run. *)
Lemma session_loop_more fuel fuel' s x s' :
  session_loop E fuel s = (Some x, s') -> (fuel <= fuel')%nat -> session_loop E fuel' s = (Some x, s').
Proof.
  revert fuel' s. induction fuel as [|fuel IH]; intros fuel' s H Hle; [done|].
  destruct fuel' as [|fuel']; [lia|]. cbn in *.
  destruct (iteration E s) as [[[]|y] s1]; [apply IH; [done|lia] | done].
Qed.

(** The whole function: it returns, and its final state carries the ledger. *)
Lemma handle_session_io_returns n c r cmds d :
  exists x s, handle_session_io E n c r cmds d = (Some x, s).
Proof. apply session_loop_terminates. apply Nat.lt_succ_diag_r. Qed.

Lemma ledger_enter n c r cmds d :
  pending_switch_count d = 0 -> Ledger (enter_session E n c r cmds d).
Proof.
  intros Hd. constructor; cbn.
  - constructor.
  - done.
  - intros [|? ?] m o2; done.
  - intros i p Hp. change ((∅ : gmap string PendingSwitchScene) !! i = Some p) in Hp. by rewrite lookup_empty in Hp.
  - change (pending_switch_count d = Int.cast 32 (Z.of_nat (size (∅ : gmap string PendingSwitchScene)))).
    by rewrite Hd, map_size_empty.
Qed.

Lemma ledger_session n c r cmds d :
  pending_switch_count d = 0 -> Ledger (snd (handle_session_io E n c r cmds d)).
Proof.
  intros Hd. refine (session_loop_preserves _ ledger_iteration _ _ _). by apply ledger_enter.
Qed.

(** *** Expiry *)

(** Removing one entry; everything but the pending map is a report. *)
Lemma wp_expire_one i (Q : result Exit unit -> State -> Prop) s :
  (forall s', pending_switches s' = delete i (pending_switches s) -> Q (Ok tt) s') ->
  wp (expire_one E i) Q s.
Proof.
  intros H. unfold expire_one. session_steps; apply H; try done.
  by rewrite delete_id.
Qed.

Lemma wp_expire_all (Q : result Exit unit -> State -> Prop) l : forall s,
  (forall s', pending_switches s' = foldr delete (pending_switches s) l -> Q (Ok tt) s') ->
  wp (for_each (expire_one E) l) Q s.
Proof.
  induction l as [|i l IH]; intros s H; [by apply wp_ret, H|].
  apply wp_bind, wp_expire_one. intros s1 H1. apply IH. intros s2 H2. apply H.
  rewrite H2, H1. cbn. clear. induction l as [|j l IH]; [done|]. cbn. rewrite IH. apply delete_delete.
Qed.

Lemma foldr_delete_lookup {A} (m : gmap string A) l i :
  foldr delete m l !! i = if decide (i ∈ l) then None else m !! i.
Proof.
  induction l as [|j l IH].
  { by rewrite decide_False by apply not_elem_of_nil. }
  cbn [foldr]. destruct (decide (i = j)) as [->|Hne].
  - rewrite lookup_delete_eq, decide_True; [done|]. apply list_elem_of_here.
  - rewrite lookup_delete_ne, IH by done. apply decide_ext. rewrite elem_of_cons. naive_solver.
Qed.

(** What is left is what is not due yet, whatever order the map is visited in. *)
Lemma expired_ids_filter t (m : gmap string PendingSwitchScene) l :
  Permutation l (map_to_list m) ->
  foldr delete m (expired_ids t l) = filter (fun '(_, p) => t < deadline_at p) m.
Proof.
  intros Hl. apply map_eq. intros i. rewrite foldr_delete_lookup, map_lookup_filter.
  assert (i ∈ expired_ids t l <-> exists p, m !! i = Some p /\ deadline_at p <= t) as Hin.
  { unfold expired_ids. rewrite list_elem_of_omap. setoid_rewrite Hl. split.
    - intros ([j p] & Hm & Hf). apply elem_of_map_to_list in Hm.
      destruct (Z.leb_spec (deadline_at p) t); simplify_eq. eauto.
    - intros (p & Hm & Hp). exists (i, p). rewrite elem_of_map_to_list. split; [done|].
      by destruct (Z.leb_spec (deadline_at p) t); [|lia]. }
  destruct (decide (i ∈ expired_ids t l)) as [Hi|Hi].
  - apply Hin in Hi as (p & -> & Hp). cbn. case_guard; [lia|done].
  - destruct (m !! i) as [p|] eqn:Hp; [|done]. cbn. case_guard; [done|].
    exfalso. apply Hi, Hin. exists p. split; [done|lia].
Qed.
End Loop.
