(* ===== verification/IpcProtocol.v ===== *)
(** * IpcProtocol: the session as a log of protocol events

    An abstract specification of the plugin session, independent of the loop
    that implements it.  A session is a log of events; what the implementation
    keeps in its locals (handshake flag, pending map, overrides, pruned window of
    errors) is a function of the log, and a few laws say which event may follow
    which.  [handle_session_io] refines it: every run, whatever the environment,
    is explained by a lawful log. *)

From S2P Require Import Prelude Effects RustStd Float Model Aegis Ipc IpcWire IpcSession IpcSessionFacts.

#[local] Open Scope Z_scope.

(** ** Events and what a log says *)

Inductive Event :=
  | Opened
  | Announced (sp : SwitchScenePayload) (at_ : Z)
  | Settled (id : string)
  | Expired (id : string) (at_ : Z)
  | ModeChosen (m : SnapshotMode)
  | SettingChosen (key : string) (value : bool)
  | Erred (at_ : Z).

Abbreviation Log := (list Event).

Definition event_time (e : Event) : option Z :=
  match e with Announced _ t | Expired _ t | Erred t => Some t | _ => None end.
Definition error_time (e : Event) : option Z := match e with Erred t => Some t | _ => None end.
Definition announcement (e : Event) : option SwitchScenePayload :=
  match e with Announced sp _ => Some sp | _ => None end.

Definition is_open (L : Log) : bool := existsb (fun e => match e with Opened => true | _ => false end) L.

(** When an announced switch is due. *)
Definition due (sp : SwitchScenePayload) (t : Z) : PendingSwitchScene :=
  {| pending_scene_name := scene_name sp; deadline_at := t + from_millis (deadline_ms sp) |}.

Definition pending_after (m : gmap string PendingSwitchScene) (e : Event) : gmap string PendingSwitchScene :=
  match e with
  | Announced sp t => <[request_id sp := due sp t]> m
  | Settled i | Expired i _ => delete i m
  | _ => m
  end.
Definition pending_of (L : Log) : gmap string PendingSwitchScene := fold_left pending_after L ∅.

Definition overrides_after (o : SessionOverrides.t) (e : Event) : SessionOverrides.t :=
  match e with
  | ModeChosen m => snd (SessionOverrides.set_mode_if_changed m o)
  | SettingChosen key value => snd (SessionOverrides.apply_setting_if_changed key value o)
  | _ => o
  end.
Definition overrides_of (L : Log) : SessionOverrides.t := fold_left overrides_after L SessionOverrides.default.

(** The events that are the plugin's doing. *)
Definition heard (e : Event) : option Event :=
  match e with Opened | Settled _ | ModeChosen _ | SettingChosen _ _ => Some e | _ => None end.

Definition errors_of (L : Log) : list Z := omap error_time L.

(** The rule of the protocol: the last event is an error that makes more than
    five in ten seconds, counting over the whole log. *)
Definition must_reset (L : Log) : bool :=
  match last L with Some (Erred t) => spec_should_reset t (errors_of L) | _ => false end.

(** What may be appended: a switch is announced only in an open session, and
    expires only if it is pending and due. *)
Definition may_follow (L : Log) (e : Event) : Prop :=
  match e with
  | Announced _ _ => is_open L = true
  | Expired i t => exists p, pending_of L !! i = Some p /\ deadline_at p <= t
  | _ => True
  end.

(** Times never go back, and nothing follows an error that asks for a reset. *)
Inductive Lawful : Log -> Prop :=
  | lawful_nil : Lawful []
  | lawful_snoc L e :
      Lawful L -> must_reset L = false -> may_follow L e ->
      (forall t, event_time e = Some t -> Forall (fun t' => t' <= t) (omap event_time L)) ->
      Lawful (L ++ [e]).

(** ** What the plugin asks for *)

Section Messages.
Context {Value : Type} `{!WireCodec (Envelope EvtPayload) (Envelope Value)} `{!PayloadCodec Value}.

(** The events a message asks for. *)
Definition asks (m : Envelope Value) : list Event :=
  let p := payload m in
  let ty := message_type m in
  if v m =? IPC_PROTOCOL_VERSION then
    if String.eqb ty "hello" then
      match from_value p with
      | Ok hello => if hello_protocol_version hello =? IPC_PROTOCOL_VERSION then [Opened] else []
      | Err _ => []
      end
    else if String.eqb ty "ping" then []
    else if String.eqb ty "request_status" then []
    else if String.eqb ty "set_mode_request" then
      match from_value p with
      | Ok req =>
          if String.eqb (mode_request req) "studio" then [ModeChosen ModeStudio]
          else if String.eqb (mode_request req) "irl" then [ModeChosen ModeIrl] else []
      | Err _ => []
      end
    else if String.eqb ty "set_setting_request" then
      match from_value p with
      | Ok req => [SettingChosen (setting_key req) (setting_value req)]
      | Err _ => []
      end
    else if String.eqb ty "scene_switch_result" then
      match from_value p with Ok res => [Settled (result_request_id res)] | Err _ => [] end
    else []
  else [].

(** [Reads r ms r']: reading from [r] yields the messages [ms], in order, among
    timeouts and errors, and leaves the pipe at [r']. *)
Inductive Reads : Reader -> list (Envelope Value) -> Reader -> Prop :=
  | reads_nil r : Reads r [] r
  | reads_message r m r1 ms r' : read_frame r = (Ready (Ok m), r1) -> Reads r1 ms r' -> Reads r (m :: ms) r'
  | reads_skip r p r1 ms r' :
      read_frame r = (p, r1) -> Reads r1 ms r' -> (forall m, p <> Ready (Ok m)) -> Reads r ms r'.

Lemma reads_app r ms r1 ms' r' : Reads r ms r1 -> Reads r1 ms' r' -> Reads r (ms ++ ms') r'.
Proof.
  induction 1 as [|r m r1 ms r2 Hf _ IH|r p r1 ms r2 Hf _ IH Hp]; intros H'; [done | |].
  - by eapply reads_message, IH.
  - by eapply reads_skip, Hp; [exact Hf | apply IH].
Qed.
End Messages.

(** ** What it means that a log explains a state *)

(** The frames the log accounts for: [None] is a [hello_ack]. *)
Definition frame_mark (m : Envelope EvtPayload) : option (option SwitchScenePayload) :=
  match payload m with
  | EvtSwitchScene sp => Some (Some sp)
  | EvtHelloAck _ => Some None
  | _ => None
  end.
Definition event_mark (e : Event) : option (option SwitchScenePayload) :=
  match e with Announced sp _ => Some (Some sp) | Opened => Some None | _ => None end.

Definition command_of (sp : SwitchScenePayload) : CoreIpcCommand :=
  SwitchScene (scene_name sp) (reason sp) (deadline_ms sp).

(** The commands still to be received. *)
Definition commands_in (q : list (option CoreIpcCommand)) : list CoreIpcCommand := omap (fun c => c) q.

(** [L] explains [s], when the pipe is at [r], the commands of the session are
    [cmds] and the messages acted on ask for the events [H]. *)
Record Explains (cmds : list CoreIpcCommand) (r : Reader) (H : list Event) (L : Log) (s : State) : Prop := {
  ex_lawful : Lawful L;
  ex_clock : Forall (fun t => t <= clock s) (omap event_time L);
  ex_open : handshake_complete s = is_open L;
  ex_pending : pending_switches s = pending_of L;
  ex_overrides : session_overrides s = overrides_of L;
  ex_errors : protocol_errors s = track (errors_of L);
  ex_frames : omap frame_mark (out s) = omap event_mark L;
  ex_inbox : inbox s = r;
  ex_heard : omap heard L = H;
  ex_commands : sublist (map command_of (omap announcement L) ++ commands_in (core_cmd_rx s)) cmds;
}.

(** ** Helper lemmas *)

Lemma omap_snoc {A B} (f : A -> option B) l x :
  omap f (l ++ [x]) = omap f l ++ match f x with Some y => [y] | None => [] end.
Proof. rewrite omap_app. cbn. by destruct (f x). Qed.

Lemma errors_snoc L e :
  errors_of (L ++ [e]) = errors_of L ++ match error_time e with Some t => [t] | None => [] end.
Proof. apply omap_snoc. Qed.

Lemma frame_mark_none o m : frame_mark m = None -> omap frame_mark (o ++ [m]) = omap frame_mark o.
Proof. intros H. by rewrite omap_snoc, H, app_nil_r. Qed.

Lemma forall_times_le t t' (l : list Z) :
  t <= t' -> Forall (fun x => x <= t) l -> Forall (fun x => x <= t') l.
Proof. intros Ht Hl. eapply Forall_impl; [exact Hl|]. cbn. intros. lia. Qed.

Lemma errors_sublist (P : Z -> Prop) (L : Log) : Forall P (omap event_time L) -> Forall P (errors_of L).
Proof.
  rewrite !Forall_forall. intros H t. unfold errors_of. rewrite list_elem_of_omap.
  intros (e & He & Ht). apply H. apply list_elem_of_omap. exists e. by destruct e.
Qed.

Lemma lawful_ascending L : Lawful L -> ascending (errors_of L).
Proof.
  induction 1 as [|L e HL IH Hr Hf Ht]; [constructor|].
  rewrite errors_snoc. destruct e; cbn; rewrite ?app_nil_r; try done.
  apply ascending_snoc. split; [done|]. by apply errors_sublist, Ht.
Qed.

(** The pruned window agrees with the rule over the whole history. *)
Lemma record_track now history :
  ascending (history ++ [now]) ->
  ProtocolErrorTracker.record_and_should_reset now (track history) =
    (spec_should_reset now (history ++ [now]), track (history ++ [now])).
Proof.
  intros Hs. destruct (track_recent history now Hs) as (t & Ht & Htr).
  pose proof (record_recent t now history Hs Ht) as Hrec. unfold track in *.
  rewrite fold_left_app, Htr. cbn [fold_left]. by rewrite Hrec.
Qed.

Lemma must_reset_error L t : must_reset (L ++ [Erred t]) = spec_should_reset t (errors_of L ++ [t]).
Proof. unfold must_reset, errors_of. by rewrite last_snoc, omap_snoc. Qed.

Lemma must_reset_other L e : error_time e = None -> must_reset (L ++ [e]) = false.
Proof. unfold must_reset. rewrite last_snoc. by destruct e. Qed.

Section Explained.
Context {Value : Type} `{!WireCodec (Envelope EvtPayload) (Envelope Value)} `{!PayloadCodec Value}.
Context (E : Env) (cmds : list CoreIpcCommand).
Implicit Types (r : Reader) (H : list Event).

(** A state that differs in nothing the log accounts for. *)
Lemma explains_same r r' H L s s' :
  Explains cmds r H L s -> inbox s' = r' -> clock s <= clock s' -> handshake_complete s' = handshake_complete s ->
  pending_switches s' = pending_switches s -> session_overrides s' = session_overrides s ->
  protocol_errors s' = protocol_errors s -> omap frame_mark (out s') = omap frame_mark (out s) ->
  sublist (commands_in (core_cmd_rx s')) (commands_in (core_cmd_rx s)) ->
  Explains cmds r' H L s'.
Proof.
  intros [] Hi Hc Hh Hp Ho He Hf Hq. constructor; try congruence.
  - by eapply forall_times_le.
  - etransitivity; [|done]. apply sublist_app; [reflexivity | done].
Qed.

(** A state reached by one event of the log. *)
Lemma explains_step r H L e s s' :
  Explains cmds r H L s -> inbox s' = r -> must_reset L = false -> may_follow L e ->
  (forall t, event_time e = Some t -> clock s <= t <= clock s') -> clock s <= clock s' ->
  handshake_complete s' = handshake_complete s || is_open [e] ->
  pending_switches s' = pending_after (pending_switches s) e ->
  session_overrides s' = overrides_after (session_overrides s) e ->
  protocol_errors s' = track (errors_of (L ++ [e])) ->
  omap frame_mark (out s') = omap frame_mark (out s) ++ omap event_mark [e] ->
  sublist (map command_of (omap announcement [e]) ++ commands_in (core_cmd_rx s')) (commands_in (core_cmd_rx s)) ->
  Explains cmds r (H ++ omap heard [e]) (L ++ [e]) s'.
Proof.
  intros [] Hi Hr Hm Ht Hc Hh Hp Ho He Hf Hq. constructor; try done.
  - constructor; try done. intros t Hte. eapply forall_times_le; [|done]. by apply Ht.
  - rewrite omap_app. apply Forall_app. split; [by eapply forall_times_le|].
    cbn. destruct (event_time e) as [t|] eqn:Hte; repeat constructor. by apply Ht.
  - unfold is_open in *. rewrite existsb_app. congruence.
  - unfold pending_of in *. rewrite fold_left_app, Hp. cbn [fold_left]. congruence.
  - unfold overrides_of in *. rewrite fold_left_app, Ho. cbn [fold_left]. congruence.
  - rewrite omap_app. congruence.
  - rewrite omap_app. congruence.
  - rewrite omap_app, map_app, <- app_assoc. etransitivity; [|done]. apply sublist_app; [reflexivity | done].
Qed.

(** The same for an event that is not the plugin's doing. *)
Lemma explains_own r H L e s' :
  heard e = None -> Explains cmds r (H ++ omap heard [e]) (L ++ [e]) s' -> Explains cmds r H (L ++ [e]) s'.
Proof. intros He. cbn. by rewrite He, app_nil_r. Qed.

(** [m] reads nothing and hears nothing: it turns an explained state into an
    explained state, and ends the session normally when the log then asks for a
    reset. *)
Definition explained {A} (m : eff State Exit A) : Prop :=
  forall r H L s, Explains cmds r H L s -> must_reset L = false ->
  wp m (fun x s' => exists L', Explains cmds r H L' s' /\ (must_reset L' = true -> x = Err (Ok tt))) s.

Lemma explained_continue {A B} (m : eff State Exit A) (f : A -> eff State Exit B)
    (Q : result Exit B -> State -> Prop) r H L s :
  explained m -> Explains cmds r H L s -> must_reset L = false ->
  (forall x L' s', Explains cmds r H L' s' -> (must_reset L' = true -> x = Ok tt) -> Q (Err x) s') ->
  (forall a L' s', Explains cmds r H L' s' -> must_reset L' = false -> wp (f a) Q s') ->
  wp (m ≫= f) Q s.
Proof.
  intros Hm HL Hr Herr Hok. apply wp_bind. refine (wp_mono _ _ _ _ _ (Hm r H L s HL Hr)).
  intros [a|x] s' (L' & HL' & Hx).
  - apply (Hok a L'); [done|]. destruct (must_reset L'); [by specialize (Hx eq_refl) | done].
  - apply (Herr x L'); [done|]. intros Hm'. specialize (Hx Hm'). congruence.
Qed.

Lemma explained_bind {A B} (m : eff State Exit A) (f : A -> eff State Exit B) :
  explained m -> (forall a, explained (f a)) -> explained (m ≫= f).
Proof.
  intros Hm Hf r H L s HL Hr. apply (explained_continue m f _ r H L); [done.. | |].
  - intros x L' s' HL' Hx. exists L'. split; [done|]. intros Hm'. by rewrite (Hx Hm').
  - intros a L' s' HL' Hr'. by apply (Hf a r H L').
Qed.

Lemma explained_gets {A} (f : State -> A) : explained (gets f).
Proof. intros r H L s HL Hr. exists L. split; [exact HL | congruence]. Qed.

Lemma explained_ret {A} (a : A) : explained (mret a).
Proof. intros r H L s HL Hr. exists L. split; [exact HL | congruence]. Qed.

(** Close a final state by the log [L] (nothing happened). *)
Ltac same HL Hr :=
  eexists; split;
  [ refine (explains_same _ _ _ _ _ _ HL _ _ _ _ _ _ _ _);
    [ first [exact (ex_inbox _ _ _ _ _ HL) | reflexivity] | cbn in *; unfold READ_POLL_TIMEOUT, from_millis in *; lia | reflexivity | reflexivity | reflexivity | reflexivity
    | cbn; repeat (rewrite frame_mark_none by reflexivity); reflexivity | reflexivity ]
  | congruence ].
Ltac silent :=
  let r := fresh "r" in let H := fresh "H" in
  let L := fresh "L" in let s := fresh "s" in let HL := fresh "HL" in let Hr := fresh "Hr" in
  intros r H L s HL Hr; session_steps; same HL Hr.

Lemma explained_periodic_status : explained (periodic_status E).
Proof. unfold periodic_status. silent. Qed.

Lemma explained_check_heartbeat : explained (check_heartbeat E).
Proof. unfold check_heartbeat. silent. Qed.

Lemma explained_push_status_snapshot pr : explained (push_status_snapshot E pr).
Proof. silent. Qed.

Lemma explained_expire_all t l r H : forall L s,
  Explains cmds r H L s -> must_reset L = false -> clock s = t ->
  (forall i p, i ∈ l -> pending_switches s !! i = Some p -> deadline_at p <= t) ->
  wp (for_each (expire_one E) l) (fun x s' => exists L', Explains cmds r H L' s' /\ must_reset L' = false) s.
Proof.
  induction l as [|i l IH]; intros L s HL Hr Ht Hdue; [apply wp_ret; eauto|].
  apply wp_bind. unfold expire_one. apply wp_bind, wp_gets.
  destruct (pending_switches s !! i) as [p|] eqn:Hp.
  2: { apply wp_ret, (IH L); try done. intros j q Hj. by apply Hdue, list_elem_of_further. }
  assert (may_follow L (Expired i t)) as Hm.
  { exists p. rewrite <- (ex_pending _ _ _ _ _ HL). split; [done|].
    eapply Hdue; [apply list_elem_of_here | done]. }
  assert (forall s', handshake_complete s' = handshake_complete s -> clock s' = clock s -> inbox s' = inbox s ->
    pending_switches s' = delete i (pending_switches s) -> session_overrides s' = session_overrides s ->
    protocol_errors s' = protocol_errors s -> omap frame_mark (out s') = omap frame_mark (out s) ->
    core_cmd_rx s' = core_cmd_rx s ->
    wp (for_each (expire_one E) l) (fun x s' => exists L', Explains cmds r H L' s' /\ must_reset L' = false) s') as Hgo.
  { intros s' Hh Hc Hi Hpe Ho He Hf Hq. apply (IH (L ++ [Expired i t])); [| by apply must_reset_other | congruence |].
    - apply explains_own; [done|]. apply (explains_step r H L _ s s' HL); try done.
      + rewrite Hi. apply HL.
      + cbn. intros t' [= <-]. lia.
      + lia.
      + by rewrite orb_false_r.
      + rewrite errors_snoc, app_nil_r, He. apply HL.
      + by rewrite app_nil_r.
      + by rewrite Hq.
    - rewrite Hpe. intros j q Hj [_ Hq']%lookup_delete_Some. eapply Hdue; [by apply list_elem_of_further | done]. }
  session_steps; apply Hgo; try reflexivity. by apply frame_mark_none.
Qed.

Lemma explained_expire_pending :
  (forall n l, Permutation (env_order E n l) l) -> explained (expire_pending E).
Proof.
  intros Horder r H L s HL Hr. unfold expire_pending. apply wp_bind, wp_gets. case_bool_decide.
  { apply wp_ret. eexists. split; [exact HL | congruence]. }
  apply wp_bind, wp_now. intros n t Ht. apply wp_bind, wp_tick. intros k k'.
  eapply wp_mono; [|apply (explained_expire_all t _ r H L);
    [by apply (explains_same r r H L s _ HL); try apply HL | done | done |]].
  - intros x s' (L' & HL' & Hr'). exists L'. split; [done | congruence].
  - cbn. intros i p Hi Hp. unfold expired_ids in Hi. rewrite list_elem_of_omap in Hi.
    destruct Hi as ([j q] & Hj & Hd). rewrite Horder, elem_of_map_to_list in Hj.
    destruct (Z.leb_spec (deadline_at q) t); [|done]. simplify_eq. done.
Qed.

Lemma explained_drain_commands r H q : forall L s,
  Explains cmds r H L s -> must_reset L = false -> core_cmd_rx s = q ->
  wp (drain_commands E q)
    (fun x s' => exists L', Explains cmds r H L' s' /\ (must_reset L' = true -> x = Err (Ok tt))) s.
Proof.
  induction q as [|[[sc why ms]|] q IH]; intros L s HL Hr Hq; cbn [drain_commands].
  - apply wp_ret. eexists. split; [exact HL | congruence].
  - assert (Explains cmds r H L (with_core_cmd_rx q s)) as HL'.
    { apply (explains_same r r H L s); try done; [apply HL|]. rewrite Hq. by apply sublist_cons. }
    apply wp_bind, wp_modify, wp_bind, wp_gets, wp_bind.
    destruct (handshake_complete (with_core_cmd_rx q s)) eqn:Hh; [|by apply wp_ret, (IH L)].
    unfold handle_command. session_steps; [same HL' Hr|].
    match goal with |- context [EvtSwitchScene ?sp] => apply (IH (L ++ [Announced sp c])) end;
      [apply explains_own; [done|]; apply (explains_step r H L _ s)
      | by apply must_reset_other | reflexivity]; try done.
    + apply HL.
    + cbn. rewrite <- (ex_open _ _ _ _ _ HL). exact Hh.
    + cbn in *. intros t [= <-]. lia.
    + by rewrite orb_false_r.
    + rewrite errors_snoc, app_nil_r. apply HL.
    + etransitivity; [apply omap_snoc | reflexivity].
    + cbn. by rewrite Hq.
  - apply wp_modify. exists L. split; [|congruence].
    apply (explains_same r r H L s); try done; [apply HL|]. rewrite Hq. reflexivity.
Qed.

Lemma explained_forward_commands : explained (forward_commands E).
Proof. intros r H L s HL Hr. apply wp_bind, wp_gets. by apply (explained_drain_commands _ _ _ L). Qed.

(** Counting an error appends it, and ends the session when the log says so. *)
Lemma explained_count_protocol_error : explained (count_protocol_error E).
Proof.
  intros r H L s HL Hr.
  assert (forall c, clock s <= c -> ascending (errors_of L ++ [c])) as Hasc.
  { intros c Hc. apply ascending_snoc. split; [apply lawful_ascending, HL|].
    apply errors_sublist. eapply forall_times_le; [exact Hc | apply HL]. }
  apply wp_count_protocol_error; intros n c errors Hc; rewrite (ex_errors _ _ _ _ _ HL), record_track by auto;
    intros [= Hreset <-]; exists (L ++ [Erred c]); rewrite must_reset_error.
  all: split; [|congruence]; apply explains_own; [done|]; apply (explains_step r H L _ s); try done.
  all: first [ apply HL | by rewrite orb_false_r | by rewrite app_nil_r | idtac ].
  all: first [ cbn; intros t [= <-]; lia | by rewrite errors_snoc ].
Qed.

(** Reports are frames the log does not account for. *)
Lemma explained_report {B} c text rel (f : Envelope EvtPayload -> eff State Exit B) :
  (forall m, frame_mark m = None -> explained (f m)) -> explained (make_protocol_error E c text rel ≫= f).
Proof.
  intros Hf r H L s HL Hr. apply wp_bind, wp_make_protocol_error. intros.
  apply (fun m Hm => Hf m Hm r H L); [done| |done]. apply (explains_same r r H L s); try done. apply HL.
Qed.

Lemma explained_send m : frame_mark m = None -> explained (send E m).
Proof.
  intros Hm r H L s HL Hr. apply wp_send; intros; (exists L; split; [|congruence]);
    apply (explains_same r r H L s); try done; try apply HL. by apply frame_mark_none.
Qed.

Lemma explained_attempt {A} (m : eff State Exit A) :
  (forall s, outcome m s <> Err (Ok tt)) -> explained m -> explained (attempt m).
Proof.
  intros Hm Hexp r H L s HL Hr. apply wp_attempt. specialize (Hexp r H L s HL Hr). specialize (Hm s).
  unfold wp in *. destruct Hexp as (L' & HL' & Hx). exists L'. split; [done|]. intros Hm'. by specialize (Hx Hm').
Qed.

Lemma send_fails_only m s : outcome (send E m) s <> Err (Ok tt).
Proof. change (wp (send E m) (fun x _ => x <> Err (Ok tt)) s). by apply wp_send. Qed.

Lemma explained_update_debug_status f : explained (update_debug_status E f).
Proof. silent. Qed.

(** ** Hearing a message *)

(** [m] acts on a message that asks for the events [new]; only a failed write
    can keep it from doing so. *)
Definition hears (new : list Event) (m : eff State Exit unit) : Prop :=
  forall r H L s, Explains cmds r H L s -> must_reset L = false ->
  wp m (fun x s' => exists L',
    (Explains cmds r (H ++ new) L' s' \/ ((exists e, x = Err (Err e)) /\ Explains cmds r H L' s')) /\
    (must_reset L' = true -> x = Err (Ok tt))) s.

Lemma hears_nothing m : explained m -> hears [] m.
Proof.
  intros Hm r H L s HL Hr. refine (wp_mono _ _ _ _ _ (Hm r H L s HL Hr)).
  intros x s' (L' & HL' & Hx). exists L'. rewrite app_nil_r. auto.
Qed.

(** Close a final state by the event [e]. *)
Ltac event e HL Hr :=
  match type of HL with
  | Explains _ ?r ?H ?L ?s =>
      exists (L ++ [e]); split; [left | by rewrite must_reset_other];
      apply (explains_step r H L e s _ HL); try done; try apply HL
  end.

Lemma hears_on_hello hello :
  hears (if hello_protocol_version hello =? IPC_PROTOCOL_VERSION then [Opened] else []) (on_hello E hello).
Proof.
  unfold on_hello. destruct (Z.eqb_spec (hello_protocol_version hello) IPC_PROTOCOL_VERSION); cbn [negb];
    [|apply hears_nothing; silent].
  intros r H L s HL Hr. session_steps.
  - exists L. split; [|congruence]. right. split; [by eexists|]. apply (explains_same r r H L s); try done. apply HL.
  - event Opened HL Hr.
    + cbn in *. lia.
    + cbn. by rewrite orb_true_r.
    + rewrite errors_snoc, app_nil_r. apply HL.
    + etransitivity; [apply omap_snoc | reflexivity].
Qed.

Lemma hears_on_scene_switch_result res :
  hears [Settled (result_request_id res)] (on_scene_switch_result E res).
Proof.
  intros r H L s HL Hr. unfold on_scene_switch_result.
  session_steps; event (Settled (result_request_id res)) HL Hr.
  all: first [ by rewrite orb_false_r | by rewrite app_nil_r | rewrite errors_snoc, app_nil_r; apply HL ].
Qed.

(** An override is made at once; what follows only reports it. *)
Lemma hears_override e o (m : eff State Exit unit) :
  event_time e = None -> error_time e = None -> announcement e = None -> event_mark e = None ->
  heard e = Some e -> (forall L, may_follow L e) -> is_open [e] = false ->
  (forall pending, pending_after pending e = pending) -> explained m ->
  forall r H L s, Explains cmds r H L s -> must_reset L = false -> overrides_after (session_overrides s) e = o ->
  wp (modify (with_session_overrides o) ;; m) (fun x s' => exists L',
    (Explains cmds r (H ++ [e]) L' s' \/ ((exists e, x = Err (Err e)) /\ Explains cmds r H L' s')) /\
    (must_reset L' = true -> x = Err (Ok tt))) s.
Proof.
  intros Ht He Ha Hf Hh Hm Ho Hp Hexp r H L s HL Hr <-. apply wp_bind, wp_modify.
  assert (Explains cmds r (H ++ [e]) (L ++ [e])
            (with_session_overrides (overrides_after (session_overrides s) e) s)) as HL'.
  { replace [e] with (omap heard [e]) at 1 by (cbn; by rewrite Hh).
    apply (explains_step r H L e s _ HL); try done; try apply HL.
    - by rewrite Ht.
    - by rewrite Ho, orb_false_r.
    - rewrite errors_snoc, He, app_nil_r. apply HL.
    - cbn. by rewrite Hf, app_nil_r.
    - cbn. by rewrite Ha. }
  refine (wp_mono _ _ _ _ _ (Hexp r _ _ _ HL' (must_reset_other _ _ He))).
  intros x s' (L1 & HL1 & Hx). exists L1. auto.
Qed.
Lemma hears_on_set_mode_request m req :
  hears (if String.eqb (mode_request req) "studio" then [ModeChosen ModeStudio]
         else if String.eqb (mode_request req) "irl" then [ModeChosen ModeIrl] else [])
    (on_set_mode_request E m req).
Proof.
  assert (forall mode, hears [ModeChosen mode]
    (overrides ← gets session_overrides;
     let (changed, overrides) := SessionOverrides.set_mode_if_changed mode overrides in
     modify (with_session_overrides overrides) ;;
     if negb changed then mret tt
     else
       notice ← user_notice E Info Normal ("Dock mode override set to " +:+ mode_request req);
       attempt (send E notice) ;; push_status_snapshot E High)) as Hmode.
  { intros mode r H L s HL Hr. apply wp_bind, wp_gets. cbn beta iota.
    destruct (SessionOverrides.set_mode_if_changed mode (session_overrides s)) as [changed o] eqn:Ho.
    apply (hears_override (ModeChosen mode)) with (L := L); try done; [|cbn; by rewrite Ho].
    destruct changed; silent. }
  unfold on_set_mode_request.
  destruct (String.eqb (mode_request req) "studio"); [apply Hmode|].
  destruct (String.eqb (mode_request req) "irl"); [apply Hmode|]. apply hears_nothing. silent.
Qed.

Lemma hears_on_set_setting_request m req :
  hears [SettingChosen (setting_key req) (setting_value req)] (on_set_setting_request E m req).
Proof.
  intros r H L s HL Hr. unfold on_set_setting_request. apply wp_bind, wp_gets. cbn beta iota.
  destruct (SessionOverrides.apply_setting_if_changed _ _ (session_overrides s)) as [res o] eqn:Ho.
  apply (hears_override (SettingChosen (setting_key req) (setting_value req))) with (L := L); try done;
    [|cbn; by rewrite Ho].
  destruct res as [[]|]; silent.
Qed.

Lemma hears_with_payload {T} `{!FromValue Value T} m (handle : T -> eff State Exit unit) (new : T -> list Event) :
  (forall p, hears (new p) (handle p)) ->
  hears (match from_value (payload m) with Ok p => new p | Err _ => [] end) (with_payload E m handle).
Proof.
  intros Hh. unfold with_payload, decode_payload. destruct (from_value (payload m)) as [p|err]; [apply Hh|].
  apply hears_nothing, explained_bind; [|intros _; apply explained_count_protocol_error].
  unfold emit_protocol_error_for_payload. silent.
Qed.

Lemma hears_dispatch m : hears (asks m) (dispatch E m).
Proof.
  unfold dispatch, asks. destruct (v m =? IPC_PROTOCOL_VERSION); cbn [negb]; [|apply hears_nothing; silent].
  assert (forall T `{!FromValue Value T} (handle : T -> eff State Exit unit),
    (forall p, explained (handle p)) -> hears [] (with_payload E m handle)) as Hsilent.
  { intros T HT handle Hh. pose proof (hears_with_payload m handle (fun _ => []) (fun p => hears_nothing _ (Hh p))) as Hw.
    by destruct (from_value (payload m)). }
  destruct (String.eqb _ "hello"); [apply (hears_with_payload m _ _ hears_on_hello)|].
  destruct (String.eqb _ "ping"); [apply Hsilent; intros p; unfold on_ping; silent|].
  destruct (String.eqb _ "request_status"); [apply Hsilent; intros p; apply explained_push_status_snapshot|].
  destruct (String.eqb _ "set_mode_request"); [apply (hears_with_payload m _ _ (hears_on_set_mode_request m))|].
  destruct (String.eqb _ "set_setting_request"); [apply (hears_with_payload m _ _ (hears_on_set_setting_request m))|].
  destruct (String.eqb _ "scene_switch_result"); [apply (hears_with_payload m _ _ hears_on_scene_switch_result)|].
  destruct (String.eqb _ "obs_shutdown_notice");
    [apply Hsilent; intros p; unfold on_obs_shutdown_notice; silent|].
  apply hears_nothing, explained_report. intros pe Hpe. apply explained_bind; [by apply explained_send | intros _].
  apply explained_bind; [apply explained_update_debug_status | intros _; apply explained_count_protocol_error].
Qed.

(** The report of a frame that could not be read, then [a]. *)
Definition unreadable {A} (err : IoError) (a : A) : eff State Exit A :=
  if bool_decide (kind err = InvalidData) then
    protocol_error ← make_protocol_error E
      (if Str.contains "frame too large" (msg err) then FrameTooLarge else DecodeFailed) (msg err) None;
    attempt (send E protocol_error) ;;
    update_debug_status E (set_last_notice "IPC decode/frame protocol error") ;;
    count_protocol_error E ;; mret a
  else throw (Err err).

Lemma explained_unreadable {A} err (a : A) : explained (unreadable err a).
Proof.
  unfold unreadable. case_bool_decide; [|silent]. apply explained_report. intros m Hm.
  apply explained_bind; [by apply explained_attempt; [apply send_fails_only | apply explained_send] | intros _].
  apply explained_bind; [apply explained_update_debug_status | intros _].
  apply explained_bind; [apply explained_count_protocol_error | intros _; apply explained_ret].
Qed.

Lemma unreadable_value {A} err (a : A) s : wp (unreadable err a) (fun x _ => forall b, x = Ok b -> b = a) s.
Proof. unfold unreadable. case_bool_decide; session_steps; congruence. Qed.

(** One poll moves the pipe on; what it decodes is the message returned. *)
Lemma reads_poll_incoming r H L s :
  Explains cmds r H L s -> must_reset L = false ->
  wp (poll_incoming E) (fun x s' => exists r' L', Explains cmds r' H L' s' /\
    Reads r (match x with Ok (Some m) => [m] | _ => [] end) r' /\
    (must_reset L' = true -> x = Err (Ok tt))) s.
Proof.
  intros HL Hr. unfold poll_incoming. apply wp_bind, wp_poll_read. rewrite (ex_inbox _ _ _ _ _ HL).
  destruct (read_frame r) as [[[m|err]|] r'] eqn:Hrd.
  - exists r', L. split_and!; [by apply (explains_same r r' H L s) | | congruence].
    by eapply reads_message, reads_nil.
  - assert (Reads r [] r') as Hreads by (by eapply reads_skip; [exact Hrd | apply reads_nil |]).
    assert (Explains cmds r' H L (with_inbox r' s)) as HL' by by apply (explains_same r r' H L s).
    change (wp (unreadable err None) (fun x s' => exists r' L', Explains cmds r' H L' s' /\
      Reads r (match x with Ok (Some m) => [m] | _ => [] end) r' /\
      (must_reset L' = true -> x = Err (Ok tt))) (with_inbox r' s)).
    refine (wp_mono _ _ _ _ _ (wp_and _ _ _ _ (explained_unreadable err None r' H L _ HL' Hr)
      (unreadable_value err (@None (Envelope Value)) _))).
    intros x s' [(L' & HL2 & Hx) Hv]. exists r', L'. split_and!; [done | | done].
    destruct x as [b|x]; [by rewrite (Hv b eq_refl) | done].
  - exists r', L. split_and!; [| by eapply reads_skip; [exact Hrd | apply reads_nil |] | congruence].
    apply (explains_same r r' H L s); try done. cbn. unfold READ_POLL_TIMEOUT, from_millis. lia.
Qed.

Context (order : forall n l, Permutation (env_order E n l) l).

(** What is known of a session that started at the pipe [r0] after the exit [x]:
    all messages read were acted on, or a failed write lost the last one. *)
Definition Account (r0 : Reader) (L : Log) (s : State) (x : result Exit unit) : Prop :=
  exists ms r, Reads r0 ms r /\ (must_reset L = true -> x = Err (Ok tt)) /\
    (Explains cmds r (mjoin (map asks ms)) L s \/
     exists e ms' m, x = Err (Err e) /\ ms = ms' ++ [m] /\ Explains cmds r (mjoin (map asks ms')) L s).

Lemma account_iteration r0 L s :
  Account r0 L s (Ok tt) -> wp (iteration E) (fun x s' => exists L', Account r0 L' s' x) s.
Proof.
  intros (ms & r & Hms & Hr & [HL|(e & ? & ? & ? & _)]); [|done].
  destruct (must_reset L) eqn:Hm; [by specialize (Hr eq_refl)|]. clear Hr.
  assert (forall x L' s', Explains cmds r (mjoin (map asks ms)) L' s' -> (must_reset L' = true -> x = Ok tt) ->
    exists L', Account r0 L' s' (Err x)) as Hexit.
  { intros x L' s' HL' Hx. exists L', ms, r. split_and!; [done | intros H; by rewrite Hx | by left]. }
  apply (explained_continue _ _ _ _ _ _ _ explained_forward_commands HL Hm Hexit). clear L s HL Hm. intros _ L s HL Hm.
  apply (explained_continue _ _ _ _ _ _ _ (explained_expire_pending order) HL Hm Hexit). clear L s HL Hm. intros _ L s HL Hm.
  apply (explained_continue _ _ _ _ _ _ _ explained_periodic_status HL Hm Hexit). clear L s HL Hm. intros _ L s HL Hm.
  apply (explained_continue _ _ _ _ _ _ _ explained_check_heartbeat HL Hm Hexit). clear L s HL Hm. intros _ L s HL Hm.
  apply wp_bind. refine (wp_mono _ _ _ _ _ (reads_poll_incoming _ _ _ _ HL Hm)). clear L s HL Hm.
  intros [[m|]|x] s (r1 & L & HL & Hrd & Hx); pose proof (reads_app _ _ _ _ _ Hms Hrd) as Hall.
  - destruct (must_reset L) eqn:Hm; [by specialize (Hx eq_refl)|].
    refine (wp_mono _ _ _ _ _ (hears_dispatch m r1 _ L s HL Hm)).
    intros x s' (L' & HL' & Hx'). exists L', (ms ++ [m]), r1. split_and!; [done | done |].
    rewrite map_app, join_app. cbn. rewrite app_nil_r.
    destruct HL' as [HL'|[[e ->] HL']]; [by left | right; eauto 10].
  - apply wp_ret. exists L, ms, r1. rewrite app_nil_r in Hall. split_and!; [done | | by left].
    intros H. by specialize (Hx H).
  - exists L, ms, r1. rewrite app_nil_r in Hall. split_and!; [done | | by left].
    intros H. specialize (Hx H). congruence.
Qed.

Lemma account_loop fuel r0 : forall L s x s',
  Account r0 L s (Ok tt) -> session_loop E fuel s = (Some x, s') -> exists L', Account r0 L' s' (Err x).
Proof.
  induction fuel as [|fuel IH]; intros L s x s' HL; cbn [session_loop]; [done|].
  destruct (iteration E s) as [y s1] eqn:Hi.
  destruct (proj1 (wp_run _ _ _ _ _ Hi) (account_iteration r0 L s HL)) as (L1 & HL1).
  destruct y as [[]|y]; intros Hrun; [by apply (IH L1 s1) | simplify_eq; eauto].
Qed.

Lemma account_enter n c r q d :
  sublist (commands_in q) cmds -> Account r [] (enter_session E n c r q d) (Ok tt).
Proof.
  intros Hq. exists [], r. split_and!; [apply reads_nil | done | left]. constructor; try constructor; done.
Qed.
End Explained.
