(* ===== verification/IpcSessionSpec.v ===== *)
(** * IpcSessionSpec: the properties of a plugin session

    What [handle_session_io] promises, stated over every environment: any
    script of incoming bytes, any clock, any transport failure. *)

From Stdlib Require Import Strings.Byte.
From S2P Require Import Prelude Effects RustStd Float Model Aegis Ipc IpcWire IpcSession IpcSessionFacts IpcProtocol.

#[local] Open Scope Z_scope.

Definition heartbeat_notice : string := "Heartbeat timeout (missing ping)".

(** The results of [try_recv] left after the first error. *)
Fixpoint after_first_error (q : list (option CoreIpcCommand)) : list (option CoreIpcCommand) :=
  match q with
  | [] => []
  | None :: q' => q'
  | Some _ :: q' => after_first_error q'
  end.

(** An error report about the message [m]. *)
Definition reports_error_on (related : option string) (c : ProtocolErrorCode) (o : Envelope EvtPayload) :
    Prop :=
  exists text, payload o =
    EvtProtocolError {| code := c; error_message := text; related_message_id := related |}
    /\ message_type o = "protocol_error".

(** Open the dispatcher at the handler of a type. *)
Ltac dispatch_on Hv Hty :=
  match goal with
  | |- context [dispatch ?E ?m] =>
      let D := fresh "D" in
      pose proof (dispatch_cases E m Hv) as D;
      repeat first [ rewrite (proj1 D Hty) | rewrite (D Hty) | apply proj2 in D ];
      clear D
  end.

(** The error was counted at the clock reading of the execution. *)
Ltac counted s :=
  match goal with
  | Hc : clock _ <= ?t, Hr : ProtocolErrorTracker.record_and_should_reset ?t ?l = _ |- _ =>
      exists t; split; [split; [exact Hc | apply Z.le_refl] |];
      cbv zeta; change (protocol_errors s) with l; rewrite Hr; by split
  end.

Section Properties.
Context {Value : Type} `{!WireCodec (Envelope EvtPayload) (Envelope Value)} `{!PayloadCodec Value}.
Context (E : Env).

(** ** Helper lemmas *)

(** On a silent pipe an iteration ends the session or lets 250 ms pass. *)
Lemma idle_iteration h p c r t s :
  quiet h p c (Idle :: r) t s ->
  wp (iteration E) (fun x s' => match x with
     | Ok tt => quiet h p (c + READ_POLL_TIMEOUT) r t s' /\
         (h = true -> c - p < HEARTBEAT_TIMEOUT)
     | Err x => x = Ok tt -> last_notice (debug_status s') = Some heartbeat_notice
     end) s.
Proof.
  intros (Hh & Hp & Hc & Hr & Ht). apply wp_iteration; [by intros x s' _ Hx|].
  intros s0 s1 (Hh0 & Hp0 & Hc0 & Hr0 & _) Hhb (Hh1 & Hp1 & Hc1 & Hr1 & Ht1).
  assert (h = true -> c - p < HEARTBEAT_TIMEOUT) as Hearly.
  { intros ->. apply Z.nle_gt. intros Hlate. revert Hhb. rewrite Hh in Hh0.
    enough (wp (check_heartbeat E) (fun x _ => x = Ok tt -> False) s0) as H.
    { intros Hhb. by apply (proj1 (wp_run _ _ _ _ _ Hhb) H). }
    unfold check_heartbeat. session_steps; try done; try congruence.
    match goal with H : (_ <=? _) = false |- _ => apply Z.leb_gt in H; revert H end.
    unfold ProtocolErrorTracker.duration_since. lia. }
  apply wp_bind, wp_poll_read. rewrite Hr1, Hr.
  assert (read_frame (Idle :: r) = (Elapsed, r)) as -> by done.
  apply wp_ret. split; [|done]. repeat split; cbn; try congruence. lia.
Qed.

Lemma silent_session h p n : forall fuel k c r t s,
  quiet h p c (replicate n Idle ++ r) t s -> h = true ->
  HEARTBEAT_TIMEOUT <= c + k * READ_POLL_TIMEOUT - p -> (Z.to_nat k < n)%nat -> (Z.to_nat k < fuel)%nat ->
  0 <= k ->
  exists x s', session_loop E fuel s = (Some x, s') /\
    (x = Ok tt -> last_notice (debug_status s') = Some heartbeat_notice).
Proof.
  induction n as [|n IH]; intros fuel k c r t s Hq Hh Hk Hn Hf Hk0; [lia|].
  destruct fuel as [|fuel]; [lia|]. cbn [session_loop]. cbn [replicate app] in Hq.
  pose proof (idle_iteration h p c (replicate n Idle ++ r) t s Hq) as Hi.
  destruct (iteration E s) as [x s1] eqn:Hit. apply (proj1 (wp_run _ _ _ _ _ Hit)) in Hi.
  destruct x as [[]|x]; [|eauto]. destruct Hi as [Hq1 Hearly]. specialize (Hearly Hh).
  assert (k <> 0) by (intros ->; lia).
  refine (IH fuel (k - 1) _ r t s1 Hq1 Hh _ _ _ _); lia.
Qed.

(** ** Properties *)

(** C4: the ledger of a session.  Whatever the plugin sends, however the
    transport fails and whatever commands arrive, at the end of the session:
    every frame carries protocol version 1 and the type of its payload, no
    [switch_scene] is written before a [hello_ack], every pending switch was announced by a [switch_scene] frame
    with its identifier and scene, and the published pending count is the size
    of the pending map. *)
Theorem session_ledger n c r cmds d :
  pending_switch_count d = 0 -> Ledger (snd (handle_session_io E n c r cmds d)).
Proof. apply ledger_session. Qed.

(** C1: a session refines the protocol.  Every run returns and is explained by a
    lawful log of events: times do not go back, a switch is announced only after
    the handshake and expires only when it is pending and due, and nothing
    follows an error that makes more than five in ten seconds, which ends the
    session normally.  The handshake flag, the pending switches, the overrides
    and the pruned window of the implementation are what the whole log says; the
    [hello_ack] and [switch_scene] frames are those of the log, in its order; the
    announced switches are commands that were received, each at most once; and
    what the log hears is, in order, what the messages read from the pipe ask
    for, all of them unless a failed write ended the session at the last one. *)
Theorem session_refines_protocol n c r cmds d :
  (forall n l, Permutation (env_order E n l) l) ->
  exists x s L ms acted, handle_session_io E n c r cmds d = (Some x, s) /\
    Reads r ms (inbox s) /\
    Explains (commands_in cmds) (inbox s) (mjoin (map asks acted)) L s /\
    (must_reset L = true -> x = Ok tt) /\
    (acted = ms \/ exists e m, x = Err e /\ ms = acted ++ [m]).
Proof.
  intros Horder. destruct (handle_session_io_returns E n c r cmds d) as (x & s & H).
  destruct (account_loop E (commands_in cmds) Horder _ r [] _ x s
              (account_enter E _ n c r cmds d (reflexivity _)) H) as (L & ms & r' & Hms & Hx & HL).
  assert (must_reset L = true -> x = Ok tt) as Hx' by (intros Hm; specialize (Hx Hm); congruence).
  destruct HL as [HL|(e & ms' & m & He & -> & HL)]; pose proof (ex_inbox _ _ _ _ _ HL); subst r'.
  - exists x, s, L, ms, ms. auto 10.
  - exists x, s, L, (ms' ++ [m]), ms'. split_and!; try done. right. exists e, m. split; congruence.
Qed.

(** C6: a session returns.  For every finite script of pipe events, every
    environment and every command queue the loop ends with a result: each turn
    that does not leave the function consumes input, so the fuel of the model
    is never what stops it, and more fuel changes nothing. *)
Theorem session_terminates n c r cmds d fuel :
  exists x s, handle_session_io E n c r cmds d = (Some x, s) /\
    (session_fuel r <= fuel -> session_loop E fuel (enter_session E n c r cmds d) = (Some x, s))%nat.
Proof.
  destruct (handle_session_io_returns E n c r cmds d) as (x & s & H). exists x, s.
  split; [exact H|]. intros Hf. by refine (session_loop_more E _ _ _ _ _ H _).
Qed.

(** C13: a silent plugin is disconnected.  After the handshake, if the pipe is
    silent for the next fifteen polls, the session is over by the fifteenth turn,
    whatever commands, clock jumps and transport failures come in between; when
    it ends normally it published the heartbeat notice. *)
Theorem silent_plugin_disconnected s r :
  handshake_complete s = true -> last_ping_at s <= clock s ->
  inbox s = replicate 15 Idle ++ r ->
  exists x s', session_loop E 15 s = (Some x, s') /\
    (x = Ok tt -> last_notice (debug_status s') = Some heartbeat_notice).
Proof.
  intros Hh Hp Hr. refine (silent_session true (last_ping_at s) 15 15 14 (clock s) r (protocol_errors s) s _ _ _ _ _ _);
    [by repeat split | done | | lia | lia | lia].
  unfold HEARTBEAT_TIMEOUT, READ_POLL_TIMEOUT, from_millis. lia.
Qed.

(** The heartbeat check, exactly.  Before the handshake it does nothing.
    After it, it reads the clock: below 3.5 s since the last ping it lets the
    session go on and writes nothing; from 3.5 s on it ends the session
    normally, publishes the notice and writes at most one frame, the
    [timeout] protocol error. *)
Theorem heartbeat_check_exact s :
  let t := clock s + Z.of_N (env_tick E (steps s)) in
  let late := handshake_complete s && (HEARTBEAT_TIMEOUT <=? t - last_ping_at s) in
  wp (check_heartbeat E) (fun x s' =>
    x = (if late then Err (Ok tt) else Ok tt) /\
    match x with
    | Ok _ => out s' = out s /\ debug_status s' = debug_status s
    | Err _ => last_notice (debug_status s') = Some heartbeat_notice /\
        (out s' = out s \/ exists o, out s' = out s ++ [o] /\ reports_error_on None Timeout o)
    end) s.
Proof.
  intros t late. unfold late.
  unfold check_heartbeat. apply wp_bind, wp_gets. destruct (handshake_complete s) eqn:Hh; [|by apply wp_ret].
  apply wp_bind, wp_gets, wp_bind, wp_elapsed_exact. fold t. cbn [andb].
  assert (HEARTBEAT_TIMEOUT <=? ProtocolErrorTracker.duration_since t (last_ping_at s) =
          (HEARTBEAT_TIMEOUT <=? t - last_ping_at s)) as ->.
  { unfold ProtocolErrorTracker.duration_since, HEARTBEAT_TIMEOUT, from_millis. lia. }
  session_steps; split_and!; try done; [by left|].
  right. eexists. split; [reflexivity|]. by eexists.
Qed.

(** C26: expiry is exact.  Whatever order the hash map is visited in, one expiry
    pass reads the clock once and leaves exactly the pending switches whose
    deadline is still ahead; it never ends the session, even when the notices
    cannot be written. *)
Theorem expire_pending_exact s :
  (forall n l, Permutation (env_order E n l) l) ->
  let t := clock s + Z.of_N (env_tick E (steps s)) in
  wp (expire_pending E) (fun x s' => x = Ok tt /\
    pending_switches s' = filter (fun '(_, p) => t < deadline_at p) (pending_switches s)) s.
Proof.
  intros Horder t.
  unfold expire_pending. apply wp_bind, wp_gets. case_bool_decide as Hm.
  { apply wp_ret. by rewrite Hm, map_filter_empty. }
  apply wp_bind, wp_now_exact. fold t. apply wp_bind, wp_tick_exact, wp_expire_all.
  intros s' H'. split; [done|]. rewrite H'. by apply expired_ids_filter.
Qed.

(** Commands issued before the handshake are dropped.  The receiver is
    drained up to its first error, and nothing else changes: nothing is
    written, nothing becomes pending, nothing is published. *)
Theorem early_commands_dropped s :
  handshake_complete s = false ->
  forward_commands E s = (Ok tt, with_core_cmd_rx (after_first_error (core_cmd_rx s)) s).
Proof.
  intros Hh. change (forward_commands E s) with (drain_commands E (core_cmd_rx s) s).
  assert (forall q s, handshake_complete s = false -> core_cmd_rx s = q ->
    drain_commands E q s = (Ok tt, with_core_cmd_rx (after_first_error q) s)) as H; [|by apply H].
  clear s Hh. induction q as [|[cmd|] q IH]; intros s Hh Hq; [|..|reflexivity].
  - unfold with_core_cmd_rx. cbn. rewrite <- Hq. by destruct s.
  - transitivity (drain_commands E q (with_core_cmd_rx q s)); [|by rewrite IH].
    cbn [drain_commands]. unfold mbind, eff_bind, modify, gets. cbn. by rewrite Hh.
Qed.

(** Forwarding a scene switch.  Either the frame could not be written, and
    the session ends with that error with nothing recorded, or exactly one
    [switch_scene] frame is appended with the command's scene, reason and
    deadline, the request is pending until [deadline_ms] after a clock reading
    taken after the write, and the published debug status names it. *)
Theorem switch_scene_forwarded s sc why ms :
  wp (handle_command E (SwitchScene sc why ms)) (fun x s' =>
    match x with
    | Err x => (exists e, x = Err e) /\ out s' = out s /\ pending_switches s' = pending_switches s
               /\ debug_status s' = debug_status s
    | Ok _ => exists rid o t,
        out s' = out s ++ [o] /\ message_type o = "switch_scene" /\ priority o = Critical /\
        payload o = EvtSwitchScene {| request_id := rid; scene_name := sc; reason := why; deadline_ms := ms |} /\
        clock s <= t <= clock s' /\
        pending_switches s' =
          <[rid := {| pending_scene_name := sc; deadline_at := t + from_millis ms |}]> (pending_switches s) /\
        pending_switch_count (debug_status s') = Int.cast 32 (Z.of_nat (size (pending_switches s'))) /\
        req_request_id <$> last_switch_request (debug_status s') = Some rid
    end) s.
Proof.
  unfold handle_command. session_steps.
  - eauto.
  - eexists _, _, c. split_and!; try reflexivity; done.
Qed.

(** A scene-switch result settles its request, whenever it comes.  The
    request is no longer pending and nothing is written; a known request is
    published as [ok] or [error] with the new count, an unknown (late or
    duplicated) one as [unknown_request] with the count untouched. *)
Theorem scene_switch_result_settles s m r :
  v m = IPC_PROTOCOL_VERSION -> message_type m = "scene_switch_result" -> from_value (payload m) = Ok r ->
  let known := bool_decide (is_Some (pending_switches s !! result_request_id r)) in
  wp (dispatch E m) (fun x s' =>
    x = Ok tt /\ out s' = out s /\
    pending_switches s' = delete (result_request_id r) (pending_switches s) /\
    res_request_id <$> last_switch_result (debug_status s') = Some (result_request_id r) /\
    res_status <$> last_switch_result (debug_status s') =
      Some (if known then if result_ok r then "ok" else "error" else "unknown_request") /\
    pending_switch_count (debug_status s') =
      (if known then Int.cast 32 (Z.of_nat (size (pending_switches s')))
       else pending_switch_count (debug_status s))) s.
Proof.
  intros Hv Hty Hp known. unfold known. dispatch_on Hv Hty. rewrite (with_payload_ok E m _ r Hp).
  unfold on_scene_switch_result.
  destruct (pending_switches s !! result_request_id r) as [p|] eqn:Hr; session_steps; split_and!;
    try reflexivity; congruence.
Qed.

(** A ping is answered.  Either the pong could not be written and the session
    ends with that error, or exactly one [pong] with the ping's nonce is
    appended and the heartbeat restarts at a clock reading taken after it;
    nothing else changes. *)
Theorem ping_pong s m p :
  v m = IPC_PROTOCOL_VERSION -> message_type m = "ping" -> from_value (payload m) = Ok p ->
  wp (dispatch E m) (fun x s' =>
    pending_switches s' = pending_switches s /\ session_overrides s' = session_overrides s /\
    handshake_complete s' = handshake_complete s /\
    match x with
    | Err x => (exists e, x = Err e) /\ out s' = out s /\ last_ping_at s' = last_ping_at s
    | Ok _ => clock s <= last_ping_at s' <= clock s' /\
        exists o, out s' = out s ++ [o] /\ message_type o = "pong" /\
          payload o = EvtPong {| pong_nonce := ping_nonce p |}
    end) s.
Proof.
  intros Hv Hty Hp. dispatch_on Hv Hty. rewrite (with_payload_ok E m _ p Hp).
  unfold on_ping. session_steps; split_and!; try done; try (cbn in *; lia); by eexists.
Qed.

(** A handshake.  A [hello] of the wrong version gets one error notice and
    closes the session; one of the right version gets one [hello_ack], after
    which the session is open, its heartbeat starts afresh, and the status push
    is due at once.  A failed write ends the session either way. *)
Theorem hello_handshake s m p :
  v m = IPC_PROTOCOL_VERSION -> message_type m = "hello" -> from_value (payload m) = Ok p ->
  wp (dispatch E m) (fun x s' =>
    match x with
    | Err (Err _) => out s' = out s /\ handshake_complete s' = handshake_complete s
    | Err (Ok _) => hello_protocol_version p <> IPC_PROTOCOL_VERSION /\
        handshake_complete s' = handshake_complete s /\
        exists o n, out s' = out s ++ [o] /\ payload o = EvtUserNotice n /\ level n = Error
    | Ok _ => hello_protocol_version p = IPC_PROTOCOL_VERSION /\
        handshake_complete s' = true /\ clock s <= last_ping_at s' <= clock s' /\
        STATUS_PUSH_INTERVAL <= clock s' - last_status_push_at s' /\
        exists o, out s' = out s ++ [o] /\ is_hello_ack o
    end) s.
Proof.
  intros Hv Hty Hp. dispatch_on Hv Hty. rewrite (with_payload_ok E m _ p Hp).
  unfold on_hello. session_steps; split_and!; try done.
  - by apply Z.eqb_neq, negb_true_iff.
  - by eexists _, _.
  - by apply Z.eqb_eq, negb_false_iff.
  - cbn in *. lia.
  - by eexists.
Qed.
(** C27: unusable commands are reported and counted.  An unknown type, or a known
    type whose payload does not decode, gets one [protocol_error] that names the
    offending message, with code [unknown_type] or [invalid_payload]; the error
    enters the window, and the session ends (normally) exactly when the window
    says so.  Only a failed write ends it otherwise. *)
Theorem bad_command_counted s m :
  v m = IPC_PROTOCOL_VERSION -> known_type (message_type m) = false \/ undecodable m = true ->
  let c := if known_type (message_type m) then InvalidPayload else UnknownType in
  wp (dispatch E m) (fun x s' =>
    match x with
    | Err (Err _) => out s' = out s /\ protocol_errors s' = protocol_errors s
    | x => (exists o, out s' = out s ++ [o] /\ reports_error_on (Some (id m)) c o) /\
        exists t, clock s <= t <= clock s' /\
          let r := ProtocolErrorTracker.record_and_should_reset t (protocol_errors s) in
          protocol_errors s' = snd r /\ (x = Err (Ok tt) <-> fst r = true)
    end) s.
Proof.
  intros Hv Hbad c. unfold c. destruct (known_type (message_type m)) eqn:Hk.
  - destruct Hbad as [|Hbad]; [done|]. destruct (dispatch_undecodable E m Hv Hk Hbad) as [err ->].
    unfold emit_protocol_error_for_payload. session_steps; [done|..];
      (split; [eexists; split; [reflexivity | by eexists] | counted s]).
  - rewrite (dispatch_unknown E m Hv Hk). unfold on_unknown. session_steps; [done|..];
      (split; [eexists; split; [reflexivity | by eexists] | counted s]).
Qed.

(** A read that fails to decode.  The error is reported (if it can be),
    published, and counted like any other; only the window ends the session,
    normally.  The frames before and after are unaffected: the poll consumed
    exactly what [read_frame] did.  The code is [frame_too_large] exactly when
    the error text contains that phrase. *)
Theorem decode_error_counted s err r :
  read_frame (inbox s) = (Ready (Err err), r) -> kind err = InvalidData ->
  let c := if Str.contains "frame too large" (msg err) then FrameTooLarge else DecodeFailed in
  wp (poll_incoming E) (fun x s' =>
    inbox s' = r /\ last_notice (debug_status s') = Some "IPC decode/frame protocol error" /\
    (out s' = out s \/ exists o, out s' = out s ++ [o] /\ reports_error_on None c o) /\
    (x = Ok None \/ x = Err (Ok tt)) /\
    exists t, clock s <= t <= clock s' /\
      let r := ProtocolErrorTracker.record_and_should_reset t (protocol_errors s) in
      protocol_errors s' = snd r /\ (x = Err (Ok tt) <-> fst r = true)) s.
Proof.
  intros Hr Hk c. apply wp_bind, wp_poll_read. rewrite Hr. cbn [kind]. rewrite bool_decide_eq_true_2 by done.
  session_steps; split_and!; try done; try (by left); try (by right); try counted s;
    right; eexists; (split; [reflexivity | by eexists]).
Qed.

(** Refused settings are not counted.  An unsupported mode or setting key
    gets an [invalid_payload] report naming the message, and changes no
    override; but the protocol-error window does not see it, so no number of
    them ever closes the session, unlike every other [invalid_payload]. *)
Theorem refused_request_not_counted s m :
  v m = IPC_PROTOCOL_VERSION -> refused_request m = true ->
  wp (dispatch E m) (fun x s' =>
    x <> Err (Ok tt) /\ protocol_errors s' = protocol_errors s /\
    session_overrides s' = session_overrides s /\
    (x = Ok tt -> exists o, out s' = out s ++ [o] /\ reports_error_on (Some (id m)) InvalidPayload o)) s.
Proof.
  intros Hv [(Hty & p & Hp & H1 & H2) | (Hty & p & Hp & Hkey)]%refused_request_cases; dispatch_on Hv Hty;
    rewrite (with_payload_ok E m _ p Hp).
  - unfold on_set_mode_request. rewrite H1, H2. session_steps; split_and!; try done.
    intros _. eexists. split; [reflexivity | by eexists].
  - unfold on_set_setting_request. apply wp_bind, wp_gets. rewrite Hkey.
    session_steps; split_and!; try done. intros _. eexists. split; [reflexivity | by eexists].
Qed.
(** A mode request takes effect.  [studio] and [irl] are the two modes; a
    request for the mode already forced changes nothing at all; otherwise the
    override is stored and, unless a write fails, the last frame written is a
    status snapshot that shows the requested mode, whatever the telemetry frame
    and the relay session are. *)
Theorem set_mode_request_applied s m p mo :
  v m = IPC_PROTOCOL_VERSION -> message_type m = "set_mode_request" -> from_value (payload m) = Ok p ->
  mode_request p = SnapshotMode_name mo ->
  if bool_decide (SessionOverrides.mode (session_overrides s) = Some mo)
  then dispatch E m s = (Ok tt, s)
  else wp (dispatch E m) (fun x s' =>
         x <> Err (Ok tt) /\ SessionOverrides.mode (session_overrides s') = Some mo /\
         (x = Ok tt -> exists o snap, last (out s') = Some o /\
            payload o = EvtStatusSnapshot snap /\ snap_mode snap = mo)) s.
Proof.
  intros Hv Hty Hp Hmo. dispatch_on Hv Hty. rewrite (with_payload_ok E m _ p Hp).
  assert ((if String.eqb (mode_request p) "studio" then Some ModeStudio
           else if String.eqb (mode_request p) "irl" then Some ModeIrl else None) = Some mo) as Hn
    by (by rewrite Hmo; destruct mo).
  unfold on_set_mode_request, SessionOverrides.set_mode_if_changed. rewrite Hn. case_bool_decide as Hm.
  - unfold mbind, eff_bind, gets, modify. rewrite bool_decide_eq_true_2 by done. by destruct s.
  - apply wp_bind, wp_gets. rewrite bool_decide_eq_false_2 by done.
    session_steps; split_and!; try done; intros _; eexists _, _; (split; [apply last_snoc|]); by split.
Qed.

(** A setting request takes effect.  Asking for the value a setting already
    has changes nothing at all; otherwise the override is stored and, unless a
    write fails, the last frame written is a status snapshot built from the new
    overrides. *)
Theorem set_setting_request_applied s m p :
  v m = IPC_PROTOCOL_VERSION -> message_type m = "set_setting_request" -> from_value (payload m) = Ok p ->
  match SessionOverrides.apply_setting_if_changed (setting_key p) (setting_value p) (session_overrides s) with
  | (Ok false, _) => dispatch E m s = (Ok tt, s)
  | (Ok true, o) => wp (dispatch E m) (fun x s' =>
      x <> Err (Ok tt) /\ session_overrides s' = o /\
      (x = Ok tt -> exists f frame relay, last (out s') = Some f /\
         payload f = EvtStatusSnapshot (build_status_snapshot_with_overrides frame relay o))) s
  | (Err _, _) => True
  end.
Proof.
  intros Hv Hty Hp. dispatch_on Hv Hty. rewrite (with_payload_ok E m _ p Hp). unfold on_set_setting_request.
  destruct (SessionOverrides.apply_setting_if_changed _ _ _) as [[[]|[]] o] eqn:Ha; [| |done].
  - apply wp_bind, wp_gets. rewrite Ha.
    session_steps; split_and!; try done; intros _; eexists _, _, _; (split; [apply last_snoc | reflexivity]).
  - unfold mbind, eff_bind, gets. rewrite Ha. cbn. apply apply_setting_unchanged in Ha as ->. by destruct s.
Qed.

(** What closes a session in an orderly way.  An envelope of another version
    gets one error notice, an [obs_shutdown_notice] none; both end the session
    normally (unless the notice cannot be written), are published, and leave
    the overrides and the pending switches alone. *)
Theorem orderly_close s m p :
  v m <> IPC_PROTOCOL_VERSION \/
  (v m = IPC_PROTOCOL_VERSION /\ message_type m = "obs_shutdown_notice" /\ from_value (payload m) = Ok p) ->
  wp (dispatch E m) (fun x s' =>
    pending_switches s' = pending_switches s /\ session_overrides s' = session_overrides s /\
    match x with
    | Ok _ => False
    | Err (Err _) => v m <> IPC_PROTOCOL_VERSION /\ out s' = out s
    | Err (Ok _) =>
        if bool_decide (v m = IPC_PROTOCOL_VERSION)
        then out s' = out s /\
          last_notice (debug_status s') = Some ("obs shutdown notice: " +:+ shutdown_reason p)
        else last_notice (debug_status s') = Some "IPC envelope version mismatch" /\
          exists o n, out s' = out s ++ [o] /\ payload o = EvtUserNotice n /\ level n = Error
    end) s.
Proof.
  intros [Hv|(Hv & Hty & Hp)].
  - rewrite bool_decide_eq_false_2 by done. unfold dispatch. rewrite (proj2 (Z.eqb_neq _ _) Hv). cbn [negb].
    session_steps; split_and!; try done. by eexists _, _.
  - rewrite bool_decide_eq_true_2 by done. dispatch_on Hv Hty. rewrite (with_payload_ok E m _ p Hp).
    unfold on_obs_shutdown_notice. by session_steps.
Qed.
End Properties.

(** ** Witnesses *)

(** A payload type with one constructor per command, and a codec that reads a
    frame of one byte. *)
Inductive DemoValue :=
  | DHello (p : HelloPayload)
  | DPing (p : PingPayload)
  | DMode (p : SetModeRequestPayload)
  | DSetting (p : SetSettingRequestPayload)
  | DResult (p : SceneSwitchResultPayload)
  | DShutdown (p : ObsShutdownNoticePayload)
  | DEmpty.

#[local] Instance demo_codec : PayloadCodec DemoValue := {|
  value_hello := fun x => match x with DHello p => Ok p | _ => Err "hello" end;
  value_ping := fun x => match x with DPing p => Ok p | _ => Err "ping" end;
  value_request_status := fun x => match x with DEmpty => Ok mkRequestStatus | _ => Err "status" end;
  value_set_mode := fun x => match x with DMode p => Ok p | _ => Err "mode" end;
  value_set_setting := fun x => match x with DSetting p => Ok p | _ => Err "setting" end;
  value_scene_switch_result := fun x => match x with DResult p => Ok p | _ => Err "result" end;
  value_obs_shutdown := fun x => match x with DShutdown p => Ok p | _ => Err "shutdown" end |}.

Definition demo_message (ty : string) (p : DemoValue) : Envelope DemoValue :=
  mkEnvelope 1 "m1" 0 ty Normal p.

Definition demo_hello : HelloPayload :=
  {| plugin_version := "0.0.1"; hello_protocol_version := 1; obs_pid := 7; capabilities := [] |}.

#[local] Instance demo_wire : WireCodec (Envelope EvtPayload) (Envelope DemoValue) := {|
  to_vec_named := fun _ => Ok [x00]%byte;
  from_slice := fun bs =>
    match bs with
    | [x01]%byte => Ok (demo_message "hello" (DHello demo_hello))
    | [x02]%byte => Ok (demo_message "ping" (DPing {| ping_nonce := "n" |}))
    | _ => Err "truncated"
    end |}.

(** A millisecond passes between two clock readings; nothing fails. *)
Definition demo_env : Env := {|
  env_tick := fun _ => 1000000%N; env_unix_ms := fun _ => 1700000000000; env_uuid := fun n => Str.show (Z.of_nat n);
  env_write := fun _ => None; env_frame := fun _ => TelemetryFrame_default; env_relay := fun _ => None;
  env_order := fun _ l => l |}.

(** A session in progress: one switch pending, due at 5 s. *)
Definition demo_state : State :=
  mkState 0 0 [] [] [] new_debug_status ProtocolErrorTracker.new
    {["r1" := {| pending_scene_name := "BRB"; deadline_at := from_secs 5 |}]}
    SessionOverrides.default true 0 0.

Definition demo_result : SceneSwitchResultPayload := {| result_request_id := "r1"; result_ok := true; result_error := None |}.
Definition demo_ping : PingPayload := {| ping_nonce := "n" |}.
Definition demo_mode : SetModeRequestPayload := {| mode_request := "irl" |}.
Definition demo_setting : SetSettingRequestPayload := {| setting_key := "alerts"; setting_value := true |}.
Definition demo_shutdown : ObsShutdownNoticePayload := {| shutdown_reason := "exit" |}.

Lemma session_ledger_witness :
  Ledger (snd (handle_session_io demo_env 0 0
    [Chunk [x01; x00; x00; x00; x01]%byte; Idle; Chunk [x01; x00; x00; x00; x02]%byte]
    [None; Some (SwitchScene "Live" "manual" 500)] new_debug_status)).
Proof. apply session_ledger. reflexivity. Defined.

(** The witness session: a handshake, a scene switch that is announced, one
    ping, and the end of the pipe. *)
Lemma session_refines_protocol_witness :
  exists x s L ms acted, handle_session_io demo_env 0 0
      [Chunk [x01; x00; x00; x00; x01]%byte; Idle; Chunk [x01; x00; x00; x00; x02]%byte]
      [None; Some (SwitchScene "Live" "manual" 500)] new_debug_status = (Some x, s) /\
    Reads [Chunk [x01; x00; x00; x00; x01]%byte; Idle; Chunk [x01; x00; x00; x00; x02]%byte] ms (inbox s) /\
    Explains [SwitchScene "Live" "manual" 500] (inbox s) (mjoin (map asks acted)) L s /\
    (must_reset L = true -> x = Ok tt) /\
    (acted = ms \/ exists e m, x = Err e /\ ms = acted ++ [m]).
Proof.
  apply (session_refines_protocol demo_env 0 0 _ [None; Some (SwitchScene "Live" "manual" 500)]).
  intros n l. reflexivity.
Defined.

Lemma silent_plugin_disconnected_witness :
  exists x s', session_loop demo_env 15 (with_inbox (replicate 15 Idle) demo_state) = (Some x, s') /\
    (x = Ok tt -> last_notice (debug_status s') = Some heartbeat_notice).
Proof.
  apply (silent_plugin_disconnected demo_env _ []); [reflexivity | cbn; lia | reflexivity].
Defined.

Lemma expire_pending_exact_witness :
  wp (expire_pending demo_env) (fun x s' => x = Ok tt /\
    pending_switches s' = filter (fun '(_, p) => 1000000 < deadline_at p) (pending_switches demo_state))
    demo_state.
Proof. apply (expire_pending_exact demo_env demo_state). reflexivity. Defined.

Lemma early_commands_dropped_witness :
  forward_commands demo_env
    (with_core_cmd_rx [Some (SwitchScene "Live" "manual" 500); None] (with_handshake_complete false demo_state))
  = (Ok tt, with_core_cmd_rx [] (with_handshake_complete false demo_state)).
Proof.
  exact (early_commands_dropped demo_env
    (with_core_cmd_rx [Some (SwitchScene "Live" "manual" 500); None]
       (with_handshake_complete false demo_state)) eq_refl).
Defined.

Lemma scene_switch_result_settles_witness :
  pending_switches (final (dispatch demo_env (demo_message "scene_switch_result"
    (DResult demo_result))) demo_state) =
  delete "r1" (pending_switches demo_state).
Proof.
  apply (@scene_switch_result_settles DemoValue demo_wire demo_codec demo_env demo_state
    (demo_message "scene_switch_result"
      (DResult demo_result)) demo_result
    eq_refl eq_refl eq_refl).
Defined.

Lemma ping_pong_witness :
  exists o, out (final (dispatch demo_env (demo_message "ping" (DPing demo_ping))) demo_state)
      = [o] /\ payload o = EvtPong {| pong_nonce := "n" |}.
Proof.
  destruct (@ping_pong DemoValue demo_wire demo_codec demo_env demo_state (demo_message "ping" (DPing demo_ping)) demo_ping
    eq_refl eq_refl eq_refl) as (_ & _ & _ & _ & o & Ho & _ & Hp).
  exists o. split; [exact Ho | exact Hp].
Defined.

Lemma hello_handshake_witness :
  handshake_complete (final (dispatch demo_env (demo_message "hello" (DHello demo_hello)))
    (with_handshake_complete false demo_state)) = true.
Proof.
  apply (@hello_handshake DemoValue demo_wire demo_codec demo_env (with_handshake_complete false demo_state)
    (demo_message "hello" (DHello demo_hello)) demo_hello eq_refl eq_refl eq_refl).
Defined.

Lemma bad_command_counted_witness :
  exists o, out (final (dispatch demo_env (demo_message "ping" DEmpty)) demo_state) = [o] /\
    reports_error_on (Some "m1") InvalidPayload o.
Proof.
  destruct (@bad_command_counted DemoValue demo_wire demo_codec demo_env demo_state (demo_message "ping" DEmpty)
    eq_refl (or_intror eq_refl)) as ((o & Ho & He) & _).
  exists o. split; [exact Ho | exact He].
Defined.

Lemma decode_error_counted_witness :
  last_notice (debug_status (final (poll_incoming demo_env)
    (with_inbox [Chunk [x01; x00; x00; x00; x09]%byte] demo_state))) = Some "IPC decode/frame protocol error".
Proof.
  eapply (decode_error_counted demo_env (with_inbox [Chunk [x01; x00; x00; x00; x09]%byte] demo_state));
    reflexivity.
Defined.

Lemma refused_request_not_counted_witness :
  protocol_errors (final (dispatch demo_env (demo_message "set_mode_request" (DMode {| mode_request := "irc" |})))
    demo_state) = [].
Proof.
  apply (@refused_request_not_counted DemoValue demo_wire demo_codec demo_env demo_state
    (demo_message "set_mode_request" (DMode {| mode_request := "irc" |})) eq_refl eq_refl).
Defined.

Lemma set_mode_request_applied_witness :
  SessionOverrides.mode (session_overrides (final (dispatch demo_env
    (demo_message "set_mode_request" (DMode demo_mode))) demo_state)) = Some ModeIrl.
Proof.
  apply (@set_mode_request_applied DemoValue demo_wire demo_codec demo_env demo_state
    (demo_message "set_mode_request" (DMode demo_mode)) demo_mode ModeIrl
    eq_refl eq_refl eq_refl eq_refl).
Defined.

Lemma set_setting_request_applied_witness :
  SessionOverrides.alerts (session_overrides (final (dispatch demo_env
    (demo_message "set_setting_request" (DSetting demo_setting)))
    demo_state)) = Some true.
Proof.
  destruct (@set_setting_request_applied DemoValue demo_wire demo_codec demo_env demo_state
    (demo_message "set_setting_request" (DSetting demo_setting)) demo_setting
    eq_refl eq_refl eq_refl) as (_ & -> & _). reflexivity.
Defined.

Lemma orderly_close_witness :
  outcome (dispatch demo_env (demo_message "obs_shutdown_notice" (DShutdown demo_shutdown)))
    demo_state = Err (Ok tt) /\
  last_notice (debug_status (final (dispatch demo_env
    (demo_message "obs_shutdown_notice" (DShutdown demo_shutdown))) demo_state))
    = Some "obs shutdown notice: exit".
Proof.
  split; [reflexivity|].
  apply (@orderly_close DemoValue demo_wire demo_codec demo_env demo_state
    (demo_message "obs_shutdown_notice" (DShutdown demo_shutdown)) demo_shutdown
    (or_intror (conj eq_refl (conj eq_refl eq_refl)))).
Defined.
