(* ===== verification/IpcCoupling.v ===== *)
(** * IpcCoupling: what a session depends on

    A session consults its environment only at the steps it performs, and its
    command queue only at the head of a turn, up to the first failed [try_recv].
    So two environments that agree on those steps, and two queues that start
    alike, give the same session: [coupled] carries this through the code.  The
    running program, where the environment and the queue of a session become
    known turn by turn, is related to [run_named_pipe_server] by it. *)

From S2P Require Import Prelude Effects RustStd Float Model Aegis Ipc IpcWire IpcSession IpcSessionFacts.

#[local] Open Scope Z_scope.

(** ** Environments that agree *)

Record same_answers (E F : Env) (n : nat) : Prop := {
  same_tick : env_tick F n = env_tick E n;
  same_unix_ms : env_unix_ms F n = env_unix_ms E n;
  same_uuid : env_uuid F n = env_uuid E n;
  same_write : env_write F n = env_write E n;
  same_frame : env_frame F n = env_frame E n;
  same_relay : env_relay F n = env_relay E n;
  same_order : env_order F n = env_order E n;
}.

(** [F] answers as [E] does at the steps from [a] and before [b]. *)
Definition agree (E F : Env) (a b : nat) : Prop := forall n, (a <= n < b)%nat -> same_answers E F n.

Lemma agree_refl E a b : agree E E a b.
Proof. by intros n _. Qed.

Lemma agree_sub E F a b a' b' : agree E F a b -> (a <= a')%nat -> (b' <= b)%nat -> agree E F a' b'.
Proof. intros H Ha Hb n Hn. apply H. lia. Qed.

Lemma agree_trans E F G a b : agree E F a b -> agree F G a b -> agree E G a b.
Proof. intros H H' n Hn. destruct (H n Hn), (H' n Hn). split; congruence. Qed.

(** [E] before step [n], [F] from there on. *)
Definition glue (n : nat) (E F : Env) : Env := {|
  env_tick i := if (i <? n)%nat then env_tick E i else env_tick F i;
  env_unix_ms i := if (i <? n)%nat then env_unix_ms E i else env_unix_ms F i;
  env_uuid i := if (i <? n)%nat then env_uuid E i else env_uuid F i;
  env_write i := if (i <? n)%nat then env_write E i else env_write F i;
  env_frame i := if (i <? n)%nat then env_frame E i else env_frame F i;
  env_relay i := if (i <? n)%nat then env_relay E i else env_relay F i;
  env_order i := if (i <? n)%nat then env_order E i else env_order F i |}.

Lemma glue_answers n E F G i : G = (if (i <? n)%nat then E else F) -> same_answers G (glue n E F) i.
Proof. intros ->. split; cbn [glue env_tick env_unix_ms env_uuid env_write env_frame env_relay env_order]; by case_match. Qed.

Lemma glue_before n E F a : agree E (glue n E F) a n.
Proof. intros i Hi. apply glue_answers. by destruct (Nat.ltb_spec i n); [|lia]. Qed.

Lemma glue_after n E F b : agree F (glue n E F) n b.
Proof. intros i Hi. apply glue_answers. by destruct (Nat.ltb_spec i n); [lia|]. Qed.

Lemma agree_glue n E F G b : (n <= b)%nat -> agree (glue n E F) G 0 b -> agree E G 0 n /\ agree F G n b.
Proof.
  intros Hn H. split.
  - eapply agree_trans; [apply (glue_before n E F) | by eapply agree_sub; [exact H | lia..]].
  - eapply agree_trans; [apply (glue_after n E F) | by eapply agree_sub; [exact H | lia..]].
Qed.

(** ** Coupled computations *)

Abbreviation rx := with_core_cmd_rx.

(** Equal but for the queue. *)
Definition same_session (s t : State) : Prop := rx [] s = rx [] t.

Lemma rx_rx q q' s : rx q (rx q' s) = rx q s.
Proof. by destruct s. Qed.

Lemma rx_self s : rx (core_cmd_rx s) s = s.
Proof. by destruct s. Qed.

Lemma same_session_rx q s : same_session (rx q s) s.
Proof. apply rx_rx. Qed.

#[global] Instance same_session_equiv : Equivalence same_session.
Proof. unfold same_session. split; [done | by intros ? ? -> | by intros ? ? ? -> ->]. Qed.

Lemma same_session_eq s t : same_session s t -> s = rx (core_cmd_rx s) t.
Proof. intros Hst. rewrite <- (rx_rx _ [] t), <- Hst, rx_rx. by rewrite rx_self. Qed.

#[global] Instance rx_proper q : Proper (same_session ==> eq) (rx q).
Proof. intros s t Hst. rewrite <- (rx_rx q [] s), <- (rx_rx q [] t). by rewrite Hst. Qed.

Section Coupled.
Context (E F : Env).

(** [m] moves the step counter on; [m'] does as [m] when [F] answers as [E] over
    the steps of [m], whatever the queue holds. *)
Record coupled {A} (m m' : eff State Exit A) : Prop := {
  coupled_later : forall s, (steps s <= steps (final m s))%nat;
  coupled_same : forall s q, agree E F (steps s) (steps (final m s)) ->
    m' (rx q s) = (outcome m s, rx q (final m s));
}.

Lemma coupled_ret {A} (a : A) : coupled (mret a) (mret a).
Proof. split; [by cbn | done]. Qed.

Lemma coupled_throw {A} (x : Exit) : coupled (A:=A) (throw x) (throw x).
Proof. split; [by cbn | done]. Qed.

Lemma coupled_gets {A} (f : State -> A) : (forall q s, f (rx q s) = f s) -> coupled (gets f) (gets f).
Proof. intros Hf. split; [by cbn | intros s q _; unfold gets; by rewrite Hf]. Qed.

Lemma coupled_modify (f : State -> State) :
  (forall s, steps (f s) = steps s) -> (forall q s, f (rx q s) = rx q (f s)) -> coupled (modify f) (modify f).
Proof.
  intros Hs Hf. split; [intros s; cbn; by rewrite Hs | intros s q _; unfold modify; by rewrite Hf].
Qed.

Lemma coupled_bind {A B} (m m' : eff State Exit A) (f f' : A -> eff State Exit B) :
  coupled m m' -> (forall a, coupled (f a) (f' a)) -> coupled (m ≫= f) (m' ≫= f').
Proof.
  intros [Hl Hs] Hf. split.
  - intros s. rewrite final_bind. pose proof (Hl s). destruct (outcome m s) as [a|]; [|done].
    pose proof (coupled_later _ _ (Hf a) (final m s)). lia.
  - intros s q. rewrite final_bind, outcome_bind. unfold mbind, eff_bind. pose proof (Hl s) as Hle.
    destruct (outcome m s) as [a|x] eqn:Ho; intros Hag.
    + pose proof (coupled_later _ _ (Hf a) (final m s)).
      rewrite Hs, Ho by (eapply agree_sub; [done | lia..]). apply Hf. eapply agree_sub; [done | lia..].
    + by rewrite Hs, Ho.
Qed.

Lemma coupled_attempt {A} (m m' : eff State Exit A) : coupled m m' -> coupled (attempt m) (attempt m').
Proof.
  intros [Hl Hs]. split; [exact Hl|]. intros s q Hag. unfold attempt. rewrite Hs by exact Hag. reflexivity.
Qed.

Lemma coupled_for_each {A} (f f' : A -> eff State Exit unit) l :
  (forall a, coupled (f a) (f' a)) -> coupled (for_each f l) (for_each f' l).
Proof.
  intros Hf. induction l as [|a l IH]; cbn [for_each]; [apply coupled_ret|]. by apply coupled_bind; [|intros _].
Qed.

(** An effect answered by the environment. *)
Lemma coupled_tick {A} (f f' : nat -> eff State Exit A) :
  (forall n, exists g, coupled (f n) g) -> (forall n, same_answers E F n -> coupled (f n) (f' n)) ->
  coupled (tick ≫= f) (tick ≫= f').
Proof.
  intros Hf Heq.
  assert (forall s, (S (steps s) <= steps (final (tick ≫= f) s))%nat) as Hle.
  { intros s. rewrite final_bind. destruct (Hf (steps s)) as [g Hg]. apply (coupled_later _ _ Hg (with_steps (S (steps s)) s)). }
  split; [intros s; specialize (Hle s); lia|].
  intros s q Hag. pose proof (Hle s). unfold mbind, eff_bind, tick. cbn [steps rx].
  change (with_steps (S (steps s)) (rx q s)) with (rx q (with_steps (S (steps s)) s)).
  apply (coupled_same _ _ (Heq (steps s) ltac:(apply Hag; lia))). eapply agree_sub; [done | cbn; lia |].
  by rewrite final_bind.
Qed.

Lemma coupled_tick_same {A} (f f' : nat -> eff State Exit A) :
  (forall n, coupled (f n) (f n)) -> (forall n, same_answers E F n -> f' n = f n) ->
  coupled (tick ≫= f) (tick ≫= f').
Proof. intros Hf Heq. apply coupled_tick; [by eauto | intros n Hn; by rewrite (Heq n Hn)]. Qed.
End Coupled.

(** Coupling by the shape of the code. *)
Ltac couple prim :=
  repeat first
    [ progress intros
    | prim
    | match goal with
      | |- coupled _ _ (mret _) _ => apply coupled_ret
      | |- coupled _ _ (throw _) _ => apply coupled_throw
      | |- coupled _ _ (tick ≫= _) _ => apply coupled_tick
      | |- coupled _ _ (_ ≫= _) _ => apply coupled_bind
      | |- coupled _ _ (gets _) _ => apply coupled_gets; reflexivity
      | |- coupled _ _ (modify _) _ => apply coupled_modify; [reflexivity | intros ? []; reflexivity]
      | |- coupled _ _ (attempt _) _ => apply coupled_attempt
      | |- coupled _ _ (for_each _ _) _ => apply coupled_for_each
      | |- coupled _ _ (match ?x with _ => _ end) _ => destruct x
      end ].

Section Session.
Context {Value : Type} `{!WireCodec (Envelope EvtPayload) (Envelope Value)} `{!PayloadCodec Value}.

Section Handlers.
Context (E F : Env).


(** The primitive effects. *)
Ltac answered law := apply coupled_tick_same; [intros n; couple fail | intros n Hn; by rewrite (law _ _ _ Hn)].

Lemma coupled_now : coupled E F (now E) (now F).
Proof. unfold now. answered same_tick. Qed.

Lemma coupled_now_unix_ms : coupled E F (now_unix_ms E) (now_unix_ms F).
Proof. unfold now_unix_ms. answered same_unix_ms. Qed.

Lemma coupled_new_uuid : coupled E F (new_uuid E) (new_uuid F).
Proof. unfold new_uuid. answered same_uuid. Qed.

Lemma coupled_borrow_frame : coupled E F (borrow_frame E) (borrow_frame F).
Proof. unfold borrow_frame. answered same_frame. Qed.

Lemma coupled_lock_relay_session : coupled E F (lock_relay_session E) (lock_relay_session F).
Proof. unfold lock_relay_session. answered same_relay. Qed.

Ltac couple_reading :=
  lazymatch goal with
  | |- coupled _ _ (now _) _ => apply coupled_now
  | |- coupled _ _ (now_unix_ms _) _ => apply coupled_now_unix_ms
  | |- coupled _ _ (new_uuid _) _ => apply coupled_new_uuid
  | |- coupled _ _ (borrow_frame _) _ => apply coupled_borrow_frame
  | |- coupled _ _ (lock_relay_session _) _ => apply coupled_lock_relay_session
  end.
Ltac couple_effects := couple ltac:(idtac; couple_reading).

Lemma coupled_make_envelope ty pr p : coupled E F (make_envelope E ty pr p) (make_envelope F ty pr p).
Proof. unfold make_envelope. couple_effects. Qed.

Lemma coupled_send m : coupled E F (send E m) (send F m).
Proof.
  unfold send. destruct (write_frame m) as [bs|e]; [|apply coupled_throw]. answered same_write.
Qed.

Lemma coupled_update_debug_status f : coupled E F (update_debug_status E f) (update_debug_status F f).
Proof. unfold update_debug_status. couple_effects. Qed.

Lemma coupled_record : coupled E F (record_and_should_reset E) (record_and_should_reset F).
Proof. unfold record_and_should_reset. couple_effects. Qed.

Lemma coupled_elapsed since : coupled E F (elapsed E since) (elapsed F since).
Proof. unfold elapsed. couple_effects. Qed.

Ltac couple_session := couple ltac:(idtac;
  first
    [ couple_reading
    | lazymatch goal with
      | |- coupled _ _ (make_envelope _ _ _ _) _ => apply coupled_make_envelope
      | |- coupled _ _ (send _ _) _ => apply coupled_send
      | |- coupled _ _ (update_debug_status _ _) _ => apply coupled_update_debug_status
      | |- coupled _ _ (record_and_should_reset _) _ => apply coupled_record
      | |- coupled _ _ (elapsed _ _) _ => apply coupled_elapsed
      end ]).

Lemma coupled_count_protocol_error : coupled E F (count_protocol_error E) (count_protocol_error F).
Proof. unfold count_protocol_error. couple_session. Qed.

Lemma coupled_push_status_snapshot pr : coupled E F (push_status_snapshot E pr) (push_status_snapshot F pr).
Proof. unfold push_status_snapshot. couple_session. Qed.

(** The parts of a turn. *)
Lemma coupled_handle_command cmd : coupled E F (handle_command E cmd) (handle_command F cmd).
Proof. destruct cmd. unfold handle_command. couple_session. Qed.

Lemma coupled_expire_one i : coupled E F (expire_one E i) (expire_one F i).
Proof. unfold expire_one, user_notice. couple_session. Qed.

Lemma coupled_expire_pending : coupled E F (expire_pending E) (expire_pending F).
Proof.
  unfold expire_pending. apply coupled_bind; [by apply coupled_gets | intros pending]. case_bool_decide; [apply coupled_ret|].
  apply coupled_bind; [apply coupled_now | intros t].
  apply coupled_tick; [intros n; eexists | intros n Hn; rewrite (same_order _ _ _ Hn)];
    apply coupled_for_each, coupled_expire_one.
Qed.

Lemma coupled_periodic_status : coupled E F (periodic_status E) (periodic_status F).
Proof. unfold periodic_status. couple_session. apply coupled_push_status_snapshot. Qed.

Lemma coupled_check_heartbeat : coupled E F (check_heartbeat E) (check_heartbeat F).
Proof. unfold check_heartbeat, make_protocol_error. couple_session. Qed.

Lemma coupled_poll_read : coupled E F (poll_read (Value:=Value)) poll_read.
Proof.
  split.
  - intros s. unfold final, poll_read. by destruct (read_frame (inbox s)) as [[]].
  - intros s q _. unfold poll_read, outcome, final. cbn [inbox rx]. by destruct (read_frame (inbox s)) as [[]].
Qed.

Lemma coupled_poll_incoming : coupled E F (poll_incoming E) (poll_incoming (Value:=Value) F).
Proof.
  unfold poll_incoming, make_protocol_error. apply coupled_bind; [apply coupled_poll_read | intros p].
  couple_session; apply coupled_count_protocol_error.
Qed.

Lemma coupled_with_payload {T} `{!FromValue Value T} m (f f' : T -> eff State Exit unit) :
  (forall p, coupled E F (f p) (f' p)) -> coupled E F (with_payload E m f) (with_payload F m f').
Proof.
  intros Hf. unfold with_payload. destruct (decode_payload m); [apply Hf|].
  unfold emit_protocol_error_for_payload, make_protocol_error. couple_session. apply coupled_count_protocol_error.
Qed.

Lemma coupled_dispatch m : coupled E F (dispatch E m) (dispatch (Value:=Value) F m).
Proof.
  unfold dispatch, user_notice. repeat case_match; try (apply coupled_with_payload; intros p); try (by couple_session).
  - unfold on_hello, user_notice. couple_session.
  - unfold on_ping. couple_session.
  - apply coupled_push_status_snapshot.
  - unfold on_set_mode_request, make_protocol_error, user_notice. couple_session. apply coupled_push_status_snapshot.
  - unfold on_set_setting_request, make_protocol_error, user_notice. couple_session. apply coupled_push_status_snapshot.
  - unfold on_scene_switch_result. couple_session.
  - unfold on_obs_shutdown_notice. couple_session.
  - unfold on_unknown, make_protocol_error. couple_session. apply coupled_count_protocol_error.
Qed.

(** ** Turns *)

(** After the drain, the rest of a turn. *)
Definition after_drain (G : Env) : eff State Exit unit :=
  expire_pending G ;; periodic_status G ;; check_heartbeat G ;;
  incoming ← poll_incoming G;
  match incoming with
  | None => mret tt
  | Some m => dispatch (Value:=Value) G m
  end.

Lemma coupled_after_drain : coupled E F (after_drain E) (after_drain F).
Proof.
  unfold after_drain. apply coupled_bind; [apply coupled_expire_pending | intros _].
  apply coupled_bind; [apply coupled_periodic_status | intros _].
  apply coupled_bind; [apply coupled_check_heartbeat | intros _].
  apply coupled_bind; [apply coupled_poll_incoming | intros [m|]]; [apply coupled_dispatch | apply coupled_ret].
Qed.
End Handlers.

(** What one drain of a queue takes, with the error that ends it. *)
Fixpoint taken (q : list (option CoreIpcCommand)) : list (option CoreIpcCommand) :=
  match q with
  | Some c :: q' => Some c :: taken q'
  | _ => [None]
  end.

(** Coupling at a state, where [m'] starts with the queue [q0] and has [q1] left
    unless it leaves early. *)
Definition coupled_at {A} (E F : Env) (m m' : eff State Exit A) (s : State) (q0 q1 : list (option CoreIpcCommand)) : Prop :=
  (steps s <= steps (final m s))%nat /\
  (agree E F (steps s) (steps (final m s)) -> exists q,
     m' (rx q0 s) = (outcome m s, rx q (final m s)) /\ (is_ok (outcome m s) = true -> q = q1)).

Lemma coupled_here {A} E F (m m' : eff State Exit A) s q : coupled E F m m' -> coupled_at E F m m' s q q.
Proof. intros [Hl Hs]. split; [done|]. intros Hag. exists q. by rewrite Hs. Qed.

Lemma coupled_at_bind {A B} E F (m m' : eff State Exit A) (f f' : A -> eff State Exit B) s q0 q1 q2 :
  coupled_at E F m m' s q0 q1 -> (forall a, coupled_at E F (f a) (f' a) (final m s) q1 q2) ->
  coupled_at E F (m ≫= f) (m' ≫= f') s q0 q2.
Proof.
  intros [Hl Hm] Hf. unfold coupled_at. rewrite final_bind, outcome_bind. unfold mbind, eff_bind.
  destruct (outcome m s) as [a|x].
  - destruct (Hf a) as [Hl2 Hm2]. split; [lia|]. intros Hag.
    destruct Hm as (q & -> & Hq); [by eapply agree_sub; [done | lia..]|]. rewrite (Hq eq_refl).
    apply Hm2. eapply agree_sub; [done | lia..].
  - split; [done|]. intros Hag. destruct (Hm Hag) as (q & -> & _). by exists q.
Qed.

Lemma coupled_at_assign E F q s q0 q1 :
  coupled_at E F (modify (rx q)) (modify (rx q1)) s q0 q1.
Proof. split; [by cbn|]. intros _. exists q1. unfold modify, outcome, final. cbn. by rewrite !rx_rx. Qed.

Lemma coupled_drain E F q : forall s q0 Q,
  coupled_at E F (drain_commands E q) (drain_commands F (taken q ++ Q)) s q0 Q.
Proof.
  induction q as [|[cmd|] q IH]; intros s q0 Q; cbn [taken app drain_commands].
  - split; [by cbn|]. intros _. exists Q. unfold modify, mret, eff_ret, outcome, final. cbn. by rewrite rx_rx.
  - eapply coupled_at_bind; [apply coupled_at_assign | intros _].
    eapply coupled_at_bind; [by apply coupled_here, coupled_gets | intros handshake].
    eapply coupled_at_bind; [|intros _; apply IH].
    apply coupled_here. destruct handshake; [apply coupled_handle_command | apply coupled_ret].
  - apply coupled_at_assign.
Qed.

(** A turn. *)
Lemma coupled_iteration E F s Q :
  coupled_at E F (iteration E) (iteration (Value:=Value) F) s (taken (core_cmd_rx s) ++ Q) Q.
Proof.
  change (iteration E) with (forward_commands E ≫= fun _ => after_drain E).
  change (iteration F) with (forward_commands F ≫= fun _ => after_drain F).
  eapply coupled_at_bind; [exact (coupled_drain E F (core_cmd_rx s) s _ Q) | intros _; apply coupled_here, coupled_after_drain].
Qed.

(** ** Sessions *)

(** The two readings of the clock on entry. *)
Definition read_clocks (G : Env) : eff State Exit unit :=
  t1 ← now G; modify (with_last_ping_at t1) ;; t2 ← now G; modify (with_last_status_push_at t2).

Definition entry (n : nat) (c : Z) (r : Reader) (q : list (option CoreIpcCommand)) (d : IpcDebugStatus) : State :=
  mkState n c r q [] d ProtocolErrorTracker.new ∅ SessionOverrides.default false c c.

Lemma enter_entry G n c r q d : enter_session G n c r q d = final (read_clocks G) (entry n c r q d).
Proof. reflexivity. Qed.

Lemma coupled_read_clocks E F : coupled E F (read_clocks E) (read_clocks F).
Proof. unfold read_clocks. couple ltac:(apply coupled_now). Qed.

Lemma enter_later G n c r q d : (n <= steps (enter_session G n c r q d))%nat.
Proof. rewrite enter_entry. exact (coupled_later _ _ _ _ (coupled_read_clocks G G) (entry n c r q d)). Qed.

Lemma coupled_enter E F n c r q d :
  agree E F n (steps (enter_session E n c r [] d)) -> enter_session F n c r q d = rx q (enter_session E n c r [] d).
Proof.
  rewrite !enter_entry. intros Hag.
  exact (f_equal snd (coupled_same _ _ _ _ (coupled_read_clocks E F) (entry n c r [] d) q Hag)).
Qed.

Lemma closing_later E f s : (steps s <= steps (final (update_debug_status E f) s))%nat.
Proof. exact (coupled_later _ _ _ _ (coupled_update_debug_status E E f) s). Qed.

Lemma coupled_closing E F f s q :
  agree E F (steps s) (steps (final (update_debug_status E f) s)) ->
  final (update_debug_status F f) (rx q s) = rx q (final (update_debug_status E f) s).
Proof. intros Hag. exact (f_equal snd (coupled_same _ _ _ _ (coupled_update_debug_status E F f) s q Hag)). Qed.

(** A session that leaves the loop has returned what [handle_session_io] does. *)
Lemma session_loop_returns E k n c r cmds d x s :
  session_loop E k (enter_session E n c r cmds d) = (Some x, s) -> handle_session_io E n c r cmds d = (Some x, s).
Proof.
  intros Hk. destruct (handle_session_io_returns E n c r cmds d) as (y & t & Hy). rewrite Hy.
  unfold handle_session_io in Hy.
  apply (session_loop_more _ _ (k + session_fuel r)) in Hk; [|lia].
  apply (session_loop_more _ _ (k + session_fuel r)) in Hy; [|lia]. congruence.
Qed.
End Session.
