(* ===== verification/IpcForward.v ===== *)
(** * IpcForward: the commands of a session arrive

    The converse of [IpcCommands]: in a turn that starts after the handshake, on
    a transport that takes the frames, every command the session is holding is
    announced by a [switch_scene] frame, in order, and nothing later in the turn
    takes a written frame back. *)

From S2P Require Import Prelude Effects RustStd Float Model Aegis Ipc IpcWire IpcSession IpcSessionFacts IpcProtocol IpcCoupling.

#[local] Open Scope Z_scope.

Section Forward.
Context {Value : Type} `{!WireCodec (Envelope EvtPayload) (Envelope Value)} `{!PayloadCodec Value}.
Context (E : Env).

(** ** Written frames stay, and each has its bytes *)

Definition encoded (m : Envelope EvtPayload) : Prop := is_ok (write_frame m) = true.
Definition extends (s s' : State) : Prop := exists ms, out s' = out s ++ ms /\ Forall encoded ms.

#[global] Instance extends_preorder : PreOrder extends.
Proof.
  unfold extends. split; [intros s; exists []; by rewrite app_nil_r|].
  intros s1 s2 s3 (l & -> & Hl) (l' & -> & Hl'). exists (l ++ l'). rewrite app_assoc. split; [done | by apply Forall_app].
Qed.

Lemma extends_prefix s s' : extends s s' -> out s `prefix_of` out s'.
Proof. intros (ms & -> & _). by apply prefix_app_r. Qed.

Lemma extends_same s s' : out s' = out s -> extends s s'.
Proof. intros H. exists []. by rewrite H, app_nil_r. Qed.

(** Execute: in every final state the initial frames are there. *)
Ltac at_end :=
  intros s; lazymatch goal with |- extends s (final ?m s) => change (wp m (fun _ s' => extends s s') s) end.
Ltac written :=
  lazymatch goal with
  | |- extends ?s ?s' =>
      first [ apply extends_same; reflexivity
            | eexists [_]; split; [reflexivity | by repeat constructor]
            | eexists [_; _]; split; [cbn; rewrite <- app_assoc; reflexivity | by repeat constructor] ]
  end.
Ltac extended := at_end; session_steps; written.

Lemma extends_push_status_snapshot pr : advances extends (push_status_snapshot E pr).
Proof.
  at_end. apply wp_push_status_snapshot; intros; written.
Qed.

Lemma extends_expire_one i : advances extends (expire_one E i).
Proof. unfold expire_one. extended. Qed.

Lemma extends_with_payload {T} `{!FromValue Value T} m (f : T -> eff State Exit unit) :
  (forall p, advances extends (f p)) -> advances extends (with_payload E m f).
Proof. intros Hf. unfold with_payload, emit_protocol_error_for_payload. destruct (decode_payload m); [apply Hf | extended]. Qed.

Lemma extends_dispatch m : advances extends (dispatch E m).
Proof.
  unfold dispatch. destruct (negb (v m =? IPC_PROTOCOL_VERSION)); [extended|].
  repeat match goal with
    | |- advances _ (if ?b then _ else _) => destruct b; [apply extends_with_payload; intros p |]
    end;
  unfold on_hello, on_ping, on_request_status, on_set_mode_request, on_set_setting_request, on_scene_switch_result,
    on_obs_shutdown_notice, on_unknown; try apply extends_push_status_snapshot; extended.
Qed.

Lemma extends_after_drain : advances extends (after_drain E).
Proof.
  unfold after_drain. apply advances_bind; [exact _ | | intros _].
  { unfold expire_pending. apply advances_bind; [exact _ | extended | intros m]. case_bool_decide; [extended|].
    apply advances_bind; [exact _ | extended | intros t]. apply advances_bind; [exact _ | extended | intros n].
    apply advances_for_each; [exact _ | apply extends_expire_one]. }
  apply advances_bind; [exact _ | unfold periodic_status; extended | intros _].
  apply advances_bind; [exact _ | unfold check_heartbeat; extended | intros _].
  apply advances_bind; [exact _ | | intros [m|]; [apply extends_dispatch | extended]].
  at_end. apply wp_bind, wp_poll_read. destruct (read_frame (inbox s)) as [[[frame|err]|] r].
  - apply wp_ret. written.
  - case_bool_decide; session_steps; written.
  - apply wp_ret. written.
Qed.

Lemma extends_handle_command c : advances extends (handle_command E c).
Proof. destruct c. unfold handle_command. extended. Qed.

Lemma extends_forward_commands : advances extends (forward_commands E).
Proof.
  unfold forward_commands. apply advances_bind; [exact _ | extended | intros cmds].
  induction cmds as [|[c|] cmds IH]; cbn [drain_commands]; [extended | | extended].
  apply advances_bind; [exact _ | extended | intros _]. apply advances_bind; [exact _ | extended | intros h].
  apply advances_bind; [exact _ | destruct h; [apply extends_handle_command | extended] | intros _; apply IH].
Qed.

Lemma extends_iteration : advances extends (iteration E).
Proof.
  change (iteration E) with (forward_commands E ≫= fun _ => after_drain (Value:=Value) E).
  apply advances_bind; [exact _ | apply extends_forward_commands | intros _; apply extends_after_drain].
Qed.

Lemma extends_session_loop fuel : forall s, extends s (session_loop E fuel s).2.
Proof.
  induction fuel as [|fuel IH]; intros s; cbn; [reflexivity|].
  pose proof (extends_iteration s) as Hs. unfold final in Hs. destruct (iteration E s) as [[[]|x] s1]; cbn in *; [|done].
  transitivity s1; [exact Hs | apply IH].
Qed.

(** What a session has written has gone out as bytes. *)
Lemma session_encoded n t r cmds d : Forall encoded (out (handle_session_io E n t r cmds d).2).
Proof.
  unfold handle_session_io. destruct (extends_session_loop (session_fuel r) (enter_session E n t r cmds d)) as (ms & -> & Hms).
  exact Hms.
Qed.

(** ** Commands are announced *)

(** A frame announces a command. *)
Definition announced_by (m : Envelope EvtPayload) (c : CoreIpcCommand) : Prop :=
  exists sp, switch_scene_of m = Some sp /\ command_of sp = c.

(** The frame the session builds for a command at effect [n]: the two
    identifiers and the time it draws are those of its environment. *)
Definition switch_frame (n : nat) (c : CoreIpcCommand) : Envelope EvtPayload :=
  let '(SwitchScene sc re ms) := c in
  mkEnvelope IPC_PROTOCOL_VERSION (env_uuid E (2 + n)) (env_unix_ms E (3 + n)) "switch_scene" Critical
    (EvtSwitchScene {| request_id := env_uuid E n; scene_name := sc; reason := re; deadline_ms := ms |}).

(** The transport takes every frame; that frame can be encoded. *)
Context (working : forall n, env_write E n = None).
Definition fits_frame (c : CoreIpcCommand) : Prop := forall n, is_ok (write_frame (switch_frame n c)) = true.

Lemma wp_send_written m (Q : result Exit unit -> State -> Prop) s :
  is_ok (write_frame m) = true -> (forall n, Q (Ok tt) (push_out m (with_steps n s))) -> wp (send E m) Q s.
Proof.
  intros Hm HQ. unfold send. destruct (write_frame m); [|done].
  unfold wp, outcome, final, mbind, eff_bind, tick, modify. cbn. rewrite working. apply HQ.
Qed.

Lemma handle_command_announces c s :
  fits_frame c -> wp (handle_command E c) (fun x s' => x = Ok tt /\ handshake_complete s' = handshake_complete s /\
    core_cmd_rx s' = core_cmd_rx s /\ exists m, out s' = out s ++ [m] /\ announced_by m c) s.
Proof.
  intros Hc. destruct c as [sc re ms]. unfold handle_command.
  do 3 (eapply wp_bind, wp_run; [reflexivity|]; cbn beta iota zeta).
  match goal with |- wp (send _ ?m ≫= _) _ _ => assert (announced_by m (SwitchScene sc re ms)) as Hm by (by eexists) end.
  apply wp_bind, wp_send_written; [exact (Hc (steps s))|]. intros ?. session_steps.
  split_and!; [reflexivity.. | eexists; split; [reflexivity | exact Hm]].
Qed.

(** A drain after the handshake, when nothing has been missed. *)
Lemma drain_announces cmds : forall s,
  handshake_complete s = true -> core_cmd_rx s = map Some cmds -> Forall fits_frame cmds ->
  wp (drain_commands E (map Some cmds)) (fun x s' => x = Ok tt /\ core_cmd_rx s' = [] /\
    exists ms, out s' = out s ++ ms /\ Forall2 announced_by ms cmds) s.
Proof.
  induction cmds as [|c cmds IH]; intros s Hh Hq Hf; cbn [map drain_commands] in *.
  - apply wp_ret. split_and!; [done | done |]. exists []. by rewrite app_nil_r.
  - apply Forall_cons in Hf as [Hc Hf]. apply wp_bind, wp_modify, wp_bind, wp_gets. cbn [handshake_complete with_core_cmd_rx].
    rewrite Hh. apply wp_bind. refine (wp_mono _ _ _ _ _ (handle_command_announces c _ Hc)).
    intros x s1 (-> & Hh1 & Hq1 & m & Ho1 & Hm). cbn [out core_cmd_rx handshake_complete with_core_cmd_rx] in *.
    refine (wp_mono _ _ _ _ _ (IH s1 _ Hq1 Hf)); [|congruence].
    intros x s2 (-> & Hq2 & ms & Ho2 & Hms). split_and!; [done | done |]. exists (m :: ms).
    rewrite Ho2, Ho1, <- app_assoc. split; [done | by constructor].
Qed.

(** The turn as a whole. *)
Lemma iteration_announces cmds s :
  handshake_complete s = true -> core_cmd_rx s = map Some cmds -> Forall fits_frame cmds ->
  wp (iteration E) (fun _ s' => exists ms, out s ++ ms `prefix_of` out s' /\ Forall2 announced_by ms cmds) s.
Proof.
  intros Hh Hq Hf. change (iteration E) with (forward_commands E ≫= fun _ => after_drain (Value:=Value) E).
  unfold forward_commands. apply wp_bind, wp_bind, wp_gets. rewrite Hq.
  refine (wp_mono _ _ _ _ _ (drain_announces cmds s Hh Hq Hf)). intros x s1 (-> & _ & ms & Ho & Hms).
  exists ms. rewrite <- Ho. split; [apply extends_prefix, extends_after_drain | exact Hms].
Qed.
End Forward.
