(* ===== verification/IpcCommands.v ===== *)
(** * IpcCommands: what a session makes of the core's commands

    An invariant of the session loop over the commands it may be given: every
    scene switch it announces is one of them, and every pending switch is due at
    most the command's deadline after a time the session has already reached.
    It holds at every turn, whatever environment the turn runs in, which is what
    the interleaved program ([Runtime]) needs. *)

From S2P Require Import Prelude Effects RustStd Channels Float Model Aegis Ipc IpcWire IpcSession IpcSessionFacts IpcProtocol.

#[local] Open Scope Z_scope.

Section Conveys.
Context (allowed : CoreIpcCommand -> Prop).

(** A pending entry that a command explains by the time [t]. *)
Definition explained_entry (t : Z) (p : PendingSwitchScene) : Prop :=
  exists why ms announced, allowed (SwitchScene (pending_scene_name p) why ms) /\
    deadline_at p = announced + from_millis ms /\ announced <= t.

Record conveys (q : list (option CoreIpcCommand)) (o : list (Envelope EvtPayload))
    (pending : gmap string PendingSwitchScene) (t : Z) : Prop := {
  conveys_queue : forall c, Some c ∈ q -> allowed c;
  conveys_out : forall m sp, m ∈ o -> switch_scene_of m = Some sp -> allowed (command_of sp);
  conveys_due : forall i p, pending !! i = Some p -> explained_entry t p;
}.

Definition Conveys (s : State) : Prop := conveys (core_cmd_rx s) (out s) (pending_switches s) (clock s).

Lemma conveys_mono q o pending t t' : conveys q o pending t -> t <= t' -> conveys q o pending t'.
Proof.
  intros [Hq Ho Hp] Ht. constructor; [done..|]. intros i p Hi.
  destruct (Hp i p Hi) as (why & ms & a & Ha & Hd & Hle). exists why, ms, a. split_and!; [done.. | lia].
Qed.

Lemma conveys_write q o pending t m :
  conveys q o pending t -> (forall sp, switch_scene_of m = Some sp -> allowed (command_of sp)) ->
  conveys q (o ++ [m]) pending t.
Proof.
  intros [Hq Ho Hp] Hm. constructor; [done | | done].
  intros m' sp [?| ->%list_elem_of_singleton]%elem_of_app; [by apply Ho | apply Hm].
Qed.

Lemma conveys_delete q o pending t i : conveys q o pending t -> conveys q o (delete i pending) t.
Proof. intros [Hq Ho Hp]. constructor; [done..|]. intros j p [_ Hj]%lookup_delete_Some. by apply (Hp j). Qed.

Lemma conveys_insert q o pending t i p :
  conveys q o pending t -> explained_entry t p -> conveys q o (<[i := p]> pending) t.
Proof. intros [Hq Ho Hp] He. constructor; [done..|]. by intros j p' [[_ <-]|[_ Hj%Hp]]%lookup_insert_Some. Qed.

Lemma conveys_queued q q' o pending t :
  conveys q o pending t -> (forall c, Some c ∈ q' -> Some c ∈ q) -> conveys q' o pending t.
Proof. intros [Hq Ho Hp] Hsub. constructor; auto. Qed.

(** Close a goal whose state is the one of [L] after frames that announce
    nothing, at a later time. *)
Ltac conveys_frames L :=
  first [ exact L | refine (conveys_write _ _ _ _ _ _ _); [conveys_frames L | by intros ?] ].
Ltac later_clock :=
  first [apply Z.le_refl | assumption | etransitivity; [|eassumption]; later_clock].
Ltac conveyed L :=
  lazymatch goal with
  | |- Conveys _ => unfold Conveys; eapply conveys_mono; [conveys_frames L | later_clock]
  end.
Ltac conveys_step := apply preserves_wp; intros s L; session_steps; try conveyed L.

Context {Value : Type} `{!WireCodec (Envelope EvtPayload) (Envelope Value)} `{!PayloadCodec Value}.
Context (E : Env).

Lemma conveys_push_status_snapshot pr : preserves Conveys (push_status_snapshot E pr).
Proof. apply preserves_wp. intros s L. apply wp_push_status_snapshot; intros; conveyed L. Qed.

Lemma conveys_handle_command cmd s : Conveys s -> allowed cmd -> Conveys (final (handle_command E cmd) s).
Proof.
  intros L Ha. change (wp (handle_command E cmd) (fun _ s' => Conveys s') s).
  destruct cmd as [sc re dl]. unfold handle_command. session_steps; [conveyed L|].
  match goal with |- context [push_out ?m] => set (evt := m) end.
  assert (Conveys (push_out evt s)) as L' by (apply (conveys_write _ _ _ _ _ L); by intros sp [= <-]).
  match goal with H : _ <= ?t |- _ => assert (clock s <= t) as Hle by exact H end.
  refine (conveys_insert _ _ _ _ _ _ (conveys_mono _ _ _ _ _ L' Hle) _).
  eexists re, dl, _. split; [exact Ha|]. split; [reflexivity | apply Z.le_refl].
Qed.

Lemma conveys_drain_commands cmds : forall s,
  Conveys s -> core_cmd_rx s = cmds -> Conveys (final (drain_commands E cmds) s).
Proof.
  induction cmds as [|[cmd|] cmds IH]; intros s L Hq; cbn [drain_commands]; [exact L | |].
  - assert (allowed cmd) as Ha by (apply (conveys_queue _ _ _ _ L); rewrite Hq; left).
    set (s1 := with_core_cmd_rx cmds s).
    assert (Conveys s1) as L1.
    { apply (conveys_queued _ _ _ _ _ L). intros c Hc. rewrite Hq. by right. }
    change (wp (modify (with_core_cmd_rx cmds) ;; (handshake ← gets handshake_complete;
      (if (handshake : bool) then handle_command E cmd else mret tt) ;; drain_commands E cmds)) (fun _ s' => Conveys s') s).
    apply wp_bind, wp_modify, wp_bind, wp_gets, wp_bind. fold s1.
    destruct (handshake_complete s1).
    + pose proof (conveys_handle_command cmd s1 L1 Ha) as L2.
      assert (core_cmd_rx (final (handle_command E cmd) s1) = cmds) as Hq2.
      { change (wp (handle_command E cmd) (fun _ s' => core_cmd_rx s' = cmds) s1).
        destruct cmd. unfold handle_command. session_steps; done. }
      unfold wp. destruct (outcome (handle_command E cmd) s1); [by apply IH | done].
    + apply wp_ret. by apply IH.
  - apply (conveys_queued _ _ _ _ _ L). intros c Hc. rewrite Hq. by right.
Qed.

Lemma conveys_expire_one i : preserves Conveys (expire_one E i).
Proof.
  apply preserves_wp. intros s L. pose proof (conveys_delete _ _ _ _ i L) as L'. unfold expire_one.
  session_steps. all: first [conveyed L | unfold Conveys; eapply conveys_mono; [conveys_frames L' | later_clock]].
Qed.

Lemma conveys_with_payload {T} `{!FromValue Value T} incoming (handle : T -> eff State Exit unit) :
  (forall p, preserves Conveys (handle p)) -> preserves Conveys (with_payload E incoming handle).
Proof.
  intros H. unfold with_payload. destruct (decode_payload incoming); [apply H|].
  unfold emit_protocol_error_for_payload. conveys_step.
Qed.

Lemma conveys_on_scene_switch_result r : preserves Conveys (on_scene_switch_result E r).
Proof.
  apply preserves_wp. intros s L. pose proof (conveys_delete _ _ _ _ (result_request_id r) L) as L'.
  unfold on_scene_switch_result. session_steps; exact L'.
Qed.

Lemma conveys_dispatch incoming : preserves Conveys (dispatch E incoming).
Proof.
  unfold dispatch. destruct (negb (v incoming =? IPC_PROTOCOL_VERSION)); [conveys_step|].
  repeat match goal with
    | |- preserves _ (if ?b then _ else _) => destruct b; [apply conveys_with_payload; intros p |]
    end.
  - unfold on_hello. conveys_step.
  - unfold on_ping. conveys_step.
  - apply conveys_push_status_snapshot.
  - unfold on_set_mode_request. conveys_step.
  - unfold on_set_setting_request. conveys_step.
  - apply conveys_on_scene_switch_result.
  - unfold on_obs_shutdown_notice. conveys_step.
  - unfold on_unknown. conveys_step.
Qed.

Lemma conveys_iteration : preserves Conveys (iteration E).
Proof.
  apply preserves_bind; [|intros _].
  { intros s L. by apply conveys_drain_commands. }
  apply preserves_bind; [|intros _].
  { unfold expire_pending. apply preserves_bind; [apply preserves_gets | intros m]. case_bool_decide; [apply preserves_ret|].
    apply preserves_bind; [conveys_step | intros t]. apply preserves_bind; [conveys_step | intros n].
    apply preserves_for_each, conveys_expire_one. }
  apply preserves_bind; [unfold periodic_status; conveys_step | intros _].
  apply preserves_bind; [unfold check_heartbeat; conveys_step | intros _].
  apply preserves_bind; [|intros [m|]; [|apply preserves_ret]].
  - apply preserves_wp. intros s L. apply wp_bind, wp_poll_read.
    destruct (read_frame (inbox s)) as [[[frame|err]|] r]; [exact L | |].
    + case_bool_decide; [|exact L]. session_steps; conveyed L.
    + refine (conveys_mono _ _ _ _ _ L _). change (clock s <= clock s + READ_POLL_TIMEOUT).
      assert (0 <= READ_POLL_TIMEOUT) by by vm_compute. lia.
  - apply conveys_dispatch.
Qed.
End Conveys.

(** More may be allowed later, more may be queued. *)
Lemma conveys_allowed (P Q : CoreIpcCommand -> Prop) s : (forall c, P c -> Q c) -> Conveys P s -> Conveys Q s.
Proof.
  intros Hpq [Hq Ho Hp]. constructor; [eauto..|].
  intros i p (why & ms & a & Ha & Hd)%Hp. exists why, ms, a. auto.
Qed.

Lemma conveys_deliver (P : CoreIpcCommand -> Prop) n cmds s :
  Conveys P s -> (forall c, c ∈ cmds -> P c) ->
  Conveys P (with_core_cmd_rx (fold_left (fun q c => Broadcast.deliver n c q) cmds (core_cmd_rx s)) s).
Proof.
  intros [Hq Ho Hp] Hc. constructor; [|done..]. cbn [core_cmd_rx with_core_cmd_rx]. clear Ho Hp.
  revert Hq. generalize (core_cmd_rx s) as q. induction cmds as [|c0 cmds IH]; intros q Hq c; cbn [fold_left]; [apply Hq|].
  apply IH; [intros c' Hc'; apply Hc; by right|]. intros c' [H| ->]%Broadcast.elem_of_deliver; [by apply Hq | apply Hc; left].
Qed.

Lemma conveys_enter (P : CoreIpcCommand -> Prop) E n c r d : Conveys P (enter_session E n c r [] d).
Proof. constructor; cbn; [by intros ? ?%elem_of_nil | by intros ? ? ?%elem_of_nil | by intros i p [=]]. Qed.
