(* ===== verification/IpcServer.v ===== *)
(** * IpcServer: the pipe server around the session ([spawn_server] and
    [run_named_pipe_server] of [src/ipc/mod.rs])

    Every turn of the server builds a security descriptor, creates the two pipes
    with it, waits until a client has connected to both, and runs one session.
    The operating system's part of a turn is a [Connection]: what each call
    answers, the bytes the client will send, and what its subscription to the
    core commands yields.  A failed call ends the server; a session never does. *)

From S2P Require Import Prelude Effects RustStd Float Model Aegis Ipc IpcWire IpcSession IpcSessionFacts.

#[local] Open Scope Z_scope.

(** ** Pipes *)

(** The fields of a Windows [SECURITY_DESCRIPTOR] that the server sets. *)
Record SecurityDescriptor := {
  revision : Z;
  dacl_present : bool;
  dacl : option (list string); (* None is the NULL list *)
  dacl_defaulted : bool;
}.

(** [ServerOptions], and the name and descriptor the pipe is created with. *)
Record PipeOptions := {
  pipe_name : string;
  access_inbound : bool;
  access_outbound : bool;
  security : SecurityDescriptor;
}.

(** One turn, as the operating system answers it. *)
Record Connection := {
  init_descriptor : result string unit; (* InitializeSecurityDescriptor *)
  set_dacl : result string unit; (* SetSecurityDescriptorDacl *)
  create_pipe : PipeOptions -> result IoError unit; (* create_with_security_attributes_raw *)
  connect_cmd : result IoError unit; (* NamedPipeServer::connect *)
  connect_evt : result IoError unit;
  evt_first : bool; (* which of the two is done first *)
  client : Reader * list (option CoreIpcCommand);
}.

Definition make_permissive_pipe_security_descriptor (c : Connection) : result IoError SecurityDescriptor :=
  map_err (fun err => {| kind := OtherKind; msg := "InitializeSecurityDescriptor failed: " +:+ err |})
    (init_descriptor c) ;;
  map_err (fun err => {| kind := OtherKind; msg := "SetSecurityDescriptorDacl failed: " +:+ err |})
    (set_dacl c) ;;
  Ok {| revision := 1; dacl_present := true; dacl := None; dacl_defaulted := false |}.

Definition cmd_pipe_options (sd : SecurityDescriptor) : PipeOptions :=
  {| pipe_name := CMD_PIPE_NAME; access_inbound := true; access_outbound := false; security := sd |}.
Definition evt_pipe_options (sd : SecurityDescriptor) : PipeOptions :=
  {| pipe_name := EVT_PIPE_NAME; access_inbound := false; access_outbound := true; security := sd |}.

Definition create_pipes (c : Connection) : result IoError unit :=
  sd ← make_permissive_pipe_security_descriptor c;
  create_pipe c (cmd_pipe_options sd) ;;
  create_pipe c (evt_pipe_options sd).

(** [try_join!(connect_pipe(cmd_pipe), connect_pipe(evt_pipe))]: the first error
    that occurs, or both pipes. *)
Definition connect_pipes (c : Connection) : result IoError unit :=
  if evt_first c then connect_evt c ;; connect_cmd c else connect_cmd c ;; connect_evt c.

Definition accept (c : Connection) : result IoError (Reader * list (option CoreIpcCommand)) :=
  create_pipes c ;; connect_pipes c ;; Ok (client c).

(** ** The server *)

(** How a client's session went, as the server logs it. *)
Inductive SessionLog := Disconnected | SessionError (e : IoError).

Definition log_session (session_result : result IoError unit) : SessionLog :=
  match session_result with
  | Ok _ => Disconnected
  | Err err => if bool_decide (kind err = UnexpectedEof) then Disconnected else SessionError err
  end.

Section Server.
Context {Value : Type} `{!WireCodec (Envelope EvtPayload) (Envelope Value)} `{!PayloadCodec Value}.
Context (E : Env).

(** The loop body once both pipes are connected; [None] would be a session that
    does not return. *)
Definition serve_client (cl : Reader * list (option CoreIpcCommand)) (s : State) : option SessionLog * State :=
  let s := final (update_debug_status E (set_session_connected true)) s in
  let (session_result, s) := handle_session_io E (steps s) (clock s) cl.1 cl.2 (debug_status s) in
  (log_session <$> session_result,
   final (update_debug_status E (fun d => set_pending_switch_count 0 (set_session_connected false d))) s).

(** The [loop], over the turns the operating system grants: the log of the
    sessions, the error that ended the server ([None] while it goes on), and the
    state. *)
Fixpoint run_named_pipe_server (turns : list Connection) (s : State) :
    list (option SessionLog) * option IoError * State :=
  match turns with
  | [] => ([], None, s)
  | c :: rest =>
      match accept c with
      | Err e => ([], Some e, s)
      | Ok cl =>
          let (x, s) := serve_client cl s in
          let '(xs, e, s) := run_named_pipe_server rest s in (x :: xs, e, s)
      end
  end.

(** [spawn_server] on Windows: the task, whose error is logged. *)
Definition spawn_server (turns : list Connection) (s : State) : list (option SessionLog) * option string * State :=
  let '(xs, e, s) := run_named_pipe_server turns s in
  (xs, (fun err => "ipc server stopped" +:+ ": " +:+ msg err) <$> e, s).

(** [spawn_server] elsewhere: no server, only the debug status. *)
Definition spawn_server_stub : eff State Exit unit := update_debug_status E (set_session_connected false).

(** ** Helper lemmas *)

Lemma serve_client_returns cl s :
  exists x s', serve_client cl s = (Some x, s') /\
    session_connected (debug_status s') = false /\ pending_switch_count (debug_status s') = 0.
Proof.
  unfold serve_client. set (s0 := final _ _).
  destruct (handle_session_io_returns E (steps s0) (clock s0) cl.1 cl.2 (debug_status s0)) as (x & s1 & ->).
  by eexists _, _.
Qed.

(** The turns before the first that the operating system refuses. *)
Fixpoint granted (turns : list Connection) : list Connection :=
  match turns with
  | c :: rest => if is_ok (accept c) then c :: granted rest else []
  | [] => []
  end.

Definition first_refusal (turns : list Connection) : option IoError :=
  head (omap (fun c => match accept c with Err e => Some e | Ok _ => None end) turns).

(** ** Properties *)

(** C33: the pipe server outlives its clients, and only them.  Every turn the
    operating system grants runs one session, which returns; after each of them,
    however it ended, the published status says that no session is connected and
    no switch is pending, which is what the ledger of the next session starts
    from.  The first call that is refused (descriptor, pipe or connection) ends
    the server with that error, and later turns are never served. *)
Theorem pipe_server_serves_all turns s :
  let '(xs, e, s') := run_named_pipe_server turns s in
  length xs = length (granted turns) /\ Forall (fun x => is_Some x) xs /\ e = first_refusal turns /\
  (granted turns <> [] -> session_connected (debug_status s') = false /\
                          pending_switch_count (debug_status s') = 0).
Proof.
  revert s. induction turns as [|c turns IH]; intros s; cbn [run_named_pipe_server granted]; [done|].
  unfold first_refusal. cbn [omap list_omap]. destruct (accept c) as [cl|e] eqn:Ha; cbn [is_ok]; [|done].
  destruct (serve_client_returns cl s) as (x & s1 & -> & Hc & Hp). specialize (IH s1).
  destruct (run_named_pipe_server turns s1) as [[xs e] s2] eqn:Hr. destruct IH as (Hl & Hs & He & Hd).
  split_and!; [cbn; lia | by constructor; [eexists|] | done |]. intros _.
  destruct (decide (granted turns = [])) as [Hg|Hg]; [|by apply Hd].
  destruct turns as [|c' turns]; cbn in Hr, Hg; [by simplify_eq|].
  destruct (accept c'); [done|]. by simplify_eq.
Qed.

(** The pipes have no access list.  Whenever a client is accepted, both pipes
    were created one-way, with a descriptor whose access list is present and
    NULL, which grants access to everyone, whatever the operating system
    answers.  (The protocol document restricts the pipes to the current user.) *)
Theorem pipes_are_open_to_all c cl :
  accept c = Ok cl ->
  forall o, o ∈ [cmd_pipe_options; evt_pipe_options] ->
  exists sd, create_pipe c (o sd) = Ok tt /\ dacl_present sd = true /\ dacl sd = None /\
    access_inbound (o sd) <> access_outbound (o sd).
Proof.
  unfold accept, create_pipes. intros Ha o Ho.
  destruct (make_permissive_pipe_security_descriptor c) as [sd|] eqn:Hsd; [|done]. cbn in Ha.
  assert (dacl_present sd = true /\ dacl sd = None) as [Hp Hd].
  { unfold make_permissive_pipe_security_descriptor in Hsd.
    destruct (init_descriptor c), (set_dacl c); cbn in Hsd; by simplify_eq. }
  destruct (create_pipe c (cmd_pipe_options sd)) as [[]|] eqn:Hcmd; [|done].
  destruct (create_pipe c (evt_pipe_options sd)) as [[]|] eqn:Hevt; [|done].
  exists sd. rewrite !elem_of_cons, elem_of_nil in Ho. destruct Ho as [->|[->|[]]]; by split_and!.
Qed.
End Server.

(** ** Witnesses *)

(** A client that connects and closes its pipe at once. *)
Definition demo_connection : Connection := {|
  init_descriptor := Ok tt; set_dacl := Ok tt; create_pipe := fun _ => Ok tt; connect_cmd := Ok tt;
  connect_evt := Ok tt; evt_first := true; client := ([], []) |}.

Lemma pipes_are_open_to_all_witness :
  exists sd, create_pipe demo_connection (cmd_pipe_options sd) = Ok tt /\ dacl_present sd = true /\
    dacl sd = None /\ access_inbound (cmd_pipe_options sd) <> access_outbound (cmd_pipe_options sd).
Proof. apply (pipes_are_open_to_all demo_connection ([], []) eq_refl cmd_pipe_options). apply list_elem_of_here. Defined.
