(* ===== verification/DevClient.v ===== *)
(** * DevClient: the development client ([src/bin/ipc_dev_client.rs])

    A stand-in for the OBS plugin: it connects to the two pipes, says hello, asks
    for the status, pings once a second and acknowledges every scene switch.
    Three tasks share an unbounded queue of messages: [run] itself, the
    heartbeat, and the writer that moves the queue to the command pipe.  The
    program is a step function over labels, one per task; the queue is any
    implementation of [Mpsc].  The file declares its own copies of the protocol's
    types, as the program does. *)

From Stdlib Require Import Strings.Byte.
From S2P Require Import Prelude RustStd Channels.
From S2P Require IpcWire.

#[local] Open Scope Z_scope.

(** ** Protocol *)

Definition IPC_PROTOCOL_VERSION : Z := 1.
Definition MAX_FRAME_SIZE : Z := 64 * 1024.
Definition CMD_PIPE_NAME : string := "\\.\pipe\aegis_cmd_v1".
Definition EVT_PIPE_NAME : string := "\\.\pipe\aegis_evt_v1".

Inductive Priority := Critical | High | Normal | Low.

Record Envelope (T : Type) := mkEnvelope {
  v : Z; (* u8 *)
  id : string;
  ts_unix_ms : Z; (* u64 *)
  message_type : string;
  priority : Priority;
  payload : T;
}.
Arguments mkEnvelope {T} _ _ _ _ _ _.
Arguments v {T} _.
Arguments id {T} _.
Arguments ts_unix_ms {T} _.
Arguments message_type {T} _.
Arguments priority {T} _.
Arguments payload {T} _.

Record HelloPayload := {
  plugin_version : string;
  protocol_version : Z; (* u8 *)
  obs_pid : Z; (* u32 *)
  capabilities : list string;
}.

Record PingPayload := { nonce : string }.

Record RequestStatusPayload := mkRequestStatus { }.

Record SceneSwitchResultPayload := {
  result_request_id : string;
  ok : bool;
  error : option string;
}.

Record SwitchScenePayload := {
  request_id : string;
  scene_name : string;
  reason : string;
  deadline_ms : Z; (* u64 *)
}.

(** [serde_json] at these types. *)
Class ClientCodec (Value : Type) := {
  hello_to_value : HelloPayload -> result string Value;
  ping_to_value : PingPayload -> result string Value;
  request_status_to_value : RequestStatusPayload -> result string Value;
  result_to_value : SceneSwitchResultPayload -> result string Value;
  switch_scene_from_value : Value -> result string SwitchScenePayload;
  value_to_string : Value -> result string string;
  value_default : Value; (* null *)
}.

(** The process: identifiers drawn, the clock, the process id. *)
Record Env := {
  env_uuid : nat -> string;
  env_unix_ms : nat -> Z;
  env_process_id : Z;
}.

(** [make_envelope] with the [n]-th identifier. *)
Definition make_envelope {T} (E : Env) (n : nat) (ty : string) (pr : Priority) (p : T) : Envelope T :=
  mkEnvelope IPC_PROTOCOL_VERSION (env_uuid E n) (env_unix_ms E n) ty pr p.

(** The envelope rebuilt around the JSON of its payload. *)
Definition with_value {T Value} (m : Envelope T) (x : Value) : Envelope Value :=
  mkEnvelope (v m) (id m) (ts_unix_ms m) (message_type m) (priority m) x.

(** ** Frames *)

(** [read_exact]: without a timer, an idle pipe is waited for. *)
Fixpoint read_exact (n : nat) (acc : IpcWire.bytes) (r : IpcWire.Reader) :
    result IpcWire.IoError IpcWire.bytes * IpcWire.Reader :=
  match n with
  | O => (Ok acc, r)
  | S _ =>
      match r with
      | [] => (Err {| IpcWire.kind := IpcWire.UnexpectedEof; IpcWire.msg := "unexpected end of file" |}, [])
      | IpcWire.Idle :: r' => read_exact n acc r'
      | IpcWire.Broken e :: r' => (Err e, r')
      | IpcWire.Chunk bs :: r' =>
          if (n <? length bs)%nat then (Ok (acc ++ take n bs), IpcWire.Chunk (drop n bs) :: r')
          else read_exact (n - length bs) (acc ++ bs) r'
      end
  end.

Section Client.
Context {Value : Type} {codec : ClientCodec Value} {wire : IpcWire.WireCodec (Envelope Value) (Envelope Value)}.

Definition invalid_data (text : string) : IpcWire.IoError :=
  {| IpcWire.kind := IpcWire.InvalidData; IpcWire.msg := text |}.

Definition read_frame (r : IpcWire.Reader) : result IpcWire.IoError (Envelope Value) * IpcWire.Reader :=
  match read_exact 4 [] r with
  | (Err e, r) => (Err e, r)
  | (Ok header, r) =>
      let len := IpcWire.from_u32_le header in
      if MAX_FRAME_SIZE <? len then (Err (invalid_data ("frame too large: " +:+ Str.show len)), r)
      else
        let (buf, r) := read_exact (Z.to_nat len) [] r in
        (b ← buf; map_err invalid_data (IpcWire.from_slice b), r)
  end.

(** The bytes of a frame, or its encoding error. *)
Definition write_frame (m : Envelope Value) : result IpcWire.IoError IpcWire.bytes :=
  buf ← map_err invalid_data (IpcWire.to_vec_named m);
  if MAX_FRAME_SIZE <? Z.of_nat (length buf) then
    Err (invalid_data ("encoded frame too large: " +:+ Str.show (Z.of_nat (length buf))))
  else Ok (IpcWire.u32_le (Z.of_nat (length buf)) ++ buf).

(** ** State *)

(** Where [run] stands. *)
Inductive Phase :=
  | Connecting
  | SayingHello
  | AskingStatus
  | Reading
  | Exited (e : string). (* the error it returned *)

(** The lines printed after the connection. *)
Inductive Line :=
  | SentHello
  | SentRequestStatus
  | ReceivedFrame (m : Envelope Value)
  | SentResult (request_id : string).

Context {Q : Type} {mpsc : Mpsc Q (Envelope Value)}.

Record Client := mkClient {
  phase : Phase;
  evt_read : IpcWire.Reader;
  out : Q; (* out_tx, heartbeat_tx and out_rx *)
  cmd_pipe : list (Envelope Value); (* written, oldest first *)
  writer_running : bool;
  heartbeat_running : bool;
  stdout : list Line;
  draws : nat; (* identifiers drawn *)
}.

(** ** The tasks *)

Context (E : Env) (args : list string).

Definition auto_ack : bool := negb (existsb (String.eqb "--no-auto-ack") args).
Definition request_status : bool := negb (existsb (String.eqb "--no-request-status") args).

Definition hello : HelloPayload := {|
  plugin_version := "ipc-dev-client"; protocol_version := IPC_PROTOCOL_VERSION; obs_pid := env_process_id E;
  capabilities := ["scene_switch"; "dock"; "restart_hint"] |}.

Definition next_phase (p : Phase) (c : Client) : Client :=
  mkClient p (evt_read c) (out c) (cmd_pipe c) (writer_running c) (heartbeat_running c) (stdout c) (draws c).

(** [out_tx.send(m)], then a line on the console.  The writer may take the
    message in between; it neither reads nor writes the console, so its turn
    then is the same as its turn after the line. *)
Definition sent (q : Q) (l : Line) (p : Phase) (c : Client) : Client :=
  mkClient p (evt_read c) q (cmd_pipe c) (writer_running c) (heartbeat_running c) (stdout c ++ [l]) (S (draws c)).

(** [out_tx.send(Envelope { .., payload: serde_json::to_value(payload)? })?]. *)
Definition send_or_exit {T} (m : Envelope T) (value : result string Value) (l : Line) (p : Phase) (c : Client) : Client :=
  match (x ← value; send_msg (with_value m x) (out c)) with
  | Ok q => sent q l p c
  | Err e => next_phase (Exited e) c
  end.

(** The hello was built before the tasks were spawned. *)
Definition say_hello (c : Client) : Client :=
  send_or_exit (make_envelope E 0 "hello" High hello) (hello_to_value hello) SentHello
    (if request_status then AskingStatus else Reading) c.

Definition ask_status (c : Client) : Client :=
  send_or_exit (make_envelope E (draws c) "request_status" High mkRequestStatus)
    (request_status_to_value mkRequestStatus) SentRequestStatus Reading c.

(** The acknowledgement; a closed queue is ignored. *)
Definition acknowledge (p : SwitchScenePayload) (c : Client) : Client :=
  let result := {| result_request_id := request_id p; ok := true; error := None |} in
  match result_to_value result with
  | Err e => next_phase (Exited e) c
  | Ok x =>
      match send_msg (with_value (make_envelope E (draws c) "scene_switch_result" High result) x) (out c) with
      | Ok q => sent q (SentResult (request_id p)) Reading c
      | Err _ => mkClient (phase c) (evt_read c) (out c) (cmd_pipe c) (writer_running c) (heartbeat_running c)
                   (stdout c) (S (draws c))
      end
  end.

(** A frame that was read: print it, and answer a scene switch. *)
Definition on_frame (m : Envelope Value) (c : Client) : Client :=
  match value_to_string (payload m) with
  | Err e => next_phase (Exited e) c
  | Ok _ =>
      let c := mkClient (phase c) (evt_read c) (out c) (cmd_pipe c) (writer_running c) (heartbeat_running c)
                 (stdout c ++ [ReceivedFrame m]) (draws c) in
      if String.eqb (message_type m) "switch_scene" then
        match switch_scene_from_value (payload m) with
        | Err e => next_phase (Exited e) c
        | Ok p => if auto_ack then acknowledge p c else c
        end
      else c
  end.

(** One turn of [run]'s final loop. *)
Definition read_and_act (c : Client) : Client :=
  let (frame, r) := read_frame (evt_read c) in
  let c := mkClient (phase c) r (out c) (cmd_pipe c) (writer_running c) (heartbeat_running c) (stdout c) (draws c) in
  match frame with
  | Err e => next_phase (Exited (IpcWire.msg e)) c
  | Ok m => on_frame m c
  end.

(** The writer ends and drops the receiver. *)
Definition stop_writer (q : Q) (c : Client) : Client :=
  mkClient (phase c) (evt_read c) (drop_receiver q) (cmd_pipe c) false (heartbeat_running c) (stdout c) (draws c).

(** One message from the queue to the pipe, which answers [pipe]. *)
Definition write_next (pipe : result IpcWire.IoError unit) (c : Client) : option Client :=
  match recv_msg (out c) with
  | None => None
  | Some (m, q) =>
      Some (match write_frame m, pipe with
            | Ok _, Ok _ => mkClient (phase c) (evt_read c) q (cmd_pipe c ++ [m]) (writer_running c)
                              (heartbeat_running c) (stdout c) (draws c)
            | _, _ => stop_writer q c
            end)
  end.

Definition heartbeat (c : Client) : Client :=
  let ping := make_envelope E (S (draws c)) "ping" Normal {| nonce := env_uuid E (draws c) |} in
  let ping_value := match ping_to_value (payload ping) with Ok x => x | Err _ => value_default end in
  match send_msg (with_value ping ping_value) (out c) with
  | Ok q => mkClient (phase c) (evt_read c) q (cmd_pipe c) (writer_running c) true (stdout c) (S (S (draws c)))
  | Err _ => mkClient (phase c) (evt_read c) (out c) (cmd_pipe c) (writer_running c) false (stdout c) (S (S (draws c)))
  end.

(** Both pipes opened: the hello is built, with the first identifier, and the
    tasks are spawned. *)
Definition connected (evt : IpcWire.Reader) : Client :=
  mkClient SayingHello evt empty_queue [] true true [] 1.

(** ** Steps *)

Inductive Label :=
  | OpenPipes (cmd evt : option IpcWire.Reader) (* ClientOptions::open of each *)
  | MainTurn
  | WriterTurn (pipe : result IpcWire.IoError unit)
  | HeartbeatTurn.

Definition step (l : Label) (c : Client) : option Client :=
  match l, phase c with
  | OpenPipes (Some _) (Some evt), Connecting => Some (connected evt)
  | OpenPipes _ _, Connecting => Some c (* retried after 250 ms *)
  | OpenPipes _ _, _ | _, Connecting | _, Exited _ => None
  | MainTurn, SayingHello => Some (say_hello c)
  | MainTurn, AskingStatus => Some (ask_status c)
  | MainTurn, Reading => Some (read_and_act c)
  | WriterTurn pipe, _ => if writer_running c then write_next pipe c else None
  | HeartbeatTurn, _ => if heartbeat_running c then Some (heartbeat c) else None
  end.

Fixpoint exec (ls : list Label) (c : Client) : option Client :=
  match ls with
  | [] => Some c
  | l :: ls' => c' ← step l c; exec ls' c'
  end.

Definition start : Client := mkClient Connecting [] empty_queue [] false false [] 0.
End Client.

(** [run] off Windows: a line on the error stream. *)
Definition run_stub : list string * result string unit := (["ipc-dev-client is Windows-only (named pipes)"], Ok tt).
