(* ===== verification/DevClientSpec.v ===== *)
(** * DevClientSpec: what the development client sends

    The client's transcript in every interleaving of its tasks, proved against
    the interface of the queue; what the core's session makes of its messages;
    and the closed loop of a scene switch. *)

From Stdlib Require Import Strings.Byte.
From S2P Require Import Prelude Effects RustStd Channels.
From S2P Require Ipc IpcWire IpcSession IpcSessionFacts IpcProtocol IpcSessionSpec.
From S2P Require Import DevClient.

#[local] Open Scope Z_scope.

Section Transcript.
Context {Value : Type} {codec : ClientCodec Value} {wire : IpcWire.WireCodec (Envelope Value) (Envelope Value)}.
Context {Q : Type} {mpsc : Mpsc Q (Envelope Value)} {mpsc_laws : MpscLaws Q (Envelope Value)}.
Context (E : Env) (args : list string).
Abbreviation Client := (Client (Value:=Value) (Q:=Q)).
Implicit Types (c : Client) (m : Envelope Value).

(** ** The transcript *)

Definition is_ping m : bool := String.eqb (message_type m) "ping".
Definition is_received (l : Line (Value:=Value)) : bool := match l with ReceivedFrame _ => true | _ => false end.

(** The lines that say what was sent, and the messages other than pings. *)
Definition sent_lines c : list (Line (Value:=Value)) := List.filter (fun l => negb (is_received l)) (stdout c).
Definition answers (ms : list (Envelope Value)) : list (Envelope Value) := List.filter (fun m => negb (is_ping m)) ms.

(** A message is the one a line announces. *)
Definition announces (l : Line (Value:=Value)) m : Prop :=
  v m = IPC_PROTOCOL_VERSION /\ priority m = High /\
  match l with
  | SentHello => message_type m = "hello" /\ hello_to_value (hello E) = Ok (payload m)
  | SentRequestStatus => message_type m = "request_status" /\ request_status_to_value mkRequestStatus = Ok (payload m)
  | SentResult i => message_type m = "scene_switch_result" /\
      result_to_value {| result_request_id := i; ok := true; error := None |} = Ok (payload m)
  | ReceivedFrame _ => False
  end.

(** A heartbeat. *)
Definition heartbeats m : Prop :=
  v m = IPC_PROTOCOL_VERSION /\ message_type m = "ping" /\
  exists p, payload m = match ping_to_value p with Ok x => x | Err _ => value_default end.

(** The requests of the scene switches that were read, in order. *)
Definition requested (lines : list (Line (Value:=Value))) : list string :=
  omap (fun l => match l with
                 | ReceivedFrame m =>
                     if String.eqb (message_type m) "switch_scene" then
                       match switch_scene_from_value (payload m) with Ok p => Some (request_id p) | Err _ => None end
                     else None
                 | _ => None
                 end) lines.

(** What there is to acknowledge, and what is said first. *)
Definition to_acknowledge c : list string := if auto_ack args then requested (stdout c) else [].
Definition greeting : list (Line (Value:=Value)) := SentHello :: if request_status args then [SentRequestStatus] else [].

Record Messages c : Prop := {
  messages_alive : writer_running c = receiver_alive (out c);
  messages_sent : exists lost, Forall2 announces (sent_lines c) (answers (cmd_pipe c ++ contents (out c) ++ lost)) /\
    (writer_running c = true -> lost = []);
  messages_known : Forall (fun m => heartbeats m \/ exists l, announces l m) (cmd_pipe c ++ contents (out c));
}.

(** How far the greeting has come, by phase. *)
Definition Plan c : Prop :=
  match phase c with
  | Connecting => True
  | SayingHello => stdout c = []
  | AskingStatus => stdout c = [SentHello] /\ request_status args = true
  | Reading => exists acked, sent_lines c = greeting ++ map SentResult acked /\ acked `prefix_of` to_acknowledge c /\
      (writer_running c = true -> acked = to_acknowledge c)
  | Exited _ => sent_lines c `prefix_of` greeting ++ map SentResult (to_acknowledge c)
  end.

Definition Transcript c : Prop := phase c <> Connecting -> Messages c /\ Plan c.

(** ** Helper lemmas *)

Lemma answers_app l1 l2 : answers (l1 ++ l2) = answers l1 ++ answers l2.
Proof. apply List.filter_app. Qed.

Lemma send_ok m (q q' : Q) :
  send_msg m q = Ok q' -> receiver_alive q = true /\ contents q' = contents q ++ [m] /\ receiver_alive q' = true.
Proof.
  intros H. destruct (receiver_alive q) eqn:Ha.
  - destruct (send_alive m q Ha) as (q1 & H1 & Hc & Ha1). rewrite H1 in H. by simplify_eq.
  - destruct (send_dropped m q Ha) as (e & He). by rewrite He in H.
Qed.

(** A message is queued and announced. *)
Lemma messages_sent_line c m q l p :
  Messages c -> send_msg m (out c) = Ok q -> announces l m -> is_received l = false -> is_ping m = false ->
  Messages (sent q l p c).
Proof.
  intros [Ha (lost & Hs & Hlost) Hk] (Hal & Hc & Hal')%send_ok Hm Hl Hp.
  rewrite <- Ha in Hal. specialize (Hlost Hal) as ->. rewrite app_nil_r in Hs. split; cbn [writer_running out sent].
  - by rewrite Hal'.
  - exists []. split; [|done]. unfold sent_lines. cbn [stdout sent cmd_pipe]. rewrite List.filter_app, Hc, app_nil_r, app_assoc, answers_app.
    apply Forall2_app; [done|]. cbn. rewrite Hl, Hp. constructor; [exact Hm | constructor].
  - cbn [cmd_pipe sent]. rewrite Hc, app_assoc. apply Forall_app. split; [done|]. constructor; [|constructor]. right. by exists l.
Qed.

(** A step that only moves the phase, the reader or the identifiers. *)
Lemma messages_same c c' :
  Messages c -> writer_running c' = writer_running c -> out c' = out c -> cmd_pipe c' = cmd_pipe c ->
  sent_lines c' = sent_lines c -> Messages c'.
Proof. intros [Ha Hs Hk] H1 H2 H3 H4. by split; rewrite ?H1, ?H2, ?H3, ?H4. Qed.

(** The writer ends with a message in hand. *)
Lemma messages_stopped c m q :
  Forall2 announces (sent_lines c) (answers (cmd_pipe c ++ m :: contents q)) ->
  Forall (fun m => heartbeats m \/ exists l, announces l m) (cmd_pipe c ++ m :: contents q) ->
  Messages (stop_writer q c).
Proof.
  intros Hs Hk. destruct (drop_receiver_alive q) as [Hal Hc].
  split; cbn [writer_running out cmd_pipe stop_writer]; [by rewrite Hal | |].
  - exists (m :: contents q). by rewrite Hc.
  - rewrite Hc, app_nil_r. by apply Forall_app in Hk as [? _].
Qed.

Lemma messages_write pipe c c' : Messages c -> write_next pipe c = Some c' -> writer_running c = true -> Messages c'.
Proof.
  intros [Ha (lost & Hs & Hlost) Hk] Hw Hrun. specialize (Hlost Hrun) as ->. unfold write_next in Hw.
  destruct (recv_msg (out c)) as [[m q]|] eqn:Hr; [|done]. apply recv_some in Hr as [Hc Hal]. rewrite Hc in Hs, Hk.
  rewrite app_nil_r in Hs. destruct (write_frame m) as [bs|], pipe as [u|]; simplify_eq.
  - split; cbn [writer_running out cmd_pipe]; [by rewrite Hal | exists []; split; [|done] | ]; rewrite ?app_nil_r, <- ?app_assoc; done.
  - by apply (messages_stopped _ m).
  - by apply (messages_stopped _ m).
  - by apply (messages_stopped _ m).
Qed.

Lemma send_or_exit_cases {T} (m : Envelope T) value l p c :
  (exists x q, value = Ok x /\ send_msg (with_value m x) (out c) = Ok q /\ send_or_exit m value l p c = sent q l p c) \/
  exists e, send_or_exit m value l p c = next_phase (Exited e) c.
Proof.
  unfold send_or_exit. destruct value as [x|e]; cbn; [|right; by exists e].
  destruct (send_msg (with_value m x) (out c)) as [q|e] eqn:Hs; [left; by exists x, q | right; by exists e].
Qed.

Lemma requested_snoc lines l : requested (lines ++ [l]) = requested lines ++ requested [l].
Proof. apply omap_app. Qed.

(** In the reading phase, everything said so far is a part of the plan. *)
Definition reading c : Prop := exists acked,
  sent_lines c = greeting ++ map SentResult acked /\ acked `prefix_of` to_acknowledge c /\
  (writer_running c = true -> acked = to_acknowledge c).

Lemma reading_said c : reading c -> sent_lines c `prefix_of` greeting ++ map SentResult (to_acknowledge c).
Proof. intros (acked & -> & [rest ->] & _). rewrite map_app, app_assoc. by eexists. Qed.

(** A frame that is printed and asks for nothing. *)
Definition print_frame m c : Client :=
  mkClient (phase c) (evt_read c) (out c) (cmd_pipe c) (writer_running c) (heartbeat_running c)
    (stdout c ++ [ReceivedFrame m]) (draws c).

Lemma sent_lines_print m c : sent_lines (print_frame m c) = sent_lines c.
Proof. unfold sent_lines. cbn [stdout print_frame]. rewrite List.filter_app. cbn. by rewrite app_nil_r. Qed.

Lemma to_acknowledge_print m c :
  to_acknowledge (print_frame m c) = to_acknowledge c ++ (if auto_ack args then requested [ReceivedFrame m] else []).
Proof. unfold to_acknowledge. cbn [stdout print_frame]. rewrite requested_snoc. by destruct (auto_ack args). Qed.

Lemma reading_print m c :
  reading c -> (if auto_ack args then requested [ReceivedFrame m] else []) = [] -> reading (print_frame m c).
Proof.
  intros (acked & Hs & Hp & Hw) Hnone. exists acked. rewrite sent_lines_print, to_acknowledge_print, Hnone, app_nil_r. done.
Qed.

Lemma said_print m c :
  reading c -> sent_lines (print_frame m c) `prefix_of` greeting ++ map SentResult (to_acknowledge (print_frame m c)).
Proof.
  intros (acked & Hs & [rest Hp] & Hw). rewrite sent_lines_print, to_acknowledge_print, Hs, Hp, !map_app, !app_assoc.
  by eexists (map SentResult rest ++ _); rewrite <- !app_assoc.
Qed.

(** The acknowledgement of a scene switch that was just printed. *)
Lemma acknowledge_transcript p m c :
  Messages c -> reading c -> phase c = Reading -> auto_ack args = true -> requested [ReceivedFrame m] = [request_id p] ->
  Messages (acknowledge E p (print_frame m c)) /\ Plan (acknowledge E p (print_frame m c)).
Proof.
  intros Hm Hr Hph Hauto Hreq. assert (Messages (print_frame m c)) as Hm'.
  { apply (messages_same c); try done. apply sent_lines_print. }
  pose proof (said_print m c Hr) as Hsaid. unfold acknowledge.
  destruct (result_to_value _) as [x|e] eqn:Hx; [|by split; [apply (messages_same (print_frame m c))|]].
  set (ack := with_value _ x). destruct (send_msg ack (out (print_frame m c))) as [q|e] eqn:Hsend.
  - split; [by eapply messages_sent_line|]. cbn [Plan phase sent]. destruct (send_ok _ _ _ Hsend) as [Hal _].
    destruct Hr as (acked & Hs & _ & Hw). rewrite (messages_alive _ Hm) in Hw.
    change (out (print_frame m c)) with (out c) in *. specialize (Hw Hal). exists (acked ++ [request_id p]).
    assert (to_acknowledge (sent q (SentResult (request_id p)) Reading (print_frame m c)) = acked ++ [request_id p]) as Hack.
    { unfold to_acknowledge. rewrite Hauto. cbn [stdout sent]. rewrite requested_snoc. cbn [requested omap list_omap].
      rewrite app_nil_r. change (stdout (print_frame m c)) with (stdout c ++ [ReceivedFrame m]).
      rewrite requested_snoc, Hreq, Hw. unfold to_acknowledge. by rewrite Hauto. }
    rewrite Hack. split_and!; [|done|done]. unfold sent_lines. cbn [stdout sent]. rewrite List.filter_app.
    change (List.filter _ (stdout (print_frame m c))) with (sent_lines (print_frame m c)).
    rewrite sent_lines_print, Hs, map_app, app_assoc. done.
  - split; [by apply (messages_same (print_frame m c))|]. unfold Plan. cbn [phase]. change (phase (print_frame m c)) with (phase c).
    rewrite Hph. destruct Hr as (acked & Hs & Hp & Hw). exists acked.
    change (sent_lines _) with (sent_lines (print_frame m c)).
    change (to_acknowledge _) with (to_acknowledge (print_frame m c)). rewrite sent_lines_print, to_acknowledge_print.
    split_and!; [done | by apply prefix_app_r |]. intros Hrun. exfalso.
    cbn [writer_running print_frame] in Hrun. rewrite (messages_alive _ Hm) in Hrun.
    destruct (send_alive ack (out c) Hrun) as (q & Hq & _). cbn [out print_frame] in Hsend. congruence.
Qed.

(** A turn of the reading loop. *)
Lemma read_transcript c :
  Messages c -> reading c -> phase c = Reading -> Messages (read_and_act E args c) /\ Plan (read_and_act E args c).
Proof.
  intros Hm Hr Hph. unfold read_and_act. destruct (read_frame (evt_read c)) as [frame r].
  set (c1 := mkClient _ r _ _ _ _ _ _). apply (messages_same _ c1) in Hm; [|done..].
  change (reading c1) in Hr. change (phase c1 = Reading) in Hph.
  clearbody c1. destruct frame as [m|e].
  2: { split; [by apply (messages_same c1)|]. exact (reading_said c1 Hr). }
  unfold on_frame. destruct (value_to_string (payload m)) as [text|e].
  2: { split; [by apply (messages_same c1)|]. exact (reading_said c1 Hr). }
  change (mkClient _ _ _ _ _ _ _ _) with (print_frame m c1).
  assert (Messages (print_frame m c1)) as Hm1 by (apply (messages_same c1); try done; apply sent_lines_print).
  destruct (String.eqb (message_type m) "switch_scene") eqn:Hty.
  - destruct (switch_scene_from_value (payload m)) as [p|e] eqn:Hp.
    + destruct (auto_ack args) eqn:Hauto.
      * apply acknowledge_transcript; try done. cbn. by rewrite Hty, Hp.
      * split; [done|]. unfold Plan. change (phase (print_frame m c1)) with (phase c1). rewrite Hph.
        apply reading_print; [done | by rewrite Hauto].
    + split; [by apply (messages_same (print_frame m c1))|]. exact (said_print m c1 Hr).
  - split; [done|]. unfold Plan. change (phase (print_frame m c1)) with (phase c1). rewrite Hph.
    apply reading_print; [done|]. cbn. rewrite Hty. by destruct (auto_ack args).
Qed.

Lemma messages_heartbeat c : Messages c -> Messages (heartbeat E c).
Proof.
  intros Hm. unfold heartbeat. set (ping := with_value _ _). destruct (send_msg ping (out c)) as [q|e] eqn:Hs.
  - destruct Hm as [Ha (lost & Hf & Hlost) Hk]. destruct (send_ok _ _ _ Hs) as (Hal & Hc & Hal').
    rewrite <- Ha in Hal. specialize (Hlost Hal) as ->. rewrite app_nil_r in Hf.
    split; cbn [writer_running out cmd_pipe]; [by rewrite Hal' | |].
    + exists []. split; [|done]. rewrite Hc, app_nil_r, app_assoc, answers_app. cbn. by rewrite app_nil_r.
    + rewrite Hc, app_assoc. apply Forall_app. split; [done|]. constructor; [|constructor]. left.
      split_and!; [done | done | by eexists].
  - by apply (messages_same c).
Qed.

Lemma connecting_or_not c : phase c = Connecting \/ phase c <> Connecting.
Proof. destruct (phase c); by (left + right). Qed.

(** The plan does not see the queue, the pipe or the identifiers. *)
Lemma plan_same c c' :
  Plan c -> phase c' = phase c -> stdout c' = stdout c -> (writer_running c' = true -> writer_running c = true) -> Plan c'.
Proof.
  unfold Plan, sent_lines, to_acknowledge. intros Hp -> -> Hw. destruct (phase c); try done.
  destruct Hp as (acked & Hs & Hpre & Heq). exists acked. auto.
Qed.

Lemma transcript_main c c' :
  Messages c -> Plan c -> step E args MainTurn c = Some c' -> Messages c' /\ Plan c'.
Proof.
  intros Hm Hp Hstep. cbn in Hstep. unfold Plan in Hp. destruct (phase c) eqn:Hph; simplify_eq.
  - unfold say_hello. destruct (send_or_exit_cases (make_envelope E 0 "hello" High (hello E)) (hello_to_value (hello E))
      SentHello (if request_status args then AskingStatus else Reading) c) as [(x & q & Hx & Hs & ->)|(e & ->)].
    + split; [by eapply messages_sent_line|]. unfold Plan, sent_lines, to_acknowledge. cbn [phase sent stdout]. rewrite Hp.
      unfold greeting. destruct (request_status args); [done|]. exists []. cbn. by destruct (auto_ack args).
    + split; [by apply (messages_same c)|]. unfold Plan, sent_lines. cbn [phase next_phase stdout]. rewrite Hp. apply prefix_nil.
  - destruct Hp as [Hp Hreq]. unfold ask_status.
    destruct (send_or_exit_cases (make_envelope E (draws c) "request_status" High mkRequestStatus)
      (request_status_to_value mkRequestStatus) SentRequestStatus Reading c) as [(x & q & Hx & Hs & ->)|(e & ->)].
    + split; [by eapply messages_sent_line|]. unfold Plan, sent_lines, to_acknowledge. cbn [phase sent stdout]. rewrite Hp.
      unfold greeting. rewrite Hreq. exists []. cbn. by destruct (auto_ack args).
    + split; [by apply (messages_same c)|]. unfold Plan, sent_lines, greeting. cbn [phase next_phase stdout]. rewrite Hp, Hreq.
      by eexists.
  - by apply read_transcript.
Qed.

Lemma transcript_step l c c' : Transcript c -> step E args l c = Some c' -> Transcript c'.
Proof.
  intros Ht Hstep Hne. destruct (connecting_or_not c) as [Hc|Hc].
  - assert (c' = c \/ exists evt, c' = connected evt) as [-> | (evt & ->)].
    { destruct l as [[r|] [evt|]| | |]; cbn in Hstep; rewrite Hc in Hstep; simplify_eq; eauto. }
    + done.
    + destruct empty_contents as [He Ha]. split; [|done].
      split; cbn [writer_running out connected cmd_pipe]; rewrite ?He; [done | | constructor].
      exists []. split; [constructor | done].
  - destruct (Ht Hc) as [Hm Hp]. destruct l as [cmd evt| |pipe|].
    + destruct cmd, evt; cbn in Hstep; destruct (phase c); done.
    + by apply (transcript_main c).
    + assert (writer_running c = true /\ write_next pipe c = Some c') as [Hw Hn]
        by (cbn in Hstep; destruct (phase c); try done; by destruct (writer_running c)).
      split; [by apply (messages_write pipe c)|]. unfold write_next in Hn.
      destruct (recv_msg (out c)) as [[m q]|]; [|done].
      destruct (write_frame m), pipe; simplify_eq; by apply (plan_same c).
    + assert (c' = heartbeat E c) as -> by (cbn in Hstep; destruct (phase c); try done; by destruct (heartbeat_running c); simplify_eq).
      split; [by apply messages_heartbeat|]. unfold heartbeat. destruct (send_msg _ _); by apply (plan_same c).
Qed.

(** Induction over a run. *)
Lemma client_invariant (I : Client -> Prop) c0 :
  I c0 -> (forall l c c', I c -> step E args l c = Some c' -> I c') -> forall ls c, exec E args ls c0 = Some c -> I c.
Proof.
  intros H0 Hstep ls. revert c0 H0. induction ls as [|l ls IH]; intros c0 H0 c Hrun; cbn in Hrun; [by simplify_eq|].
  destruct (step E args l c0) as [c1|] eqn:Hs; [|done]. by apply (IH c1); [eapply Hstep|].
Qed.

Lemma transcript_reachable ls c : exec E args ls start = Some c -> Transcript c.
Proof. apply client_invariant; [done | intros; by eapply transcript_step]. Qed.

(** The connection is made once. *)
Lemma phase_forward l c c' : phase c <> Connecting -> step E args l c = Some c' -> phase c' <> Connecting.
Proof.
  intros Hne Hs. destruct l as [cmd evt| |pipe|]; cbn in Hs.
  - by destruct cmd, evt, (phase c).
  - destruct (phase c) eqn:Hph; simplify_eq.
    + unfold say_hello. destruct (send_or_exit_cases (make_envelope E 0 "hello" High (hello E)) (hello_to_value (hello E))
        SentHello (if request_status args then AskingStatus else Reading) c) as [(x & q & _ & _ & ->)|(e & ->)]; [|done].
      cbn. by destruct (request_status args).
    + unfold ask_status. by destruct (send_or_exit_cases (make_envelope E (draws c) "request_status" High mkRequestStatus)
        (request_status_to_value mkRequestStatus) SentRequestStatus Reading c) as [(x & q & _ & _ & ->)|(e & ->)].
    + unfold read_and_act, on_frame, acknowledge. repeat (case_match; cbn); congruence.
  - assert (write_next pipe c = Some c') as Hn by (destruct (phase c); try done; by destruct (writer_running c)).
    unfold write_next in Hn. destruct (recv_msg (out c)) as [[m q]|]; [|done].
    destruct (write_frame m), pipe; by simplify_eq.
  - assert (c' = heartbeat E c) as -> by (destruct (phase c); try done; by destruct (heartbeat_running c); simplify_eq).
    unfold heartbeat. by destruct (send_msg _ _).
Qed.

Lemma connecting_silent ls c : exec E args ls start = Some c -> phase c = Connecting -> cmd_pipe c = [].
Proof.
  revert ls c. apply (client_invariant (fun c => phase c = Connecting -> cmd_pipe c = [])); [done|].
  intros l c c' H0 Hs Hc1. destruct (connecting_or_not c) as [Hc|Hc].
  - destruct l as [[r|] [evt|]| | |]; cbn in Hs; rewrite Hc in Hs; simplify_eq; by apply H0.
  - by apply (phase_forward l c c') in Hc.
Qed.

(** What is on the command pipe has been encoded. *)
Lemma write_next_encoded pipe c c' :
  write_next pipe c = Some c' -> Forall (fun m => is_ok (write_frame m) = true) (cmd_pipe c) ->
  Forall (fun m => is_ok (write_frame m) = true) (cmd_pipe c').
Proof.
  unfold write_next. intros Hw Hc. destruct (recv_msg (out c)) as [[m q]|]; [|done].
  destruct (write_frame m) as [bs|e] eqn:Hm, pipe; simplify_eq; try done.
  apply Forall_app. split; [done|]. constructor; [by rewrite Hm | constructor].
Qed.

Lemma encoded_step l c c' :
  step E args l c = Some c' -> Forall (fun m => is_ok (write_frame m) = true) (cmd_pipe c) ->
  Forall (fun m => is_ok (write_frame m) = true) (cmd_pipe c').
Proof.
  intros Hs Hc. destruct l as [cmd evt| |pipe|]; cbn in Hs.
  - destruct cmd, evt, (phase c); by simplify_eq.
  - destruct (phase c); simplify_eq.
    + unfold say_hello. by destruct (send_or_exit_cases (make_envelope E 0 "hello" High (hello E)) (hello_to_value (hello E))
        SentHello (if request_status args then AskingStatus else Reading) c) as [(x & q & _ & _ & ->)|(e & ->)].
    + unfold ask_status. by destruct (send_or_exit_cases (make_envelope E (draws c) "request_status" High mkRequestStatus)
        (request_status_to_value mkRequestStatus) SentRequestStatus Reading c) as [(x & q & _ & _ & ->)|(e & ->)].
    + unfold read_and_act, on_frame, acknowledge. repeat (case_match; cbn); done.
  - apply (write_next_encoded pipe c); [|done]. destruct (phase c); try done; by destruct (writer_running c).
  - assert (c' = heartbeat E c) as -> by (destruct (phase c); try done; by destruct (heartbeat_running c); simplify_eq).
    unfold heartbeat. by destruct (send_msg _ _).
Qed.

Lemma encoded_reachable ls c : exec E args ls start = Some c -> Forall (fun m => is_ok (write_frame m) = true) (cmd_pipe c).
Proof.
  revert ls c. apply (client_invariant (fun c => Forall (fun m => is_ok (write_frame m) = true) (cmd_pipe c))); [constructor|].
  intros l c c' Hc Hs. by eapply encoded_step.
Qed.

(** ** Properties *)

(** C10: the client says what it prints, in order.  In every interleaving of its
    three tasks, and with any queue that keeps its contract: the messages other
    than pings that are on the command pipe or still queued are, one for one and
    in order, those its console lines announce (all of them while the writer
    runs, a prefix once a write has failed).  Those lines are the greeting and
    then one acknowledgement for each scene switch that was read, in the order
    of reading, complete while the client reads and its writer runs; with
    --no-auto-ack there are none.  Every message has protocol version 1 and is a
    ping or one of those. *)
Theorem client_transcript ls c :
  exec E args ls start = Some c -> phase c <> Connecting ->
  (exists lost, Forall2 announces (sent_lines c) (answers (cmd_pipe c ++ contents (out c) ++ lost)) /\
     (writer_running c = true -> lost = [])) /\
  sent_lines c `prefix_of` greeting ++ map SentResult (to_acknowledge c) /\
  (phase c = Reading -> writer_running c = true -> sent_lines c = greeting ++ map SentResult (to_acknowledge c)) /\
  Forall (fun m => v m = IPC_PROTOCOL_VERSION /\ (heartbeats m \/ exists l, announces l m)) (cmd_pipe c ++ contents (out c)).
Proof.
  intros Hrun Hne. destruct (transcript_reachable ls c Hrun Hne) as [[_ Hs Hk] Hp]. split_and!; [done | | |].
  - unfold Plan in Hp. destruct (phase c); [done | | | by apply reading_said | done].
    + unfold sent_lines. rewrite Hp. apply prefix_nil.
    + destruct Hp as [Hp Hreq]. unfold sent_lines, greeting. rewrite Hp, Hreq. by eexists.
  - intros Hph Hw. unfold Plan in Hp. rewrite Hph in Hp. destruct Hp as (acked & -> & _ & Hacked). by rewrite Hacked.
  - eapply Forall_impl; [exact Hk|]. intros m Hm. split; [|done]. by destruct Hm as [[? _]|(l & ? & _)].
Qed.
End Transcript.

(** ** The core's side *)

#[local] Existing Instance IpcSession.value_hello.
#[local] Existing Instance IpcSession.value_ping.
#[local] Existing Instance IpcSession.value_request_status.
#[local] Existing Instance IpcSession.value_scene_switch_result.

(** The core's reading of the client's types: the same fields. *)
Definition core_hello (h : HelloPayload) : Ipc.HelloPayload := {|
  Ipc.plugin_version := plugin_version h; Ipc.hello_protocol_version := protocol_version h; Ipc.obs_pid := obs_pid h;
  Ipc.capabilities := capabilities h |}.
Definition core_ping (p : PingPayload) : Ipc.PingPayload := {| Ipc.ping_nonce := nonce p |}.
Definition core_result (r : SceneSwitchResultPayload) : Ipc.SceneSwitchResultPayload := {|
  Ipc.result_request_id := result_request_id r; Ipc.result_ok := ok r; Ipc.result_error := error r |}.
Definition core_priority (p : Priority) : Ipc.Priority :=
  match p with Critical => Ipc.Critical | High => Ipc.High | Normal => Ipc.Normal | Low => Ipc.Low end.
Definition core_envelope {Value} (m : Envelope Value) : Ipc.Envelope Value :=
  Ipc.mkEnvelope (v m) (id m) (ts_unix_ms m) (message_type m) (core_priority (priority m)) (payload m).

(** [serde_json] turns a value of the client into JSON, and the core's type of
    the same fields reads it back. *)
Class SerdeLaws (Value : Type) {client : ClientCodec Value} {core : IpcSession.PayloadCodec Value} := {
  hello_read : forall h (x : Value), hello_to_value h = Ok x -> IpcSession.from_value x = Ok (core_hello h);
  ping_read : forall p, exists x : Value, ping_to_value p = Ok x /\ IpcSession.from_value x = Ok (core_ping p);
  request_status_read : exists x : Value, request_status_to_value mkRequestStatus = Ok x /\
    IpcSession.from_value x = Ok Ipc.mkRequestStatus;
  result_read : forall r, exists x : Value, result_to_value r = Ok x /\ IpcSession.from_value x = Ok (core_result r);
}.

Section Interop.
Context {Value : Type} {codec : ClientCodec Value} {wire : IpcWire.WireCodec (Envelope Value) (Envelope Value)}.
Context {Q : Type} {mpsc : Mpsc Q (Envelope Value)} {mpsc_laws : MpscLaws Q (Envelope Value)}.
Context {core_codec : IpcSession.PayloadCodec Value} {serde : SerdeLaws Value}.
Context {core_wire : IpcWire.WireCodec (Ipc.Envelope Ipc.EvtPayload) (Ipc.Envelope Value)}.
Context (E : Env) (args : list string) (F : IpcSession.Env).
Abbreviation Client := (Client (Value:=Value) (Q:=Q)).
Implicit Types (c : Client) (m : Envelope Value) (s : IpcSession.State).

(** A message the core takes without complaint: known, decodable, not refused,
    and dispatching it counts no protocol error and ends the session only if
    the pipe does. *)
Definition understood m : Prop :=
  IpcSessionFacts.known_type (message_type m) = true /\
  IpcSessionFacts.undecodable (core_envelope m) = false /\
  IpcSessionFacts.refused_request (core_envelope m) = false /\
  forall s, wp (IpcSession.dispatch F (core_envelope m)) (fun x s' =>
    IpcSession.protocol_errors s' = IpcSession.protocol_errors s /\ (x = Ok tt \/ exists e, x = Err (Err e))) s.

Lemma understood_intro m {T} `{!IpcSession.FromValue Value T} (p : T) (handle : T -> eff IpcSession.State IpcSession.Exit unit) :
  IpcSessionFacts.known_type (message_type m) = true ->
  IpcSessionFacts.undecodable (core_envelope m) = negb (is_ok (IpcSession.from_value (payload m) : result string T)) ->
  IpcSessionFacts.refused_request (core_envelope m) = false ->
  IpcSession.dispatch F (core_envelope m) = IpcSession.with_payload F (core_envelope m) handle ->
  IpcSession.from_value (payload m) = Ok p ->
  (forall s, wp (handle p) (fun x s' =>
     IpcSession.protocol_errors s' = IpcSession.protocol_errors s /\ (x = Ok tt \/ exists e, x = Err (Err e))) s) ->
  understood m.
Proof.
  intros Hk Hu Hr Hd Hp Hw. unfold understood. rewrite Hu, Hp, Hd, (IpcSessionFacts.with_payload_ok F (core_envelope m) _ p Hp). by split_and!.
Qed.

Ltac by_type Hv Hty :=
  first [ by rewrite Hty
        | unfold IpcSessionFacts.undecodable, IpcSessionFacts.refused_request, core_envelope;
          cbn [Ipc.message_type Ipc.payload]; by rewrite Hty
        | unfold IpcSession.dispatch, core_envelope; cbn [Ipc.v Ipc.message_type]; by rewrite Hv, Hty ].

Ltac quiet_steps := intros s; IpcSessionFacts.session_steps; (split; [reflexivity|]); eauto.

Lemma heartbeat_understood m : heartbeats m -> understood m.
Proof.
  intros (Hv & Hty & p & Hp). destruct (ping_read p) as (x & Hx & Hc). rewrite Hx in Hp. rewrite <- Hp in Hc.
  eapply (understood_intro m (core_ping p) (IpcSession.on_ping F)); [by_type Hv Hty.. | exact Hc |].
  unfold IpcSession.on_ping. quiet_steps.
Qed.

Lemma announced_understood l m : announces E l m -> understood m.
Proof.
  intros (Hv & _ & Hm). destruct l as [| | |i]; [| | done |]; destruct Hm as [Hty Hm].
  - pose proof (hello_read (hello E) _ Hm) as Hc.
    eapply (understood_intro m (core_hello (hello E)) (IpcSession.on_hello F)); [by_type Hv Hty.. | exact Hc |].
    unfold IpcSession.on_hello.
    change (negb (Ipc.hello_protocol_version (core_hello (hello E)) =? Ipc.IPC_PROTOCOL_VERSION)) with false. quiet_steps.
  - destruct request_status_read as (x & Hx & Hc). assert (x = payload m) as -> by congruence.
    eapply (understood_intro m Ipc.mkRequestStatus (IpcSession.on_request_status F)); [by_type Hv Hty.. | exact Hc |].
    unfold IpcSession.on_request_status. quiet_steps.
  - destruct (result_read {| result_request_id := i; ok := true; error := None |}) as (x & Hx & Hc).
    assert (x = payload m) as -> by congruence.
    eapply (understood_intro m _ (IpcSession.on_scene_switch_result F)); [by_type Hv Hty.. | exact Hc |].
    unfold IpcSession.on_scene_switch_result. quiet_steps.
Qed.

(** The effect of an acknowledgement on a session that waits for it. *)
Lemma acknowledgement_settles i p m s :
  announces E (SentResult i) m -> IpcSession.pending_switches s !! i = Some p ->
  wp (IpcSession.dispatch F (core_envelope m)) (fun x s' => x = Ok tt /\
    IpcSession.pending_switches s' = delete i (IpcSession.pending_switches s) /\
    Ipc.res_request_id <$> Ipc.last_switch_result (IpcSession.debug_status s') = Some i /\
    Ipc.res_status <$> Ipc.last_switch_result (IpcSession.debug_status s') = Some "ok") s.
Proof.
  intros (Hv & _ & Hty & Hm) Hp. destruct (result_read {| result_request_id := i; ok := true; error := None |}) as (x & Hx & Hc).
  assert (x = payload m) as -> by congruence.
  assert (IpcSession.dispatch F (core_envelope m) =
    IpcSession.with_payload F (core_envelope m) (IpcSession.on_scene_switch_result F)) as -> by by_type Hv Hty.
  rewrite (IpcSessionFacts.with_payload_ok F (core_envelope m) _ _ Hc).
  unfold IpcSession.on_scene_switch_result. cbn [Ipc.result_request_id core_result result_request_id].
  IpcSessionFacts.session_steps; split_and!; try reflexivity; congruence.
Qed.

(** A switch that was read is acknowledged: the message is written or queued. *)
Lemma requested_acknowledged ls c i :
  exec E args ls start = Some c -> phase c = Reading -> writer_running c = true -> auto_ack args = true ->
  i ∈ requested (stdout c) -> exists m, m ∈ cmd_pipe c ++ contents (out c) /\ announces E (SentResult i) m.
Proof.
  intros Hrun Hph Hw Hauto Hi. assert (phase c <> Connecting) as Hne by (by rewrite Hph).
  destruct (transcript_reachable E args ls c Hrun Hne) as [[_ (lost & Hs & Hlost) _] Hp].
  specialize (Hlost Hw) as ->. unfold Plan in Hp. rewrite Hph in Hp. destruct Hp as (acked & Hlines & _ & Hacked).
  specialize (Hacked Hw) as ->. unfold to_acknowledge in Hlines. rewrite Hauto in Hlines.
  assert (SentResult i ∈ sent_lines c) as Hline by (rewrite Hlines; apply elem_of_app; right; by apply list_elem_of_fmap_2).
  apply list_elem_of_lookup_1 in Hline as [k Hk]. destruct (Forall2_lookup_l _ _ _ _ _ Hs Hk) as (m & Hm & Ha).
  exists m. split; [|exact Ha].
  apply list_elem_of_lookup_2, list_elem_of_In, filter_In in Hm as [Hm _]. apply list_elem_of_In in Hm. by rewrite app_nil_r in Hm.
Qed.

(** Whatever the interleaving, the core understands each message on the command
    pipe: it is of a type the core knows, its payload decodes at the core's type,
    it is no refused request, and dispatching it in any state of a session counts
    no protocol error and ends the session, if at all, only because the event
    pipe failed. *)
Lemma client_understood ls c :
  exec E args ls start = Some c -> Forall understood (cmd_pipe c).
Proof.
  intros Hrun. destruct (connecting_or_not c) as [Hc|Hc].
  - assert (cmd_pipe c = []) as -> by (by eapply connecting_silent). constructor.
  - destruct (transcript_reachable E args ls c Hrun Hc) as [[_ _ Hk] _]. apply Forall_app in Hk as [Hk _].
    eapply Forall_impl; [exact Hk|]. intros m [Hm|[l Hm]]; [by apply heartbeat_understood | by eapply announced_understood].
Qed.

(** ** Properties *)

(** C15: a scene switch comes full circle.  When a client that acknowledges has
    read a [switch_scene] frame and is reading on with its writer running, an
    acknowledgement of that request is on the command pipe or queued for it; and
    in any session where the request is still pending, dispatching that message
    removes it from the pending map and publishes it as settled "ok". *)
Theorem switch_comes_full_circle ls c i :
  exec E args ls start = Some c -> phase c = Reading -> writer_running c = true -> auto_ack args = true ->
  i ∈ requested (stdout c) ->
  exists m, m ∈ cmd_pipe c ++ contents (out c) /\
    forall s p, IpcSession.pending_switches s !! i = Some p ->
    wp (IpcSession.dispatch F (core_envelope m)) (fun x s' => x = Ok tt /\
      IpcSession.pending_switches s' = delete i (IpcSession.pending_switches s) /\
      Ipc.res_request_id <$> Ipc.last_switch_result (IpcSession.debug_status s') = Some i /\
      Ipc.res_status <$> Ipc.last_switch_result (IpcSession.debug_status s') = Some "ok") s.
Proof.
  intros Hrun Hph Hw Hauto Hi. destruct (requested_acknowledged ls c i Hrun Hph Hw Hauto Hi) as (m & Hm & Ha).
  exists m. split; [exact Hm|]. intros s p Hpend. by apply (acknowledgement_settles i p).
Qed.
End Interop.

(** ** Witnesses *)

#[local] Existing Instance IpcSessionSpec.demo_codec.
#[local] Existing Instance IpcSessionSpec.demo_wire.
Abbreviation DemoValue := IpcSessionSpec.DemoValue.

#[local] Instance demo_client_codec : ClientCodec DemoValue := {|
  hello_to_value := fun h => Ok (IpcSessionSpec.DHello (core_hello h));
  ping_to_value := fun p => Ok (IpcSessionSpec.DPing (core_ping p));
  request_status_to_value := fun _ => Ok IpcSessionSpec.DEmpty;
  result_to_value := fun r => Ok (IpcSessionSpec.DResult (core_result r));
  switch_scene_from_value := fun x =>
    match x with
    | IpcSessionSpec.DPing p =>
        Ok {| request_id := Ipc.ping_nonce p; scene_name := "Live"; reason := "manual"; deadline_ms := 550 |}
    | _ => Err "missing field"
    end;
  value_to_string := fun _ => Ok "{..}"; value_default := IpcSessionSpec.DEmpty |}.

#[local] Instance demo_serde : SerdeLaws DemoValue.
Proof. split; [by intros h x [= <-]|..]; intros; by eexists. Defined.

(** A frame of one byte: the switch "r1". *)
#[local] Instance demo_client_wire : IpcWire.WireCodec (Envelope DemoValue) (Envelope DemoValue) := {|
  IpcWire.to_vec_named := fun _ => Ok [x00]%byte;
  IpcWire.from_slice := fun _ =>
    Ok (mkEnvelope 1 "m1" 0 "switch_scene" Critical (IpcSessionSpec.DPing {| Ipc.ping_nonce := "r1" |})) |}.

Definition demo_client_env : Env := {|
  env_uuid := fun n => Str.show (Z.of_nat n); env_unix_ms := fun _ => 1700000000000; env_process_id := 42 |}.

(** A ping is queued before the hello, a switch is read and acknowledged. *)
Definition demo_labels : list Label :=
  [ OpenPipes None (Some []);
    OpenPipes (Some []) (Some [IpcWire.Idle; IpcWire.Chunk [x01; x00; x00; x00; x07]%byte]);
    HeartbeatTurn; MainTurn; MainTurn; WriterTurn (Ok tt); MainTurn; WriterTurn (Ok tt); WriterTurn (Ok tt);
    WriterTurn (Ok tt) ].
Definition demo_client : Client (Value:=DemoValue) (Q:=Fifo (Envelope DemoValue)) :=
  default start (exec demo_client_env [] demo_labels start).

Lemma demo_client_runs : exec demo_client_env [] demo_labels start = Some demo_client.
Proof. vm_compute. reflexivity. Qed.

Lemma client_transcript_witness :
  map message_type (cmd_pipe demo_client) = ["ping"; "hello"; "request_status"; "scene_switch_result"] /\
  sent_lines demo_client = greeting [] ++ map SentResult (to_acknowledge [] demo_client) /\
  to_acknowledge [] demo_client = ["r1"].
Proof.
  split; [by vm_compute|]. split; [|by vm_compute].
  destruct (client_transcript demo_client_env [] demo_labels demo_client demo_client_runs ltac:(by vm_compute)) as (_ & _ & H & _).
  apply H; by vm_compute.
Defined.

Lemma switch_comes_full_circle_witness :
  exists m, m ∈ cmd_pipe demo_client ++ contents (out demo_client) /\
    wp (IpcSession.dispatch (WireCodec0:=IpcSessionSpec.demo_wire) IpcSessionSpec.demo_env (core_envelope m)) (fun x s' => x = Ok tt /\
      IpcSession.pending_switches s' = ∅) IpcSessionSpec.demo_state.
Proof.
  destruct (switch_comes_full_circle (core_wire:=IpcSessionSpec.demo_wire) demo_client_env [] IpcSessionSpec.demo_env
    demo_labels demo_client "r1" demo_client_runs) as (m & Hm & Hs); [by vm_compute.. | by vm_compute; left |].
  exists m. split; [exact Hm|].
  refine (wp_mono _ _ _ _ _ (Hs IpcSessionSpec.demo_state _ eq_refl)). intros x s' (Hx & Hp & _).
  split; [exact Hx|]. rewrite Hp. by vm_compute.
Defined.
