(* ===== verification/Interop.v ===== *)
(** * Interop: the development client and the core, byte for byte

    What the client of [DevClient] has written on the command pipe, read by a
    session of [IpcSession]: the two programs frame their messages alike, so a
    session that is handed the client's bytes, cut into chunks in any way and
    with any pauses between frames, reads the client's messages and finds
    nothing wrong with them. *)

From Stdlib Require Import Strings.Byte.
From S2P Require Import Prelude Effects RustStd Channels.
From S2P Require Ipc IpcWire IpcSession IpcSessionFacts IpcSessionSpec.
From S2P Require Import DevClient DevClientSpec.

#[local] Open Scope Z_scope.

(** ** Delivery *)

(** A pipe delivers [frames]: bursts of whole frames, cut anywhere, with
    expiries of the poll timer between bursts, then the end. *)
Inductive Delivery : list IpcWire.bytes -> IpcWire.Reader -> Prop :=
  | delivery_end : Delivery [] []
  | delivery_idle frames r : Delivery frames r -> Delivery frames (IpcWire.Idle :: r)
  | delivery_burst frames pre more r : Forall IpcWire.is_chunk pre -> IpcWire.flatten pre = mjoin frames ->
      Delivery more r -> Delivery (frames ++ more) (pre ++ r).

(** Chunks without bytes are passed over. *)
Lemma read_exact_empty pre post n acc :
  Forall IpcWire.is_chunk pre -> IpcWire.flatten pre = [] ->
  IpcWire.read_exact (S n) acc (pre ++ post) = IpcWire.read_exact (S n) acc post.
Proof.
  intros Hc. induction Hc as [|e pre He Hc IH]; [done|]. destruct e as [bs| |]; [|done|done].
  rewrite IpcWire.flatten_cons. intros [-> Hf]%app_nil. cbn [app IpcWire.read_exact length]. cbn [Nat.ltb Nat.leb].
  rewrite app_nil_r. by apply IH.
Qed.

Section Frames.
Context {Out In : Type} {wire : IpcWire.WireCodec Out In}.

Lemma read_frame_empty pre post :
  Forall IpcWire.is_chunk pre -> IpcWire.flatten pre = [] -> IpcWire.read_frame (pre ++ post) = IpcWire.read_frame (In:=In) post.
Proof. intros Hc Hf. unfold IpcWire.read_frame. by rewrite read_exact_empty. Qed.

(** The next poll of a delivery: nothing yet, the next frame, or the end. *)
Lemma poll_delivery frames r p r' :
  Delivery frames r -> IpcWire.read_frame (In:=In) r = (p, r') ->
  (forall f, f ∈ frames -> exists body, f = IpcWire.u32_le (Z.of_nat (length body)) ++ body /\
     Z.of_nat (length body) <= Ipc.MAX_FRAME_SIZE) ->
  (p = IpcWire.Elapsed /\ Delivery frames r') \/
  (exists body frames', frames = (IpcWire.u32_le (Z.of_nat (length body)) ++ body) :: frames' /\ Delivery frames' r' /\
     p = IpcWire.Ready (map_err (fun err => {| IpcWire.kind := IpcWire.InvalidData; IpcWire.msg := "decode failed: " +:+ err |})
           (IpcWire.from_slice body))) \/
  (frames = [] /\ r' = [] /\ exists e, p = IpcWire.Ready (Err e) /\ IpcWire.kind e = IpcWire.UnexpectedEof).
Proof.
  intros Hd. revert p r'. induction Hd as [|frames r Hd IH|frames pre more r Hc Hf Hd IH]; intros p r' Hr Hframed.
  - cbn in Hr. simplify_eq. right. right. by eauto.
  - cbn in Hr. simplify_eq. by left.
  - destruct frames as [|f frames].
    + rewrite read_frame_empty in Hr by done. by apply IH.
    + right. left. destruct (Hframed f) as (body & -> & Hlen); [left|]. cbn in Hf. rewrite <- app_assoc in Hf.
      destruct (IpcWire.read_frame_body pre r body _ Hc Hlen Hf) as (pre' & Heq & Hc' & Hf').
      rewrite Heq in Hr. simplify_eq. exists body, (frames ++ more). split_and!; [done | by apply delivery_burst | done].
Qed.
End Frames.

(** ** A session on the client's bytes *)

Section Session.
Context {Value : Type} {codec : ClientCodec Value} {wire : IpcWire.WireCodec (Envelope Value) (Envelope Value)}.
Context {Q : Type} {mpsc : Mpsc Q (Envelope Value)} {mpsc_laws : MpscLaws Q (Envelope Value)}.
Context {core_codec : IpcSession.PayloadCodec Value} {serde : SerdeLaws Value}.
Context {core_wire : IpcWire.WireCodec (Ipc.Envelope Ipc.EvtPayload) (Ipc.Envelope Value)}.

(** The client's encoder with the core's decoder: the same library at two
    declarations of the same fields. *)
Definition between : IpcWire.WireCodec (Envelope Value) (Ipc.Envelope Value) := {|
  IpcWire.to_vec_named := IpcWire.to_vec_named (WireCodec:=wire);
  IpcWire.from_slice := IpcWire.from_slice (WireCodec:=core_wire) |}.

Context {between_laws : IpcWire.WireCodecLaws (H:=between) (Envelope Value) (Ipc.Envelope Value) core_envelope}.
Context (E : Env) (args : list string) (F : IpcSession.Env).
Abbreviation Client := (Client (Value:=Value) (Q:=Q)).
Implicit Types (c : Client) (m : Envelope Value) (s : IpcSession.State).

(** The frames of the command pipe. *)
Definition frames_written c : list IpcWire.bytes :=
  map (fun m => match write_frame m with Ok bs => bs | Err _ => [] end) (cmd_pipe c).

Lemma write_frame_body m bs :
  write_frame m = Ok bs -> exists body,
    bs = IpcWire.u32_le (Z.of_nat (length body)) ++ body /\ Z.of_nat (length body) <= Ipc.MAX_FRAME_SIZE /\
    IpcWire.from_slice (WireCodec:=core_wire) body = Ok (core_envelope m).
Proof.
  unfold write_frame. intros H. apply result_bind_ok in H as (body & Hb & H).
  destruct (IpcWire.to_vec_named m) as [body'|e] eqn:Hv; cbn in Hb; [|done]. simplify_eq.
  destruct (Z.ltb_spec MAX_FRAME_SIZE (Z.of_nat (length body))); simplify_eq. exists body.
  split_and!; [done | done |]. exact (IpcWire.decode_encode (H:=between) m body Hv).
Qed.

(** What a session that has read some of the client's messages has before it. *)
Definition Clean s : Prop := exists ms frames,
  Forall2 (fun m bs => write_frame m = Ok bs) ms frames /\ Forall (understood F) ms /\
  Delivery frames (IpcSession.inbox s) /\ IpcSession.protocol_errors s = [].

(** How it may end. *)
Definition clean_end (x : IpcSession.Exit) s : Prop :=
  IpcSession.protocol_errors s = [] /\
  (x = Ok tt -> Ipc.last_notice (IpcSession.debug_status s) = Some IpcSessionSpec.heartbeat_notice).

Lemma clean_poll s :
  Clean s -> wp (IpcSession.poll_incoming F) (fun x s' =>
    match x with
    | Ok None => Clean s'
    | Ok (Some m) => exists m', m = core_envelope m' /\ understood F m' /\ Clean s'
    | Err x => clean_end x s'
    end) s.
Proof.
  intros (ms & frames & Hw & Hu & Hd & He). apply wp_bind, IpcSessionFacts.wp_poll_read.
  destruct (IpcWire.read_frame (IpcSession.inbox s)) as [p r] eqn:Hr.
  assert (forall f, f ∈ frames -> exists m body, write_frame m = Ok f /\ f = IpcWire.u32_le (Z.of_nat (length body)) ++ body /\
    Z.of_nat (length body) <= Ipc.MAX_FRAME_SIZE) as Hf.
  { intros f (i & Hi)%list_elem_of_lookup_1. destruct (Forall2_lookup_r _ _ _ _ _ Hw Hi) as (m & _ & Hm).
    destruct (write_frame_body m f Hm) as (body & Hb & Hl & _). by exists m, body. }
  destruct (poll_delivery frames _ p r Hd Hr) as [[-> Hd'] | [(body & frames' & -> & Hd' & ->) | (-> & -> & e & -> & Hk)]].
  - intros f Hin. destruct (Hf f Hin) as (_ & body & _ & Hb). by exists body.
  - apply wp_ret. by exists ms, frames.
  - apply Forall2_cons_inv_r in Hw as (m & ms' & Hm & Hw' & ->). apply Forall_cons in Hu as [Hum Hu].
    destruct (write_frame_body m _ Hm) as (body' & Heq & Hl & Hdec).
    assert (body' = body) as ->.
    { pose proof (f_equal length Heq) as Hlen. rewrite !length_app, !IpcWire.length_u32_le in Hlen.
      apply app_inj_1 in Heq as [_ Heq]; [done | by rewrite !IpcWire.length_u32_le]. }
    rewrite Hdec. cbn [map_err]. apply wp_ret. exists m. split_and!; [done | done |]. by exists ms', frames'.
  - rewrite bool_decide_eq_false_2 by (rewrite Hk; discriminate). by apply wp_throw.
Qed.

Lemma clean_iteration s :
  Clean s -> wp (IpcSession.iteration F) (fun x s' => match x with Ok _ => Clean s' | Err x => clean_end x s' end) s.
Proof.
  intros (ms & frames & Hw & Hu & Hd & He). apply IpcSessionFacts.wp_iteration.
  - intros x s' (_ & _ & _ & _ & Ht) Hx. split; [congruence | exact Hx].
  - intros s0 s1 _ _ (_ & _ & _ & Hr & Ht).
    assert (Clean s1) as Hc by (exists ms, frames; rewrite Hr, Ht; done).
    refine (wp_mono _ _ _ _ _ (clean_poll s1 Hc)). intros [[m|]|x] s2; [|done|done].
    intros (m' & -> & (_ & _ & _ & Hdisp) & (ms2 & frames2 & Hw2 & Hu2 & Hd2 & He2)).
    refine (wp_mono _ _ _ _ _ (wp_and _ _ _ _ (Hdisp s2) (wp_preserves _ _ s2 (IpcSessionFacts.inbox_dispatch F _ (core_envelope m')) eq_refl))).
    intros x s3 [[Ht3 Hx] Hin]. unfold IpcSessionFacts.inbox_is in Hin. rewrite He2 in Ht3.
    destruct Hx as [-> | [e ->]]; [|done]. exists ms2, frames2. by rewrite Hin.
Qed.

Lemma clean_loop fuel : forall s x s', Clean s -> IpcSession.session_loop F fuel s = (Some x, s') -> clean_end x s'.
Proof.
  induction fuel as [|fuel IH]; intros s x s' Hc Hl; cbn in Hl; [done|].
  pose proof (clean_iteration s Hc) as Hi. destruct (IpcSession.iteration F s) as [[[]|y] s1] eqn:Hit;
    apply (proj1 (wp_run _ _ _ _ _ Hit)) in Hi; [by eapply IH | by simplify_eq].
Qed.

(** ** Properties *)

(** C28: the core finds nothing wrong with the client.  Take any interleaving of
    the client's tasks, and hand the bytes it has written on the command pipe to
    a session of the core, cut into chunks in any way and with the poll timer
    expiring any number of times between frames, in any environment and with
    any commands.  Then the session returns, it has counted no protocol error,
    and if it ended normally it was the heartbeat rule that ended it. *)
Theorem client_session_clean ls c r n t cmds d :
  exec E args ls start = Some c -> Delivery (frames_written c) r ->
  exists x s, IpcSession.handle_session_io F n t r cmds d = (Some x, s) /\
    IpcSession.protocol_errors s = [] /\
    (x = Ok tt -> Ipc.last_notice (IpcSession.debug_status s) = Some IpcSessionSpec.heartbeat_notice).
Proof.
  intros Hrun Hd. destruct (IpcSessionFacts.handle_session_io_returns F n t r cmds d) as (x & s & Hs).
  exists x, s. split; [exact Hs|]. unfold IpcSession.handle_session_io in Hs. refine (clean_loop _ _ _ _ _ Hs).
  exists (cmd_pipe c), (frames_written c). split_and!; [| by eapply client_understood | exact Hd | reflexivity].
  pose proof (encoded_reachable E args ls c Hrun) as Henc. unfold frames_written.
  induction Henc as [|m ms Hm _ IH]; constructor; [by destruct (write_frame m) | exact IH].
Qed.
End Session.
