(* ===== verification/Schema.v ===== *)
(** * Schema: the wire form of the protocol's messages ([src/ipc/mod.rs])

    What [#[derive(Serialize, Deserialize)]] and the [#[serde(..)]] attributes of
    the messages say: the names of the fields, which of them may be missing, the
    spelling of the enumerations.  Both programs declare the messages, the core
    in [ipc/mod.rs] and the development client in [bin/ipc_dev_client.rs]; the
    classes of codecs that [IpcSession], [IpcWire] and [DevClient] assume get
    their instances here, with MessagePack ([Msgpack]) underneath, and the laws
    those components rely on are proved of them. *)

From S2P Require Import Prelude RustStd Channels Msgpack.
From S2P Require Ipc IpcWire IpcSession.
From S2P Require DevClient DevClientSpec Interop.

#[local] Open Scope Z_scope.

(** A type with a wire form; [in_range] says the integers have their widths. *)
Class Schema (T : Type) := {
  to_value : T -> Json;
  of_value : Json -> result string T;
  in_range : T -> bool;
}.

(** Reading back what was written. *)
Class SchemaLaws (T : Type) `{Schema T} :=
  of_to_value : forall x, in_range x = true -> of_value (to_value x) = Ok x.

(** Instances are looked up for a known type only. *)
#[global] Hint Mode Schema ! : typeclass_instances.

(** ** Fields *)

Definition lookup_field (k : string) (m : list (string * Json)) : option Json :=
  snd <$> List.find (fun kv => String.eqb kv.1 k) m.

Definition fields (j : Json) : result string (list (string * Json)) :=
  match j with JObj m => Ok m | _ => Err "invalid type, expected a struct" end.

Definition get {T} `{!Schema T} (k : string) (m : list (string * Json)) : result string T :=
  match lookup_field k m with Some j => of_value j | None => Err ("missing field `" +:+ k +:+ "`") end.

(** An [Option] may be missing, and so may a field with [#[serde(default)]]. *)
Definition get_or {T} `{!Schema T} (d : T) (k : string) (m : list (string * Json)) : result string T :=
  match lookup_field k m with Some j => of_value j | None => Ok d end.

(** An unsigned integer of at most [mx]. *)
Definition uint (mx : Z) (j : Json) : result string Z :=
  match j with
  | JNum n => if (0 <=? n) && (n <=? mx) then Ok n else Err "invalid value: integer"
  | _ => Err "invalid type, expected an integer"
  end.
Definition get_uint (mx : Z) (k : string) (m : list (string * Json)) : result string Z :=
  match lookup_field k m with Some j => uint mx j | None => Err ("missing field `" +:+ k +:+ "`") end.
Definition within (mx n : Z) : bool := (0 <=? n) && (n <=? mx).

(** [#[serde(skip_serializing_if = "Option::is_none")]]. *)
Definition skip_none {T} `{!Schema T} (k : string) (o : option T) : list (string * Json) :=
  match o with Some x => [(k, to_value x)] | None => [] end.

(** A unit variant is its name. *)
Definition variant {T} (name : T -> string) (all : list T) (j : Json) : result string T :=
  match j with
  | JStr s => match List.find (fun x => String.eqb (name x) s) all with Some x => Ok x | None => Err ("unknown variant `" +:+ s +:+ "`") end
  | _ => Err "invalid type, expected a variant"
  end.

Lemma uint_within mx n : within mx n = true -> uint mx (JNum n) = Ok n.
Proof. unfold uint, within. by intros ->. Qed.

(** ** Types of the standard library *)

#[global] Instance json_schema : Schema Json := {|
  to_value := fun j => j; of_value := Ok; in_range := fun _ => true |}.
#[global] Instance string_schema : Schema string := {|
  to_value := JStr; of_value := fun j => match j with JStr s => Ok s | _ => Err "invalid type, expected a string" end;
  in_range := fun _ => true |}.
#[global] Instance bool_schema : Schema bool := {|
  to_value := JBool; of_value := fun j => match j with JBool b => Ok b | _ => Err "invalid type, expected a boolean" end;
  in_range := fun _ => true |}.
#[global] Instance option_schema {T} `{!Schema T} : Schema (option T) := {|
  to_value := fun o => match o with Some x => to_value x | None => JNull end;
  of_value := fun j => match j with JNull => Ok None | _ => x ← of_value j; Ok (Some x) end;
  in_range := fun o => match o with Some x => in_range x | None => true end |}.
Fixpoint of_values {T} `{!Schema T} (l : list Json) : result string (list T) :=
  match l with [] => Ok [] | j :: l => x ← of_value j; xs ← of_values l; Ok (x :: xs) end.
#[global] Instance list_schema {T} `{!Schema T} : Schema (list T) := {|
  to_value := fun l => JArr (map to_value l);
  of_value := fun j => match j with JArr l => of_values l | _ => Err "invalid type, expected a sequence" end;
  in_range := forallb in_range |}.

#[global] Instance json_laws : SchemaLaws Json. Proof. done. Qed.
#[global] Instance string_laws : SchemaLaws string. Proof. done. Qed.
#[global] Instance bool_laws : SchemaLaws bool. Proof. done. Qed.
#[global] Instance list_laws {T} `{SchemaLaws T} : SchemaLaws (list T).
Proof.
  intros l Hl. cbn in *. induction l as [|x l IH]; [done|]. cbn in *. apply andb_prop in Hl as [Hx Hl].
  rewrite of_to_value by done. cbn. by rewrite IH.
Qed.

Lemma of_strings (l : list string) : of_values (map JStr l) = Ok l.
Proof. induction l as [|x l IH]; [done|]. cbn. by rewrite IH. Qed.

(** A field is found where its name is. *)
Lemma lookup_here k j m : lookup_field k ((k, j) :: m) = Some j.
Proof. unfold lookup_field. cbn. by rewrite String.eqb_refl. Qed.
Lemma lookup_later k k' j m : String.eqb k' k = false -> lookup_field k ((k', j) :: m) = lookup_field k m.
Proof. unfold lookup_field. cbn. by intros ->. Qed.

Lemma of_to_some {T} `{SchemaLaws T} (x : T) : to_value x <> JNull -> in_range x = true -> of_value (to_value x) = Ok (Some x).
Proof. intros Hn Hx. cbn. destruct (to_value x) eqn:Hv; [done|..]; by rewrite <- Hv, of_to_value. Qed.

(** A structure reads back field by field. *)
Ltac read_fields :=
  intros []; cbn; intros;
  repeat match goal with
         | H : _ && _ = true |- _ => apply andb_prop in H as [? ?]
         | |- context [of_values (map JStr _)] => rewrite of_strings; cbn
         | H : in_range ?x = true |- context [of_value (to_value ?x)] => rewrite (of_to_value x) by exact H; cbn
         | H : within ?mx ?n = true |- context [uint ?mx (JNum ?n)] => rewrite (uint_within mx n H); cbn
         | o : option _ |- _ => destruct o; cbn
         | e : _ |- context [variant _ _ (JStr (_ ?e))] => destruct e; unfold variant; cbn
         end; try done.
#[global] Arguments uint : simpl never.
#[global] Arguments within : simpl never.
#[global] Arguments variant : simpl never.

(** ** The core's messages *)

Module Core.
Import Ipc.

Definition Priority_all := [Critical; High; Normal; Low].
Definition SnapshotMode_all := [ModeStudio; ModeIrl].
Definition SnapshotHealth_all := [Good; Degraded; Offline].
Definition RelayStatus_all := [Inactive; Provisioning; Active; Grace].
Definition StateModeV1_all := [SM_Studio; SM_IrlConnecting; SM_IrlActive; SM_IrlGrace; SM_Degraded; SM_Fatal].
Definition UserNoticeLevel_all := [Info; Warn; Error].
Definition ProtocolErrorCode_all := [FrameTooLarge; DecodeFailed; UnknownType; Timeout; InvalidPayload].

(** An enumeration under its wire names. *)
Definition enum {T} (name : T -> string) (all : list T) : Schema T := {|
  to_value := fun x => JStr (name x); of_value := variant name all; in_range := fun _ => true |}.
#[global] Instance Priority_schema : Schema Priority := enum Priority_name Priority_all.
#[global] Instance SnapshotMode_schema : Schema SnapshotMode := enum SnapshotMode_name SnapshotMode_all.
#[global] Instance SnapshotHealth_schema : Schema SnapshotHealth := enum SnapshotHealth_name SnapshotHealth_all.
#[global] Instance RelayStatus_schema : Schema RelayStatus := enum RelayStatus_name RelayStatus_all.
#[global] Instance StateModeV1_schema : Schema StateModeV1 := enum StateModeV1_name StateModeV1_all.
#[global] Instance UserNoticeLevel_schema : Schema UserNoticeLevel := enum UserNoticeLevel_name UserNoticeLevel_all.
#[global] Instance ProtocolErrorCode_schema : Schema ProtocolErrorCode := enum ProtocolErrorCode_name ProtocolErrorCode_all.

#[global] Instance Priority_laws : SchemaLaws Priority. Proof. by intros []. Qed.
#[global] Instance SnapshotMode_laws : SchemaLaws SnapshotMode. Proof. by intros []. Qed.
#[global] Instance SnapshotHealth_laws : SchemaLaws SnapshotHealth. Proof. by intros []. Qed.
#[global] Instance RelayStatus_laws : SchemaLaws RelayStatus. Proof. by intros []. Qed.
#[global] Instance StateModeV1_laws : SchemaLaws StateModeV1. Proof. by intros []. Qed.
#[global] Instance UserNoticeLevel_laws : SchemaLaws UserNoticeLevel. Proof. by intros []. Qed.
#[global] Instance ProtocolErrorCode_laws : SchemaLaws ProtocolErrorCode. Proof. by intros []. Qed.

#[global] Instance Envelope_schema {T} `{!Schema T} : Schema (Envelope T) := {|
  to_value := fun e => JObj [("v", JNum (v e)); ("id", to_value (id e)); ("ts_unix_ms", JNum (ts_unix_ms e));
    ("type", to_value (message_type e)); ("priority", to_value (priority e)); ("payload", to_value (payload e))];
  of_value := fun j =>
    m ← fields j; v ← get_uint Int.u8_max "v" m; id ← get "id" m; ts ← get_uint Int.u64_max "ts_unix_ms" m;
    ty ← get "type" m; pr ← get "priority" m; p ← get "payload" m; Ok (mkEnvelope v id ts ty pr p);
  in_range := fun e => within Int.u8_max (v e) && within Int.u64_max (ts_unix_ms e) && in_range (payload e) |}.

#[global] Instance HelloPayload_schema : Schema HelloPayload := {|
  to_value := fun p => JObj [("plugin_version", to_value (plugin_version p));
    ("protocol_version", JNum (hello_protocol_version p)); ("obs_pid", JNum (obs_pid p)); ("capabilities", to_value (capabilities p))];
  of_value := fun j =>
    m ← fields j; x ← get "plugin_version" m; y ← get_uint Int.u8_max "protocol_version" m;
    z ← get_uint Int.u32_max "obs_pid" m; c ← get_or [] "capabilities" m;
    Ok {| plugin_version := x; hello_protocol_version := y; obs_pid := z; capabilities := c |};
  in_range := fun p => within Int.u8_max (hello_protocol_version p) && within Int.u32_max (obs_pid p) && in_range (capabilities p) |}.

#[global] Instance PingPayload_schema : Schema PingPayload := {|
  to_value := fun p => JObj [("nonce", to_value (ping_nonce p))];
  of_value := fun j => m ← fields j; x ← get "nonce" m; Ok {| ping_nonce := x |};
  in_range := fun _ => true |}.

#[global] Instance RequestStatusPayload_schema : Schema RequestStatusPayload := {|
  to_value := fun _ => JObj []; of_value := fun j => _ ← fields j; Ok mkRequestStatus; in_range := fun _ => true |}.

#[global] Instance HelloAckPayload_schema : Schema HelloAckPayload := {|
  to_value := fun p => JObj [("core_version", to_value (core_version p));
    ("protocol_version", JNum (ack_protocol_version p)); ("capabilities", to_value (ack_capabilities p))];
  of_value := fun j =>
    m ← fields j; x ← get "core_version" m; y ← get_uint Int.u8_max "protocol_version" m; c ← get "capabilities" m;
    Ok {| core_version := x; ack_protocol_version := y; ack_capabilities := c |};
  in_range := fun p => within Int.u8_max (ack_protocol_version p) && in_range (ack_capabilities p) |}.

#[global] Instance PongPayload_schema : Schema PongPayload := {|
  to_value := fun p => JObj [("nonce", to_value (pong_nonce p))];
  of_value := fun j => m ← fields j; x ← get "nonce" m; Ok {| pong_nonce := x |};
  in_range := fun _ => true |}.

#[global] Instance SceneSwitchResultPayload_schema : Schema SceneSwitchResultPayload := {|
  to_value := fun p => JObj [("request_id", to_value (result_request_id p)); ("ok", to_value (result_ok p)); ("error", to_value (result_error p))];
  of_value := fun j => m ← fields j; i ← get "request_id" m; o ← get "ok" m; e ← get_or None "error" m;
    Ok {| result_request_id := i; result_ok := o; result_error := e |};
  in_range := fun _ => true |}.

#[global] Instance ObsShutdownNoticePayload_schema : Schema ObsShutdownNoticePayload := {|
  to_value := fun p => JObj [("reason", to_value (shutdown_reason p))];
  of_value := fun j => m ← fields j; x ← get "reason" m; Ok {| shutdown_reason := x |};
  in_range := fun _ => true |}.

#[global] Instance SwitchScenePayload_schema : Schema SwitchScenePayload := {|
  to_value := fun p => JObj [("request_id", to_value (request_id p)); ("scene_name", to_value (scene_name p));
    ("reason", to_value (reason p)); ("deadline_ms", JNum (deadline_ms p))];
  of_value := fun j => m ← fields j; i ← get "request_id" m; s ← get "scene_name" m; r ← get "reason" m;
    d ← get_uint Int.u64_max "deadline_ms" m; Ok {| request_id := i; scene_name := s; reason := r; deadline_ms := d |};
  in_range := fun p => within Int.u64_max (deadline_ms p) |}.

#[global] Instance SetModeRequestPayload_schema : Schema SetModeRequestPayload := {|
  to_value := fun p => JObj [("mode", to_value (mode_request p))];
  of_value := fun j => m ← fields j; x ← get "mode" m; Ok {| mode_request := x |};
  in_range := fun _ => true |}.

#[global] Instance SetSettingRequestPayload_schema : Schema SetSettingRequestPayload := {|
  to_value := fun p => JObj [("key", to_value (setting_key p)); ("value", to_value (setting_value p))];
  of_value := fun j => m ← fields j; k ← get "key" m; x ← get "value" m; Ok {| setting_key := k; setting_value := x |};
  in_range := fun _ => true |}.

#[global] Instance RelaySnapshot_schema : Schema RelaySnapshot := {|
  to_value := fun p => JObj [("status", to_value (relay_status p)); ("region", to_value (relay_region p));
    ("grace_remaining_seconds", JNum (relay_grace_remaining_seconds p))];
  of_value := fun j => m ← fields j; s ← get "status" m; r ← get_or None "region" m;
    g ← get_uint Int.u64_max "grace_remaining_seconds" m;
    Ok {| relay_status := s; relay_region := r; relay_grace_remaining_seconds := g |};
  in_range := fun p => within Int.u64_max (relay_grace_remaining_seconds p) |}.

#[global] Instance StatusSnapshotSettingsPayload_schema : Schema StatusSnapshotSettingsPayload := {|
  to_value := fun p => JObj (skip_none "auto_scene_switch" (set_auto_scene_switch p)
    ++ skip_none "low_quality_fallback" (set_low_quality_fallback p) ++ skip_none "manual_override" (set_manual_override p)
    ++ skip_none "chat_bot" (set_chat_bot p) ++ skip_none "alerts" (set_alerts p));
  of_value := fun j => m ← fields j; a ← get_or None "auto_scene_switch" m; l ← get_or None "low_quality_fallback" m;
    o ← get_or None "manual_override" m; c ← get_or None "chat_bot" m; n ← get_or None "alerts" m;
    Ok {| set_auto_scene_switch := a; set_low_quality_fallback := l; set_manual_override := o; set_chat_bot := c; set_alerts := n |};
  in_range := fun _ => true |}.

#[global] Instance StatusSnapshotPayload_schema : Schema StatusSnapshotPayload := {|
  to_value := fun p => JObj ([("mode", to_value (snap_mode p)); ("state_mode", to_value (snap_state_mode p));
    ("health", to_value (snap_health p)); ("bitrate_kbps", JNum (snap_bitrate_kbps p)); ("rtt_ms", JNum (snap_rtt_ms p));
    ("override_enabled", to_value (snap_override_enabled p)); ("relay", to_value (snap_relay p))]
    ++ skip_none "settings" (snap_settings p));
  of_value := fun j => m ← fields j; mo ← get "mode" m; st ← get "state_mode" m; h ← get "health" m;
    b ← get_uint Int.u32_max "bitrate_kbps" m; r ← get_uint Int.u32_max "rtt_ms" m; o ← get "override_enabled" m;
    re ← get "relay" m; se ← get_or None "settings" m;
    Ok {| snap_mode := mo; snap_state_mode := st; snap_health := h; snap_bitrate_kbps := b; snap_rtt_ms := r;
          snap_override_enabled := o; snap_relay := re; snap_settings := se |};
  in_range := fun p => within Int.u32_max (snap_bitrate_kbps p) && within Int.u32_max (snap_rtt_ms p) && in_range (snap_relay p) |}.

#[global] Instance UserNoticePayload_schema : Schema UserNoticePayload := {|
  to_value := fun p => JObj [("level", to_value (level p)); ("message", to_value (message p))];
  of_value := fun j => m ← fields j; l ← get "level" m; x ← get "message" m; Ok {| level := l; message := x |};
  in_range := fun _ => true |}.

#[global] Instance ProtocolErrorPayload_schema : Schema ProtocolErrorPayload := {|
  to_value := fun p => JObj ([("code", to_value (code p)); ("message", to_value (error_message p))]
    ++ skip_none "related_message_id" (related_message_id p));
  of_value := fun j => m ← fields j; c ← get "code" m; x ← get "message" m; r ← get_or None "related_message_id" m;
    Ok {| code := c; error_message := x; related_message_id := r |};
  in_range := fun _ => true |}.

(** A payload on its way out: the type of the message says which it is. *)
#[global] Instance EvtPayload_schema : Schema EvtPayload := {|
  to_value := fun p => match p with
    | EvtHelloAck p => to_value p | EvtPong p => to_value p | EvtStatusSnapshot p => to_value p
    | EvtSwitchScene p => to_value p | EvtUserNotice p => to_value p | EvtProtocolError p => to_value p end;
  of_value := fun _ => Err "serialized only";
  in_range := fun p => match p with
    | EvtHelloAck p => in_range p | EvtPong p => in_range p | EvtStatusSnapshot p => in_range p
    | EvtSwitchScene p => in_range p | EvtUserNotice p => in_range p | EvtProtocolError p => in_range p end |}.

#[global] Instance HelloPayload_laws : SchemaLaws HelloPayload. Proof. read_fields. Qed.
#[global] Instance PingPayload_laws : SchemaLaws PingPayload. Proof. read_fields. Qed.
#[global] Instance RequestStatusPayload_laws : SchemaLaws RequestStatusPayload. Proof. read_fields. Qed.
#[global] Instance HelloAckPayload_laws : SchemaLaws HelloAckPayload. Proof. read_fields. Qed.
#[global] Instance PongPayload_laws : SchemaLaws PongPayload. Proof. read_fields. Qed.
#[global] Instance SceneSwitchResultPayload_laws : SchemaLaws SceneSwitchResultPayload. Proof. read_fields. Qed.
#[global] Instance ObsShutdownNoticePayload_laws : SchemaLaws ObsShutdownNoticePayload. Proof. read_fields. Qed.
#[global] Instance SwitchScenePayload_laws : SchemaLaws SwitchScenePayload. Proof. read_fields. Qed.
#[global] Instance SetModeRequestPayload_laws : SchemaLaws SetModeRequestPayload. Proof. read_fields. Qed.
#[global] Instance SetSettingRequestPayload_laws : SchemaLaws SetSettingRequestPayload. Proof. read_fields. Qed.
#[global] Instance RelaySnapshot_laws : SchemaLaws RelaySnapshot. Proof. read_fields. Qed.
#[global] Instance StatusSnapshotSettingsPayload_laws : SchemaLaws StatusSnapshotSettingsPayload. Proof. read_fields. Qed.
#[global] Instance UserNoticePayload_laws : SchemaLaws UserNoticePayload. Proof. read_fields. Qed.
#[global] Instance ProtocolErrorPayload_laws : SchemaLaws ProtocolErrorPayload. Proof. read_fields. Qed.
#[global] Instance StatusSnapshotPayload_laws : SchemaLaws StatusSnapshotPayload.
Proof.
  intros [mo st h b r o re se] Hr. cbn in Hr. apply andb_prop in Hr as [[Hb Hr]%andb_prop Hre].
  cbn [to_value of_value StatusSnapshotPayload_schema fields mbind result_bind]. cbn [snap_mode snap_state_mode snap_health snap_bitrate_kbps
    snap_rtt_ms snap_override_enabled snap_relay snap_settings app].
  unfold get, get_uint, get_or.
  repeat (first [rewrite lookup_here | rewrite lookup_later by done | rewrite of_to_value by done | rewrite uint_within by done];
    cbn [mbind result_bind]).
  destruct se as [se|]; [|done]. cbn [skip_none]. rewrite lookup_here, of_to_some by done. done.
Qed.
#[global] Instance Envelope_laws {T} `{SchemaLaws T} : SchemaLaws (Envelope T).
Proof.
  intros [n i ts ty pr p] Hr. cbn in Hr. apply andb_prop in Hr as [[Hn Hts]%andb_prop Hp].
  cbn [to_value of_value Envelope_schema fields mbind result_bind v id ts_unix_ms message_type priority payload].
  unfold get, get_uint.
  repeat (first [rewrite lookup_here | rewrite lookup_later by done | rewrite of_to_value by done | rewrite uint_within by done];
    cbn [mbind result_bind]). done.
Qed.
End Core.

(** ** The client's messages *)

Module Client.
Import DevClient.

Definition client_Priority_name (p : Priority) : string :=
  match p with Critical => "critical" | High => "high" | Normal => "normal" | Low => "low" end.
Definition client_Priority_all := [Critical; High; Normal; Low].
#[global] Instance client_Priority_schema : Schema Priority := {|
  to_value := fun x => JStr (client_Priority_name x); of_value := variant client_Priority_name client_Priority_all; in_range := fun _ => true |}.
#[global] Instance client_Priority_laws : SchemaLaws Priority. Proof. by intros []. Qed.

#[global] Instance client_Envelope_schema {T} `{!Schema T} : Schema (Envelope T) := {|
  to_value := fun e => JObj [("v", JNum (v e)); ("id", to_value (id e)); ("ts_unix_ms", JNum (ts_unix_ms e));
    ("type", to_value (message_type e)); ("priority", to_value (priority e)); ("payload", to_value (payload e))];
  of_value := fun j =>
    m ← fields j; v ← get_uint Int.u8_max "v" m; id ← get "id" m; ts ← get_uint Int.u64_max "ts_unix_ms" m;
    ty ← get "type" m; pr ← get "priority" m; p ← get "payload" m; Ok (mkEnvelope v id ts ty pr p);
  in_range := fun e => within Int.u8_max (v e) && within Int.u64_max (ts_unix_ms e) && in_range (payload e) |}.

#[global] Instance client_HelloPayload_schema : Schema HelloPayload := {|
  to_value := fun p => JObj [("plugin_version", to_value (plugin_version p)); ("protocol_version", JNum (protocol_version p));
    ("obs_pid", JNum (obs_pid p)); ("capabilities", to_value (capabilities p))];
  of_value := fun j =>
    m ← fields j; x ← get "plugin_version" m; y ← get_uint Int.u8_max "protocol_version" m;
    z ← get_uint Int.u32_max "obs_pid" m; c ← get "capabilities" m;
    Ok {| plugin_version := x; protocol_version := y; obs_pid := z; capabilities := c |};
  in_range := fun p => within Int.u8_max (protocol_version p) && within Int.u32_max (obs_pid p) && in_range (capabilities p) |}.

#[global] Instance client_PingPayload_schema : Schema PingPayload := {|
  to_value := fun p => JObj [("nonce", to_value (nonce p))];
  of_value := fun j => m ← fields j; x ← get "nonce" m; Ok {| nonce := x |};
  in_range := fun _ => true |}.

#[global] Instance client_RequestStatusPayload_schema : Schema RequestStatusPayload := {|
  to_value := fun _ => JObj []; of_value := fun j => _ ← fields j; Ok mkRequestStatus; in_range := fun _ => true |}.

#[global] Instance client_SceneSwitchResultPayload_schema : Schema SceneSwitchResultPayload := {|
  to_value := fun p => JObj [("request_id", to_value (result_request_id p)); ("ok", to_value (ok p)); ("error", to_value (error p))];
  of_value := fun j => m ← fields j; i ← get "request_id" m; o ← get "ok" m; e ← get_or None "error" m;
    Ok {| result_request_id := i; ok := o; error := e |};
  in_range := fun _ => true |}.

#[global] Instance client_SwitchScenePayload_schema : Schema SwitchScenePayload := {|
  to_value := fun p => JObj [("request_id", to_value (request_id p)); ("scene_name", to_value (scene_name p));
    ("reason", to_value (reason p)); ("deadline_ms", JNum (deadline_ms p))];
  of_value := fun j => m ← fields j; i ← get "request_id" m; s ← get "scene_name" m; r ← get "reason" m;
    d ← get_uint Int.u64_max "deadline_ms" m; Ok {| request_id := i; scene_name := s; reason := r; deadline_ms := d |};
  in_range := fun p => within Int.u64_max (deadline_ms p) |}.
End Client.

(** ** The codecs of the components *)

(** [serde_json::to_value] and [from_value] at the core's types. *)
#[global] Instance core_codec : IpcSession.PayloadCodec Json := {|
  IpcSession.value_hello := of_value; IpcSession.value_ping := of_value; IpcSession.value_request_status := of_value;
  IpcSession.value_set_mode := of_value; IpcSession.value_set_setting := of_value;
  IpcSession.value_scene_switch_result := of_value; IpcSession.value_obs_shutdown := of_value |}.

(** And at the client's; [print] is [serde_json::to_string], for its log lines. *)
Definition client_codec (print : Json -> result string string) : DevClient.ClientCodec Json := {|
  DevClient.hello_to_value := fun p => if in_range p then Ok (to_value p) else Err "out of range";
  DevClient.ping_to_value := fun p => Ok (to_value p);
  DevClient.request_status_to_value := fun p => Ok (to_value p);
  DevClient.result_to_value := fun p => Ok (to_value p);
  DevClient.switch_scene_from_value := of_value;
  DevClient.value_to_string := print;
  DevClient.value_default := JNull |}.

(** [rmp_serde]: the schema of the type, in MessagePack. *)
Definition storable (j : Json) : bool := fits j && (depth j <? DEPTH)%nat.

Section Rmp.
Context {Out In : Type} `{!Schema Out} `{!Schema In}.

Definition to_vec_named (m : Out) : result string bytes :=
  if in_range m && storable (to_value m) then Ok (encode (to_value m)) else Err "value out of range".
Definition from_slice (bs : bytes) : result string In :=
  match decode DEPTH bs with Some (j, _) => of_value j | None => Err "invalid MessagePack" end.
Definition rmp : IpcWire.WireCodec Out In :=
  {| IpcWire.to_vec_named := to_vec_named; IpcWire.from_slice := from_slice |}.

(** What is written at one type can be read at another. *)
Lemma rmp_reads (view : Out -> In) :
  (forall m, in_range m = true -> of_value (to_value m) = Ok (view m)) ->
  forall m bs, to_vec_named m = Ok bs -> from_slice bs = Ok (view m).
Proof.
  intros Hr m bs. unfold to_vec_named, from_slice, storable.
  destruct (in_range m) eqn:Hm; [|done]. destruct (fits (to_value m)) eqn:Hf; [|done].
  destruct (Nat.ltb_spec (depth (to_value m)) DEPTH) as [Hd|]; [|done]. intros [= <-].
  rewrite <- (app_nil_r (encode _)), decode_encode_app by done. by apply Hr.
Qed.
End Rmp.

(** ** Both programs at this codec *)

#[global] Instance core_wire : IpcWire.WireCodec (Ipc.Envelope Ipc.EvtPayload) (Ipc.Envelope Json) := rmp.
#[global] Instance client_wire : IpcWire.WireCodec (DevClient.Envelope Json) (DevClient.Envelope Json) := rmp.

(** An envelope as its readers see it: the payload is still JSON. *)
Definition seen {T} `{!Schema T} (m : Ipc.Envelope T) : Ipc.Envelope Json :=
  Ipc.mkEnvelope (Ipc.v m) (Ipc.id m) (Ipc.ts_unix_ms m) (Ipc.message_type m) (Ipc.priority m) (to_value (Ipc.payload m)).
Definition client_priority (p : Ipc.Priority) : DevClient.Priority :=
  match p with
  | Ipc.Critical => DevClient.Critical | Ipc.High => DevClient.High | Ipc.Normal => DevClient.Normal | Ipc.Low => DevClient.Low end.
Definition client_envelope {T} `{!Schema T} (m : Ipc.Envelope T) : DevClient.Envelope Json :=
  DevClient.mkEnvelope (Ipc.v m) (Ipc.id m) (Ipc.ts_unix_ms m) (Ipc.message_type m) (client_priority (Ipc.priority m))
    (to_value (Ipc.payload m)).

Lemma seen_value {T} `{!Schema T} (m : Ipc.Envelope T) : to_value (seen m) = to_value m.
Proof. reflexivity. Qed.

Lemma core_reads_core {T} `{!Schema T} (m : Ipc.Envelope T) : in_range m = true -> of_value (to_value m) = Ok (seen m).
Proof.
  intros Hm. rewrite <- seen_value. apply (of_to_value (seen m)). cbn in *. by apply andb_prop in Hm as [-> _].
Qed.

Lemma client_reads_core {T} `{!Schema T} (m : Ipc.Envelope T) : in_range m = true -> of_value (to_value m) = Ok (client_envelope m).
Proof.
  intros Hm. destruct m as [n i ts ty pr p]. cbn in Hm. apply andb_prop in Hm as [[Hn Ht]%andb_prop _].
  cbn. rewrite uint_within by done. cbn. rewrite uint_within by done. by destruct pr.
Qed.

Lemma core_reads_client (m : DevClient.Envelope Json) : in_range m = true -> of_value (to_value m) = Ok (DevClientSpec.core_envelope m).
Proof.
  intros Hm. destruct m as [n i ts ty pr p]. cbn in Hm. apply andb_prop in Hm as [[Hn Ht]%andb_prop _].
  cbn. rewrite uint_within by done. cbn. rewrite uint_within by done. by destruct pr.
Qed.

#[global] Instance core_wire_laws : IpcWire.WireCodecLaws (Ipc.Envelope Ipc.EvtPayload) (Ipc.Envelope Json) seen.
Proof. split. exact (rmp_reads seen core_reads_core). Qed.

#[global] Instance between_laws :
  IpcWire.WireCodecLaws (H:=Interop.between) (DevClient.Envelope Json) (Ipc.Envelope Json) DevClientSpec.core_envelope.
Proof. split. exact (rmp_reads _ core_reads_client). Qed.

#[global] Instance serde_laws print : DevClientSpec.SerdeLaws (client:=client_codec print) Json.
Proof.
  split; cbn.
  - intros h x. destruct (within _ _ && _ && _) eqn:Hr; [|done]. intros [= <-].
    exact (of_to_value (DevClientSpec.core_hello h) Hr).
  - intros p. eexists. split; [reflexivity|]. exact (of_to_value (DevClientSpec.core_ping p) eq_refl).
  - eexists. split; reflexivity.
  - intros r. eexists. split; [reflexivity|]. exact (of_to_value (DevClientSpec.core_result r) eq_refl).
Qed.

(** Waiting for the poll timer aside, the client reads as the core does. *)
Lemma client_read_exact r : forall n acc x r',
  IpcWire.read_exact n acc r = (IpcWire.Ready x, r') -> DevClient.read_exact n acc r = (x, r').
Proof.
  induction r as [|[bs| |e] r IH]; intros [|n] acc x r' H; cbn [IpcWire.read_exact DevClient.read_exact] in *; simplify_eq; try done.
  case_match; simplify_eq; [done | by apply IH].
Qed.

Lemma client_read_body (pre post : IpcWire.Reader) (body rest : bytes) :
  Forall IpcWire.is_chunk pre -> Z.of_nat (length body) <= Ipc.MAX_FRAME_SIZE ->
  IpcWire.flatten pre = IpcWire.u32_le (Z.of_nat (length body)) ++ body ++ rest ->
  exists pre', DevClient.read_frame (pre ++ post) =
      (map_err DevClient.invalid_data (IpcWire.from_slice (WireCodec:=client_wire) body), pre' ++ post)
    /\ Forall IpcWire.is_chunk pre' /\ IpcWire.flatten pre' = rest.
Proof.
  intros Hc Hlen Hf. destruct (IpcWire.read_header pre post _ _ Hc Hf) as (pre1 & H1 & Hc1 & Hf1).
  apply client_read_exact in H1. unfold DevClient.read_frame. rewrite H1, IpcWire.from_u32_le_u32_le by (unfold Ipc.MAX_FRAME_SIZE in Hlen; lia).
  change DevClient.MAX_FRAME_SIZE with Ipc.MAX_FRAME_SIZE.
  destruct (Z.ltb_spec Ipc.MAX_FRAME_SIZE (Z.of_nat (length body))); [lia|]. rewrite Nat2Z.id.
  destruct (IpcWire.read_exact_chunks pre1 post (length body) [] Hc1) as (pre2 & H2 & Hc2 & Hf2);
    [rewrite Hf1, length_app; lia|].
  apply client_read_exact in H2. rewrite H2, Hf1, take_app_length. exists pre2. split_and!; [done | done |].
  by rewrite Hf2, Hf1, drop_app_length.
Qed.

(** ** Properties *)

(** A scene switch at the client's own type. *)
Definition client_switch (q : Ipc.SwitchScenePayload) : DevClient.SwitchScenePayload :=
  {| DevClient.request_id := Ipc.request_id q; DevClient.scene_name := Ipc.scene_name q;
     DevClient.reason := Ipc.reason q; DevClient.deadline_ms := Ipc.deadline_ms q |}.

Lemma client_reads_switch (q : Ipc.SwitchScenePayload) : in_range q = true -> of_value (to_value q) = Ok (client_switch q).
Proof. intros Hq. cbn in *. by rewrite uint_within. Qed.

(** The payload as the type of its message promises it. *)
Definition read_back (p : Ipc.EvtPayload) (j : Json) : Prop :=
  match p with
  | Ipc.EvtHelloAck q => of_value j = Ok q
  | Ipc.EvtPong q => of_value j = Ok q
  | Ipc.EvtStatusSnapshot q => of_value j = Ok q
  | Ipc.EvtSwitchScene q => of_value j = Ok q /\
      of_value j = Ok (client_switch q)
  | Ipc.EvtUserNotice q => of_value j = Ok q
  | Ipc.EvtProtocolError q => of_value j = Ok q
  end.

(** C9: what the core writes, its readers read.  Every message [write_frame]
    accepts, in MessagePack under the names and the spelling of the
    declarations, however its bytes are cut into chunks: [read_frame] of the core
    and [read_frame] of the development client both give back the envelope, leave
    nothing of the frame behind, and the payload, which they hand on as JSON,
    reads back at the type of the message as the very payload that was written:
    missing optional fields as absent, enumerations as the same variants. *)
Theorem core_messages_read_back (m : Ipc.Envelope Ipc.EvtPayload) bs (pre post : IpcWire.Reader) :
  IpcWire.write_frame m = Ok bs -> Forall IpcWire.is_chunk pre -> IpcWire.flatten pre = bs ->
  (exists pre', IpcWire.read_frame (pre ++ post) = (IpcWire.Ready (Ok (seen m)), pre' ++ post) /\ IpcWire.flatten pre' = []) /\
  (exists pre', DevClient.read_frame (pre ++ post) = (Ok (client_envelope m), pre' ++ post) /\ IpcWire.flatten pre' = []) /\
  read_back (Ipc.payload m) (to_value (Ipc.payload m)).
Proof.
  intros Hw Hc Hf. pose proof (IpcWire.write_frame_inv m bs Hw) as (body & Hb & Hlen & ->).
  split_and!.
  - destruct (IpcWire.read_written_frame m _ [] pre post Hw Hc) as (pre' & Hr & _ & Hf'); [by rewrite app_nil_r|]. by exists pre'.
  - destruct (client_read_body pre post body [] Hc Hlen) as (pre' & Hr & _ & Hf'); [by rewrite app_nil_r|].
    exists pre'. rewrite Hr. cbn [IpcWire.from_slice client_wire rmp].
    by rewrite (rmp_reads client_envelope client_reads_core m body Hb).
  - cbn in Hb. unfold to_vec_named in Hb. destruct (in_range m) eqn:Hm; [|done]. cbn in Hm. apply andb_prop in Hm as [_ Hp].
    destruct (Ipc.payload m); cbn [read_back to_value in_range Core.EvtPayload_schema] in *; try by apply of_to_value.
    split; [by apply of_to_value | by apply client_reads_switch].
Qed.

(** ** Witnesses *)

Definition demo_override : Ipc.SessionOverrides.t :=
  snd (Ipc.SessionOverrides.apply_setting_if_changed "alerts" true Ipc.SessionOverrides.default).
Definition demo_snapshot : Ipc.Envelope Ipc.EvtPayload :=
  Ipc.mkEnvelope 1 "m7" 1700000000000 "status_snapshot" Ipc.High
    (Ipc.EvtStatusSnapshot (Ipc.build_status_snapshot_with_overrides Model.TelemetryFrame_default None demo_override)).
Definition demo_frame : bytes := Eval vm_compute in default [] (ok (IpcWire.write_frame demo_snapshot)).

(** A snapshot in two chunks, the first ending inside the length. *)
Lemma core_messages_read_back_witness :
  exists pre', IpcWire.read_frame [IpcWire.Chunk (take 3 demo_frame); IpcWire.Chunk (drop 3 demo_frame)]
    = (IpcWire.Ready (Ok (seen demo_snapshot)), pre' ++ []) /\ IpcWire.flatten pre' = [].
Proof.
  apply (core_messages_read_back demo_snapshot demo_frame
    [IpcWire.Chunk (take 3 demo_frame); IpcWire.Chunk (drop 3 demo_frame)] []).
  - vm_compute. reflexivity.
  - by repeat constructor.
  - vm_compute. reflexivity.
Defined.

#[local] Instance demo_print : DevClient.ClientCodec Json := client_codec (fun _ => Ok "{..}").

Definition greeting_labels : list DevClient.Label :=
  [ DevClient.OpenPipes (Some []) (Some [IpcWire.Idle]); DevClient.HeartbeatTurn; DevClient.MainTurn;
    DevClient.WriterTurn (Ok tt); DevClient.WriterTurn (Ok tt) ].
Definition greeting_client : DevClient.Client (Value:=Json) (Q:=Channels.Fifo (DevClient.Envelope Json)) :=
  Eval vm_compute in default DevClient.start (DevClient.exec DevClientSpec.demo_client_env [] greeting_labels DevClient.start).
Definition greeting_frames : list bytes := Eval vm_compute in Interop.frames_written greeting_client.

(** A ping and the hello, the second frame in two chunks, with the timer
    expiring between the frames. *)
Lemma client_session_clean_witness :
  exists x s, IpcSession.handle_session_io IpcSessionSpec.demo_env 0 0
      [IpcWire.Idle; IpcWire.Chunk (nth 0 greeting_frames []); IpcWire.Idle;
       IpcWire.Chunk (take 2 (nth 1 greeting_frames [])); IpcWire.Chunk (drop 2 (nth 1 greeting_frames []))]
      [] Ipc.new_debug_status = (Some x, s) /\ IpcSession.protocol_errors s = [].
Proof.
  destruct (Interop.client_session_clean DevClientSpec.demo_client_env [] IpcSessionSpec.demo_env greeting_labels greeting_client
    [IpcWire.Idle; IpcWire.Chunk (nth 0 greeting_frames []); IpcWire.Idle;
     IpcWire.Chunk (take 2 (nth 1 greeting_frames [])); IpcWire.Chunk (drop 2 (nth 1 greeting_frames []))]
    0 0 [] Ipc.new_debug_status) as (x & s & Hs & He & _).
  - vm_compute. reflexivity.
  - assert (Interop.frames_written greeting_client = [nth 0 greeting_frames []] ++ [nth 1 greeting_frames []] ++ [])
      as -> by (vm_compute; reflexivity).
    apply Interop.delivery_idle. apply (Interop.delivery_burst _ [IpcWire.Chunk (nth 0 greeting_frames [])]);
      [by repeat constructor | reflexivity |].
    apply Interop.delivery_idle. apply (Interop.delivery_burst _ [IpcWire.Chunk (take 2 (nth 1 greeting_frames []));
      IpcWire.Chunk (drop 2 (nth 1 greeting_frames []))] [] []); [by repeat constructor | reflexivity | apply Interop.delivery_end].
  - exists x, s. exact (conj Hs He).
Defined.
