(* ===== verification/ClosedLoop.v ===== *)
(** * ClosedLoop: both pipes at once

    [Interop] gives a session of the core the client's bytes; this file gives the
    client the session's, and closes the loop: what a session of [IpcSession] has
    written on the event pipe, read by the client of [DevClient] through the
    schemas of [Schema], comes back as acknowledgements that settle the scene
    switches in the core. *)

From S2P Require Import Prelude Effects RustStd Channels Msgpack.
From S2P Require Ipc IpcWire IpcSession IpcSessionFacts IpcForward IpcSessionSpec.
From S2P Require Import DevClient DevClientSpec Interop Schema.

#[local] Open Scope Z_scope.

(** ** The client's reader on a delivery *)

Lemma client_read_empty (pre post : IpcWire.Reader) n acc :
  Forall IpcWire.is_chunk pre -> IpcWire.flatten pre = [] -> read_exact (S n) acc (pre ++ post) = read_exact (S n) acc post.
Proof.
  intros Hc. induction Hc as [|e pre He Hc IH]; [done|]. destruct e as [bs| |]; [|done|done].
  rewrite IpcWire.flatten_cons. intros [-> Hf]%app_nil. cbn [app read_exact length]. cbn [Nat.ltb Nat.leb].
  rewrite app_nil_r. by apply IH.
Qed.

(** It waits through the pauses, and takes the next frame. *)
Lemma client_delivery frames r body more :
  Delivery frames r -> frames = (IpcWire.u32_le (Z.of_nat (length body)) ++ body) :: more ->
  Z.of_nat (length body) <= Ipc.MAX_FRAME_SIZE ->
  exists r', read_frame r = (map_err invalid_data (IpcWire.from_slice (WireCodec:=client_wire) body), r') /\ Delivery more r'.
Proof.
  intros Hd. revert more. induction Hd as [|frames r Hd IH|frames pre rest r Hc Hf Hd IH]; intros more Heq Hlen; [done| |].
  - by apply IH.
  - destruct frames as [|f frames].
    + destruct (IH more Heq Hlen) as (r' & Hr & Hd'). exists r'. split; [|exact Hd'].
      unfold read_frame. rewrite client_read_empty by done. exact Hr.
    + cbn in Heq. simplify_eq. change (mjoin ((IpcWire.u32_le (Z.of_nat (length body)) ++ body) :: frames))
        with ((IpcWire.u32_le (Z.of_nat (length body)) ++ body) ++ mjoin frames) in Hf. rewrite <- app_assoc in Hf.
      destruct (client_read_body pre r body (mjoin frames) Hc Hlen Hf) as (pre' & Hr & Hc' & Hf').
      exists (pre' ++ r). split; [exact Hr | by apply delivery_burst].
Qed.

(** ** The session's frames *)

Definition frame_of (m : Ipc.Envelope Ipc.EvtPayload) : bytes := match IpcWire.write_frame m with Ok bs => bs | Err _ => [] end.
Definition events_written (s : IpcSession.State) : list bytes := map frame_of (IpcSession.out s).

(** The scene switches that were announced, by their identifiers. *)
Definition switches_of (ms : list (Ipc.Envelope Ipc.EvtPayload)) : list string :=
  omap (fun m => Ipc.request_id <$> IpcSessionFacts.switch_scene_of m) ms.

(** A frame that went out, of the type its payload has. *)
Definition well_sent (m : Ipc.Envelope Ipc.EvtPayload) : Prop :=
  IpcForward.encoded m /\ Ipc.message_type m = IpcSessionFacts.type_of (Ipc.payload m).

Lemma session_well_sent F n t r cmds d :
  Ipc.pending_switch_count d = 0 -> Forall well_sent (IpcSession.out (IpcSession.handle_session_io F n t r cmds d).2).
Proof.
  intros Hd. pose proof (IpcSessionFacts.ledger_version _ _ _ _ (IpcSessionFacts.ledger_session F n t r cmds d Hd)) as Ht.
  pose proof (IpcForward.session_encoded F n t r cmds d) as He.
  apply Forall_forall. intros m Hm. rewrite Forall_forall in Ht, He. split; [by apply He | by apply Ht].
Qed.

Lemma frame_of_body m : IpcForward.encoded m -> exists body,
  frame_of m = IpcWire.u32_le (Z.of_nat (length body)) ++ body /\ Z.of_nat (length body) <= Ipc.MAX_FRAME_SIZE /\
  IpcWire.from_slice (WireCodec:=client_wire) body = Ok (client_envelope m) /\ in_range m = true.
Proof.
  unfold IpcForward.encoded, frame_of. destruct (IpcWire.write_frame m) as [bs|] eqn:Hw; [|done]. intros _.
  apply IpcWire.write_frame_inv in Hw as (body & Hb & Hlen & ->). exists body. split_and!; [done | exact Hlen | |].
  - exact (rmp_reads client_envelope client_reads_core m body Hb).
  - cbn in Hb. unfold to_vec_named in Hb. by destruct (in_range m).
Qed.

(** ** The client reads the session *)

Section Loop.
Context {Q : Type} {mpsc : Mpsc Q (Envelope Json)} {mpsc_laws : MpscLaws Q (Envelope Json)}.
Context (print : Json -> result string string) (prints : forall j, is_ok (print j) = true).
#[local] Instance codec : ClientCodec Json := client_codec print.
Context (E : Env) (args : list string) (acks : auto_ack args = true).
Abbreviation Client := (Client (Value:=Json) (Q:=Q)).
Implicit Types c : Client.

Lemma exec_app ls1 ls2 c c1 : exec E args ls1 c = Some c1 -> exec E args (ls1 ++ ls2) c = exec E args ls2 c1.
Proof.
  revert c. induction ls1 as [|l ls1 IH]; intros c H; cbn in *; [by simplify_eq|].
  destruct (step E args l c) as [c'|]; [by apply IH | done].
Qed.

Definition listening c : Prop := phase c = Reading /\ writer_running c = true /\ receiver_alive (out c) = true.

(** What the client makes of a message: a scene switch, or nothing to answer. *)
Lemma client_frame m :
  well_sent m -> in_range m = true ->
  (exists p, message_type (client_envelope m) = "switch_scene" /\ switches_of [m] = [Ipc.request_id p] /\
     switch_scene_from_value (payload (client_envelope m)) = Ok (client_switch p)) \/
  (String.eqb (message_type (client_envelope m)) "switch_scene" = false /\ switches_of [m] = []).
Proof.
  intros [_ Hty] Hm. unfold switches_of, IpcSessionFacts.switch_scene_of. cbn [omap list_omap message_type client_envelope payload].
  rewrite Hty. cbn in Hm. apply andb_prop in Hm as [_ Hp].
  destruct (Ipc.payload m) as [p|p|p|p|p|p]; try by right. left. exists p. split_and!; [done | done | exact (client_reads_switch p Hp)].
Qed.

Lemma requested_switch m p :
  message_type m = "switch_scene" -> switch_scene_from_value (payload m) = Ok p -> requested [ReceivedFrame m] = [request_id p].
Proof. intros Hty Hp. unfold requested. cbn [omap list_omap]. by rewrite Hty, Hp. Qed.

Lemma requested_other m : String.eqb (message_type m) "switch_scene" = false -> requested [ReceivedFrame m] = [].
Proof. intros Hty. cbn. by rewrite Hty. Qed.

(** One message, read and answered. *)
Lemma reads_one c r m :
  listening c -> well_sent m -> in_range m = true -> read_frame (evt_read c) = (Ok (client_envelope m), r) ->
  let c' := read_and_act E args c in
  listening c' /\ evt_read c' = r /\ requested (stdout c') = requested (stdout c) ++ switches_of [m].
Proof.
  intros (Hph & Hw & Hal) Hwell Hm Hr. unfold read_and_act. rewrite Hr. unfold on_frame.
  pose proof (prints (payload (client_envelope m))) as Hp.
  cbn [value_to_string codec client_codec]. destruct (print _) as [text|]; [clear Hp|done].
  destruct (client_frame m Hwell Hm) as [(p & Hty & -> & Hsw)|[Hty ->]].
  - rewrite Hsw, acks. pose proof (requested_switch _ _ Hty Hsw) as Hreq. rewrite Hty.
    change (String.eqb "switch_scene" "switch_scene") with true. cbn iota. unfold acknowledge. cbn [result_to_value codec client_codec].
    match goal with |- context [send_msg ?x ?q] => destruct (send_alive x q Hal) as (q' & -> & _ & Hal') end.
    split_and!; [by split_and! | done |].
    transitivity (requested ((stdout c ++ [ReceivedFrame (client_envelope m)]) ++ [SentResult (Ipc.request_id p)])); [done|].
    rewrite !requested_snoc, Hreq. by rewrite app_nil_r.
  - rewrite Hty. split_and!; [by split_and! | done |]. cbn [stdout]. by rewrite requested_snoc, requested_other.
Qed.

(** All of them, one turn each. *)
Lemma reads_all ms : forall c, listening c -> Forall well_sent ms -> Delivery (map frame_of ms) (evt_read c) ->
  exists c', exec E args (replicate (length ms) MainTurn) c = Some c' /\ listening c' /\
    requested (stdout c') = requested (stdout c) ++ switches_of ms.
Proof.
  induction ms as [|m ms IH]; intros c Hc Hms Hd; [exists c; by rewrite app_nil_r|].
  apply Forall_cons in Hms as [Hm Hms]. destruct (frame_of_body m (proj1 Hm)) as (body & Hf & Hlen & Hdec & Hr).
  cbn [map] in Hd. rewrite Hf in Hd.
  destruct (client_delivery _ _ body _ Hd eq_refl Hlen) as (r & Hread & Hd'). rewrite Hdec in Hread.
  destruct (reads_one c r m Hc Hm Hr Hread) as (Hc' & Hr' & Hreq).
  destruct (IH (read_and_act E args c)) as (c' & He & Hl & Hreq'); [done | done | by rewrite Hr' |].
  exists c'. split_and!; [| done |].
  - cbn [length replicate exec step]. by rewrite (proj1 Hc).
  - rewrite Hreq', Hreq, <- app_assoc. change (m :: ms) with ([m] ++ ms). unfold switches_of. by rewrite omap_app.
Qed.

(** C14: the closed loop of both pipes.  Take any session of the core on any pipe,
    with any commands, and any client that has greeted it, acknowledges, and has
    its writer running; hand the client the frames the session has written, in
    bursts of whole frames that are cut in any way, with pauses between them.
    Then one turn of the client for each frame
    reads them all without an error, the switches it takes note of are exactly
    those the session announced, in order, and for every one of them there is an
    acknowledgement on the command pipe or queued for it; dispatched in any
    session where that switch is still pending, it removes it from the pending
    map and publishes it as settled "ok". *)
Theorem announced_switches_acknowledged F n t r cmds d ls c :
  let s := (IpcSession.handle_session_io F n t r cmds d).2 in
  Ipc.pending_switch_count d = 0 ->
  exec E args ls start = Some c -> phase c = Reading -> writer_running c = true ->
  Delivery (events_written s) (evt_read c) ->
  exists c', exec E args (replicate (length (IpcSession.out s)) MainTurn) c = Some c' /\ phase c' = Reading /\
    requested (stdout c') = requested (stdout c) ++ switches_of (IpcSession.out s) /\
    forall i, i ∈ switches_of (IpcSession.out s) ->
    exists m, m ∈ cmd_pipe c' ++ contents (out c') /\
      forall s2 p, IpcSession.pending_switches s2 !! i = Some p ->
      wp (IpcSession.dispatch F (core_envelope m)) (fun x s' => x = Ok tt /\
        IpcSession.pending_switches s' = delete i (IpcSession.pending_switches s2) /\
        Ipc.res_request_id <$> Ipc.last_switch_result (IpcSession.debug_status s') = Some i /\
        Ipc.res_status <$> Ipc.last_switch_result (IpcSession.debug_status s') = Some "ok") s2.
Proof.
  intros s Hd Hrun Hph Hw Hdel.
  assert (listening c) as Hl.
  { split_and!; [done | done |]. destruct (transcript_reachable E args ls c Hrun) as [Hm _]; [by rewrite Hph|].
    by rewrite <- (messages_alive _ _ Hm). }
  destruct (reads_all (IpcSession.out s) c Hl (session_well_sent F n t r cmds d Hd) Hdel) as (c' & He & (Hph' & Hw' & _) & Hreq).
  exists c'. split_and!; [done | done | done |]. intros i Hi.
  assert (exec E args (ls ++ replicate (length (IpcSession.out s)) MainTurn) start = Some c') as Hrun'
    by (by rewrite (exec_app _ _ _ _ Hrun)).
  destruct (requested_acknowledged E args _ c' i Hrun' Hph' Hw' acks) as (m & Hm & Ha);
    [rewrite Hreq; apply elem_of_app; by right|].
  exists m. split; [exact Hm|]. intros s2 p Hp. by apply (acknowledgement_settles E F i p m s2 Ha).
Qed.
End Loop.

(** ** Witness *)

(** A handshake, a scene switch that is announced, a ping, the end of the pipe. *)
Definition loop_script : IpcWire.Reader :=
  [IpcWire.Chunk (nth 1 greeting_frames []); IpcWire.Idle; IpcWire.Chunk (nth 0 greeting_frames [])].
Definition loop_commands : list (option Ipc.CoreIpcCommand) := [None; Some (Ipc.SwitchScene "Live" "manual" 500)].
Definition loop_events : list bytes := Eval vm_compute in
  events_written (IpcSession.handle_session_io IpcSessionSpec.demo_env 0 0 loop_script loop_commands Ipc.new_debug_status).2.

#[local] Instance loop_codec : ClientCodec Json := client_codec (fun _ => Ok "{..}").
Definition loop_labels : list Label :=
  [OpenPipes (Some []) (Some [IpcWire.Idle; IpcWire.Chunk (mjoin loop_events)]); MainTurn; MainTurn].
Definition loop_client : Client (Value:=Json) (Q:=Fifo (Envelope Json)) := Eval vm_compute in
  default start (exec demo_client_env [] loop_labels start).

Lemma announced_switches_acknowledged_witness :
  exists c', exec demo_client_env [] (replicate (length loop_events) MainTurn) loop_client = Some c' /\
    length (requested (stdout c')) = 1%nat.
Proof.
  destruct (announced_switches_acknowledged (fun _ => Ok "{..}") (fun _ => eq_refl) demo_client_env [] eq_refl
    IpcSessionSpec.demo_env 0 0 loop_script loop_commands Ipc.new_debug_status loop_labels loop_client)
    as (c' & He & _ & Hr & _).
  - reflexivity.
  - vm_compute. reflexivity.
  - reflexivity.
  - reflexivity.
  - assert (events_written (IpcSession.handle_session_io IpcSessionSpec.demo_env 0 0 loop_script loop_commands
      Ipc.new_debug_status).2 = loop_events ++ []) as -> by (vm_compute; reflexivity).
    assert (evt_read loop_client = IpcWire.Idle :: [IpcWire.Chunk (mjoin loop_events)] ++ []) as -> by (vm_compute; reflexivity).
    apply delivery_idle. apply (delivery_burst loop_events [IpcWire.Chunk (mjoin loop_events)] [] []);
      [by repeat constructor | by vm_compute | apply delivery_end].
  - exists c'. split.
    + etransitivity; [|exact He]. reflexivity.
    + etransitivity; [exact (f_equal length Hr) | vm_compute; reflexivity].
Defined.
