(* ===== verification/SessionTests.v ===== *)
(** * SessionTests: the session tests of [ipc/mod.rs], run on the model

    The [#[tokio::test]] functions of [src/ipc/mod.rs] under their names.  A test
    is a program over a session that runs on the other end of an in-memory pipe:
    it writes frames, sends core commands, and reads what the session has
    written; while it waits, the session of [IpcSession] runs, until it too waits
    for a frame, and the timer that is due first expires.  Frames are MessagePack
    ([Schema]).  A test that panics has no result.

    Under [cfg(test)] the three intervals of the session are a tenth of those the
    model has, so every duration of the tests is taken ten times. *)

From S2P Require Import Prelude RustStd Effects Float.
From S2P Require Import Msgpack.
From S2P Require Model Ipc IpcWire IpcSession.
From S2P Require Import Schema.
Import Ipc.

#[local] Open Scope Z_scope.

Definition ms (n : Z) : Z := from_millis (10 * n).

(** Two milliseconds of the test pass between two readings of the clock. *)
Definition test_env (frame : Model.TelemetryFrame) : IpcSession.Env := {|
  IpcSession.env_tick := fun _ => Z.to_N (ms 2); IpcSession.env_unix_ms := fun _ => 1700000000000;
  IpcSession.env_uuid := fun n => Str.show (Z.of_nat n); IpcSession.env_write := fun _ => None;
  IpcSession.env_frame := fun _ => frame; IpcSession.env_relay := fun _ => None; IpcSession.env_order := fun _ l => l |}.

(** The client's end of the pipe and the task. *)
Record Session := {
  session : IpcSession.State;
  polling : option Z; (* the session waits for a frame, since then *)
  read : nat; (* messages the client has read *)
  ended : option IpcSession.Exit; (* how the task finished *)
}.

Definition spawn_test_session (E : IpcSession.Env) : Session := {|
  session := IpcSession.enter_session E 0 0 [] [] new_debug_status; polling := None; read := 0; ended := None |}.

(** A test: [None] is a panic. *)
Definition Test (A : Type) : Type := Session -> option (A * Session).
#[local] Instance test_ret : MRet Test := fun A a s => Some (a, s).
#[local] Instance test_bind : MBind Test := fun A B f m s => '(a, s) ← m s; f a s.

Definition panic {A} : Test A := fun _ => None.
Definition assert (b : bool) : Test unit := if b then mret tt else panic.
Definition unwrap {E A} (r : result E A) : Test A := match r with Ok a => mret a | Err _ => panic end.
(** [Instant::now()]. *)
Definition now : Test Z := fun s => Some (IpcSession.clock (session s), s).
(** [from_value(msg.payload).unwrap()]. *)
Definition payload_as (T : Type) `{!Schema T} (m : Envelope Json) : Test T := unwrap (of_value (payload m)).

Definition update_session (f : IpcSession.State -> IpcSession.State) (s : Session) : Session :=
  {| session := f (session s); polling := polling s; read := read s; ended := ended s |}.

Section Harness.
Context (E : IpcSession.Env).

(** One iteration of the session's loop, in two: up to the poll, and from it. *)
Definition before_poll : eff IpcSession.State IpcSession.Exit unit :=
  IpcSession.forward_commands E ;; IpcSession.expire_pending E ;; IpcSession.periodic_status E ;; IpcSession.check_heartbeat E.
Definition after_poll : eff IpcSession.State IpcSession.Exit unit :=
  incoming ← IpcSession.poll_incoming E; match incoming with None => mret tt | Some m => IpcSession.dispatch E m end.

(** The session's part [m], then it polls or not. *)
Definition proceed (m : eff IpcSession.State IpcSession.Exit unit) (polls : bool) (st : IpcSession.State) (s : Session) : Session :=
  match m st with
  | (Ok _, st) => {| session := st; polling := if polls then Some (IpcSession.clock st) else None; read := read s; ended := None |}
  | (Err x, st) => {| session := st; polling := None; read := read s; ended := Some x |}
  end.

(** The session's next step when nobody else's timer is due before [deadline];
    [None] when it waits beyond. *)
Definition turn (deadline : Z) (s : Session) : option Session :=
  match polling s with
  | None => Some (proceed before_poll true (session s) s)
  | Some since =>
      match IpcWire.flatten (IpcSession.inbox (session s)) with
      | [] =>
          if deadline <? since + READ_POLL_TIMEOUT then None
          else Some (proceed after_poll false (IpcSession.with_clock since (IpcSession.with_inbox [IpcWire.Idle] (session s))) s)
      | _ => Some (proceed after_poll false (session s) s)
      end
  end.

(** The next frame the session has written, as the client decodes it. *)
Definition next_frame (s : Session) : option (result IpcWire.IoError (Envelope Json)) :=
  m ← IpcSession.out (session s) !! read s;
  Some (map_err DevClient.invalid_data (x ← to_vec_named m; from_slice x)).

(** [tokio::time::timeout(limit, read_frame(client))]. *)
Fixpoint wait (fuel : nat) (deadline : Z) : Test (IpcWire.Poll (Envelope Json)) := fun s =>
  match next_frame s with
  | Some r => Some (IpcWire.Ready r, {| session := session s; polling := polling s; read := S (read s); ended := ended s |})
  | None =>
      if SessionOverrides.is_some (ended s) then
        Some (IpcWire.Ready (Err {| IpcWire.kind := IpcWire.UnexpectedEof; IpcWire.msg := "unexpected end of file" |}), s)
      else if deadline <=? IpcSession.clock (session s) then Some (IpcWire.Elapsed, s)
      else match fuel with
           | O => None
           | S fuel =>
               match turn deadline s with
               | Some s => wait fuel deadline s
               | None => Some (IpcWire.Elapsed, update_session (IpcSession.with_clock deadline) s)
               end
           end
  end.

(** No test waits for longer than this many iterations. *)
Definition FUEL : nat := 200.

Definition timeout (limit : Z) : Test (IpcWire.Poll (Envelope Json)) := start ← now; wait FUEL (start + limit).
(** [timeout(limit, read_event(client)).await.unwrap()]. *)
Definition read_within (limit : Z) : Test (Envelope Json) :=
  p ← timeout limit; match p with IpcWire.Ready (Ok m) => mret m | _ => panic end.
(** Without a timeout. *)
Definition read_event : Test (Envelope Json) := read_within (ms 60000).

(** [write_frame(client, m).await.unwrap()]. *)
Definition write_frame {T} `{!Schema T} (m : Envelope T) : Test unit := fun s =>
  if SessionOverrides.is_some (ended s) then None
  else match IpcWire.write_frame (WireCodec0:=rmp (In:=Envelope Json)) m with
       | Ok bs => Some (tt, update_session (fun st => IpcSession.with_inbox (IpcSession.inbox st ++ [IpcWire.Chunk bs]) st) s)
       | Err _ => None
       end.
(** [let _ = write_frame(client, m).await]. *)
Definition try_write_frame {T} `{!Schema T} (m : Envelope T) : Test unit := fun s =>
  match write_frame m s with Some r => Some r | None => Some (tt, s) end.

(** [cmd_tx.send(cmd).unwrap()]. *)
Definition send_command (cmd : CoreIpcCommand) : Test unit := fun s =>
  Some (tt, update_session (fun st => IpcSession.with_core_cmd_rx (IpcSession.core_cmd_rx st ++ [Some cmd]) st) s).

(** [task.await.unwrap()]. *)
Fixpoint join_within (fuel : nat) : Test IpcSession.Exit := fun s =>
  match ended s with
  | Some x => Some (x, s)
  | None =>
      match fuel, turn (IpcSession.clock (session s) + READ_POLL_TIMEOUT) s with
      | S fuel, Some s => join_within fuel s
      | _, _ => None
      end
  end.
Definition join : Test IpcSession.Exit := join_within FUEL.

(** [while Instant::now() < deadline { body }], where [Some b] is [break]. *)
Fixpoint while_before {B} (fuel : nat) (deadline : Z) (body : Test (option B)) : Test (option B) :=
  t ← now;
  if t <? deadline then
    match fuel with
    | O => panic
    | S fuel => b ← body; match b with Some b => mret (Some b) | None => while_before fuel deadline body end
    end
  else mret None.
Definition within_time {B} (limit : Z) (body : Test (option B)) : Test (option B) :=
  t ← now; while_before FUEL (t + limit) body.

Definition expect {A} (o : option A) : Test A := match o with Some a => mret a | None => panic end.

Definition is_type (ty : string) (m : Envelope Json) : bool := String.eqb (message_type m) ty.

Definition drain_until_message_type (ty : string) (limit : Z) : Test (Envelope Json) :=
  o ← within_time limit (m ← read_within (ms 250); mret (if is_type ty m then Some m else None)); expect o.

(** A protocol error of the code. *)
Definition is_error (c : ProtocolErrorCode) (m : Envelope Json) : Test bool :=
  if is_type "protocol_error" m then
    p ← payload_as ProtocolErrorPayload m; mret (String.eqb (ProtocolErrorCode_name (code p)) (ProtocolErrorCode_name c))
  else mret false.

(** A notice whose message contains [sub]. *)
Definition is_notice (sub : string) (m : Envelope Json) : Test bool :=
  if is_type "user_notice" m then p ← payload_as UserNoticePayload m; mret (Str.contains sub (message p)) else mret false.

(** ** Messages of the client *)

Definition make_envelope {T} (ty : string) (pr : Priority) (p : T) : Envelope T :=
  mkEnvelope IPC_PROTOCOL_VERSION "9b2c" 1700000000000 ty pr p.

Definition hello_envelope : Envelope HelloPayload :=
  make_envelope "hello" High {| plugin_version := "0.0.3"; hello_protocol_version := IPC_PROTOCOL_VERSION;
                                obs_pid := 1234; capabilities := ["dock"] |}.
Definition ping_envelope (nonce : string) : Envelope PingPayload := make_envelope "ping" Normal {| ping_nonce := nonce |}.
Definition request_status_envelope : Envelope RequestStatusPayload := make_envelope "request_status" High mkRequestStatus.
Definition set_mode_request_envelope (m : string) : Envelope SetModeRequestPayload :=
  make_envelope "set_mode_request" High {| mode_request := m |}.
Definition set_setting_request_envelope (key : string) (value : bool) : Envelope SetSettingRequestPayload :=
  make_envelope "set_setting_request" High {| setting_key := key; setting_value := value |}.

(** Every test opens like this. *)
Definition greet : Test unit := write_frame hello_envelope ;; ack ← read_event; assert (is_type "hello_ack" ack).
End Harness.

(** ** The tests *)

Definition default_env : IpcSession.Env := test_env Model.TelemetryFrame_default.

Definition passes (E : IpcSession.Env) (test : Test unit) : bool :=
  match test (spawn_test_session E) with Some _ => true | None => false end.

Section Tests.
Context (E : IpcSession.Env).
#[local] Notation greet := (greet E).
#[local] Notation read_event := (read_event E).
#[local] Notation read_within := (read_within E).
#[local] Notation within_time := (@within_time _).
#[local] Notation drain := (drain_until_message_type E).

Definition session_sends_hello_ack_and_periodic_status_snapshot : Test unit :=
  greet ;;
  next ← read_within (ms 1000); assert (is_type "status_snapshot" next).

Definition session_emits_timeout_protocol_error_when_heartbeat_missing : Test unit :=
  write_frame hello_envelope ;;
  saw ← within_time (ms 2000) (
    msg ← read_within (ms 500);
    b ← is_error Timeout msg; mret (if b : bool then Some tt else None));
  expect saw ;;
  session_result ← join E; assert (is_ok session_result).

Definition session_replies_to_ping_with_matching_pong : Test unit :=
  greet ;;
  write_frame (ping_envelope "nonce-abc") ;;
  saw ← within_time (ms 1000) (
    msg ← read_within (ms 250);
    if is_type "pong" msg then
      payload ← payload_as PongPayload msg; assert (String.eqb (pong_nonce payload) "nonce-abc") ;; mret (Some tt)
    else mret None);
  expect saw.

Definition session_returns_status_snapshot_on_request_status : Test unit :=
  greet ;;
  write_frame request_status_envelope ;;
  saw ← within_time (ms 1000) (
    msg ← read_within (ms 250);
    if is_type "status_snapshot" msg then
      payload ← payload_as StatusSnapshotPayload msg;
      assert ((snap_bitrate_kbps payload =? 2222) && (snap_rtt_ms payload =? 42)) ;; mret (Some tt)
    else mret None);
  expect saw.

(** The two tests of a protocol error. *)
Definition answered_by {T} `{!Schema T} (bad : Envelope T) (c : ProtocolErrorCode) : Test unit :=
  greet ;;
  write_frame bad ;;
  saw ← within_time (ms 1000) (
    msg ← read_within (ms 250);
    b ← is_error c msg; mret (if b : bool then Some tt else None));
  expect saw.

Definition malformed_payload_emits_invalid_payload_protocol_error : Test unit :=
  answered_by (make_envelope "ping" Normal (JObj [("nonce", JNum 123)])) InvalidPayload.

Definition unknown_message_type_emits_unknown_type_protocol_error : Test unit :=
  answered_by (make_envelope "totally_unknown_cmd" Normal (JObj [])) UnknownType.

Fixpoint repeat_test (n : nat) (t : Test unit) : Test unit :=
  match n with O => mret tt | S n => t ;; repeat_test n t end.

(** Counts in the loop; [true] is its [break]. *)
Fixpoint count_errors (fuel : nat) (deadline : Z) (n : nat) : Test nat :=
  t ← now;
  if t <? deadline then
    match fuel with
    | O => panic
    | S fuel =>
        p ← timeout E (ms 200);
        match p with
        | IpcWire.Ready (Ok msg) => b ← is_error UnknownType msg; count_errors fuel deadline (if b : bool then S n else n)
        | IpcWire.Ready (Err err) => if bool_decide (IpcWire.kind err = IpcWire.UnexpectedEof) then mret n else panic
        | IpcWire.Elapsed => mret n
        end
    end
  else mret n.

Definition repeated_protocol_errors_trigger_controlled_session_reset : Test unit :=
  greet ;;
  repeat_test 6 (write_frame (make_envelope "bad_cmd" Normal (JObj []))) ;;
  start ← now;
  unknown_error_count ← count_errors FUEL (start + ms 2000) 0;
  assert (Nat.leb 5 unknown_error_count) ;;
  session_result ← join E; assert (is_ok session_result).

Definition core_switch_scene_command_emits_event_and_ack_clears_timeout : Test unit :=
  greet ;;
  send_command (SwitchScene "BRB" "auto_failover" (10 * 200)) ;;
  switch_request_id ← within_time (ms 1000) (
    msg ← read_within (ms 250);
    if is_type "switch_scene" msg then
      payload ← payload_as SwitchScenePayload msg;
      assert (String.eqb (scene_name payload) "BRB" && String.eqb (reason payload) "auto_failover") ;;
      mret (Some (request_id payload))
    else mret None);
  request_id ← expect switch_request_id;
  write_frame (make_envelope "scene_switch_result" High
    {| result_request_id := request_id; result_ok := true; result_error := None |}) ;;
  write_frame (ping_envelope "keepalive") ;;
  saw_timeout_notice ← within_time (ms 400) (
    p ← timeout E (ms 100);
    match p with
    | IpcWire.Ready (Ok msg) => b ← is_notice "timed out" msg; mret (if b : bool then Some tt else None)
    | IpcWire.Ready (Err _) => panic
    | IpcWire.Elapsed => try_write_frame (ping_envelope "keepalive-2") ;; mret None
    end);
  assert (negb (SessionOverrides.is_some saw_timeout_notice)).

(** The pair says whether a switch and a time-out notice have been seen. *)
Fixpoint watch_switch (fuel : nat) (deadline : Z) (saw_switch_scene : bool) : Test (bool * bool) :=
  t ← now;
  if t <? deadline then
    match fuel with
    | O => panic
    | S fuel =>
        try_write_frame (ping_envelope "keepalive") ;;
        p ← timeout E (ms 150);
        match p with
        | IpcWire.Ready (Ok msg) =>
            let saw := saw_switch_scene || is_type "switch_scene" msg in
            b ← is_notice "timed out" msg;
            if b : bool then mret (saw, true) else watch_switch fuel deadline saw
        | IpcWire.Ready (Err _) => panic
        | IpcWire.Elapsed => watch_switch fuel deadline saw_switch_scene
        end
    end
  else mret (saw_switch_scene, false).

Definition core_switch_scene_command_timeout_emits_user_notice : Test unit :=
  greet ;;
  send_command (SwitchScene "BRB" "auto_failover" (10 * 80)) ;;
  start ← now;
  saw ← watch_switch FUEL (start + ms 1000) false;
  assert (saw.1 && saw.2).

(** The end of both no-op tests: nothing of this in the next moments. *)
Definition stays_quiet (nonce notice : string) : Test unit :=
  seen_again ← within_time (ms 350) (
    try_write_frame (ping_envelope nonce) ;;
    p ← timeout E (ms 80);
    match p with
    | IpcWire.Ready (Ok msg) =>
        b ← is_notice notice msg;
        mret (if b || (is_type "status_snapshot" msg && bool_decide (priority msg = High)) then Some tt else None)
    | IpcWire.Ready (Err _) => panic
    | IpcWire.Elapsed => mret None
    end);
  assert (negb (SessionOverrides.is_some seen_again)).

Definition repeated_identical_set_mode_request_is_noop : Test unit :=
  greet ;;
  drain "status_snapshot" (ms 1000) ;;
  write_frame (set_mode_request_envelope "irl") ;;
  notice1 ← drain "user_notice" (ms 1000);
  b ← is_notice "irl" notice1; assert b ;;
  snapshot1 ← drain "status_snapshot" (ms 1000);
  snap1 ← payload_as StatusSnapshotPayload snapshot1;
  assert (bool_decide (snap_mode snap1 = ModeIrl)) ;;
  write_frame (set_mode_request_envelope "irl") ;;
  stays_quiet "keepalive-noop-mode" "Dock mode override set to irl".

Definition repeated_identical_set_setting_request_is_noop : Test unit :=
  greet ;;
  drain "status_snapshot" (ms 1000) ;;
  write_frame (set_setting_request_envelope "auto_scene_switch" true) ;;
  notice1 ← drain "user_notice" (ms 1000);
  b ← is_notice "auto_scene_switch" notice1; assert b ;;
  snapshot1 ← drain "status_snapshot" (ms 1000);
  snap1 ← payload_as StatusSnapshotPayload snapshot1;
  settings1 ← expect (snap_settings snap1);
  assert (bool_decide (set_auto_scene_switch settings1 = Some true)) ;;
  write_frame (set_setting_request_envelope "auto_scene_switch" true) ;;
  stays_quiet "keepalive-noop-setting" "auto_scene_switch".
End Tests.

(** The harness runs the session's own loop. *)
Lemma iteration_split E s :
  IpcSession.iteration E s = (before_poll E ;; after_poll E) s.
Proof.
  unfold IpcSession.iteration, before_poll, after_poll. rewrite !bind_run.
  destruct (IpcSession.forward_commands E s) as [[]?]; [|done]. rewrite !bind_run.
  destruct (IpcSession.expire_pending E _) as [[]?]; [|done]. rewrite !bind_run.
  destruct (IpcSession.periodic_status E _) as [[]?]; [|done]. rewrite !bind_run.
  by destruct (IpcSession.check_heartbeat E _) as [[]?].
Qed.

(** The frame the fourth test publishes. *)
Definition published_frame : Model.TelemetryFrame := {|
  Model.timestamp_unix := 0; Model.health := F32.div (F32.of_Z 8) (F32.of_Z 10);
  Model.obs := {| Model.connected := true; Model.streaming := false; Model.recording := false; Model.studio_mode := false;
    Model.total_dropped_frames := 0; Model.total_frames := 0; Model.render_missed_frames := 0; Model.render_total_frames := 0;
    Model.output_skipped_frames := 0; Model.output_total_frames := 0; Model.active_fps := F32.zero;
    Model.available_disk_space_mb := F64.zero |};
  Model.system := Model.SystemFrame_default;
  Model.streams := [{| Model.so_name := ""; Model.bitrate_kbps := 2222; Model.drop_pct := F32.zero; Model.fps := F32.zero;
                       Model.encoding_lag_ms := F32.zero |}];
  Model.network := {| Model.upload_mbps := F32.zero; Model.download_mbps := F32.zero; Model.latency_ms := F32.of_Z 42 |} |}.

Lemma session_tests_pass :
  forallb (fun test => passes default_env (test default_env))
    [session_sends_hello_ack_and_periodic_status_snapshot;
     session_emits_timeout_protocol_error_when_heartbeat_missing;
     session_replies_to_ping_with_matching_pong;
     malformed_payload_emits_invalid_payload_protocol_error;
     unknown_message_type_emits_unknown_type_protocol_error;
     repeated_protocol_errors_trigger_controlled_session_reset;
     core_switch_scene_command_emits_event_and_ack_clears_timeout;
     core_switch_scene_command_timeout_emits_user_notice;
     repeated_identical_set_mode_request_is_noop;
     repeated_identical_set_setting_request_is_noop] = true.
Proof. vm_compute. reflexivity. Qed.

Lemma session_test_of_status_passes :
  passes (test_env published_frame) (session_returns_status_snapshot_on_request_status (test_env published_frame)) = true.
Proof. vm_compute. reflexivity. Qed.
