(* ===== verification/App.v ===== *)
(** * App: start-up and the command line ([src/app/mod.rs])

    The commands of the executable and what start-up derives from the
    configuration and the vault before the tasks run: the OBS password, the
    exporter credentials, the relay snapshot of the start-up probe, and the
    token of the HTTP server.  The tasks themselves are the loops of [Metrics],
    [Ipc], [Server] and [Exporters]. *)

From S2P Require Import Prelude RustStd Effects Net Float Host Config Startup Security Aegis.

#[local] Open Scope Z_scope.

Record App := mkApp {
  world : World;
  registry : list RegCall; (* made so far *)
  stdout : list string; (* lines printed, oldest first *)
  calls : nat; (* exchanges and random draws *)
}.

Definition set_world w s := mkApp w (registry s) (stdout s) (calls s).
Definition print (line : string) (s : App) : App := mkApp (world s) (registry s) (stdout s ++ [line]) (calls s).
Definition next_call s := mkApp (world s) (registry s) (stdout s) (S (calls s)).

(** What the outside does, by call. *)
Record Outside (Url : Type) := {
  out_http : nat -> HttpStack Url;
  out_unix_millis : nat -> Z;
  out_alphanumeric : nat -> nat -> string; (* rng.sample_iter(&Alphanumeric).take(n) *)
  session_json : option RelaySession -> string; (* serde_json::to_string_pretty *)
  stop_json : RelayStopResponse -> string;
}.
Arguments out_http {Url} _ _.
Arguments out_unix_millis {Url} _ _.
Arguments out_alphanumeric {Url} _ _ _.
Arguments session_json {Url} _ _.
Arguments stop_json {Url} _ _.

Section App.
Context {Url : Type} {url_ops : UrlOps Url} {api_json : ApiJson}.
Context {b64 : Base64} {dp : DataProtection} {vj : VaultJson} {toml : TomlCodec} {autostart : Autostart}.
Context (os : Host) (o : Outside Url).

Abbreviation M := (eff App string).

Definition on_files {A} (m : eff World string A) : M A := fun s =>
  let (r, w) := m (world s) in (r, set_world w s).

Definition on_registry {A} (m : eff (list RegCall) string A) : M A := fun s =>
  let (r, calls_made) := m (registry s) in (r, mkApp (world s) calls_made (stdout s) (calls s)).

(** Methods of a vault that is a local variable. *)
Definition on_vault {A} (m : eff (Vault * World) string A) (v : Vault) : M (A * Vault) := fun s =>
  match m (v, world s) with
  | (Ok a, (v, w)) => (Ok (a, v), set_world w s)
  | (Err e, (_, w)) => (Err e, set_world w s)
  end.

Definition lift_result {A} (r : result string A) : M A :=
  match r with Ok a => mret a | Err e => throw e end.

Definition call : M nat := fun s => (Ok (calls s), next_call s).
Definition println (line : string) : M unit := modify (print line).

(** [args.next().ok_or(text)?]. *)
Definition arg (a : option string) (missing : string) : M string := lift_result (ok_or a missing).

(** ** Commands *)

Definition open_vault (config : Config) : M Vault := on_files (new os (vault_path (vault config))).

Definition handle_vault_set (config : Config) (args : list string) : M unit :=
  key ← arg (args !! 0%nat) "missing key";
  value ← arg (args !! 1%nat) "missing value";
  v ← open_vault config;
  on_vault (store os key value) v ;;
  println ("Stored vault key: " +:+ key).

Definition handle_vault_get (config : Config) (args : list string) : M unit :=
  key ← arg (args !! 0%nat) "missing key";
  v ← open_vault config;
  value ← lift_result (retrieve key v);
  println value.

Definition handle_vault_list (config : Config) : M unit :=
  v ← open_vault config;
  for_each println (list_keys v).

Definition handle_config_init : M unit :=
  path ← on_files default_path;
  on_files (write_default os path) ;;
  println ("Wrote default config to " +:+ path).

Definition handle_autostart (enable : bool) (config : Config) : M unit :=
  on_registry (set_autostart (app_name (startup config)) enable) ;;
  println ("autostart " +:+ (if enable then "enabled" else "disabled") +:+ " for " +:+ app_name (startup config)).

Definition build_aegis_client (n : nat) (config : Config) (v : Vault) : result string (ControlPlaneClient Url) :=
  base_url ← ok_or (Str.trim <$> aegis_base_url (aegis config)) "missing aegis.base_url in config";
  jwt_key ← ok_or (Str.trim <$> access_jwt_key (aegis config)) "missing aegis.access_jwt_key in config";
  if Str.is_empty base_url then Err "missing aegis.base_url in config"
  else if Str.is_empty jwt_key then Err "missing aegis.access_jwt_key in config"
  else
    access_jwt ← retrieve jwt_key v;
    map_err ControlPlaneError_to_string (ControlPlaneClient_new (out_http o n) base_url (Str.trim access_jwt)).

Definition generate_token (n len : nat) : string := out_alphanumeric o n len.

(** [format!("telemy-{}-{}", ts, generate_token(12))]. *)
Definition generate_idempotency_key (n : nat) : string :=
  "telemy-" +:+ Str.show (out_unix_millis o n) +:+ "-" +:+ generate_token n 12.

(** An exchange with the control plane. *)
Definition exchange {A} (f : HttpStack Url -> result ControlPlaneError A) : M A :=
  n ← call; lift_result (map_err ControlPlaneError_to_string (f (out_http o n))).

Definition vault_client (config : Config) : M (ControlPlaneClient Url) :=
  v ← open_vault config; n ← call; lift_result (build_aegis_client n config v).

Definition handle_aegis_relay_active (config : Config) : M unit :=
  client ← vault_client config;
  session ← exchange (fun http => relay_active http client);
  println (session_json o session).

Definition handle_aegis_relay_start (config : Config) (args : list string) : M unit :=
  let region_preference := args !! 0%nat in
  client ← vault_client config;
  let request := {| region_preference := region_preference;
    client_context := Some {| obs_connected := None; ctx_mode := Some "studio"; requested_by := Some "cli" |} |} in
  n ← call;
  session ← exchange (fun http => relay_start http (generate_idempotency_key n) request client);
  println (session_json o (Some session)).

Definition handle_aegis_relay_stop (config : Config) (args : list string) : M unit :=
  session_id ← arg (args !! 0%nat) "missing session_id (usage: aegis-relay-stop <session_id> [reason])";
  let reason := default "user_requested" (args !! 1%nat) in
  client ← vault_client config;
  response ← exchange (fun http => relay_stop http {| stop_session_id := session_id; stop_reason := reason |} client);
  println (stop_json o response).

(** ** Start-up *)

(** The [match config.obs.password_key] block. *)
Definition obs_password (config : Config) (v : Vault) : option string :=
  match password_key (obs config) with Some key => Str.trim <$> ok (retrieve key v) | None => None end.

Definition grafana_auth_value (config : Config) (v : Vault) : option string :=
  match auth_value_key (grafana config) with Some key => ok (retrieve key v) | None => None end.

Definition grafana_configured (config : Config) (v : Vault) : bool :=
  grafana_enabled (grafana config) && bool_decide (is_Some (endpoint (grafana config)))
  && bool_decide (is_Some (grafana_auth_value config v)).

(** The snapshot the probe leaves. *)
Definition run_aegis_startup_probe (config : Config) (v : Vault) (snapshot : option RelaySession) :
    M (option RelaySession) :=
  if negb (aegis_enabled (aegis config)) then mret snapshot
  else
    n ← call;
    match build_aegis_client n config v with
    | Err _ => mret snapshot
    | Ok client =>
        m ← call;
        mret (match relay_active (out_http o m) client with
              | Ok (Some session) => Some session
              | Ok None | Err _ => snapshot
              end)
    end.

(** The token block: configured, else stored, else generated and stored; a
    failed store is only logged.  [new_token] is the token that would be
    generated. *)
Definition server_token (new_token : string) (config : Config) : eff (Vault * World) string string := fun s =>
  match token (server config) with
  | Some t => (Ok t, s)
  | None =>
      match retrieve "server_token" s.1 with
      | Ok existing_token => (Ok existing_token, s)
      | Err _ => (Ok new_token, snd (store os "server_token" new_token s))
      end
  end.

(** What start-up hands to the tasks. *)
Record Started := {
  run_config : Config;
  run_vault : Vault; (* as the token block leaves it *)
  run_obs_password : option string;
  run_grafana_auth : option string;
  run_grafana_configured : bool;
  run_snapshot : option RelaySession;
  run_addr : list Z * Z;
  run_token : string;
  dashboard_url : string;
  settings_url : string;
}.

Definition start (config : Config) : M Started :=
  v ← open_vault config;
  snapshot ← run_aegis_startup_probe config v None;
  (if enable_autostart (startup config) then
     attempt (on_registry (set_autostart (app_name (startup config)) true))
   else mret tt) ;;
  addr ← lift_result (ok_or (Net.parse_socket_addr ("127.0.0.1:" +:+ Str.show (server_port (server config))))
                        "invalid socket address syntax");
  n ← call;
  tv ← on_vault (server_token (generate_token n 32) config) v;
  let token := (tv.1 : string) in
  let base := "http://127.0.0.1:" +:+ Str.show (server_port (server config)) in
  let dashboard := base +:+ "/obs?token=" +:+ token in
  println ("OBS dashboard: " +:+ dashboard) ;;
  mret {| run_config := config; run_vault := (tv.2 : Vault); run_obs_password := obs_password config v; run_grafana_auth := grafana_auth_value config v;
          run_grafana_configured := grafana_configured config v; run_snapshot := snapshot; run_addr := addr;
          run_token := token; dashboard_url := dashboard;
          settings_url := base +:+ "/settings?token=" +:+ token |}.

(** [run]: a command, or the services ([Some]). *)
Definition run (args : list string) : M (option Started) :=
  config ← on_files (load os);
  let rest := tail args in
  match head args with
  | Some command =>
      if String.eqb command "vault-set" then handle_vault_set config rest ;; mret None
      else if String.eqb command "vault-get" then handle_vault_get config rest ;; mret None
      else if String.eqb command "vault-list" then handle_vault_list config ;; mret None
      else if String.eqb command "config-init" then handle_config_init ;; mret None
      else if String.eqb command "autostart-enable" then handle_autostart true config ;; mret None
      else if String.eqb command "autostart-disable" then handle_autostart false config ;; mret None
      else if String.eqb command "aegis-relay-active" then handle_aegis_relay_active config ;; mret None
      else if String.eqb command "aegis-relay-start" then handle_aegis_relay_start config rest ;; mret None
      else if String.eqb command "aegis-relay-stop" then handle_aegis_relay_stop config rest ;; mret None
      else started ← start config; mret (Some started)
  | None => started ← start config; mret (Some started)
  end.
End App.

(** ** Properties *)

Section AppProperties.
Context {b64 : Base64} {dp : DataProtection} {vj : VaultJson}.
Context {b64_laws : Base64Laws} {dp_laws : DataProtectionLaws} {vj_laws : VaultJsonLaws}.
Context (os : Host).

(** Opening a vault reads. *)
Lemma new_reads p w v w1 :
  new os (Some p) w = (Ok v, w1) -> path v = p /\ files w1 = files w /\
  entries v = match files w !! p with
              | Some raw => match vault_from_str raw with Ok store => store | Err _ => ∅ end
              | None => ∅
              end.
Proof.
  enough (wp (new os (Some p)) (fun x w1 => forall v, x = Ok v -> path v = p /\ files w1 = files w /\
    entries v = match files w !! p with
                | Some raw => match vault_from_str raw with Ok store => store | Err _ => ∅ end
                | None => ∅
                end) w) as H.
  { intros Hrun. apply (proj1 (wp_run _ _ _ _ _ Hrun) H). done. }
  unfold new. apply wp_bind, wp_ret, wp_bind, wp_make_parent; [done|]. intros n.
  apply wp_bind, wp_gets. cbn [files]. destruct (files w !! p) as [raw|] eqn:Hp.
  - rewrite bool_decide_eq_true_2 by eauto. apply wp_bind, wp_read; [done|].
    intros data Hd. apply wp_ret. intros v' [= <-]. cbn in Hd. simplify_eq. done.
  - rewrite bool_decide_eq_false_2 by (by intros [? ?]). apply wp_ret. by intros v' [= <-].
Qed.

(** C36: the server keeps its token.  Without a configured token, and when the
    operating system serves the file operations, the token of the first start
    (found in the vault, or freshly generated and stored) is the token of the
    next one, whatever would be generated then. *)
Theorem server_token_stable config p fresh fresh' w v w1 t v2 w2 v3 w3 :
  (forall n, refused os n = None) -> (forall m, is_ok (vault_to_string m) = true) ->
  fits (Str.chars fresh) -> is_ok (protect (Str.chars fresh)) = true -> Utf8.valid (Str.chars fresh) = true ->
  new os (Some p) w = (Ok v, w1) ->
  server_token os fresh config (v, w1) = (Ok t, (v2, w2)) ->
  new os (Some p) w2 = (Ok v3, w3) ->
  outcome (server_token os fresh' config) (v3, w3) = Ok t.
Proof.
  intros Hos Hjson Hfit Hp Hutf H1 H2 H3. unfold outcome, server_token in *.
  destruct (token (server config)); [by simplify_eq/=|]. cbn [fst] in *.
  destruct (new_reads _ _ _ _ H1) as (Hpath & Hf1 & He1).
  destruct (retrieve "server_token" v) as [existing|e] eqn:Hr.
  - injection H2 as <- <- <-. destruct (new_reads _ _ _ _ H3) as (_ & _ & He3).
    rewrite Hf1, <- He1 in He3. rewrite (retrieve_ext "server_token" v v3) by (by rewrite He3). by rewrite Hr.
  - injection H2 as <- Hs.
    destruct (store_cases os "server_token" fresh v w1)
      as [(e1 & He & _) | [(sealed & e1 & _ & Ho & _) | (sealed & data & Hp' & Ho & Hv & _)]].
    + by rewrite He in Hp.
    + exfalso. revert Ho. unfold store, persist, on_world, write, outcome, mbind, eff_bind, modify, gets. cbn.
      destruct (protect (Str.chars fresh)); [|done]. cbn.
      match goal with |- context [vault_to_string ?m] => specialize (Hjson m); destruct (vault_to_string m) end; [|done].
      cbn. by rewrite Hos.
    + unfold final in Hv. rewrite Hs in Hv. cbn [fst] in Hv. subst v2.
      destruct (reopen_stored os "server_token" fresh v w1 w2 Ho) as (w4 & H4 & _);
        [unfold final; by rewrite Hs | done |].
      unfold final in H4. rewrite Hs, Hpath in H4. rewrite H3 in H4. injection H4 as -> _.
      rewrite (retrieve_inserted _ _ _ _ Hfit Hp' Hutf); [done|]. cbn. apply lookup_insert_eq.
Qed.
End AppProperties.

(** ** Witness *)

(** A JSON of maps: their stdpp encoding, in binary. *)
Fixpoint bits (p : positive) : string :=
  match p with xH => "" | xI p => String "1" (bits p) | xO p => String "0" (bits p) end.
Fixpoint unbits (s : string) : positive :=
  match s with EmptyString => xH | String c s => if Ascii.eqb c "1" then xI (unbits s) else xO (unbits s) end.

Lemma unbits_bits p : unbits (bits p) = p.
Proof. induction p; cbn; congruence. Qed.

Lemma bits_valid p : Utf8.valid (Str.chars (bits p)) = true.
Proof. by induction p. Qed.

#[local] Instance bits_json : VaultJson := {|
  vault_to_string := fun m => Ok (bits (countable.encode m));
  vault_from_str := fun s => match countable.decode (unbits s) with Some m => Ok m | None => Err "expected map" end |}.
#[local] Instance bits_json_laws : VaultJsonLaws.
Proof.
  intros m data [= <-]. cbn. rewrite unbits_bits, countable.decode_encode. split; [done | apply bits_valid].
Defined.
#[local] Instance plain_base64 : Base64 := {| encode := Str.of_chars; decode := fun s => Ok (Str.chars s) |}.
#[local] Instance plain_base64_laws : Base64Laws.
Proof. intros data. cbn. by rewrite list_ascii_of_string_of_list_ascii. Defined.

Definition demo_os : Host := {| refused := fun _ => None |}.

Definition first_vault : Vault := mkVault "v.json" ∅.
Definition first_start := server_token demo_os "tok1" Config_default (first_vault, mkWorld 0 ∅ ∅).
Definition second_open := new demo_os (Some "v.json") (final (server_token demo_os "tok1" Config_default) (first_vault, mkWorld 0 ∅ ∅)).2.

Lemma server_token_stable_witness :
  exists v3 w3, second_open = (Ok v3, w3) /\
    outcome (server_token demo_os "tok2" Config_default) (v3, w3) = Ok "tok1".
Proof.
  destruct second_open as [[v3|e] w3] eqn:H3; [|vm_compute in H3; discriminate].
  exists v3, w3. split; [reflexivity|].
  refine (server_token_stable demo_os Config_default "v.json" "tok1" "tok2" (mkWorld 0 ∅ ∅) first_vault
    (mkWorld 0 ∅ ∅) "tok1" (final (server_token demo_os "tok1" Config_default) (first_vault, mkWorld 0 ∅ ∅)).1
    (final (server_token demo_os "tok1" Config_default) (first_vault, mkWorld 0 ∅ ∅)).2 v3 w3 _ _ _ _ _ _ _ H3);
    [reflexivity | reflexivity | by vm_compute | reflexivity | reflexivity | vm_compute; reflexivity | vm_compute; reflexivity].
Defined.
