(* ===== verification/Server.v ===== *)
(** * Server: the local HTTP API ([src/server/mod.rs])

    Every handler of the router as a computation over the server's shared state:
    the files and environment the configuration lives in, the vault, the
    exporter flag, the relay snapshot, the IPC debug status, and the commands
    broadcast to IPC sessions.  An early [return] of a handler is an exit of the
    monad with its response.  The text of the two HTML pages is in [Pages]. *)

From S2P Require Import Prelude RustStd Effects Float Model Host Config Security Aegis Ipc Pages.

#[local] Open Scope Z_scope.

(** ** Requests and responses *)

(** What a handler reads of the headers: the [Authorization] header, when there
    is one, as [to_str().ok()]. *)
Record HeaderMap := { authorization : option (option string) }.
Abbreviation Query := (gmap string string).

Record AegisStatusResponse := {
  st_enabled : bool;
  st_session : option RelaySession;
  st_refreshed : bool;
  st_error : option string;
}.

Record AegisActionResponse := {
  act_ok : bool;
  act_message : string;
  act_session : option RelaySession;
  act_error : option string;
}.

Record IpcSwitchSceneRequest := {
  sw_scene_name : string;
  sw_reason : option string;
  sw_deadline_ms : option Z; (* u64 *)
  sw_allow_empty : option bool;
}.

Record IpcSwitchSceneResponse := {
  swr_ok : bool;
  swr_message : string;
}.

Record SettingsForm := {
  form_obs_host : string;
  form_obs_port : Z; (* u16 *)
  form_obs_password : option string;
  grafana_interval : Z; (* u64 *)
  grafana_endpoint : option string;
  grafana_instance_id : option string;
  grafana_api_token : option string;
}.

Record GrafanaImportForm := {
  grafana_url : string;
  grafana_api_key : string;
}.

Inductive Body :=
  | Empty
  | Text (s : string)
  | Html (s : string)
  | Health (timestamp : Z)
  | Names (m : gmap string string)
  | AegisStatus (r : AegisStatusResponse)
  | AegisAction (r : AegisActionResponse)
  | IpcStatus (d : IpcDebugStatus)
  | SwitchSceneReply (r : IpcSwitchSceneResponse)
  | Dashboard
  | Redirect (location : string)
  | Upgrade. (* the WebSocket takes over *)

Record Response := mkResponse {
  status_code : Z;
  response_body : Body;
}.

Definition OK : Z := 200.
Definition TEMPORARY_REDIRECT : Z := 307.
Definition SWITCHING_PROTOCOLS : Z := 101.
Definition BAD_REQUEST : Z := 400.
Definition UNAUTHORIZED : Z := 401.
Definition INTERNAL_SERVER_ERROR : Z := 500.
Definition BAD_GATEWAY : Z := 502.
Definition SERVICE_UNAVAILABLE : Z := 503.

(** ** Tokens and text *)

Inductive QueryTokenPolicy := Allow | Deny.
#[global] Instance QueryTokenPolicy_eq_dec : EqDecision QueryTokenPolicy.
Proof. solve_decision. Defined.

Definition is_token_valid (headers : HeaderMap) (query : Query) (token : string) (query_policy : QueryTokenPolicy) :
    bool :=
  let by_query :=
    if bool_decide (query_policy = Allow) then
      match query !! "token" with Some t => String.eqb t token | None => false end
    else false in
  match authorization headers with
  | Some (Some auth_str) =>
      match Str.strip_prefix "Bearer " auth_str with
      | Some provided_token => String.eqb provided_token token
      | None => by_query
      end
  | _ => by_query
  end.

Definition double_quote : ascii := ascii_of_nat 34.

Definition quoted (s : string) : string :=
  String double_quote s +:+ String double_quote "".

Definition html_escape (s : string) : string :=
  Str.replace_char "'" "&#x27;"
    (Str.replace_char double_quote "&quot;"
      (Str.replace_char ">" "&gt;" (Str.replace_char "<" "&lt;" (Str.replace_char "&" "&amp;" s)))).

Definition theme_css (theme : ThemeConfig) : string :=
  "--font: " +:+ font_family theme +:+ "; --bg: " +:+ bg theme +:+ "; --panel: " +:+ panel theme
  +:+ "; --muted: " +:+ muted theme +:+ "; --good: " +:+ good theme +:+ "; --warn: " +:+ warn theme
  +:+ "; --bad: " +:+ bad theme +:+ "; --line: " +:+ line theme +:+ ";".

Definition grafana_status (grafana_configured : bool) : string :=
  if grafana_configured
  then "<div class=" +:+ quoted "status status-ok" +:+ ">Grafana Cloud: Connected</div>"
  else "<div class=" +:+ quoted "status status-off" +:+ ">Grafana Cloud: Not Configured</div>".

(** The named arguments of the settings page. *)
Definition settings_args (css token host : string) (port : Z) (configured : bool) (endpoint : string) (interval : Z) :
    list (string * string) :=
  [("css", css);
   ("token", html_escape token);
   ("obs_host", html_escape host);
   ("obs_port", Str.show port);
   ("grafana_status", grafana_status configured);
   ("grafana_endpoint", html_escape endpoint);
   ("grafana_interval", Str.show interval)].

(** ** State *)

Record Server := mkServer {
  world : World;
  vault : Vault;
  grafana_configured : bool;
  aegis_session_snapshot : option RelaySession;
  ipc_debug_status : IpcDebugStatus;
  ipc_receivers : nat; (* sessions subscribed to the commands *)
  ipc_sent : list CoreIpcCommand; (* commands broadcast, oldest first *)
  calls : nat; (* outgoing exchanges and random draws, the index into the oracles *)
}.

Definition set_world w s := mkServer w (vault s) (grafana_configured s) (aegis_session_snapshot s)
  (ipc_debug_status s) (ipc_receivers s) (ipc_sent s) (calls s).
Definition set_vault_world (vw : Vault * World) s := mkServer vw.2 vw.1 (grafana_configured s)
  (aegis_session_snapshot s) (ipc_debug_status s) (ipc_receivers s) (ipc_sent s) (calls s).
Definition set_grafana_configured b s := mkServer (world s) (vault s) b (aegis_session_snapshot s)
  (ipc_debug_status s) (ipc_receivers s) (ipc_sent s) (calls s).
Definition set_snapshot r s := mkServer (world s) (vault s) (grafana_configured s) r
  (ipc_debug_status s) (ipc_receivers s) (ipc_sent s) (calls s).
Definition push_command c s := mkServer (world s) (vault s) (grafana_configured s) (aegis_session_snapshot s)
  (ipc_debug_status s) (ipc_receivers s) (ipc_sent s ++ [c]) (calls s).
Definition next_call s := mkServer (world s) (vault s) (grafana_configured s) (aegis_session_snapshot s)
  (ipc_debug_status s) (ipc_receivers s) (ipc_sent s) (S (calls s)).

(** What the outside does, by call. *)
Record Outside (Url : Type) := {
  out_http : nat -> HttpStack Url;
  out_unix_secs : nat -> Z;
  out_unix_millis : nat -> Z;
  out_alphanumeric : nat -> nat -> string; (* rng.sample_iter(&Alphanumeric).take(n) *)
  out_http_client : nat -> result string unit; (* reqwest::Client::builder()...build() *)
  out_grafana : nat -> string -> string -> result string (Z * string); (* url, bearer key *)
  status_text : Z -> string; (* StatusCode's Display *)
}.
Arguments out_http {Url} _ _.
Arguments out_unix_secs {Url} _ _.
Arguments out_unix_millis {Url} _ _.
Arguments out_alphanumeric {Url} _ _ _.
Arguments out_http_client {Url} _ _.
Arguments out_grafana {Url} _ _ _ _.
Arguments status_text {Url} _ _.

(** The constants of [ServerState]. *)
Record ServerConsts := {
  srv_token : string;
  srv_theme : ThemeConfig;
}.

Section Handlers.
Context {Url : Type} {url_ops : UrlOps Url} {api_json : ApiJson}.
Context {b64 : Base64} {dp : DataProtection} {vj : VaultJson} {toml : TomlCodec}.
Context (os : Host) (o : Outside Url) (k : ServerConsts).

Abbreviation H := (eff Server Response).

Definition unauthorized : Response := mkResponse UNAUTHORIZED (Text "Unauthorized").

(** [if !is_token_valid(..) { return response; }]. *)
Definition guard_token (headers : HeaderMap) (query : Query) (policy : QueryTokenPolicy) (refusal : Response) :
    H unit :=
  if is_token_valid headers query (srv_token k) policy then mret tt else throw refusal.

(** A file operation as a value. *)
Definition on_files {A} (m : eff World string A) : H (result string A) := fun s =>
  let (r, w) := m (world s) in (Ok r, set_world w s).

(** A method of the locked vault. *)
Definition on_vault {A} (m : eff (Vault * World) string A) : H (result string A) := fun s =>
  let (r, vw) := m (vault s, world s) in (Ok r, set_vault_world vw s).

(** The index of an exchange with the outside. *)
Definition call : H nat := fun s => (Ok (calls s), next_call s).

(** [match Config::load() { Ok(c) => c, Err(e) => return .. }]. *)
Definition load_config (refusal : string -> H Response) : H Config :=
  loaded ← on_files (load os);
  match loaded with
  | Ok config => mret config
  | Err e => r ← refusal e; throw r
  end.

Definition load_failed (e : string) : H Response :=
  mret (mkResponse INTERNAL_SERVER_ERROR (Text ("Failed to load config: " +:+ e))).

Definition save_failed (e : string) : Response :=
  mkResponse INTERNAL_SERVER_ERROR (Text ("Failed to save config: " +:+ e)).

(** *** Pages *)

Definition obs_page (headers : HeaderMap) (query : Query) : H Response :=
  guard_token headers query Allow (mkResponse UNAUTHORIZED Empty) ;;
  let css := theme_css (srv_theme k) in
  mret (mkResponse OK (Html
    (Str.replace "{{TOKEN}}" (html_escape (srv_token k)) (Str.replace "{{THEME_VARS}}" css OBS_PAGE)))).

Definition settings_page (headers : HeaderMap) (query : Query) : H Response :=
  guard_token headers query Allow (mkResponse UNAUTHORIZED Empty) ;;
  config ← load_config load_failed;
  let css := theme_css (srv_theme k) in
  configured ← gets grafana_configured;
  let endpoint := text (endpoint (grafana config)) in
  mret (mkResponse OK (Html (default "" (Fmt.format SETTINGS_PAGE
    (settings_args css (srv_token k) (Config.host (Config.obs config)) (Config.port (Config.obs config)) configured
       endpoint (push_interval_ms (grafana config))))))).

Definition setup_page (query : Query) : H Response :=
  let token := default "" (query !! "token") in
  mret (mkResponse TEMPORARY_REDIRECT (Redirect ("/settings?token=" +:+ html_escape token))).

Definition ws_handler (headers : HeaderMap) (query : Query) : H Response :=
  guard_token headers query Allow (mkResponse UNAUTHORIZED Empty) ;;
  mret (mkResponse SWITCHING_PROTOCOLS Upgrade).

Definition health_check : H Response :=
  n ← call; mret (mkResponse OK (Health (out_unix_secs o n))).

(** *** Settings *)

(** Assignments to the configuration. *)
Definition set_obs_host_port (h : string) (p : Z) (c : Config) : Config :=
  mkConfig {| host := h; port := p; password_key := password_key (Config.obs c);
              auto_detect_process := auto_detect_process (Config.obs c);
              process_name := process_name (Config.obs c) |}
    (server c) (Config.vault c) (grafana c) (aegis c) (Config.network c) (startup c) (tray c) (theme c)
    (output_names c).
Definition set_password_key (key : string) (c : Config) : Config :=
  mkConfig {| host := Config.host (Config.obs c); port := Config.port (Config.obs c); password_key := Some key;
              auto_detect_process := auto_detect_process (Config.obs c);
              process_name := process_name (Config.obs c) |}
    (server c) (Config.vault c) (grafana c) (aegis c) (Config.network c) (startup c) (tray c) (theme c)
    (output_names c).
Definition set_grafana (g : GrafanaConfig) (c : Config) : Config :=
  mkConfig (Config.obs c) (server c) (Config.vault c) g (aegis c) (Config.network c) (startup c) (tray c)
    (theme c) (output_names c).
Definition set_push_interval (n : Z) (g : GrafanaConfig) : GrafanaConfig := {|
  grafana_enabled := grafana_enabled g; endpoint := endpoint g; auth_header := auth_header g;
  auth_value_key := auth_value_key g; push_interval_ms := n |}.
Definition set_endpoint (e : string) (g : GrafanaConfig) : GrafanaConfig := {|
  grafana_enabled := grafana_enabled g; endpoint := Some e; auth_header := auth_header g;
  auth_value_key := auth_value_key g; push_interval_ms := push_interval_ms g |}.
Definition set_grafana_credentials (e key : string) (g : GrafanaConfig) : GrafanaConfig := {|
  grafana_enabled := true; endpoint := Some e; auth_header := auth_header g;
  auth_value_key := Some key; push_interval_ms := push_interval_ms g |}.
Definition set_output_names (m : gmap string string) (c : Config) : Config :=
  mkConfig (Config.obs c) (server c) (Config.vault c) (grafana c) (aegis c) (Config.network c) (startup c)
    (tray c) (theme c) m.

(** [vault.store(key, value)], or a 500. *)
Definition store_or_fail (key value what : string) : H unit :=
  stored ← on_vault (store os key value);
  match stored with
  | Ok _ => mret tt
  | Err e =>
      throw (mkResponse INTERNAL_SERVER_ERROR (Text ("Failed to store " +:+ what +:+ ": " +:+ e)))
  end.

(** The password block: only a non-empty one is stored. *)
Definition submit_password (form : SettingsForm) (config : Config) : H Config :=
  match form_obs_password form with
  | Some pw =>
      if negb (Str.is_empty pw) then
        store_or_fail "obs_password" pw "OBS password" ;; mret (set_password_key "obs_password" config)
      else mret config
  | None => mret config
  end.

(** The credentials block: all three fields, or only the endpoint. *)
Definition submit_grafana (form : SettingsForm) (config : Config) : H Config :=
  let endpoint := Str.trim (text (grafana_endpoint form)) in
  let instance_id := Str.trim (text (grafana_instance_id form)) in
  let api_token := Str.trim (text (grafana_api_token form)) in
  if negb (Str.is_empty endpoint) && negb (Str.is_empty instance_id) && negb (Str.is_empty api_token) then
    let credentials := instance_id +:+ ":" +:+ api_token in
    let encoded := encode (Str.chars credentials) in
    store_or_fail "grafana_auth" ("Basic " +:+ encoded) "Grafana credentials" ;;
    modify (set_grafana_configured true) ;;
    mret (set_grafana (set_grafana_credentials endpoint "grafana_auth" (grafana config)) config)
  else if negb (Str.is_empty endpoint) then mret (set_grafana (set_endpoint endpoint (grafana config)) config)
  else mret config.

Definition save_config (config : Config) (done_ : string) : H Response :=
  saved ← on_files (save os config);
  match saved with
  | Ok _ => mret (mkResponse OK (Text done_))
  | Err e => mret (save_failed e)
  end.

Definition settings_submit (headers : HeaderMap) (query : Query) (form : SettingsForm) : H Response :=
  guard_token headers query Deny unauthorized ;;
  config ← load_config load_failed;
  let config := set_obs_host_port (form_obs_host form) (form_obs_port form) config in
  config ← submit_password form config;
  let config := set_grafana (set_push_interval (grafana_interval form) (grafana config)) config in
  config ← submit_grafana form config;
  save_config config "Settings saved. Restart required for connection changes to take effect.".

(** *** Output names *)

Definition get_output_names (headers : HeaderMap) (query : Query) : H Response :=
  guard_token headers query Deny unauthorized ;;
  config ← load_config load_failed;
  mret (mkResponse OK (Names (output_names config))).

(** The [for (id, name) in payload.names] loop. *)
Definition merge_names (payload : list (string * string)) (names : gmap string string) : gmap string string :=
  fold_left (fun m '(id, name) => if Str.is_empty (Str.trim name) then delete id m else <[id := name]> m)
    payload names.

Definition save_output_names (headers : HeaderMap) (query : Query) (payload : gmap string string) : H Response :=
  guard_token headers query Deny unauthorized ;;
  config ← load_config load_failed;
  let config := set_output_names (merge_names (map_to_list payload) (output_names config)) config in
  save_config config "Output names saved".

(** *** Grafana *)

Definition grafana_dashboard_download (headers : HeaderMap) (query : Query) : H Response :=
  guard_token headers query Allow (mkResponse UNAUTHORIZED Empty) ;;
  mret (mkResponse OK Dashboard).

Definition grafana_dashboard_import (headers : HeaderMap) (query : Query) (form : GrafanaImportForm) : H Response :=
  guard_token headers query Deny unauthorized ;;
  let url := Str.trim_end_matches "/" (Str.trim (grafana_url form)) in
  let api_key := Str.trim (grafana_api_key form) in
  if Str.is_empty url || Str.is_empty api_key then
    mret (mkResponse BAD_REQUEST (Text "Grafana URL and API key are required"))
  else
    n ← call;
    match out_http_client o n with
    | Err e => mret (mkResponse INTERNAL_SERVER_ERROR (Text ("HTTP client error: " +:+ e)))
    | Ok _ =>
        match out_grafana o n (url +:+ "/api/dashboards/db") api_key with
        | Ok (status, body) =>
            if is_success status then
              mret (mkResponse OK (Text "Dashboard imported successfully into Grafana."))
            else mret (mkResponse BAD_GATEWAY
                   (Text ("Grafana returned " +:+ status_text o status +:+ ": " +:+ body)))
        | Err e => mret (mkResponse BAD_GATEWAY (Text ("Failed to reach Grafana: " +:+ e)))
        end
    end.

(** *** Relay *)

Definition build_aegis_client_from_config (n : nat) (config : Config) (v : Vault) :
    result string (ControlPlaneClient Url) :=
  base_url ← ok_or (Str.trim <$> aegis_base_url (aegis config)) "missing aegis.base_url in config";
  jwt_key ← ok_or (Str.trim <$> access_jwt_key (aegis config)) "missing aegis.access_jwt_key in config";
  if Str.is_empty base_url then Err "missing aegis.base_url in config"
  else if Str.is_empty jwt_key then Err "missing aegis.access_jwt_key in config"
  else
    access_jwt ← retrieve jwt_key v;
    map_err ControlPlaneError_to_string (ControlPlaneClient_new (out_http o n) base_url (Str.trim access_jwt)).

(** The client of a request, built from the current vault. *)
Definition aegis_client (config : Config) : H (result string (ControlPlaneClient Url)) :=
  n ← call; v ← gets vault; mret (build_aegis_client_from_config n config v).

(** An exchange with the control plane; its error is displayed. *)
Definition exchange {A} (f : HttpStack Url -> result ControlPlaneError A) : H (result string A) :=
  n ← call; mret (map_err ControlPlaneError_to_string (f (out_http o n))).

Definition aegis_status (code : Z) (enabled : bool) (session : option RelaySession) (refreshed : bool)
    (error : option string) : Response :=
  mkResponse code (AegisStatus {| st_enabled := enabled; st_session := session; st_refreshed := refreshed;
                                  st_error := error |}).

Definition aegis_action (code : Z) (ok : bool) (message : string) (session : option RelaySession)
    (error : option string) : Response :=
  mkResponse code (AegisAction {| act_ok := ok; act_message := message; act_session := session;
                                  act_error := error |}).

(** A failed action reports the snapshot as it is. *)
Definition action_failed (code : Z) (message error : string) : H Response :=
  session ← gets aegis_session_snapshot; mret (aegis_action code false message session (Some error)).

Definition refresh_requested (query : Query) : bool :=
  match query !! "refresh" with
  | Some v => String.eqb v "1" || Str.eq_ignore_ascii_case v "true"
  | None => false
  end.

Definition get_aegis_status (headers : HeaderMap) (query : Query) : H Response :=
  guard_token headers query Allow (mkResponse UNAUTHORIZED Empty) ;;
  config ← load_config (fun err =>
    session ← gets aegis_session_snapshot;
    mret (aegis_status INTERNAL_SERVER_ERROR false session false (Some ("config load failed: " +:+ err))));
  if negb (aegis_enabled (aegis config)) then mret (aegis_status OK false None false None)
  else if refresh_requested query then
    client ← aegis_client config;
    refreshed ← (match client with
                 | Ok client => exchange (fun http => relay_active http client)
                 | Err err => mret (Err err)
                 end);
    match refreshed with
    | Ok session =>
        modify (set_snapshot session) ;;
        mret (aegis_status OK true session true None)
    | Err err =>
        session ← gets aegis_session_snapshot;
        mret (aegis_status BAD_GATEWAY true session false (Some err))
    end
  else
    session ← gets aegis_session_snapshot;
    mret (aegis_status OK true session false None).

(** [format!("dash-{ts}-{suffix}")]. *)
Definition generate_idempotency_key : H string :=
  n ← call;
  mret ("dash-" +:+ Str.show (out_unix_millis o n) +:+ "-" +:+ out_alphanumeric o n 10).

(** Load the configuration and build the client, or answer the failure. *)
Definition action_client : H (ControlPlaneClient Url) :=
  config ← load_config (fun err => action_failed INTERNAL_SERVER_ERROR "config load failed" err);
  client ← aegis_client config;
  match client with
  | Ok client => mret client
  | Err err => r ← action_failed BAD_REQUEST "aegis client config invalid" err; throw r
  end.

Definition start_request : RelayStartRequest := {|
  region_preference := Some "auto";
  client_context := Some {| obs_connected := None; ctx_mode := Some "studio";
                            requested_by := Some "dashboard" |} |}.

Definition post_aegis_start (headers : HeaderMap) (query : Query) : H Response :=
  guard_token headers query Deny unauthorized ;;
  client ← action_client;
  idem ← generate_idempotency_key;
  started ← exchange (fun http => relay_start http idem start_request client);
  match started with
  | Ok session =>
      modify (set_snapshot (Some session)) ;;
      mret (aegis_action OK true ("relay start ok (" +:+ Aegis.status session +:+ ")") (Some session) None)
  | Err err => action_failed BAD_GATEWAY "relay start failed" err
  end.

Definition post_aegis_stop (headers : HeaderMap) (query : Query) : H Response :=
  guard_token headers query Deny unauthorized ;;
  client ← action_client;
  current ← exchange (fun http => relay_active http client);
  match current with
  | Err err => action_failed BAD_GATEWAY "relay active lookup failed" err
  | Ok None =>
      modify (set_snapshot None) ;;
      mret (aegis_action OK true "no active relay session" None None)
  | Ok (Some session) =>
      let stop_req := {| stop_session_id := session_id session; stop_reason := "user_requested" |} in
      stopped ← exchange (fun http => relay_stop http stop_req client);
      match stopped with
      | Ok _ =>
          modify (set_snapshot None) ;;
          mret (aegis_action OK true ("relay stop ok (" +:+ stop_session_id stop_req +:+ ")") None None)
      | Err err => action_failed BAD_GATEWAY "relay stop failed" err
      end
  end.

(** *** IPC *)

Definition get_ipc_status (headers : HeaderMap) (query : Query) : H Response :=
  guard_token headers query Deny unauthorized ;;
  snapshot ← gets ipc_debug_status;
  mret (mkResponse OK (IpcStatus snapshot)).

(** [broadcast::Sender::send]: an error without receivers. *)
Definition broadcast (c : CoreIpcCommand) : H (result string nat) := fun s =>
  match ipc_receivers s with
  | O => (Ok (Err "channel closed"), s)
  | n => (Ok (Ok n), push_command c s)
  end.

Definition switch_reply (code : Z) (ok : bool) (message : string) : Response :=
  mkResponse code (SwitchSceneReply {| swr_ok := ok; swr_message := message |}).

Definition post_ipc_switch_scene (headers : HeaderMap) (query : Query) (body : IpcSwitchSceneRequest) : H Response :=
  guard_token headers query Deny unauthorized ;;
  let scene_name := Str.trim (sw_scene_name body) in
  let allow_empty := default false (sw_allow_empty body) in
  if Str.is_empty scene_name && negb allow_empty then
    mret (switch_reply BAD_REQUEST false
      "scene_name is required (set allow_empty=true for debug negative-path validation)")
  else
    let reason := Str.trim (default "manual_debug" (sw_reason body)) in
    let deadline_ms := Int.clamp (default 550 (sw_deadline_ms body)) 50 5000 in
    sent ← broadcast (SwitchScene scene_name (if Str.is_empty reason then "manual_debug" else reason) deadline_ms);
    match sent with
    | Ok _ =>
        mret (switch_reply OK true
          ("queued ipc switch_scene '" +:+ scene_name +:+ "' (deadline=" +:+ Str.show deadline_ms +:+ "ms"
           +:+ (if Str.is_empty scene_name then ", empty scene debug case" else "") +:+ ")"))
    | Err err => mret (switch_reply SERVICE_UNAVAILABLE false ("ipc switch_scene unavailable: " +:+ err))
    end.

(** ** The router *)

Inductive Endpoint :=
  | GetHealth
  | GetObs
  | GetWs
  | GetSetup
  | GetSettings
  | PostSettings (form : SettingsForm)
  | GetOutputNames
  | PostOutputNames (payload : gmap string string)
  | GetGrafanaDashboard
  | PostGrafanaDashboardImport (form : GrafanaImportForm)
  | GetAegisStatus
  | PostAegisStart
  | PostAegisStop
  | GetIpcStatus
  | PostIpcSwitchScene (body : IpcSwitchSceneRequest).

Definition route (e : Endpoint) (headers : HeaderMap) (query : Query) : H Response :=
  match e with
  | GetHealth => health_check
  | GetObs => obs_page headers query
  | GetWs => ws_handler headers query
  | GetSetup => setup_page query
  | GetSettings => settings_page headers query
  | PostSettings form => settings_submit headers query form
  | GetOutputNames => get_output_names headers query
  | PostOutputNames payload => save_output_names headers query payload
  | GetGrafanaDashboard => grafana_dashboard_download headers query
  | PostGrafanaDashboardImport form => grafana_dashboard_import headers query form
  | GetAegisStatus => get_aegis_status headers query
  | PostAegisStart => post_aegis_start headers query
  | PostAegisStop => post_aegis_stop headers query
  | GetIpcStatus => get_ipc_status headers query
  | PostIpcSwitchScene body => post_ipc_switch_scene headers query body
  end.

(** The response of a request, whichever way its handler ends. *)
Definition serve (e : Endpoint) (headers : HeaderMap) (query : Query) (s : Server) : Response * Server :=
  match route e headers query s with
  | (Ok r, s') | (Err r, s') => (r, s')
  end.

End Handlers.
