(* ===== verification/Markup.v ===== *)
(** * Markup: how a served page reads as HTML

    The specification side of the two pages: escaping and its inverse, a reader
    that finds the tags of a document with their quoted attributes, and what
    happens to them when a page is a template with holes.  The reader follows
    the states of an HTML tokenizer for what the pages use: text, tags,
    double-quoted values, and the raw text of [style] and [script]. *)

From S2P Require Import Prelude RustStd Server.

(** ** Escaping *)

Definition escape_char (a : ascii) : string :=
  if Ascii.eqb a "&" then "&amp;"
  else if Ascii.eqb a "<" then "&lt;"
  else if Ascii.eqb a ">" then "&gt;"
  else if Ascii.eqb a double_quote then "&quot;"
  else if Ascii.eqb a "'" then "&#x27;"
  else String a "".

(** One pass that replaces each character by its entity. *)
Fixpoint escape_text (s : string) : string :=
  match s with EmptyString => EmptyString | String a s' => escape_char a +:+ escape_text s' end.

Definition markup (a : ascii) : bool :=
  Ascii.eqb a "<" || Ascii.eqb a ">" || Ascii.eqb a double_quote || Ascii.eqb a "'".

Lemma replace_char_app c b s t :
  Str.replace_char c b (s +:+ t) = Str.replace_char c b s +:+ Str.replace_char c b t.
Proof.
  induction s as [|a s IH]; [done|]. rewrite string_app_cons. cbn [Str.replace_char]. rewrite IH.
  destruct (Ascii.eqb a c); [by rewrite string_app_assoc | done].
Qed.

Lemma html_escape_cons a s : html_escape (String a s) = html_escape (String a "") +:+ html_escape s.
Proof. unfold html_escape. change (String a s) with (String a "" +:+ s). by rewrite !replace_char_app. Qed.

Lemma html_escape_char a : html_escape (String a "") = escape_char a.
Proof.
  unfold escape_char. destruct (Ascii.eqb_spec a "&") as [->|H1]; [reflexivity|].
  destruct (Ascii.eqb_spec a "<") as [->|H2]; [reflexivity|].
  destruct (Ascii.eqb_spec a ">") as [->|H3]; [reflexivity|].
  destruct (Ascii.eqb_spec a double_quote) as [->|H4]; [reflexivity|].
  destruct (Ascii.eqb_spec a "'") as [->|H5]; [reflexivity|].
  unfold html_escape. cbn.
  repeat (rewrite (proj2 (Ascii.eqb_neq _ _)) by done; cbn). done.
Qed.

(** The inverse: read the entities back. *)
Fixpoint unescape_list (fuel : nat) (l : list ascii) : list ascii :=
  match fuel, l with
  | O, _ | _, [] => l
  | S fuel', a :: l' =>
      let entity (c : ascii) (name : string) (k : option (list ascii)) :=
        match Str.drop_prefix (Str.chars name) l with Some rest => Some (c :: unescape_list fuel' rest) | None => k end in
      match entity "&"%char "&amp;" (entity "<"%char "&lt;" (entity ">"%char "&gt;"
              (entity double_quote "&quot;" (entity "'"%char "&#x27;" None)))) with
      | Some r => r
      | None => a :: unescape_list fuel' l'
      end
  end.

Lemma unescape_plain n a l :
  Ascii.eqb a "&" = false -> unescape_list (S n) (a :: l) = a :: unescape_list n l.
Proof.
  intros Ha. assert (forall p, Str.drop_prefix ("&"%char :: p) (a :: l) = None) as Hnone.
  { intros p. cbn [Str.drop_prefix]. by rewrite Ascii.eqb_sym, Ha. }
  cbn [unescape_list]. cbn [list_ascii_of_string]. by rewrite !Hnone.
Qed.

(** The five successive replacements are one pass (the ampersand first, so that
    no entity is escaped again). *)
Lemma html_escape_pass s : html_escape s = escape_text s.
Proof. induction s as [|a s IH]; [done|]. by rewrite html_escape_cons, html_escape_char, IH. Qed.

(** The result has no quote and no angle bracket. *)
Lemma html_escape_plain s : forallb (fun a => negb (markup a)) (Str.chars (html_escape s)) = true.
Proof.
  rewrite html_escape_pass. induction s as [|a s IH]; [done|]. cbn [escape_text].
  rewrite chars_app, forallb_app, IH, andb_true_r. unfold escape_char.
  repeat (case_match; [reflexivity|]). cbn. unfold markup.
  repeat match goal with H : _ = false |- _ => rewrite H end. done.
Qed.

Definition html_unescape (s : string) : string :=
  Str.of_chars (unescape_list (String.length s) (Str.chars s)).

Lemma unescape_list_escaped s n :
  (String.length s <= n)%nat -> unescape_list n (Str.chars (escape_text s)) = Str.chars s.
Proof.
  revert n. induction s as [|a s IH]; intros [|n] Hn; try (cbn in Hn; lia); [done..|].
  cbn in Hn. cbn [escape_text]. rewrite chars_app. unfold escape_char.
  repeat (case_match; [match goal with H : _ = true |- _ => apply Ascii.eqb_eq in H as -> end;
                       cbn; rewrite IH by lia; done|]).
  change (Str.chars (String a "") ++ Str.chars (escape_text s)) with (a :: Str.chars (escape_text s)).
  rewrite unescape_plain by done. by rewrite IH by lia.
Qed.

Lemma length_string_app s t : String.length (s +:+ t) = (String.length s + String.length t)%nat.
Proof. induction s as [|a s IH]; [done|]. rewrite string_app_cons. cbn. by rewrite IH. Qed.

Lemma escape_longer s : (String.length s <= String.length (escape_text s))%nat.
Proof.
  induction s as [|a s IH]; [done|]. cbn [escape_text]. rewrite length_string_app. cbn [String.length].
  enough (1 <= String.length (escape_char a))%nat by lia. unfold escape_char.
  repeat (case_match; [cbn; lia|]). cbn. lia.
Qed.

(** Reading the entities back gives the original. *)
Lemma html_unescape_escape s : html_unescape (html_escape s) = s.
Proof.
  unfold html_unescape. rewrite html_escape_pass, unescape_list_escaped by apply escape_longer.
  apply string_of_list_ascii_of_string.
Qed.

(** ** Reading tags *)

(** A document with holes: characters, and the names of the texts that go in. *)
Inductive symbol :=
  | Ch (a : ascii)
  | Hole (name : string).

(** A tag: before each quoted value the text up to it ([input id=]), and what
    follows the last one. *)
Record Tag := mkTag { attributes : list (list ascii * list symbol); rest : list ascii }.

Inductive Mode :=
  | Data
  | Raw (close : list ascii) (matched : nat) (* inside [style] or [script]: how much of the end tag is read *)
  | InTag (chunk : list ascii) (done_ : list (list ascii * list symbol))
  | InValue (chunk : list ascii) (value : list symbol) (done_ : list (list ascii * list symbol))
  | Broken. (* a hole in a place where text would be markup *)

Record Reader := mkReader { mode : Mode; tags : list Tag }.

(** The text a tag begins with, and the first word of it. *)
Definition tag_head (t : Tag) : list ascii :=
  match attributes t with (chunk, _) :: _ => chunk | [] => rest t end.
Definition tag_name (t : Tag) : string := default "" (head (String.words (Str.of_chars (tag_head t)))).

(** Where the reader is after a tag. *)
Definition after_tag (t : Tag) : Mode :=
  let name := tag_name t in
  if String.eqb name "style" || String.eqb name "script" then Raw (Str.chars ("</" +:+ name)) 0 else Data.

Definition read_char (r : Reader) (a : ascii) : Reader :=
  match mode r with
  | Data => if Ascii.eqb a "<" then mkReader (InTag [] []) (tags r) else r
  | Raw close O => if Ascii.eqb a "<" then mkReader (Raw close 1) (tags r) else r
  | Raw close m =>
      if match close !! m with Some b => Ascii.eqb a b | None => false end then
        if (length close <=? S m)%nat then mkReader (InTag (drop 1 close) []) (tags r)
        else mkReader (Raw close (S m)) (tags r)
      else mkReader (Raw close (if Ascii.eqb a "<" then 1 else 0)%nat) (tags r)
  | InTag chunk attrs =>
      if Ascii.eqb a double_quote then mkReader (InValue chunk [] attrs) (tags r)
      else if Ascii.eqb a ">" then
        let t := mkTag attrs chunk in mkReader (after_tag t) (tags r ++ [t])
      else mkReader (InTag (chunk ++ [a]) attrs) (tags r)
  | InValue chunk value attrs =>
      if Ascii.eqb a double_quote then mkReader (InTag [] (attrs ++ [(chunk, value)])) (tags r)
      else mkReader (InValue chunk (value ++ [Ch a]) attrs) (tags r)
  | Broken => r
  end.

Definition read_hole (r : Reader) (name : string) : Reader :=
  match mode r with
  | Data | Raw _ O => r
  | InValue chunk value attrs => mkReader (InValue chunk (value ++ [Hole name]) attrs) (tags r)
  | _ => mkReader Broken (tags r)
  end.

Definition read_symbol (r : Reader) (x : symbol) : Reader :=
  match x with Ch a => read_char r a | Hole name => read_hole r name end.

Definition read (l : list symbol) : Reader := fold_left read_symbol l (mkReader Data []).

(** The tags of a document. *)
Definition tags_of (page : string) : list Tag := tags (read (map Ch (Str.chars page))).

(** The value of an attribute, and the text it stands for. *)
Definition raw_attr (name : string) (t : Tag) : option (list symbol) :=
  snd <$> find (fun cv => bool_decide (last (String.words (Str.of_chars cv.1)) = Some (name +:+ "="))) (attributes t).
Definition value_text (v : list symbol) : string :=
  html_unescape (Str.of_chars (omap (fun x => match x with Ch a => Some a | Hole _ => None end) v)).
Definition attr (name : string) (t : Tag) : option string := value_text <$> raw_attr name t.

#[global] Instance symbol_eq_dec : EqDecision symbol.
Proof. solve_decision. Defined.

(** The tag with an id. *)
Definition element (id : string) (l : list Tag) : option Tag :=
  find (fun t => bool_decide (raw_attr "id" t = Some (map Ch (Str.chars id)))) l.

(** What the form field with this id is filled in with. *)
Definition field (id page : string) : option string := element id (tags_of page) ≫= attr "value".

(** Where the links of a page lead. *)
Definition links_in (l : list Tag) : list (list symbol) :=
  omap (raw_attr "href") (List.filter (fun t => String.eqb (tag_name t) "a") l).
Definition links (page : string) : list string := map value_text (links_in (tags_of page)).

(** ** Templates *)

Section Fill.
Context (args : string -> list ascii).

Definition fill_symbol (x : symbol) : list symbol :=
  match x with Ch a => [Ch a] | Hole name => map Ch (args name) end.
Definition fill (l : list symbol) : list symbol := concat (map fill_symbol l).
Definition fill_attrs (l : list (list ascii * list symbol)) : list (list ascii * list symbol) :=
  map (fun cv => (cv.1, fill cv.2)) l.
Definition fill_tag (t : Tag) : Tag := mkTag (fill_attrs (attributes t)) (rest t).
Definition fill_mode (m : Mode) : Mode :=
  match m with
  | InTag chunk attrs => InTag chunk (fill_attrs attrs)
  | InValue chunk value attrs => InValue chunk (fill value) (fill_attrs attrs)
  | _ => m
  end.
Definition fill_reader (r : Reader) : Reader := mkReader (fill_mode (mode r)) (map fill_tag (tags r)).

(** Text that cannot end the place it is put in: a quoted value ends at a quote,
    text (and the raw text of an element) at an angle bracket. *)
Definition inert (quoted : bool) (name : string) : Prop :=
  forallb (fun a => negb (Ascii.eqb a (if quoted then double_quote else "<"%char))) (args name) = true.

Lemma fill_app l1 l2 : fill (l1 ++ l2) = fill l1 ++ fill l2.
Proof. unfold fill. by rewrite map_app, concat_app. Qed.

Lemma fill_text s : fill (map Ch s) = map Ch s.
Proof. unfold fill. induction s as [|a s IH]; [done|]. cbn. by rewrite IH. Qed.

Lemma fill_hole name : fill [Hole name] = map Ch (args name).
Proof. apply app_nil_r. Qed.

Lemma fill_attrs_app l1 l2 : fill_attrs (l1 ++ l2) = fill_attrs l1 ++ fill_attrs l2.
Proof. apply map_app. Qed.

Lemma after_fill t : after_tag (fill_tag t) = after_tag t.
Proof. unfold after_tag, tag_name, tag_head. destruct t as [[|[c v] l] r]; done. Qed.

(** Reading commutes with filling. *)
Lemma read_char_fill r a : read_char (fill_reader r) a = fill_reader (read_char r a).
Proof.
  destruct r as [[|close [|m]|chunk attrs|chunk value attrs|] ts]; unfold read_char, fill_reader; cbn [mode tags fill_mode].
  - by destruct (Ascii.eqb a "<").
  - by destruct (Ascii.eqb a "<").
  - destruct (close !! S m) as [b|]; [|done]. destruct (Ascii.eqb a b); [|done]. by destruct (length _ <=? S (S m))%nat.
  - destruct (Ascii.eqb a double_quote); [done|]. destruct (Ascii.eqb a ">"); [|done].
    cbn [mode tags]. rewrite map_app. f_equal.
    change (mkTag (fill_attrs attrs) chunk) with (fill_tag (mkTag attrs chunk)). rewrite after_fill.
    unfold after_tag. by repeat case_match.
  - destruct (Ascii.eqb a double_quote); cbn; [by rewrite fill_attrs_app | by rewrite fill_app].
  - done.
Qed.

(** Inert text leaves text and raw text, and is collected by a value. *)
Lemma read_text l :
  forallb (fun a => negb (Ascii.eqb a "<")) l = true ->
  (forall ts, fold_left read_char l (mkReader Data ts) = mkReader Data ts) /\
  (forall name ts, fold_left read_char l (mkReader (Raw name 0) ts) = mkReader (Raw name 0) ts).
Proof.
  induction l as [|a l IH]; cbn [forallb fold_left]; [done|].
  intros [Hlt%negb_true_iff Hl]%andb_prop. destruct (IH Hl) as (H1 & H2).
  split; intros; unfold read_char at 2; cbn [mode tags]; by rewrite Hlt.
Qed.

Lemma read_quoted l : forall chunk value attrs ts,
  forallb (fun a => negb (Ascii.eqb a double_quote)) l = true ->
  fold_left read_char l (mkReader (InValue chunk value attrs) ts) = mkReader (InValue chunk (value ++ map Ch l) attrs) ts.
Proof.
  induction l as [|a l IH]; intros chunk value attrs ts; cbn [forallb fold_left]; [intros _; cbn; by rewrite app_nil_r|].
  intros [Hq%negb_true_iff Hl]%andb_prop. unfold read_char at 2. cbn [mode tags].
  rewrite Hq, IH by done. cbn. by rewrite <- app_assoc.
Qed.

Definition in_quotes (r : Reader) : bool := match mode r with InValue _ _ _ => true | _ => false end.

Lemma read_hole_fill r name :
  inert (in_quotes r) name -> mode (read_hole r name) <> Broken ->
  fold_left read_char (args name) (fill_reader r) = fill_reader (read_hole r name).
Proof.
  unfold in_quotes. destruct r as [[|raw [|m]|chunk attrs|chunk value attrs|] ts]; cbn; intros Hi Hb; try congruence.
  - by apply read_text.
  - by apply read_text.
  - unfold fill_reader. cbn [mode tags fill_mode]. rewrite read_quoted by done. rewrite fill_app. do 2 f_equal. cbn.
    by rewrite app_nil_r.
Qed.

Lemma broken_stays l r : mode r = Broken -> mode (fold_left read_symbol l r) = Broken.
Proof.
  revert r. induction l as [|x l IH]; intros r Hr; [done|]. cbn. apply IH.
  destruct r as [m ts], x; cbn in *; subst; done.
Qed.

(** The holes of a template, each with the place it is in. *)
Fixpoint placed (l : list symbol) (r : Reader) : list (bool * string) :=
  match l with
  | [] => []
  | Ch a :: l' => placed l' (read_char r a)
  | Hole name :: l' => (in_quotes r, name) :: placed l' (read_hole r name)
  end.
Definition all_inert (holes : list (bool * string)) : Prop := Forall (fun h => inert h.1 h.2) holes.

(** The tags of a filled template are the filled tags of the template: no inert
    text can add a tag or an attribute, or end one. *)
Lemma read_fill l r :
  all_inert (placed l r) -> mode (fold_left read_symbol l r) <> Broken ->
  fold_left read_symbol (fill l) (fill_reader r) = fill_reader (fold_left read_symbol l r).
Proof.
  revert r. induction l as [|x l IH]; intros r Hi Hb; [done|].
  change (fill (x :: l)) with (fill_symbol x ++ fill l). rewrite fold_left_app. cbn [fold_left] in *.
  destruct x as [a|name]; cbn [placed read_symbol fill_symbol] in *.
  - rewrite <- (IH _ Hi Hb). f_equal. apply read_char_fill.
  - apply Forall_cons in Hi as [Hn Hi]. rewrite <- (IH _ Hi Hb). f_equal.
    assert (mode (read_hole r name) <> Broken) as Hb' by (intros H; by apply Hb, broken_stays).
    rewrite <- (read_hole_fill r name Hn Hb').
    generalize (fill_reader r). induction (args name) as [|a t IHt]; intros r'; [done|]. apply IHt.
Qed.
End Fill.

(** A template, read once and for all. *)
Definition well_placed (l : list symbol) : bool :=
  match mode (read l) with Broken => false | _ => true end.

Lemma tags_of_filled args l page :
  well_placed l = true -> all_inert args (placed l (mkReader Data [])) ->
  map Ch (Str.chars page) = fill args l -> tags_of page = map (fill_tag args) (tags (read l)).
Proof.
  intros Hw Hi Hp. unfold tags_of, read. rewrite Hp.
  pose proof (read_fill args l (mkReader Data []) Hi) as H. unfold well_placed, read in Hw.
  change (fill_reader args (mkReader Data [])) with (mkReader Data []) in H. rewrite H; [done|].
  intros Hb. by rewrite Hb in Hw.
Qed.

(** [format!] fills the template its pieces make; the texts of [known] arguments
    are part of the template. *)
Definition arg_named (name : string) (args : list (string * string)) : option (string * string) :=
  find (fun a => String.eqb a.1 name) args.
Definition symbols_of (known : list (string * string)) (p : Fmt.piece) : list symbol :=
  match p with
  | Fmt.Lit s => map Ch s
  | Fmt.Arg name =>
      match arg_named (Str.of_chars name) known with
      | Some a => map Ch (Str.chars a.2)
      | None => [Hole (Str.of_chars name)]
      end
  end.
Definition template (known : list (string * string)) (t : string) : list symbol :=
  concat (map (symbols_of known) (default [] (Fmt.pieces t))).

Definition lookup_arg (args : list (string * string)) (name : string) : list ascii :=
  default [] (Str.chars ∘ snd <$> arg_named name args).

Lemma format_fills known t args page :
  (forall name a, arg_named name known = Some a -> arg_named name args = Some a) ->
  Fmt.format t args = Some page -> map Ch (Str.chars page) = fill (lookup_arg args) (template known t).
Proof.
  intros Hk. unfold Fmt.format, template.
  destruct (Fmt.pieces t) as [ps|]; [|done]. cbn [mbind option_bind default].
  destruct (mapM (Fmt.render_piece args) ps) as [ls|] eqn:Hls; [|done]. cbn [mbind option_bind]. intros [= <-].
  rewrite list_ascii_of_string_of_list_ascii. apply mapM_Some in Hls.
  induction Hls as [|p l ps ls Hp _ IH]; [done|].
  change (map Ch (l ++ concat ls) = fill (lookup_arg args) (symbols_of known p ++ concat (map (symbols_of known) ps))).
  rewrite map_app, fill_app. rewrite IH. f_equal.
  destruct p as [s|name]; cbn in Hp.
  - injection Hp as <-. by rewrite <- fill_text at 1.
  - cbn [symbols_of]. change (find _ args) with (arg_named (Str.of_chars name) args) in Hp.
    destruct (arg_named _ known) as [a|] eqn:Ha.
    + rewrite (Hk _ _ Ha) in Hp. injection Hp as <-. by rewrite fill_text.
    + cbn. rewrite app_nil_r. unfold lookup_arg. by rewrite Hp.
Qed.

Lemma format_total t ps args :
  Fmt.pieces t = Some ps ->
  forallb (fun p => match p with
                    | Fmt.Lit _ => true
                    | Fmt.Arg name => existsb (fun a => String.eqb a.1 (Str.of_chars name)) args
                    end) ps = true ->
  is_Some (Fmt.format t args).
Proof.
  intros Hp Hall. unfold Fmt.format. rewrite Hp. cbn. clear Hp.
  assert (is_Some (mapM (Fmt.render_piece args) ps)) as [ls ->]; [|by eexists].
  apply mapM_is_Some, Forall_forall. intros p Hin. rewrite forallb_forall in Hall.
  apply list_elem_of_In in Hin. specialize (Hall p Hin). destruct p as [s|name]; [by eexists|]. cbn.
  destruct (find _ args) as [a|] eqn:Hf; [by eexists|].
  apply existsb_exists in Hall as (a & Ha & Heq). by rewrite (find_none _ _ Hf a Ha) in Heq.
Qed.

(** ** Reading a filled page through its template *)

Section Through.
Context (args : string -> list ascii).

Lemma raw_attr_fill name t : raw_attr name (fill_tag args t) = fill args <$> raw_attr name t.
Proof.
  unfold raw_attr. destruct t as [l r]. cbn. induction l as [|[c v] l IH]; [done|]. cbn.
  case_bool_decide; [done | apply IH].
Qed.

Definition closed (v : list symbol) : bool := forallb (fun x => match x with Ch _ => true | Hole _ => false end) v.

Lemma fill_closed v : closed v = true -> fill args v = v.
Proof.
  unfold fill. induction v as [|[a|n] v IH]; [done| |done]. cbn. intros H. by rewrite IH.
Qed.

Definition closed_ids (l : list Tag) : bool :=
  forallb (fun t => match raw_attr "id" t with Some v => closed v | None => true end) l.

Lemma element_fill id l :
  closed_ids l = true -> element id (map (fill_tag args) l) = fill_tag args <$> element id l.
Proof.
  unfold element. induction l as [|t l IH]; [done|]. cbn [closed_ids forallb map find]. intros [Ht Hl]%andb_prop.
  rewrite raw_attr_fill.
  assert (fill args <$> raw_attr "id" t = raw_attr "id" t) as ->.
  { destruct (raw_attr "id" t) as [v|]; [|done]. cbn. by rewrite fill_closed. }
  case_bool_decide; [done | by apply IH].
Qed.

Lemma links_fill l : links_in (map (fill_tag args) l) = map (fill args) (links_in l).
Proof.
  unfold links_in. induction l as [|t l IH]; [done|]. cbn [map List.filter].
  assert (tag_name (fill_tag args t) = tag_name t) as -> by (unfold tag_name, tag_head; by destruct t as [[|[c v] ?] ?]).
  destruct (String.eqb (tag_name t) "a"); [|done].
  change (omap (raw_attr "href") (?x :: ?m)) with
    (match raw_attr "href" x with Some y => y :: omap (raw_attr "href") m | None => omap (raw_attr "href") m end).
  rewrite raw_attr_fill, IH. by destruct (raw_attr "href" t).
Qed.

(** The text of a value that is one hole, after a literal. *)
Lemma value_text_hole p name :
  value_text (fill args (map Ch (Str.chars p) ++ [Hole name])) = html_unescape (p +:+ Str.of_chars (args name)).
Proof.
  unfold value_text. f_equal. rewrite fill_app, fill_text. cbn. rewrite app_nil_r, <- map_app.
  transitivity (Str.of_chars (Str.chars p ++ args name)).
  - f_equal. induction (Str.chars p ++ args name) as [|a l IH]; [done|]. cbn. by rewrite IH.
  - induction p as [|a p IH]; [done|]. cbn. by rewrite IH.
Qed.
End Through.

Lemma field_filled args l page id :
  tags_of page = map (fill_tag args) l -> closed_ids l = true ->
  field id page = value_text ∘ fill args <$> (element id l ≫= raw_attr "value").
Proof.
  intros Hp Hc. unfold field, attr. rewrite Hp, element_fill by done.
  destruct (element id l) as [t|]; [|done]. cbn [fmap option_fmap option_map mbind option_bind]. rewrite raw_attr_fill. by destruct (raw_attr "value" t).
Qed.

Lemma links_filled args l page :
  tags_of page = map (fill_tag args) l -> links page = map (value_text ∘ fill args) (links_in l).
Proof. intros Hp. unfold links. by rewrite Hp, links_fill, map_map. Qed.

(** Entities are read back after a text that has none. *)
Lemma html_unescape_prefix p s :
  forallb (fun a => negb (Ascii.eqb a "&")) (Str.chars p) = true -> html_unescape (p +:+ html_escape s) = p +:+ s.
Proof.
  intros Hp. unfold html_unescape. rewrite html_escape_pass, chars_app, length_string_app.
  pose proof (escape_longer s) as Hl. revert Hl. generalize (String.length (escape_text s)) as n. intros n Hl.
  transitivity (Str.of_chars (Str.chars p ++ Str.chars s)).
  - f_equal. induction p as [|a p IH]; [by apply unescape_list_escaped|]. cbn [list_ascii_of_string forallb] in Hp.
    apply andb_prop in Hp as [Ha%negb_true_iff Hp]. cbn [String.length plus list_ascii_of_string app].
    rewrite unescape_plain by done. by rewrite IH.
  - rewrite <- chars_app. apply string_of_list_ascii_of_string.
Qed.

(** ** What reading a template finds *)

(** The names and fixed texts of the tags: everything but the values of
    attributes. *)
Definition skeleton (l : list Tag) : list (list (list ascii) * list ascii) :=
  map (fun t => (map fst (attributes t), rest t)) l.

(** Every opened element is closed, in order; a [void] one has no end tag. *)
Definition void (name : string) : bool := existsb (String.eqb name) ["!doctype"; "!--"; "meta"; "input"; "br"].
Fixpoint nested (names open_ : list string) : bool :=
  match names with
  | [] => match open_ with [] => true | _ => false end
  | n :: names' =>
      if void n then nested names' open_
      else match open_ with
           | o :: open' => if String.eqb n (String "/" o) then nested names' open' else nested names' (n :: open_)
           | [] => nested names' [n]
           end
  end.

Definition raw_field (id : string) (l : list Tag) : option (list symbol) := element id l ≫= raw_attr "value".

(** What reading a template finds. *)
Record Summary := {
  sum_placed : bool;
  sum_holes : list (bool * string); (* in quotes or not, and the name *)
  sum_closed : bool;
  sum_fields : list (option (list symbol));
  sum_links : list (list symbol);
  sum_nested : bool;
}.

Definition summary (ids : list string) (l : list symbol) : Summary :=
  let r := read l in {|
    sum_placed := match mode r with Broken => false | _ => true end;
    sum_holes := placed l (mkReader Data []);
    sum_closed := closed_ids (tags r);
    sum_fields := map (fun id => raw_field id (tags r)) ids;
    sum_links := links_in (tags r);
    sum_nested := nested (map tag_name (tags r)) [] |}.

Lemma skeleton_fill args l : skeleton (map (fill_tag args) l) = skeleton l.
Proof.
  unfold skeleton. rewrite map_map. apply map_ext. intros [a r]. cbn. unfold fill_attrs. by rewrite map_map.
Qed.

Lemma names_fill args l : map tag_name (map (fill_tag args) l) = map tag_name l.
Proof.
  rewrite map_map. apply map_ext. intros t. unfold tag_name, tag_head. by destruct t as [[|[c v] ?] ?].
Qed.

(** A page is what its template says, filled in. *)
Lemma summary_filled args ids l page S :
  summary ids l = S -> sum_placed S = true -> sum_closed S = true -> all_inert args (sum_holes S) ->
  map Ch (Str.chars page) = fill args l ->
  map (fun id => field id page) ids = map (fmap (value_text ∘ fill args)) (sum_fields S) /\
  links page = map (value_text ∘ fill args) (sum_links S) /\
  skeleton (tags_of page) = skeleton (tags (read l)) /\
  nested (map tag_name (tags_of page)) [] = sum_nested S.
Proof.
  intros <- Hp Hc Hi Hpage. unfold summary in *. cbn [sum_placed sum_closed sum_holes sum_fields sum_links sum_nested] in *.
  assert (tags_of page = map (fill_tag args) (tags (read l))) as Ht.
  { by apply tags_of_filled. }
  rewrite (links_filled _ _ _ Ht), Ht, skeleton_fill, names_fill. split_and!; [|done..].
  rewrite map_map. apply map_ext. intros id. exact (field_filled _ _ _ id Ht Hc).
Qed.

(** ** [str::replace] of a placeholder that occurs once *)

(** A position where [p] and [l] differ. *)
Fixpoint clash (p l : list ascii) : bool :=
  match p, l with
  | a :: p', b :: l' => negb (Ascii.eqb a b) || clash p' l'
  | _, _ => false
  end.

(** No occurrence of [p] begins in [l], whatever follows. *)
Fixpoint avoids (p l : list ascii) : bool :=
  match l with
  | [] => true
  | _ :: l' => clash p l && avoids p l'
  end.

Lemma clash_app p l rest : clash p l = true -> clash p (l ++ rest) = true.
Proof.
  revert l. induction p as [|a p IH]; intros [|b l]; [done..|]. cbn.
  intros [->|H]%orb_prop; [done|]. rewrite (IH _ H). apply orb_true_r.
Qed.

Lemma clash_no_prefix p l : clash p l = true -> Str.drop_prefix p l = None.
Proof.
  revert l. induction p as [|a p IH]; intros [|b l]; [done..|]. cbn. destruct (Ascii.eqb a b); [apply IH | done].
Qed.

Lemma avoids_app p l1 l2 : avoids p l1 = true -> avoids p l2 = true -> avoids p (l1 ++ l2) = true.
Proof.
  induction l1 as [|a l1 IH]; [done|]. cbn [avoids app]. intros [Hc Ha]%andb_prop H2.
  pose proof (clash_app p (a :: l1) l2 Hc) as H. cbn [app] in H. by rewrite H, IH.
Qed.

(** A text without the first character of [p]. *)
Lemma avoids_first a p l : forallb (fun b => negb (Ascii.eqb b a)) l = true -> avoids (a :: p) l = true.
Proof.
  induction l as [|b l IH]; [done|]. cbn. intros [Hb%negb_true_iff Hl]%andb_prop.
  by rewrite Ascii.eqb_sym, Hb, IH.
Qed.

Lemma replace_avoided p by_ l : avoids p l = true -> forall fuel rest, (length l <= fuel)%nat ->
  Str.replace_list fuel p by_ (l ++ rest) = l ++ Str.replace_list (fuel - length l) p by_ rest.
Proof.
  induction l as [|a l IH]; intros H fuel rest Hf; [cbn; by rewrite Nat.sub_0_r|].
  cbn [avoids] in H. apply andb_prop in H as [Hc Ha]. destruct fuel as [|fuel]; [cbn in Hf; lia|].
  pose proof (clash_no_prefix p _ (clash_app _ _ rest Hc)) as Hn. cbn [app] in Hn.
  cbn [app Str.replace_list]. rewrite Hn. cbn in Hf. rewrite (IH Ha) by lia. done.
Qed.

Lemma replace_once p by_ l1 l2 :
  p <> "" -> avoids (Str.chars p) l1 = true -> avoids (Str.chars p) l2 = true ->
  Str.replace p by_ (Str.of_chars (l1 ++ Str.chars p ++ l2)) = Str.of_chars (l1 ++ Str.chars by_ ++ l2).
Proof.
  intros Hp H1 H2. unfold Str.replace. f_equal. rewrite list_ascii_of_string_of_list_ascii.
  rewrite (replace_avoided _ _ _ H1) by (rewrite length_app; lia). f_equal.
  rewrite !length_app. destruct p as [|a p]; [done|]. cbn [list_ascii_of_string length].
  replace (length l1 + (S (length (Str.chars p)) + length l2) - length l1)%nat
    with (S (length (Str.chars p) + length l2)) by lia.
  cbn [app Str.replace_list]. change (a :: Str.chars p ++ l2) with ((a :: Str.chars p) ++ l2).
  rewrite (proj2 (Str.drop_prefix_Some (a :: Str.chars p) _ l2) eq_refl). f_equal.
  pose proof (replace_avoided _ (Str.chars by_) _ H2 (length (Str.chars p) + length l2) [] ltac:(lia)) as Hend.
  rewrite !app_nil_r in Hend. cbn [list_ascii_of_string] in Hend. rewrite Hend.
  destruct (_ - _)%nat; cbn; by rewrite app_nil_r.
Qed.

(** What comes before and after the first occurrence. *)
Fixpoint cut (p l : list ascii) : option (list ascii * list ascii) :=
  match Str.drop_prefix p l, l with
  | Some l', _ => Some ([], l')
  | None, [] => None
  | None, a :: l' => (fun '(x, y) => (a :: x, y)) <$> cut p l'
  end.

Lemma cut_Some p l x y : cut p l = Some (x, y) -> l = x ++ p ++ y.
Proof.
  revert x. induction l as [|a l IH]; intros x; cbn.
  - destruct (Str.drop_prefix p []) as [l'|] eqn:Hd; [|done]. intros [= <- <-]. by apply Str.drop_prefix_Some in Hd.
  - destruct (Str.drop_prefix p (a :: l)) as [l'|] eqn:Hd; [intros [= <- <-]; by apply Str.drop_prefix_Some in Hd|].
    destruct (cut p l) as [[x' y']|]; [|done]. intros [= <- <-]. by rewrite (IH x' eq_refl).
Qed.
