(* ===== verification/ServerSpec.v ===== *)
(** * ServerSpec: what the HTTP API promises

    Authorisation, and the effect of each action on the shared state; what the
    pages show is in [PagesSpec]. *)

From S2P Require Import Prelude RustStd Effects Float Model Host Config ConfigSpec Security Aegis Ipc Server.

#[local] Open Scope Z_scope.

(** ** Authorisation *)

(** The policy of each guarded endpoint; the other two are public. *)
Definition policy_of (e : Endpoint) : option QueryTokenPolicy :=
  match e with
  | GetHealth | GetSetup => None
  | GetObs | GetWs | GetSettings | GetGrafanaDashboard | GetAegisStatus => Some Allow
  | _ => Some Deny
  end.

(** The bearer token a request presents. *)
Definition bearer (headers : HeaderMap) : option string :=
  match authorization headers with Some (Some a) => Str.strip_prefix "Bearer " a | _ => None end.

Lemma is_token_valid_iff headers query token policy :
  is_token_valid headers query token policy = true <->
  bearer headers = Some token \/
  (bearer headers = None /\ policy = Allow /\ query !! "token" = Some token).
Proof.
  unfold is_token_valid, bearer.
  assert ((if bool_decide (policy = Allow) then
      match query !! "token" with Some t => String.eqb t token | None => false end else false) = true <->
    policy = Allow /\ query !! "token" = Some token) as Hq.
  { case_bool_decide; [|naive_solver]. destruct (query !! "token") as [t|]; [|naive_solver].
    rewrite String.eqb_eq. naive_solver. }
  destruct (authorization headers) as [[a|]|]; rewrite ?Hq; [|naive_solver..].
  destruct (Str.strip_prefix "Bearer " a) as [t|]; [|rewrite Hq; naive_solver].
  rewrite String.eqb_eq. naive_solver.
Qed.

Section ServerProperties.
Context {Url : Type} {url_ops : UrlOps Url} {api_json : ApiJson}.
Context {b64 : Base64} {dp : DataProtection} {vj : VaultJson} {toml : TomlCodec}.
Context (os : Host) (o : Outside Url) (k : ServerConsts).
Implicit Types s : Server.

(** ** Helper lemmas *)

Lemma guard_refuses {A} headers query policy refusal (m : eff Server Response A) s :
  is_token_valid headers query (srv_token k) policy = false ->
  (guard_token k headers query policy refusal ;; m) s = (Err refusal, s).
Proof. intros H. unfold guard_token. by rewrite H. Qed.

Lemma guard_passes {A} headers query policy refusal (m : eff Server Response A) s :
  is_token_valid headers query (srv_token k) policy = true ->
  (guard_token k headers query policy refusal ;; m) s = m s.
Proof. intros H. unfold guard_token. by rewrite H. Qed.

(** A refused request. *)
Lemma route_refuses e headers query policy s :
  policy_of e = Some policy -> is_token_valid headers query (srv_token k) policy = false ->
  exists b, b <> Upgrade /\ route os o k e headers query s = (Err (mkResponse UNAUTHORIZED b), s).
Proof.
  intros Hp Hv. destruct e; cbn in Hp; simplify_eq; eexists; (split; [|by apply guard_refuses]); done.
Qed.

(** *** Rules *)

Lemma wp_serve e headers query (P : Response -> Server -> Prop) s :
  wp (route os o k e headers query) (fun x s' => match x with Ok r | Err r => P r s' end) s ->
  P (serve os o k e headers query s).1 (serve os o k e headers query s).2.
Proof. unfold wp, outcome, final, serve. by destruct (route os o k e headers query s) as [[r|r] s']. Qed.

Lemma wp_guard_token headers query policy refusal (Q : result Response unit -> Server -> Prop) s :
  is_token_valid headers query (srv_token k) policy = true ->
  Q (Ok tt) s -> wp (guard_token k headers query policy refusal) Q s.
Proof. intros H HQ. unfold guard_token. rewrite H. exact HQ. Qed.

Lemma wp_call (Q : result Response nat -> Server -> Prop) s : Q (Ok (calls s)) (next_call s) -> wp call Q s.
Proof. intros H. exact H. Qed.

Lemma wp_on_files {A} (m : eff World string A) (Q : result Response (result string A) -> Server -> Prop) s :
  wp m (fun x w' => Q (Ok x) (set_world w' s)) (world s) -> wp (on_files m) Q s.
Proof. unfold wp, outcome, final, on_files. by destruct (m (world s)). Qed.

Lemma wp_on_vault {A} (m : eff (Vault * World) string A) (Q : result Response (result string A) -> Server -> Prop) s :
  wp m (fun x vw => Q (Ok x) (set_vault_world vw s)) (vault s, world s) -> wp (on_vault m) Q s.
Proof. unfold wp, outcome, final, on_vault. by destruct (m (vault s, world s)). Qed.

(** Loading reads; it never writes. *)
Lemma load_content w :
  wp (load os) (fun x w' => same_content w w' /\ forall c, x = Ok c -> acceptable c) w.
Proof.
  unfold wp, outcome, final. rewrite load_run. cbn [fst snd].
  destruct (read_run os (active_path w) w) as [Hw _]. split; [exact Hw|].
  set (c := overridden _ _). intros c' Hc. apply validate_acceptable.
  destruct (validate c) as [[]|] eqn:Hv; cbn in Hc; [by simplify_eq | done].
Qed.

(** It returns the configuration of the moment. *)
Lemma wp_load_exactly refusal (Q : result Response Config -> Server -> Prop) s :
  (forall c w', same_content (world s) w' -> outcome (load os) (world s) = Ok c -> Q (Ok c) (set_world w' s)) ->
  (forall e w', same_content (world s) w' ->
     wp (r ← refusal e; throw r) Q (set_world w' s)) ->
  wp (load_config os refusal) Q s.
Proof.
  intros Hok Herr. apply wp_bind, wp_on_files. pose proof (load_content (world s)) as [Hw _].
  unfold wp, final in *. destruct (outcome (load os) (world s)) as [c|e] eqn:Hl; [by apply Hok | by apply Herr].
Qed.

Lemma wp_load_config refusal (Q : result Response Config -> Server -> Prop) s :
  (forall c w', same_content (world s) w' -> acceptable c -> Q (Ok c) (set_world w' s)) ->
  (forall e w', same_content (world s) w' ->
     wp (r ← refusal e; throw r) Q (set_world w' s)) ->
  wp (load_config os refusal) Q s.
Proof.
  intros Hok Herr. apply wp_bind, wp_on_files. refine (wp_mono _ _ _ _ _ (load_content (world s))).
  intros [c|e] w' [Hw Hc]; [apply Hok; auto | by apply Herr].
Qed.

(** What was loaded has the overrides of the moment. *)
Lemma loaded_overridden w c : outcome (load os) w = Ok c -> exists c0, c = overridden w c0.
Proof.
  unfold outcome. rewrite load_run. cbn [fst].
  destruct (read_run os (active_path w) w) as [[Hf Hv] _].
  set (c0 := file_config _). intros Hc. exists c0.
  unfold overridden in *. rewrite Hv in Hc. by destruct (validate _) as [[]|]; cbn in Hc; simplify_eq.
Qed.

(** *** Commands *)

(** The command a request body asks for. *)
Definition asked (body : IpcSwitchSceneRequest) : CoreIpcCommand :=
  SwitchScene (Str.trim (sw_scene_name body))
    (match sw_reason body with
     | Some r => if Str.is_empty (Str.trim r) then "manual_debug" else Str.trim r
     | None => "manual_debug"
     end)
    (match sw_deadline_ms body with Some d => Z.max 50 (Z.min 5000 d) | None => 550 end).

Lemma switch_scene_cases headers query body s :
  is_token_valid headers query (srv_token k) Deny = true ->
  let '(r, s') := serve os o k (PostIpcSwitchScene body) headers query s in
  (status_code r = BAD_REQUEST /\ s' = s /\ Str.trim (sw_scene_name body) = "" /\
     sw_allow_empty body <> Some true) \/
  (status_code r = SERVICE_UNAVAILABLE /\ s' = s /\ ipc_receivers s = O) \/
  (status_code r = OK /\ ipc_receivers s <> O /\ s' = push_command (asked body) s).
Proof.
  intros Hv. unfold serve, route, post_ipc_switch_scene. rewrite (guard_passes _ _ _ _ _ _ Hv).
  destruct (Str.is_empty (Str.trim (sw_scene_name body)) && negb (default false (sw_allow_empty body))) eqn:He.
  - left. apply andb_prop in He as [He Ha]. apply is_empty_true in He. split_and!; try done.
    intros Heq. by rewrite Heq in Ha.
  - cbv zeta. unfold mbind, eff_bind, broadcast.
    destruct (ipc_receivers s) as [|n]; cbn beta iota zeta; right; [by left | right].
    cbn [status_code]. split_and!; [done | done |]. unfold asked. do 2 f_equal.
    + by destruct (sw_reason body).
    + destruct (sw_deadline_ms body) as [d|]; [cbn; unfold Int.clamp|done].
      destruct (Z.ltb_spec d 50), (Z.ltb_spec 5000 d); lia.
Qed.

(** A command that a request body asks for. *)
Definition conveyed_by (body : IpcSwitchSceneRequest) (c : CoreIpcCommand) : Prop :=
  let '(SwitchScene sc why ms) := c in
  sc = Str.trim (sw_scene_name body) /\ why <> "" /\ 50 <= ms <= 5000 /\
  (forall d, sw_deadline_ms body = Some d -> 50 <= d <= 5000 -> ms = d).

Lemma asked_conveyed body : conveyed_by body (asked body).
Proof.
  unfold asked. cbn. split_and!; [done | | | | intros d -> Hd; lia]; [|destruct (sw_deadline_ms body); lia..].
  destruct (sw_reason body) as [r|]; [|done]. destruct (Str.is_empty (Str.trim r)) eqn:Hr; [done | by apply is_empty_false].
Qed.

(** What neither the files, the vault nor the oracle index hold is kept by the
    code that works on them. *)
Section Keeps.
Context {B : Type} (f : Server -> B) (l : B).

Lemma on_files_keeps {A} (m : eff World string A) :
  (forall w s, f (set_world w s) = f s) -> preserves (fun s => f s = l) (on_files m).
Proof. intros Hf s Hs. unfold final, on_files. destruct (m (world s)). cbn. by rewrite Hf. Qed.
Lemma on_vault_keeps {A} (m : eff (Vault * World) string A) :
  (forall vw s, f (set_vault_world vw s) = f s) -> preserves (fun s => f s = l) (on_vault m).
Proof. intros Hf s Hs. unfold final, on_vault. destruct (m (vault s, world s)). cbn. by rewrite Hf. Qed.
Lemma call_keeps : (forall s, f (next_call s) = f s) -> preserves (fun s => f s = l) call.
Proof. intros Hf s Hs. cbn. by rewrite Hf. Qed.
End Keeps.

Ltac keeps_prim :=
  idtac;
  match goal with
  | |- preserves _ (on_files _) => by apply on_files_keeps
  | |- preserves _ (on_vault _) => by apply on_vault_keeps
  | |- preserves _ call => by apply call_keeps
  | |- preserves _ (modify _) => by apply preserves_modify
  | |- preserves _ (guard_token _ _ _ _ _) => unfold guard_token
  end.
Ltac keeps_route :=
  unfold health_check, obs_page, ws_handler, setup_page, settings_page, settings_submit, get_output_names,
    save_output_names, grafana_dashboard_download, grafana_dashboard_import, get_aegis_status, post_aegis_start,
    post_aegis_stop, get_ipc_status, submit_password, submit_grafana, store_or_fail, save_config,
    action_client, load_config, aegis_client, exchange, action_failed, generate_idempotency_key, load_failed;
  walk_code keeps_prim.

(** Only a scene-switch request sends commands. *)
Lemma route_sent e headers query l :
  (forall body, e <> PostIpcSwitchScene body) -> preserves (fun s => ipc_sent s = l) (route os o k e headers query).
Proof. intros He. destruct e; try by destruct (He body). all: cbn [route]; keeps_route. Qed.

(** No request subscribes to the commands. *)
Lemma route_receivers e headers query n : preserves (fun s => ipc_receivers s = n) (route os o k e headers query).
Proof.
  destruct e; cbn [route]; try keeps_route. unfold post_ipc_switch_scene. walk_code keeps_prim.
  intros s Hs. unfold final, broadcast. rewrite Hs. by destruct n.
Qed.

Lemma serve_receivers e headers query s : ipc_receivers (serve os o k e headers query s).2 = ipc_receivers s.
Proof.
  pose proof (route_receivers e headers query _ s eq_refl) as H. unfold final in H. unfold serve.
  by destruct (route os o k e headers query s) as [[r|r] s'].
Qed.

Lemma serve_sends e headers query s :
  ipc_sent (serve os o k e headers query s).2 = ipc_sent s \/
  exists body c, e = PostIpcSwitchScene body /\ is_token_valid headers query (srv_token k) Deny = true /\
    conveyed_by body c /\ ipc_sent (serve os o k e headers query s).2 = ipc_sent s ++ [c].
Proof.
  assert ((exists body, e = PostIpcSwitchScene body) \/ forall body, e <> PostIpcSwitchScene body) as [[body ->]|He]
    by (destruct e; eauto).
  - destruct (is_token_valid headers query (srv_token k) Deny) eqn:Hv.
    + pose proof (switch_scene_cases headers query body s Hv) as H.
      destruct (serve _ _ _ _ _ _ s) as [r s'].
      destruct H as [(_ & -> & _)|[(_ & -> & _)|(_ & _ & ->)]]; [by left..|].
      right. exists body, (asked body). split_and!; [done | done | apply asked_conveyed | done].
    + left. destruct (route_refuses (PostIpcSwitchScene body) headers query Deny s eq_refl Hv) as (b & _ & Hr).
      unfold serve. by rewrite Hr.
  - left. pose proof (route_sent e headers query (ipc_sent s) He s eq_refl) as H. unfold final in H.
    unfold serve. by destruct (route os o k e headers query s) as [[r|r] s'].
Qed.

(** What the files, their environment and the vault hold. *)
Definition assets_of (s : Server) : Vault * gmap string string * gmap string string :=
  (vault s, files (world s), vars (world s)).

Lemma load_keeps a : preserves (fun s => assets_of s = a) (on_files (load os)).
Proof.
  intros s Hs. unfold final, on_files. pose proof (load_content (world s)) as [[Hf Hv] _]. unfold final in *.
  destruct (load os (world s)) as [r w]. cbn in *. unfold assets_of in *. cbn. by rewrite Hf, Hv.
Qed.

Ltac untouched :=
  idtac;
  match goal with
  | |- preserves _ (on_files (load _)) => apply load_keeps
  | |- preserves _ call => by apply call_keeps
  | |- preserves _ (modify _) => by apply preserves_modify
  | |- preserves _ (guard_token _ _ _ _ _) => unfold guard_token
  end.

(** What a handler other than the two of the forms does to them: nothing. *)
Lemma route_untouched e headers query a :
  (forall form, e <> PostSettings form) -> (forall payload, e <> PostOutputNames payload) ->
  preserves (fun s => assets_of s = a) (route os o k e headers query).
Proof.
  intros H1 H2. destruct e as [| | | | |form| |payload| |form| | | | |body];
    try (by destruct (H1 form)); try (by destruct (H2 payload)); cbn [route].
  all: unfold health_check, obs_page, ws_handler, setup_page, settings_page, get_output_names,
    grafana_dashboard_download, grafana_dashboard_import, get_aegis_status, post_aegis_start, post_aegis_stop,
    get_ipc_status, post_ipc_switch_scene, action_client, load_config, aegis_client, exchange, action_failed,
    generate_idempotency_key, load_failed; walk_code untouched.
  intros s Hs. unfold final, broadcast. by destruct (ipc_receivers s).
Qed.

(** The endpoints that save nothing and send nothing. *)
Definition reads_only (e : Endpoint) : bool :=
  match e with PostSettings _ | PostOutputNames _ | PostIpcSwitchScene _ => false | _ => true end.

Lemma route_flag e headers query b :
  reads_only e = true -> preserves (fun s => grafana_configured s = b) (route os o k e headers query).
Proof. intros He. destruct e; try discriminate He. all: cbn [route]; keeps_route. Qed.

Lemma read_only_keeps e headers query s :
  reads_only e = true ->
  let s' := snd (serve os o k e headers query s) in
  assets_of s' = assets_of s /\ ipc_sent s' = ipc_sent s /\ grafana_configured s' = grafana_configured s.
Proof.
  intros He.
  pose proof (route_untouched e headers query (assets_of s) ltac:(by intros ? ->) ltac:(by intros ? ->) s eq_refl) as H1.
  pose proof (route_sent e headers query (ipc_sent s) ltac:(by intros ? ->) s eq_refl) as H2.
  pose proof (route_flag e headers query (grafana_configured s) He s eq_refl) as H3.
  unfold final, serve in *. by destruct (route os o k e headers query s) as [[r|r] s'].
Qed.

(** What a request may not touch, the oracle index aside. *)
Definition same_state (s s' : Server) : Prop :=
  world s' = world s /\ vault s' = vault s /\ grafana_configured s' = grafana_configured s /\
  aegis_session_snapshot s' = aegis_session_snapshot s /\ ipc_debug_status s' = ipc_debug_status s /\
  ipc_receivers s' = ipc_receivers s /\ ipc_sent s' = ipc_sent s.

(** ** Properties *)

(** C7: no credentials, no effect.  A request to a guarded endpoint whose bearer
    token is not the server's, and which does not carry it in the query where
    the endpoint accepts that, is answered 401 and leaves the whole state as it
    was: no file read or written, no exchange started, no command sent.  The
    public endpoints change nothing either.  A token in the query alone, wherever
    it is accepted, never changes a file or the vault and never sends a command
    (it can refresh the relay snapshot). *)
Theorem no_credentials_no_effect e headers query s :
  match policy_of e with
  | Some policy =>
      bearer headers <> Some (srv_token k) ->
      (policy = Allow -> bearer headers = None -> query !! "token" <> Some (srv_token k)) ->
      exists b, serve os o k e headers query s = (mkResponse UNAUTHORIZED b, s)
  | None => same_state s (snd (serve os o k e headers query s))
  end /\
  (bearer headers <> Some (srv_token k) ->
   let s' := snd (serve os o k e headers query s) in
   files (world s') = files (world s) /\ vault s' = vault s /\ ipc_sent s' = ipc_sent s /\
   grafana_configured s' = grafana_configured s).
Proof.
  split.
  - destruct (policy_of e) as [policy|] eqn:Hp; [|by destruct e].
    intros Hb Hq.
    assert (is_token_valid headers query (srv_token k) policy = false) as Hv.
    { apply not_true_iff_false. intros [H|(H1 & H2 & H3)]%is_token_valid_iff; [done | by apply Hq]. }
    destruct (route_refuses e headers query policy s Hp Hv) as (b & _ & Hr).
    exists b. unfold serve. by rewrite Hr.
  - intros Hb. destruct (decide (policy_of e = Some Deny)) as [Hp|Hp].
    + assert (is_token_valid headers query (srv_token k) Deny = false) as Hv.
      { apply not_true_iff_false. by intros [H|(_ & [=] & _)]%is_token_valid_iff. }
      destruct (route_refuses e headers query Deny s Hp Hv) as (b & _ & Hr). unfold serve. by rewrite Hr.
    + assert (reads_only e = true) as He by (by destruct e).
      destruct (read_only_keeps e headers query s He) as ([= Hv Hf _] & Hi & Hg). by split_and!.
Qed.

(** A scene switch request.  With credentials, either nothing is sent (an
    empty scene that was not asked for, 400; no plugin session, 503), or exactly
    one command is broadcast, with the trimmed scene, a reason that is not
    empty, and a deadline between 50 and 5000 ms that is the requested one when
    it lies in that range.  Nothing else of the state changes. *)
Theorem switch_scene_request headers query body s :
  is_token_valid headers query (srv_token k) Deny = true ->
  let '(r, s') := serve os o k (PostIpcSwitchScene body) headers query s in
  (status_code r = BAD_REQUEST /\ s' = s /\ Str.trim (sw_scene_name body) = "" /\
     sw_allow_empty body <> Some true) \/
  (status_code r = SERVICE_UNAVAILABLE /\ s' = s /\ ipc_receivers s = O) \/
  (status_code r = OK /\ ipc_receivers s <> O /\ s' = push_command (asked body) s /\ conveyed_by body (asked body)).
Proof.
  intros Hv. pose proof (switch_scene_cases headers query body s Hv) as H.
  destruct (serve _ _ _ _ _ _ s) as [r s']. pose proof (asked_conveyed body). naive_solver.
Qed.

(** Execute a handler; [Hv] says the token is valid. *)
Ltac server_prim Hv :=
  idtac;
  lazymatch goal with
  | |- wp (guard_token _ _ _ _ _) _ _ => apply wp_guard_token; [exact Hv|]
  | |- wp call _ _ => apply wp_call
  | |- wp (load_config _ _) _ _ => apply wp_load_config; intros
  | |- wp (aegis_client _ _) _ _ => unfold aegis_client
  | |- wp (exchange _ _) _ _ => unfold exchange
  | |- wp (generate_idempotency_key _) _ _ => unfold generate_idempotency_key
  | |- wp (action_client _ _) _ _ => unfold action_client
  | |- wp (action_failed _ _ _) _ _ => unfold action_failed
  end.
Ltac server_steps Hv := repeat wp_step ltac:(server_prim Hv); cbn beta iota.

(** What the relay endpoints may do to the state. *)
Definition tracks e s (r : Response) (s' : Server) : Prop :=
  same_content (world s) (world s') /\ vault s' = vault s /\ ipc_sent s' = ipc_sent s /\
  (status_code r <> OK -> aegis_session_snapshot s' = aegis_session_snapshot s) /\
  (status_code r = OK ->
   match e with
   | PostAegisStart => exists n key client session,
       relay_start (out_http o n) key start_request client = Ok session /\
       aegis_session_snapshot s' = Some session
   | PostAegisStop => aegis_session_snapshot s' = None
   | _ => aegis_session_snapshot s' = aegis_session_snapshot s \/
       exists n client, relay_active (out_http o n) client = Ok (aegis_session_snapshot s')
   end).

Lemma map_err_inv {E F A} (f : E -> F) (r : result E A) a : map_err f r = Ok a -> r = Ok a.
Proof. destruct r; cbn; congruence. Qed.

Ltac tracked := split_and!; first [done | assumption | by intros [] | by intros _; left | idtac].

Lemma start_tracks headers query s :
  is_token_valid headers query (srv_token k) Deny = true ->
  wp (post_aegis_start os o k headers query) (fun x s' => match x with Ok r | Err r => tracks PostAegisStart s r s' end) s.
Proof.
  intros Hv. unfold post_aegis_start. server_steps Hv.
  all: tracked. intros _. eexists _, _, _, _. split; [by eapply map_err_inv | reflexivity].
Qed.

Lemma stop_tracks headers query s :
  is_token_valid headers query (srv_token k) Deny = true ->
  wp (post_aegis_stop os o k headers query) (fun x s' => match x with Ok r | Err r => tracks PostAegisStop s r s' end) s.
Proof. intros Hv. unfold post_aegis_stop. server_steps Hv. all: tracked. Qed.

Lemma status_tracks headers query s :
  is_token_valid headers query (srv_token k) Allow = true ->
  wp (get_aegis_status os o k headers query) (fun x s' => match x with Ok r | Err r => tracks GetAegisStatus s r s' end) s.
Proof.
  intros Hv. unfold get_aegis_status. server_steps Hv. all: tracked.
  intros _. right. eexists _, _. by eapply map_err_inv.
Qed.

(** C24: the relay snapshot follows the control plane.  Whatever the credentials,
    the three relay endpoints never write a file or the vault and send no
    command; an answer other than 200 leaves the snapshot alone; after a start
    answered 200 it is the session the control plane returned, after a stop
    answered 200 it is empty, and a status query answered 200 leaves it or
    replaces it by what the control plane reported active. *)
Theorem relay_snapshot_tracks e headers query s :
  In e [GetAegisStatus; PostAegisStart; PostAegisStop] ->
  let '(r, s') := serve os o k e headers query s in
  same_content (world s) (world s') /\ vault s' = vault s /\ ipc_sent s' = ipc_sent s /\
  (status_code r <> OK -> aegis_session_snapshot s' = aegis_session_snapshot s) /\
  (status_code r = OK ->
   match e with
   | PostAegisStart => exists n key client session,
       relay_start (out_http o n) key start_request client = Ok session /\
       aegis_session_snapshot s' = Some session
   | PostAegisStop => aegis_session_snapshot s' = None
   | _ => aegis_session_snapshot s' = aegis_session_snapshot s \/
       exists n client, relay_active (out_http o n) client = Ok (aegis_session_snapshot s')
   end).
Proof.
  intros He. pose proof (wp_serve e headers query (tracks e s) s) as H. unfold tracks in H.
  destruct (serve os o k e headers query s) as [r s'] eqn:Hs. cbn [fst snd] in H. apply H. clear H Hs r s'.
  assert (exists policy, policy_of e = Some policy) as [policy Hp] by (destruct He as [<-|[<-|[<-|[]]]]; by eexists).
  destruct (is_token_valid headers query (srv_token k) policy) eqn:Hv.
  - destruct He as [<-|[<-|[<-|[]]]]; cbn in Hp; simplify_eq;
      [apply (status_tracks _ _ s Hv) | apply (start_tracks _ _ s Hv) | apply (stop_tracks _ _ s Hv)].
  - destruct (route_refuses e headers query policy s Hp Hv) as (b & _ & Hr).
    apply (wp_run _ _ _ _ _ Hr). by split_and!.
Qed.

Lemma wp_save_config c done_ (Q : result Response Response -> Server -> Prop) s :
  (forall w', vars w' = vars (world s) -> acceptable c ->
     (exists data, toml_to_string c = Ok data /\ files w' !! active_path w' = Some data) ->
     Q (Ok (mkResponse OK (Text done_))) (set_world w' s)) ->
  (forall e w', Q (Ok (save_failed e)) (set_world w' s)) ->
  wp (save_config os c done_) Q s.
Proof.
  intros Hok Herr. apply wp_bind, wp_on_files. refine (wp_mono _ _ _ _ _ (save_active os c (world s))).
  intros [[]|e] w' [Hv Hs]; [|apply wp_ret, Herr].
  destruct (Hs eq_refl) as (Hc & data & Hd & Hf & _). apply wp_ret, Hok; eauto.
Qed.

(** The merge, name by name. *)
Lemma merge_names_lookup payload names i :
  NoDup payload.*1 ->
  merge_names payload names !! i =
    match (list_to_map payload : gmap string string) !! i with
    | Some n => if blank n then None else Some n
    | None => names !! i
    end.
Proof.
  revert names. induction payload as [|[j n] payload IH]; intros names Hnd; [done|].
  cbn in Hnd. apply NoDup_cons in Hnd as [Hj Hnd]. cbn [merge_names fold_left].
  change (list_to_map ((j, n) :: payload) : gmap string string) with (<[j := n]> (list_to_map payload : gmap string string)).
  change (fold_left _ payload ?m) with (merge_names payload m). rewrite IH by done. unfold blank.
  destruct (decide (i = j)) as [->|Hne].
  - rewrite lookup_insert_eq, (not_elem_of_list_to_map_1 payload j) by done.
    destruct (Str.is_empty (Str.trim n)); [apply lookup_delete_eq | apply lookup_insert_eq].
  - rewrite lookup_insert_ne by done. destruct (list_to_map payload !! i); [done|].
    destruct (Str.is_empty (Str.trim n)); [by apply lookup_delete_ne | by apply lookup_insert_ne].
Qed.

(** C37: saving output names.  When it is answered 200, the configuration was
    loaded, and the active file holds that very configuration, section by
    section, with other output names: every submitted name is set, or removed
    when blank, and every other name is the one that was loaded.  What was loaded
    includes the environment overrides of the moment, so they have become part
    of the file: a server token given only through [TELEMY_SERVER_TOKEN] is now
    written in it.  The vault and the relay snapshot stay as they are. *)
Theorem output_names_saved headers query payload s :
  is_token_valid headers query (srv_token k) Deny = true ->
  let '(r, s') := serve os o k (PostOutputNames payload) headers query s in
  vault s' = vault s /\ aegis_session_snapshot s' = aegis_session_snapshot s /\
  (status_code r = OK ->
   exists loaded names data, outcome (load os) (world s) = Ok loaded /\
     let c := mkConfig (Config.obs loaded) (server loaded) (Config.vault loaded) (grafana loaded) (aegis loaded)
                (Config.network loaded) (startup loaded) (tray loaded) (theme loaded) names in
     toml_to_string c = Ok data /\ acceptable c /\ files (world s') !! active_path (world s') = Some data /\
     (forall t, vars (world s) !! "TELEMY_SERVER_TOKEN" = Some t -> token (server c) = Some t) /\
     forall i, names !! i =
       match payload !! i with
       | Some n => if blank n then None else Some n
       | None => output_names loaded !! i
       end).
Proof.
  intros Hv. pose proof (fun P => wp_serve (PostOutputNames payload) headers query P s) as H.
  destruct (serve os o k (PostOutputNames payload) headers query s) as [r s'].
  pattern r, s'. match goal with |- ?P r s' => apply (H P) end. clear H r s'. cbn [route]. unfold save_output_names.
  apply wp_bind, wp_guard_token; [done|]. apply wp_bind, wp_load_exactly; [|by intros e w' _; split_and!].
  intros loaded w' _ Hl. apply wp_save_config; [|by intros e w''; split_and!].
  intros w'' _ Hacc (data & Hd & Hfile). split_and!; [done..|]. intros _.
  exists loaded, (merge_names (map_to_list payload) (output_names loaded)), data. split; [done|].
  split_and!; [exact Hd | exact Hacc | done | |].
  - intros t Ht. destruct (loaded_overridden _ _ Hl) as [c0 ->]. cbn. unfold override_option, env, ENV_PREFIX.
    change ("TELEMY_" +:+ "SERVER_TOKEN") with "TELEMY_SERVER_TOKEN". by rewrite Ht.
  - intros i. rewrite merge_names_lookup by apply NoDup_fst_map_to_list. by rewrite list_to_map_to_list.
Qed.

Lemma wp_store_or_fail key value what (Q : result Response unit -> Server -> Prop) s :
  (forall sealed w, protect (Str.chars value) = Ok sealed -> vars w = vars (world s) ->
     Q (Ok tt) (set_vault_world (mkVault (path (vault s)) (<[key := encode sealed]> (entries (vault s))), w) s)) ->
  (forall r v w, status_code r = INTERNAL_SERVER_ERROR ->
     (forall i, i <> key -> entries v !! i = entries (vault s) !! i) -> Q (Err r) (set_vault_world (v, w) s)) ->
  wp (store_or_fail os key value what) Q s.
Proof.
  intros Hok Herr. apply wp_bind, wp_on_vault.
  pose proof (store_cases os key value (vault s) (world s)) as Hc. cbv zeta in Hc.
  unfold wp. set (vw := final _ _) in *.
  assert (forall e, (forall i, i <> key -> entries vw.1 !! i = entries (vault s) !! i) ->
    wp (match Err e : result string unit with Ok _ => mret tt
        | Err e => throw (mkResponse INTERNAL_SERVER_ERROR (Text ("Failed to store " +:+ what +:+ ": " +:+ e))) end)
      Q (set_vault_world vw s)) as Hfail.
  { intros e He. apply wp_throw. destruct vw as [v w]. by apply Herr. }
  destruct Hc as [(e & _ & -> & Hvw) | [(sealed & e & _ & -> & Hvw) | (sealed & data & Hp & -> & Hvw & _ & Hvars & _)]].
  - apply Hfail. by rewrite Hvw.
  - apply Hfail. rewrite Hvw. intros i Hi. by apply lookup_insert_ne.
  - apply wp_ret. destruct vw as [v w]. cbn in Hvw, Hvars. subst v. by apply Hok.
Qed.

(** *** The settings form *)

Definition password_given (form : SettingsForm) : bool := negb (Str.is_empty (text (form_obs_password form))).
(** A complete set of exporter credentials, and their basic authorisation. *)
Definition credentials_given (form : SettingsForm) : bool :=
  negb (Str.is_empty (Str.trim (text (grafana_endpoint form)))) &&
  negb (Str.is_empty (Str.trim (text (grafana_instance_id form)))) &&
  negb (Str.is_empty (Str.trim (text (grafana_api_token form)))).
Definition basic_auth (form : SettingsForm) : string :=
  "Basic " +:+ encode (Str.chars (Str.trim (text (grafana_instance_id form)) +:+ ":"
                                  +:+ Str.trim (text (grafana_api_token form)))).

(** The configuration a form asks for: its fields, and all the rest as loaded. *)
Definition form_applied (form : SettingsForm) (loaded : Config) : Config :=
  let endpoint_ := Str.trim (text (grafana_endpoint form)) in
  mkConfig
    {| Config.host := form_obs_host form; Config.port := form_obs_port form;
       password_key := if password_given form then Some "obs_password" else password_key (Config.obs loaded);
       auto_detect_process := auto_detect_process (Config.obs loaded);
       process_name := process_name (Config.obs loaded) |}
    (server loaded) (Config.vault loaded)
    {| grafana_enabled := credentials_given form || grafana_enabled (grafana loaded);
       endpoint := if Str.is_empty endpoint_ then endpoint (grafana loaded) else Some endpoint_;
       auth_header := auth_header (grafana loaded);
       auth_value_key := if credentials_given form then Some "grafana_auth" else auth_value_key (grafana loaded);
       push_interval_ms := grafana_interval form |}
    (aegis loaded) (Config.network loaded) (startup loaded) (tray loaded) (theme loaded) (output_names loaded).

(** The entry of a secret: sealed when it was given, as before otherwise. *)
Definition sealed_if (given : bool) (key value : string) (before after : VaultStore) : Prop :=
  if given then exists sealed, protect (Str.chars value) = Ok sealed /\ after !! key = Some (encode sealed)
  else after !! key = before !! key.

(** What the two blocks of secrets leave alone. *)
Definition only_entries (keys : list string) s s' : Prop :=
  aegis_session_snapshot s' = aegis_session_snapshot s /\ ipc_sent s' = ipc_sent s /\
  forall i, i ∉ keys -> entries (vault s') !! i = entries (vault s) !! i.

Lemma wp_submit_password form c (Q : result Response Config -> Server -> Prop) s :
  (forall s', only_entries ["obs_password"] s s' -> grafana_configured s' = grafana_configured s ->
     sealed_if (password_given form) "obs_password" (text (form_obs_password form)) (entries (vault s)) (entries (vault s')) ->
     Q (Ok (if password_given form then set_password_key "obs_password" c else c)) s') ->
  (forall r s', status_code r = INTERNAL_SERVER_ERROR -> only_entries ["obs_password"] s s' -> Q (Err r) s') ->
  wp (submit_password os form c) Q s.
Proof.
  intros Hok Herr. unfold submit_password, password_given in *.
  destruct (form_obs_password form) as [pw|]; [|by apply wp_ret, Hok]. change (text (Some pw)) with pw in Hok.
  destruct (negb (Str.is_empty pw)); [|by apply wp_ret, Hok]. apply wp_bind, wp_store_or_fail.
  - intros sealed w Hp _. apply wp_ret, Hok; [|done|].
    + split_and!; [done..|]. intros i Hi. cbn. rewrite lookup_insert_ne; [done | set_solver].
    + exists sealed. cbn. by rewrite lookup_insert_eq.
  - intros r v w Hr He. apply Herr; [done|]. split_and!; [done..|]. intros i Hi. apply He. set_solver.
Qed.

Lemma wp_submit_grafana form c (Q : result Response Config -> Server -> Prop) s :
  let e := Str.trim (text (grafana_endpoint form)) in
  (forall s', only_entries ["grafana_auth"] s s' ->
     grafana_configured s' = credentials_given form || grafana_configured s ->
     sealed_if (credentials_given form) "grafana_auth" (basic_auth form) (entries (vault s)) (entries (vault s')) ->
     Q (Ok (if credentials_given form then set_grafana (set_grafana_credentials e "grafana_auth" (grafana c)) c
            else if Str.is_empty e then c else set_grafana (set_endpoint e (grafana c)) c)) s') ->
  (forall r s', status_code r = INTERNAL_SERVER_ERROR -> only_entries ["grafana_auth"] s s' -> Q (Err r) s') ->
  wp (submit_grafana os form c) Q s.
Proof.
  intros e Hok Herr. unfold submit_grafana. fold (credentials_given form). destruct (credentials_given form).
  - apply wp_bind, wp_store_or_fail.
    + intros sealed w Hp _. apply wp_bind, wp_modify, wp_ret, Hok; [|done|].
      * split_and!; [done..|]. intros i Hi. cbn. rewrite lookup_insert_ne; [done | set_solver].
      * exists sealed. cbn. by rewrite lookup_insert_eq.
    + intros r v w Hr He. apply Herr; [done|]. split_and!; [done..|]. intros i Hi. apply He. set_solver.
  - fold e. destruct (Str.is_empty e); apply wp_ret, Hok; done.
Qed.

(** What a submission may do. *)
Definition submitted (form : SettingsForm) s (r : Response) (s' : Server) : Prop :=
  only_entries ["obs_password"; "grafana_auth"] s s' /\
  (status_code r = OK ->
   exists loaded data, outcome (load os) (world s) = Ok loaded /\
     acceptable (form_applied form loaded) /\ toml_to_string (form_applied form loaded) = Ok data /\
     files (world s') !! active_path (world s') = Some data /\
     sealed_if (password_given form) "obs_password" (text (form_obs_password form)) (entries (vault s)) (entries (vault s')) /\
     sealed_if (credentials_given form) "grafana_auth" (basic_auth form) (entries (vault s)) (entries (vault s')) /\
     grafana_configured s' = credentials_given form || grafana_configured s).

Lemma only_entries_trans k1 k2 s1 s2 s3 :
  only_entries k1 s1 s2 -> only_entries k2 s2 s3 -> only_entries (k1 ++ k2) s1 s3.
Proof.
  intros (H1 & H2 & H3) (H4 & H5 & H6). split_and!; [congruence..|].
  intros i Hi%not_elem_of_app. rewrite H6, H3; tauto.
Qed.

Lemma sealed_if_ext given key value b a a' :
  a' !! key = a !! key -> sealed_if given key value b a -> sealed_if given key value b a'.
Proof. unfold sealed_if. destruct given; [|congruence]. intros H (sealed & Hs & He). exists sealed. by rewrite H. Qed.

(** C16: submitting the settings.  Only the two secrets of the form can change in
    the vault, whatever the answer.  When it is answered 200, the configuration
    was loaded, and the active file holds exactly [form_applied]: the loaded
    configuration with the submitted OBS address and interval, the endpoint if
    one was given, and, for each secret that was given, the vault key it is now
    stored under (a complete set of exporter credentials also enables the
    exporter); every other field of every section is the loaded one.  A secret
    that was given is sealed in the vault under that key, one that was not is
    the one of before. *)
Theorem settings_submitted headers query form s :
  is_token_valid headers query (srv_token k) Deny = true ->
  let '(r, s') := serve os o k (PostSettings form) headers query s in submitted form s r s'.
Proof.
  intros Hv. pose proof (wp_serve (PostSettings form) headers query (submitted form s) s) as H.
  destruct (serve os o k (PostSettings form) headers query s) as [r s'].
  apply H. clear H r s'. cbn [route]. unfold settings_submit. apply wp_bind, wp_guard_token; [done|].
  apply wp_bind, wp_load_exactly; [|by intros e w' _; split_and!]. intros loaded w' _ Hl. cbv zeta.
  assert (only_entries [] s (set_world w' s)) as H0 by done.
  apply wp_bind, wp_submit_password; [|by intros r s1 Hr H1; split; [apply (only_entries_trans [] _ _ _ _ H0) in H1;
    destruct H1 as (? & ? & H1); split_and!; [done..|]; intros i Hi; apply H1; set_solver | rewrite Hr]].
  intros s1 H1 Hg1 Hp. apply wp_bind, wp_submit_grafana.
  2: { intros r s2 Hr H2. split; [exact (only_entries_trans _ _ _ _ _ H1 H2) | by rewrite Hr]. }
  intros s2 H2 Hg2 Hc. pose proof (only_entries_trans _ _ _ _ _ H1 H2) as H12. apply wp_save_config.
  2: { intros e w2. by split. }
  intros w2 _ Hacc (data & Hd & Hf). split; [exact H12|]. intros _. exists loaded, data.
  match type of Hd with toml_to_string ?c = _ => assert (c = form_applied form loaded) as Heq end.
  { unfold form_applied. destruct (password_given form), (credentials_given form) eqn:He.
    all: try (unfold credentials_given in He; destruct (Str.is_empty (Str.trim (text (grafana_endpoint form)))); done).
    all: by destruct (Str.is_empty (Str.trim (text (grafana_endpoint form)))). }
  rewrite Heq in Hd, Hacc. split_and!; [done..| | |].
  - apply (sealed_if_ext _ _ _ _ (entries (vault s1))); [|exact Hp]. destruct H2 as (_ & _ & H2). apply H2. set_solver.
  - destruct H1 as (_ & _ & H1). unfold sealed_if in *. destruct (credentials_given form); [exact Hc|].
    cbn in *. rewrite Hc. apply H1. set_solver.
  - cbn. by rewrite Hg2, Hg1.
Qed.
End ServerProperties.

(** ** Witnesses *)

#[local] Instance demo_url : UrlOps string := {|
  url_parse := Ok; url_path := fun u => u; url_set_path := fun p _ => p; url_join := fun u p => Ok (u +:+ p) |}.
#[local] Instance demo_api_json : ApiJson := {|
  start_request_to_vec := fun _ => Ok "{}"; stop_request_to_vec := fun _ => Ok "{}";
  session_envelope_from_str := fun _ => Ok {| session := RelaySession_default |};
  stop_response_from_str := fun _ => Err "eof" |}.
#[local] Instance demo_base64 : Base64 := {| encode := Str.of_chars; decode := fun s => Ok (Str.chars s) |}.
#[local] Instance demo_vault_json : VaultJson := {|
  vault_to_string := fun _ => Ok "{}"; vault_from_str := fun _ => Ok ∅ |}.
#[local] Instance demo_toml : TomlCodec := {|
  toml_to_string := fun _ => Ok "[obs]"; toml_from_str := fun _ => Ok Config_default |}.
Definition demo_os : Host := {| refused := fun _ => None |}.
Definition demo_outside : Outside string := {|
  out_http := fun _ => {| client_build := fun _ => Ok tt; header_value_from_str := Ok;
                          execute := fun _ => Ok (204, Ok "") |};
  out_unix_secs := fun _ => 1700000000; out_unix_millis := fun _ => 1700000000000;
  out_alphanumeric := fun _ _ => "abcdefghij"; out_http_client := fun _ => Ok tt;
  out_grafana := fun _ _ _ => Err "refused"; status_text := fun _ => "404 Not Found" |}.
Definition demo_consts : ServerConsts := {| srv_token := "tok"; srv_theme := ThemeConfig_default |}.
Definition demo_headers : HeaderMap := {| authorization := Some (Some "Bearer tok") |}.
Definition demo_server : Server :=
  mkServer (mkWorld 0 ∅ {["TELEMY_SERVER_TOKEN" := "tok"]}) (mkVault "v.json" ∅) false None new_debug_status 1 [] 0.
Definition demo_switch : IpcSwitchSceneRequest := {|
  sw_scene_name := " Live "; sw_reason := None; sw_deadline_ms := Some 60000; sw_allow_empty := None |}.
Definition demo_form : SettingsForm := {|
  form_obs_host := "10.0.0.2"; form_obs_port := 4455; form_obs_password := Some "s3cret"; grafana_interval := 5000;
  grafana_endpoint := None; grafana_instance_id := None; grafana_api_token := None |}.

Abbreviation demo_serve := (serve demo_os demo_outside demo_consts).

Lemma switch_scene_request_witness :
  ipc_sent (demo_serve (PostIpcSwitchScene demo_switch) demo_headers ∅ demo_server).2
    = [SwitchScene "Live" "manual_debug" 5000] /\
  ipc_sent (demo_serve (PostIpcSwitchScene demo_switch) demo_headers ∅ demo_server).2 = [asked demo_switch].
Proof.
  split; [reflexivity|].
  pose proof (switch_scene_request demo_os demo_outside demo_consts demo_headers ∅ demo_switch demo_server eq_refl) as H.
  destruct (demo_serve (PostIpcSwitchScene demo_switch) demo_headers ∅ demo_server) as [r s'].
  destruct H as [(_ & _ & He & _)|[(_ & _ & He)|(_ & _ & -> & _)]]; [by vm_compute in He | done | reflexivity].
Defined.

Lemma relay_snapshot_tracks_witness :
  vault (demo_serve PostAegisStop demo_headers ∅ demo_server).2 = vault demo_server.
Proof.
  pose proof (relay_snapshot_tracks demo_os demo_outside demo_consts PostAegisStop demo_headers ∅ demo_server
    (or_intror (or_intror (or_introl eq_refl)))) as H.
  destruct (demo_serve PostAegisStop demo_headers ∅ demo_server) as [r s']. exact (proj1 (proj2 H)).
Defined.

Lemma output_names_saved_witness :
  status_code (demo_serve (PostOutputNames {["main" := "Twitch"]}) demo_headers ∅ demo_server).1 = OK /\
  vault (demo_serve (PostOutputNames {["main" := "Twitch"]}) demo_headers ∅ demo_server).2 = vault demo_server.
Proof.
  split; [vm_compute; reflexivity|].
  pose proof (output_names_saved demo_os demo_outside demo_consts demo_headers ∅ {["main" := "Twitch"]}
    demo_server eq_refl) as H.
  destruct (demo_serve (PostOutputNames {["main" := "Twitch"]}) demo_headers ∅ demo_server) as [r s'].
  exact (proj1 H).
Defined.

Lemma settings_submitted_witness :
  status_code (demo_serve (PostSettings demo_form) demo_headers ∅ demo_server).1 = OK /\
  ipc_sent (demo_serve (PostSettings demo_form) demo_headers ∅ demo_server).2 = [].
Proof.
  split; [vm_compute; reflexivity|].
  pose proof (settings_submitted demo_os demo_outside demo_consts demo_headers ∅ demo_form demo_server
    eq_refl) as H.
  destruct (demo_serve (PostSettings demo_form) demo_headers ∅ demo_server) as [r s'].
  exact (proj1 (proj2 (proj1 H))).
Defined.
