(* ===== verification/PagesSpec.v ===== *)
(** * PagesSpec: what the two HTML pages show

    The pages are templates ([Pages]) that a handler of [Server] fills in;
    [Markup] reads the result.  The properties are about what a browser finds in
    them: the structure of the document, the fields of the settings form, the
    links, and what happens when the form is sent back. *)

From S2P Require Import Prelude RustStd Effects Float Model Host Config ConfigSpec Security Aegis Ipc Pages Server Markup ServerSpec.

#[local] Open Scope Z_scope.

(** ** The templates, read *)

Definition settings_template (configured : bool) : list symbol :=
  template [("grafana_status", grafana_status configured)] SETTINGS_PAGE.
Definition settings_tags (configured : bool) : list Tag := tags (read (settings_template configured)).

Definition form_ids : list string :=
  ["obs_host"; "obs_port"; "grafana_endpoint"; "grafana_interval"; "obs_password"; "grafana_instance_id";
   "grafana_api_token"].

(** Each field but the secrets is filled in, each link carries the token. *)
Lemma settings_summary configured : summary form_ids (settings_template configured) = {|
  sum_placed := true;
  sum_holes := [(false, "css"); (true, "token"); (true, "obs_host"); (true, "obs_port"); (true, "grafana_endpoint");
                (true, "grafana_interval"); (true, "token")];
  sum_closed := true;
  sum_fields := [Some [Hole "obs_host"]; Some [Hole "obs_port"]; Some [Hole "grafana_endpoint"];
                 Some [Hole "grafana_interval"]; None; None; None];
  sum_links := [map Ch (Str.chars "/obs?token=") ++ [Hole "token"];
                map Ch (Str.chars "/grafana-dashboard?token=") ++ [Hole "token"]];
  sum_nested := true |}.
Proof. destruct configured; vm_compute; reflexivity. Qed.

(** ** Inert texts *)

Definition without (b : ascii) (s : string) : Prop := forallb (fun a => negb (Ascii.eqb a b)) (Str.chars s) = true.

Lemma forallb_weaken {A} (p q : A -> bool) l :
  (forall a, p a = true -> q a = true) -> forallb p l = true -> forallb q l = true.
Proof. intros Hpq. rewrite !forallb_forall. auto. Qed.

Lemma escaped_unquoted s : without double_quote (html_escape s).
Proof.
  refine (forallb_weaken _ _ _ _ (html_escape_plain s)). intros a. unfold markup.
  destruct (Ascii.eqb a double_quote); by rewrite ?orb_true_r.
Qed.

Lemma number_unquoted n : 0 <= n -> without double_quote (Str.show n).
Proof.
  intros Hn. refine (forallb_weaken _ _ _ _ (Str.show_digits n Hn)). intros a Ha.
  by destruct (Ascii.eqb_spec a double_quote) as [->|].
Qed.

(** ** The settings page *)

(** The page a browser reads: fields, links and structure. *)
Definition shows (token : string) (c : Config) (configured : bool) (page : string) : Prop :=
  map (fun id => field id page) form_ids =
    [Some (Config.host (Config.obs c)); Some (Str.show (Config.port (Config.obs c)));
     Some (text (endpoint (grafana c))); Some (Str.show (push_interval_ms (grafana c))); None; None; None] /\
  links page = ["/obs?token=" +:+ token; "/grafana-dashboard?token=" +:+ token] /\
  skeleton (tags_of page) = skeleton (settings_tags configured) /\
  nested (map tag_name (tags_of page)) [] = true.

Lemma html_unescape_number n : 0 <= n -> html_unescape (Str.show n) = Str.show n.
Proof.
  intros Hn. pose proof (html_unescape_prefix (Str.show n) "") as H. rewrite !string_app_nil in H. apply H.
  refine (forallb_weaken _ _ _ _ (Str.show_digits n Hn)). intros a Ha.
  by destruct (Ascii.eqb_spec a "&") as [->|].
Qed.

(** What a hole that is a whole value is read as. *)
Lemma read_hole_value args name s :
  args name = Str.chars s -> value_text (fill args [Hole name]) = html_unescape s.
Proof.
  intros Ha. change [Hole name] with (map Ch (Str.chars "") ++ [Hole name]).
  rewrite value_text_hole, Ha. f_equal. apply string_of_list_ascii_of_string.
Qed.

Lemma quoted_filled args name s : args name = Str.chars s -> without double_quote s -> inert args true name.
Proof. intros Ha Hs. unfold inert. by rewrite Ha. Qed.
Lemma text_filled args name s : args name = Str.chars s -> without "<" s -> inert args false name.
Proof. intros Ha Hs. unfold inert. by rewrite Ha. Qed.

Section Settings.
Context (css token : string) (c : Config) (configured : bool) (Hcss : without "<" css) (Hwf : Config_wf c).

Let args := settings_args css token (Config.host (Config.obs c)) (Config.port (Config.obs c)) configured
    (text (endpoint (grafana c))) (push_interval_ms (grafana c)).

Lemma settings_args_inert :
  all_inert (lookup_arg args) [(false, "css"); (true, "token"); (true, "obs_host"); (true, "obs_port");
    (true, "grafana_endpoint"); (true, "grafana_interval"); (true, "token")].
Proof.
  destruct Hwf as (Hport & _ & Hival). repeat constructor; cbn [fst snd].
  - exact (text_filled _ "css" css eq_refl Hcss).
  - exact (quoted_filled _ "token" (html_escape token) eq_refl (escaped_unquoted _)).
  - exact (quoted_filled _ "obs_host" (html_escape (Config.host (Config.obs c))) eq_refl (escaped_unquoted _)).
  - exact (quoted_filled _ "obs_port" (Str.show (Config.port (Config.obs c))) eq_refl (number_unquoted _ (proj1 Hport))).
  - exact (quoted_filled _ "grafana_endpoint" (html_escape (text (endpoint (grafana c)))) eq_refl (escaped_unquoted _)).
  - exact (quoted_filled _ "grafana_interval" (Str.show (push_interval_ms (grafana c))) eq_refl
      (number_unquoted _ (proj1 Hival))).
  - exact (quoted_filled _ "token" (html_escape token) eq_refl (escaped_unquoted _)).
Qed.

(** An escaped text, and a number, in a hole that is a whole value. *)
Lemma read_escaped name s :
  lookup_arg args name = Str.chars (html_escape s) ->
  (value_text ∘ fill (lookup_arg args)) <$> Some [Hole name] = Some s.
Proof. intros H. change (Some (value_text (fill (lookup_arg args) [Hole name])) = Some s). rewrite (read_hole_value _ _ _ H). apply f_equal, html_unescape_escape. Qed.

Lemma read_number name n :
  0 <= n -> lookup_arg args name = Str.chars (Str.show n) ->
  (value_text ∘ fill (lookup_arg args)) <$> Some [Hole name] = Some (Str.show n).
Proof. intros Hn H. change (Some (value_text (fill (lookup_arg args) [Hole name])) = Some (Str.show n)). rewrite (read_hole_value _ _ _ H). by apply f_equal, html_unescape_number. Qed.

Lemma read_token p :
  forallb (fun a => negb (Ascii.eqb a "&")) (Str.chars p) = true ->
  (value_text ∘ fill (lookup_arg args)) (map Ch (Str.chars p) ++ [Hole "token"]) = p +:+ token.
Proof.
  intros Hp. unfold compose. rewrite value_text_hole.
  change (lookup_arg args "token") with (Str.chars (html_escape token)).
  by rewrite string_of_list_ascii_of_string, html_unescape_prefix.
Qed.

Lemma settings_page_filled page : Fmt.format SETTINGS_PAGE args = Some page -> shows token c configured page.
Proof.
  intros Hpage. destruct Hwf as (Hport & _ & Hival).
  destruct (summary_filled (lookup_arg args) form_ids (settings_template configured) page _
    (settings_summary configured) eq_refl eq_refl settings_args_inert) as (Hf & Hl & Hs & Hn).
  { apply (format_fills [("grafana_status", grafana_status configured)] SETTINGS_PAGE args page); [|exact Hpage].
    intros name a. unfold arg_named. cbn [find fst].
    destruct (String.eqb_spec "grafana_status" name) as [<-|]; [|discriminate]. intros H. exact H. }
  cbn [sum_fields sum_links sum_nested map] in Hf, Hl, Hn. unfold shows. rewrite Hl, Hs, Hn.
  rewrite (read_token "/obs?token="), (read_token "/grafana-dashboard?token=") by reflexivity.
  split; [|split_and!; reflexivity]. cbn [map form_ids]. cbn [map form_ids] in Hf. rewrite Hf.
  rewrite (read_escaped "obs_host" (Config.host (Config.obs c)) eq_refl).
  rewrite (read_number "obs_port" (Config.port (Config.obs c)) (proj1 Hport) eq_refl).
  rewrite (read_escaped "grafana_endpoint" (text (endpoint (grafana c))) eq_refl).
  rewrite (read_number "grafana_interval" (push_interval_ms (grafana c)) (proj1 Hival) eq_refl).
  reflexivity.
Qed.
(** Every hole has its argument. *)
Lemma settings_format : exists page, Fmt.format SETTINGS_PAGE args = Some page /\ shows token c configured page.
Proof.
  assert (match Fmt.pieces SETTINGS_PAGE with
          | Some ps => forallb (fun p => match p with
                                         | Fmt.Lit _ => true
                                         | Fmt.Arg name => existsb (fun a => String.eqb a.1 (Str.of_chars name)) args
                                         end) ps
          | None => false
          end = true) as H by (vm_compute; reflexivity).
  destruct (Fmt.pieces SETTINGS_PAGE) as [ps|] eqn:Hps; [|discriminate H].
  destruct (format_total SETTINGS_PAGE ps args Hps H) as [page Hpage].
  exists page. split; [exact Hpage | exact (settings_page_filled page Hpage)].
Qed.
End Settings.

(** ** The dashboard *)

(** The three texts around the two placeholders. *)
Definition obs_parts : option (list ascii * list ascii * list ascii) :=
  '(a, l) ← cut (Str.chars "{{THEME_VARS}}") (Str.chars OBS_PAGE);
  '(b, c) ← cut (Str.chars "{{TOKEN}}") l;
  Some (a, b, c).
Definition obs_template (parts : list ascii * list ascii * list ascii) : list symbol :=
  let '(a, b, c) := parts in
  map Ch a ++ [Hole "css"] ++ map Ch b ++ [Hole "token"] ++ map Ch c.
Definition obs_symbols : list symbol := default [] (obs_template <$> obs_parts).

(** Each placeholder occurs once. *)
Definition obs_once : bool :=
  match obs_parts with
  | Some (a, b, c) =>
      let theme := Str.chars "{{THEME_VARS}}" in
      let token := Str.chars "{{TOKEN}}" in
      avoids theme a && avoids theme (b ++ token ++ c) && avoids token a && avoids token b && avoids token c
  | None => false
  end.

Lemma obs_placeholders : obs_once = true.
Proof. vm_compute. reflexivity. Qed.

Lemma obs_summary : summary [] obs_symbols = {|
  sum_placed := true; sum_holes := [(false, "css"); (true, "token")]; sum_closed := true; sum_fields := [];
  sum_links := [map Ch (Str.chars "/settings?token=") ++ [Hole "token"]]; sum_nested := true |}.
Proof. vm_compute. reflexivity. Qed.

(** A text that opens no tag and no placeholder. *)
Definition plain_text (s : string) : Prop := without "<" s /\ without "{" s.

(** The two replacements fill the template. *)
Lemma obs_filled css token :
  plain_text css ->
  map Ch (Str.chars (Str.replace "{{TOKEN}}" token (Str.replace "{{THEME_VARS}}" css OBS_PAGE))) =
  fill (lookup_arg [("css", css); ("token", token)]) obs_symbols.
Proof.
  intros Hcss. pose proof obs_placeholders as Ho. unfold obs_once in Ho. unfold obs_symbols.
  destruct obs_parts as [[[a b] c]|] eqn:Hparts; [|done]. cbv zeta in Ho.
  apply andb_prop in Ho as [[[[H1 H2]%andb_prop H3]%andb_prop H4]%andb_prop H5].
  unfold obs_parts in Hparts. destruct (cut _ (Str.chars OBS_PAGE)) as [[a' l]|] eqn:Ha; [|done]. cbn [mbind option_bind] in Hparts.
  destruct (cut _ l) as [[b' c']|] eqn:Hb; [|done]. cbn [mbind option_bind] in Hparts. injection Hparts as -> -> ->.
  apply cut_Some in Ha, Hb. subst l.
  rewrite <- (string_of_list_ascii_of_string OBS_PAGE), Ha, replace_once by done.
  assert (avoids (Str.chars "{{TOKEN}}") (Str.chars css) = true) as Hc.
  { apply avoids_first, Hcss. }
  rewrite !app_assoc, <- (app_assoc _ (Str.chars "{{TOKEN}}") c), replace_once by (done || by repeat apply avoids_app).
  rewrite list_ascii_of_string_of_list_ascii, !map_app.
  change (default [] (obs_template <$> Some (a, b, c)))
    with (map Ch a ++ [Hole "css"] ++ map Ch b ++ [Hole "token"] ++ map Ch c).
  rewrite !fill_app, !fill_text, !fill_hole, <- !app_assoc. reflexivity.
Qed.

(** The page a browser reads: its one link leads to the settings with the token. *)
Definition leads_to_settings (token page : string) : Prop :=
  links page = ["/settings?token=" +:+ token] /\
  skeleton (tags_of page) = skeleton (tags (read obs_symbols)) /\
  nested (map tag_name (tags_of page)) [] = true.

Lemma obs_page_filled css token :
  plain_text css ->
  leads_to_settings token
    (Str.replace "{{TOKEN}}" (html_escape token) (Str.replace "{{THEME_VARS}}" css OBS_PAGE)).
Proof.
  intros Hcss. set (page := Str.replace _ _ _). set (args := [("css", css); ("token", html_escape token)]).
  destruct (summary_filled (lookup_arg args) [] obs_symbols page _ obs_summary eq_refl eq_refl) as (_ & Hl & Hs & Hn).
  { repeat constructor; cbn [fst snd].
    - exact (text_filled _ "css" css eq_refl (proj1 Hcss)).
    - exact (quoted_filled _ "token" (html_escape token) eq_refl (escaped_unquoted _)). }
  { exact (obs_filled css (html_escape token) Hcss). }
  unfold leads_to_settings. rewrite Hl, Hs, Hn. split_and!; [|reflexivity..].
  cbn [sum_links map]. apply (f_equal (fun x => [x])). unfold compose. rewrite value_text_hole.
  change (lookup_arg args "token") with (Str.chars (html_escape token)).
  by rewrite string_of_list_ascii_of_string, html_unescape_prefix.
Qed.

(** ** The page a server answers with *)

Section Pages.
Context {Url : Type} {url_ops : UrlOps Url} {api_json : ApiJson}.
Context {b64 : Base64} {dp : DataProtection} {vj : VaultJson} {toml : TomlCodec}.
Context (os : Host) (o : Outside Url) (k : ServerConsts).
Implicit Types s : Server.

(** The theme is inserted into the style sheet as it is configured, unescaped.
    The style sheet ends at an angle bracket; and on the dashboard, where the
    token is filled in after the theme, a brace could open a placeholder. *)
Definition bracket_free_theme (t : ThemeConfig) : Prop := without "<" (theme_css t).
Definition plain_theme (t : ThemeConfig) : Prop := plain_text (theme_css t).

(** Numbers of a decoded configuration are in the range of their Rust types. *)
Context (toml_ranges : forall raw c, toml_from_str raw = Ok c -> Config_wf c).

Lemma overridden_wf w c : Config_wf c -> Config_wf (overridden w c).
Proof. intros (H1 & H2 & H3). split_and!; by apply override_parsed_range. Qed.

Lemma file_config_wf raw : Config_wf (file_config raw).
Proof.
  destruct raw as [raw|]; cbn; [|done]. destruct (toml_from_str raw) as [c|] eqn:Hc; [by apply (toml_ranges raw) | done].
Qed.

Lemma load_wf w c : outcome (load os) w = Ok c -> Config_wf c.
Proof.
  unfold outcome. rewrite load_run. cbn [fst]. set (c' := overridden _ _). intros H.
  assert (c' = c) as <- by (destruct (validate c'); cbn in H; by simplify_eq).
  apply overridden_wf, file_config_wf.
Qed.

Lemma settings_get headers query s :
  is_token_valid headers query (srv_token k) Allow = true ->
  serve os o k GetSettings headers query s =
  match load os (world s) with
  | (Ok c, w) =>
      (mkResponse OK (Html (default "" (Fmt.format SETTINGS_PAGE
         (settings_args (theme_css (srv_theme k)) (srv_token k) (Config.host (Config.obs c)) (Config.port (Config.obs c))
            (grafana_configured s) (text (endpoint (grafana c))) (push_interval_ms (grafana c)))))), set_world w s)
  | (Err e, w) => (mkResponse INTERNAL_SERVER_ERROR (Text ("Failed to load config: " +:+ e)), set_world w s)
  end.
Proof.
  intros Hv. unfold serve, route, settings_page. rewrite (guard_passes k _ _ _ _ _ _ Hv).
  unfold load_config, mbind, eff_bind, on_files. destruct (load os (world s)) as [[c|e] w]; reflexivity.
Qed.

(** C18: the settings page, for a theme without angle brackets (it is the one
    text inserted unescaped).  An authorised request is answered with a page that
    shows the configuration as loaded: a browser finds the address, the port,
    the endpoint and the interval in their fields, character for character, and
    nothing in the fields of the three secrets; both links carry the token.
    Whatever the rest of the configuration and the token hold, the document has
    the tags and attributes of the template and is well nested: none of these
    values can add markup.  When the configuration does not load, the answer is
    500 with the error.  No file changes. *)
Theorem settings_page_shows headers query s :
  bracket_free_theme (srv_theme k) -> is_token_valid headers query (srv_token k) Allow = true ->
  let '(r, s') := serve os o k GetSettings headers query s in
  same_content (world s) (world s') /\
  match outcome (load os) (world s) with
  | Ok c => exists page, r = mkResponse OK (Html page) /\ shows (srv_token k) c (grafana_configured s) page
  | Err e => r = mkResponse INTERNAL_SERVER_ERROR (Text ("Failed to load config: " +:+ e))
  end.
Proof.
  intros Ht Hv. rewrite settings_get by done. pose proof (load_content os (world s)) as [Hw _].
  pose proof (load_wf (world s)) as Hwf. unfold outcome, final in *.
  destruct (load os (world s)) as [[c|e] w]; cbn [fst snd] in *; split; [exact Hw | | exact Hw | reflexivity].
  destruct (settings_format (theme_css (srv_theme k)) (srv_token k) c (grafana_configured s) Ht
    (Hwf c eq_refl)) as (page & Hp & Hs).
  exists page. split; [|exact Hs]. rewrite Hp. reflexivity.
Qed.
(** *** Sending the form back *)

(** The form a browser sends when nothing is typed: the fields as they are
    filled in, the secrets empty. *)
Definition form_shown (page : string) : option SettingsForm :=
  host ← field "obs_host" page;
  port ← field "obs_port" page ≫= Int.parse_u16;
  interval ← field "grafana_interval" page ≫= Int.parse_u64;
  endpoint ← field "grafana_endpoint" page;
  Some {| form_obs_host := host; form_obs_port := port;
          form_obs_password := Some (text (field "obs_password" page)); grafana_interval := interval;
          grafana_endpoint := Some endpoint;
          grafana_instance_id := Some (text (field "grafana_instance_id" page));
          grafana_api_token := Some (text (field "grafana_api_token" page)) |}.

Definition unchanged_form (c : Config) : SettingsForm := {|
  form_obs_host := Config.host (Config.obs c); form_obs_port := Config.port (Config.obs c);
  form_obs_password := Some ""; grafana_interval := push_interval_ms (grafana c);
  grafana_endpoint := Some (text (endpoint (grafana c))); grafana_instance_id := Some "";
  grafana_api_token := Some "" |}.

Lemma shown_form token c configured page :
  Config_wf c -> shows token c configured page -> form_shown page = Some (unchanged_form c).
Proof.
  intros (Hport & _ & Hival) (Hf & _). injection Hf as H1 H2 H3 H4 H5 H6 H7. unfold form_shown.
  rewrite H1, H2, H3, H4, H5, H6, H7. cbn [mbind option_bind].
  unfold Int.parse_u16, Int.parse_u64. rewrite !Str.parse_show by lia. reflexivity.
Qed.

Lemma active_path_content w w' : same_content w w' -> active_path w' = active_path w.
Proof. intros [Hf Hv]. unfold active_path, managed_path. by rewrite Hf, Hv. Qed.

(** A host that refuses nothing loads the same configuration again. *)
Lemma load_again w w' :
  (forall n, refused os n = None) -> same_content w w' -> outcome (load os) w' = outcome (load os) w.
Proof.
  intros Hr Hw. pose proof (active_path_content w w' Hw) as Hp. destruct Hw as [Hf Hv].
  unfold outcome. rewrite !load_run. cbn [fst].
  assert (outcome (read_to_string os (active_path w')) w' = outcome (read_to_string os (active_path w)) w) as Hread.
  { unfold outcome, read_to_string. rewrite !Hr, Hp, Hf. destruct (files w !! active_path w) as [d|]; [|done].
    by destruct (Utf8.valid _). }
  destruct (read_run os (active_path w') w') as [[_ H1] _], (read_run os (active_path w) w) as [[_ H2] _].
  unfold overridden. by rewrite Hread, H1, H2, Hv.
Qed.

(** The two blocks of the handler on an unchanged form. *)
Lemma unchanged_password c c' s : submit_password os (unchanged_form c) c' s = (Ok c', s).
Proof. reflexivity. Qed.

Lemma unchanged_grafana c s :
  Str.trim (text (endpoint (grafana c))) = text (endpoint (grafana c)) ->
  let c' := set_obs_host_port (Config.host (Config.obs c)) (Config.port (Config.obs c)) c in
  submit_grafana os (unchanged_form c) (set_grafana (set_push_interval (push_interval_ms (grafana c)) (grafana c')) c') s
  = (Ok c, s).
Proof.
  intros Ht. destruct c as [[] ? ? [? ep ? ? ?] ? ? ? ? ? ?]. unfold submit_grafana. cbn in *.
  rewrite Ht, andb_false_r. destruct ep as [e|]; [|done]. cbn. by destruct (String.eqb e "").
Qed.

(** On a host that refuses nothing an acceptable configuration is saved. *)
Lemma save_run c data w :
  (forall n, refused os n = None) -> acceptable c -> toml_to_string c = Ok data ->
  outcome (save os c) w = Ok tt /\ files (final (save os c) w) = <[active_path w := data]> (files w) /\
  vars (final (save os c) w) = vars w.
Proof.
  intros Hr Hc%validate_acceptable Hd. pose proof (save_writes os c w) as (Hv & _ & Hok).
  assert (outcome (save os c) w = Ok tt) as Ho.
  { assert (exists w', create_parent os (active_path w) w = (Ok tt, w')) as [w' Hw'].
    { unfold create_parent. destruct (Path.parent (active_path w)) as [d|]; [|by eexists].
      destruct (negb (Str.is_empty d)); [|by eexists]. unfold create_dir_all. destruct (Str.is_empty d); [by eexists|].
      rewrite Hr. by eexists. }
    unfold outcome, save, mbind, eff_bind. rewrite active_config_path_run, Hc, Hd. unfold lift, mret, eff_ret.
    rewrite Hw'. unfold write. by rewrite Hr. }
  split_and!; [done | | done]. destruct (Hok Ho) as (_ & d & Hd' & Hf). rewrite Hd in Hd'. by injection Hd' as ->.
Qed.

(** C17: the settings form is faithful, for a theme without angle brackets, on a
    system that refuses no file operation.  When the configuration loads, what a
    browser finds in the page and sends back without typing anything is that
    configuration.  If it can be written as TOML and its endpoint has no white
    space around it (which the handler would trim), the form is accepted, the
    vault and the exporter flag stay as they are, and the only change of the
    files is that the active one holds exactly the loaded configuration. *)
Theorem settings_resubmitted headers query s :
  bracket_free_theme (srv_theme k) -> (forall n, refused os n = None) ->
  is_token_valid headers query (srv_token k) Deny = true ->
  let '(r, s1) := serve os o k GetSettings headers query s in
  forall loaded, outcome (load os) (world s) = Ok loaded ->
  exists page form, r = mkResponse OK (Html page) /\ form_shown page = Some form /\
    (Str.trim (text (endpoint (grafana loaded))) = text (endpoint (grafana loaded)) ->
     forall data, toml_to_string loaded = Ok data ->
     let '(r2, s2) := serve os o k (PostSettings form) headers query s1 in
     status_code r2 = OK /\ files (world s2) = <[active_path (world s) := data]> (files (world s)) /\
     vault s2 = vault s /\ grafana_configured s2 = grafana_configured s).
Proof.
  intros Hth Hr Hv.
  assert (is_token_valid headers query (srv_token k) Allow = true) as Hva.
  { apply is_token_valid_iff. apply is_token_valid_iff in Hv as [H|(_ & ? & _)]; [by left | done]. }
  pose proof (load_content os (world s)) as [Hw Hacc]. pose proof (load_wf (world s)) as Hwf.
  rewrite settings_get by done. unfold outcome, final in *.
  destruct (load os (world s)) as [[c|e] w] eqn:Hl; cbn [fst snd] in *; intros loaded Hloaded; [|discriminate].
  injection Hloaded as <-. destruct (settings_format (theme_css (srv_theme k)) (srv_token k) c (grafana_configured s)
    Hth (Hwf c eq_refl)) as (page & Hp & Hs).
  rewrite Hp. exists page, (unchanged_form c). split_and!; [reflexivity | exact (shown_form _ _ _ _ (Hwf c eq_refl) Hs)|].
  intros Ht data Hd. unfold serve, route, settings_submit. rewrite (guard_passes k _ _ _ _ _ _ Hv).
  pose proof (load_again (world s) w Hr Hw) as Hagain. unfold outcome in Hagain. rewrite Hl in Hagain. cbn [fst] in Hagain.
  pose proof (load_content os w) as [Hw2 _]. unfold final in Hw2.
  unfold load_config, mbind, eff_bind, on_files. cbn [world set_world].
  destruct (load os w) as [r2 w2]. cbn [fst snd] in Hagain, Hw2. subst r2. cbn beta iota.
  unfold mret at 1, eff_ret at 1. cbn [form_obs_host form_obs_port unchanged_form].
  rewrite unchanged_password. cbn beta iota. cbn [grafana_interval unchanged_form].
  pose proof (fun s => unchanged_grafana c s Ht) as Hg. cbv zeta in Hg. cbn [unchanged_form] in Hg.
  rewrite Hg.
  destruct (save_run c data w2 Hr (Hacc c eq_refl) Hd) as (Ho & Hf & _). unfold outcome, final in Ho, Hf.
  unfold save_config, mbind, eff_bind, on_files. cbn [world set_world].
  destruct (save os c w2) as [r3 w3]. cbn [fst snd] in Ho, Hf. subst r3. cbn.
  rewrite Hf, <- (active_path_content (world s) w2) by (by transitivity w).
  split_and!; [done | | done..]. f_equal. destruct Hw as [Hw _], Hw2 as [Hw2 _]. congruence.
Qed.

(** C39: the dashboard leads to the settings, for a theme without angle brackets
    and opening braces (it is inserted unescaped, before the token is).  An
    authorised request for the dashboard changes nothing and is answered with a
    page whose markup is that of the template, well nested, with one link: to
    the settings, with the server's token, whatever characters it has.  A request
    for the settings that presents this token in its query, and no header, is
    let through: it is answered with the page, or with the error of loading the
    configuration. *)
Theorem dashboard_leads_to_settings headers query s :
  plain_theme (srv_theme k) -> is_token_valid headers query (srv_token k) Allow = true ->
  let '(r, s') := serve os o k GetObs headers query s in
  s' = s /\ exists page, r = mkResponse OK (Html page) /\ leads_to_settings (srv_token k) page /\
  forall query', query' !! "token" = Some (srv_token k) ->
    let '(r', s'') := serve os o k GetSettings {| authorization := None |} query' s in
    same_content (world s) (world s'') /\
    (status_code r' = OK \/
     status_code r' = INTERNAL_SERVER_ERROR /\ exists e, outcome (load os) (world s) = Err e).
Proof.
  intros Ht Hv. unfold serve at 1, route at 1, obs_page. rewrite (guard_passes k _ _ _ _ _ _ Hv).
  cbv zeta. split; [done|]. eexists. split; [reflexivity|]. split; [by apply obs_page_filled|].
  intros query' Hq. rewrite settings_get by (apply is_token_valid_iff; by right).
  pose proof (load_content os (world s)) as [Hw _]. unfold outcome, final in *.
  destruct (load os (world s)) as [[c|x] w]; (split; [exact Hw|]); [by left | right; split; [done | by eexists]].
Qed.
End Pages.

(** ** Witnesses *)

#[local] Existing Instances demo_url demo_api_json demo_base64 demo_vault_json demo_toml.

Lemma demo_ranges raw c : toml_from_str raw = Ok c -> Config_wf c.
Proof. intros H. injection H as <-. repeat split; done. Qed.

Lemma demo_theme_plain : plain_theme (srv_theme demo_consts).
Proof. split; vm_compute; reflexivity. Qed.

Lemma settings_page_shows_witness :
  exists page, fst (demo_serve GetSettings demo_headers ∅ demo_server) = mkResponse OK (Html page) /\
    field "obs_host" page = Some "127.0.0.1" /\ field "obs_password" page = None.
Proof.
  pose proof (settings_page_shows demo_os demo_outside demo_consts demo_ranges demo_headers ∅ demo_server
    (proj1 demo_theme_plain) eq_refl) as H.
  destruct (demo_serve GetSettings demo_headers ∅ demo_server) as [r s']. destruct H as [_ H].
  change (outcome (load demo_os) (world demo_server))
    with (Ok (overridden (world demo_server) Config_default) : result string Config) in H.
  destruct H as (page & Hr & Hf & _). injection Hf as H1 _ _ _ H5 _ _. exists page. exact (conj Hr (conj H1 H5)).
Defined.

Lemma settings_resubmitted_witness :
  exists page form, fst (demo_serve GetSettings demo_headers ∅ demo_server) = mkResponse OK (Html page) /\
    form_shown page = Some form /\
    status_code (fst (demo_serve (PostSettings form) demo_headers ∅
      (snd (demo_serve GetSettings demo_headers ∅ demo_server)))) = OK.
Proof.
  pose proof (settings_resubmitted demo_os demo_outside demo_consts demo_ranges demo_headers ∅ demo_server
    (proj1 demo_theme_plain) (fun _ => eq_refl) eq_refl) as H.
  destruct (demo_serve GetSettings demo_headers ∅ demo_server) as [r s1].
  destruct (H (overridden (world demo_server) Config_default) eq_refl) as (page & form & Hr & Hf & Hpost).
  exists page, form. refine (conj Hr (conj Hf _)). clear H Hr. cbn [snd].
  specialize (Hpost eq_refl "[obs]" eq_refl).
  destruct (demo_serve (PostSettings form) demo_headers ∅ s1) as [r2 s2]. exact (proj1 Hpost).
Defined.

Lemma dashboard_leads_to_settings_witness :
  exists page, fst (demo_serve GetObs demo_headers ∅ demo_server) = mkResponse OK (Html page) /\
    links page = ["/settings?token=tok"].
Proof.
  pose proof (dashboard_leads_to_settings demo_os demo_outside demo_consts demo_headers ∅ demo_server
    demo_theme_plain eq_refl) as H.
  destruct (demo_serve GetObs demo_headers ∅ demo_server) as [r s'].
  destruct H as (_ & page & Hr & Hl & _). exists page. exact (conj Hr (proj1 Hl)).
Defined.
