(* ===== verification/Interleaving.v ===== *)
(** * Interleaving: handlers that run at the same time

    The server runs its handlers on the threads of a pool.  Here a handler is the
    sequence of its atomic steps (a resumption), and a schedule picks the handler
    that moves next.  A step may have to wait: the vault is behind a mutex, which
    is taken and released by steps of their own, and [fs::write], of the
    configuration and of the vault alike, is the two steps it is: the file is
    truncated, then its contents are written.  A handler that is not interrupted
    is the handler of [Server] ([thread_alone]).

    The two handlers that write files are cut into steps; every other handler is
    one step, which is enough for what is stated here about the configuration
    file and the vault, since it writes neither.  Those among them that take the
    mutex only read the vault in memory, which does not change after a store has
    inserted its entry: what they read inside another handler's critical section
    they could have read before or after it.  What the interleavings do to secrets
    and to the configuration is in [InterleavingSpec]. *)

From S2P Require Import Prelude RustStd Effects Float Model Host Config ConfigSpec Security Aegis Ipc Server ServerSpec.

#[local] Open Scope Z_scope.

(** ** Resumptions *)

(** A step waits until it is [ready]. *)
Inductive prog (S A : Type) : Type :=
  | Done (a : A)
  | Act (B : Type) (ready : S -> bool) (m : S -> B * S) (k : B -> prog S A).
Arguments Done {S A} a.
Arguments Act {S A B} ready m k.

(** Steps that may leave the handler with an [X]. *)
Definition steps (S X A : Type) : Type := prog S (result X A).

Section Resumptions.
Context {S X : Type}.

#[global] Instance steps_ret : MRet (steps S X) := fun A a => Done (Ok a).
#[global] Instance steps_bind : MBind (steps S X) := fun A B f =>
  fix seq (p : steps S X A) : steps S X B :=
    match p with
    | Done (Ok a) => f a
    | Done (Err x) => Done (Err x)
    | Act ready m k => Act ready m (fun b => seq (k b))
    end.

(** A program that is not interrupted; it gets stuck if it has to wait. *)
Fixpoint run {A} (p : prog S A) (s : S) : option (A * S) :=
  match p with
  | Done a => Some (a, s)
  | Act ready m k => if ready s then let (b, s') := m s in run (k b) s' else None
  end.

Definition finished {A} (p : prog S A) : bool := match p with Done _ => true | Act _ _ _ => false end.

(** Whether a program has a step it can take. *)
Definition can_move {A} (p : prog S A) (s : S) : bool :=
  match p with Done _ => false | Act ready _ _ => ready s end.

(** One more step of a program; a finished or a waiting one does nothing. *)
Definition resume {A} (p : prog S A) (s : S) : prog S A * S :=
  match p with
  | Done _ => (p, s)
  | Act ready m k => if ready s then let (b, s') := m s in (k b, s') else (p, s)
  end.

(** The threads under a schedule. *)
Fixpoint scheduled {A} (schedule : list nat) (threads : list (prog S A)) (s : S) : list (prog S A) * S :=
  match schedule with
  | [] => (threads, s)
  | i :: schedule' =>
      match threads !! i with
      | Some p => let (p', s') := resume p s in scheduled schedule' (<[i := p']> threads) s'
      | None => scheduled schedule' threads s
      end
  end.

Lemma run_bind {A B} (p : steps S X A) (f : A -> steps S X B) s :
  run (p ≫= f) s =
    match run p s with
    | Some (Ok a, s') => run (f a) s'
    | Some (Err x, s') => Some (Err x, s')
    | None => None
    end.
Proof.
  revert s. induction p as [[a|x]|C ready m k IH]; intros s; [done..|]. cbn.
  destruct (ready s); [|done]. destruct (m s) as [b s']. apply IH.
Qed.

(** What every step keeps, every schedule keeps. *)
Lemma scheduled_invariant {A} (I : list (prog S A) -> S -> Prop) (R : S -> S -> Prop) `{!PreOrder R} schedule :
  (forall threads i p s, I threads s -> threads !! i = Some p ->
     I (<[i := (resume p s).1]> threads) (resume p s).2 /\ R s (resume p s).2) ->
  forall threads s, I threads s ->
  let (threads', s') := scheduled schedule threads s in I threads' s' /\ R s s'.
Proof.
  intros Hstep. induction schedule as [|i schedule IH]; intros threads s Hs; [by split|].
  cbn. destruct (threads !! i) as [p|] eqn:Hp; [|by apply IH].
  destruct (Hstep threads i p s Hs Hp) as [H1 H2]. destruct (resume p s) as [p' s']. cbn in *.
  specialize (IH (<[i := p']> threads) s' H1). destruct (scheduled schedule _ s') as [ts s2].
  destruct IH as [Ha Hb]. split; [done | by transitivity s'].
Qed.
End Resumptions.

(** ** Writing a file *)

Section Files.
Context {toml : TomlCodec} (os : Host).

(** What [Config::save] does before it writes. *)
Definition prepare (c : Config) : eff World string (string * string) :=
  path ← active_config_path;
  lift (validate c) ;;
  data ← lift (toml_to_string c);
  create_parent os path ;;
  mret (path, data).

(** The first half of [fs::write]: the file is opened and emptied, unless the
    write is refused. *)
Definition truncate (path : string) : eff World string unit := fun w =>
  (Ok tt, match refused os (ops w) with Some _ => w | None => set_file path "" w end).

Lemma save_prepare c w : save os c w = ('(path, data) ← prepare c; write os path data) w.
Proof.
  unfold save, prepare, mbind, eff_bind. rewrite active_config_path_run. unfold lift, mret, eff_ret, throw.
  destruct (validate c) as [[]|]; [|done]. destruct (toml_to_string c) as [data|]; [|done].
  by destruct (create_parent os (active_path w) w) as [[[]|] w'].
Qed.

(** Emptying the file first makes no difference to a write that completes. *)
Lemma truncate_write path data w : write os path data (truncate path w).2 = write os path data w.
Proof.
  unfold truncate, write. cbn [snd]. destruct (refused os (ops w)) as [[e l]|] eqn:Hr; [by rewrite Hr|].
  cbn [ops set_file]. rewrite Hr. unfold set_file. cbn. by rewrite insert_insert_eq.
Qed.
End Files.

(** ** Handlers as steps *)

(** The state the handlers share, and whether one of them holds the vault. *)
Record Shared := mkShared { core : Server; vault_held : bool }.

Section Threads.
Context {Url : Type} {url_ops : UrlOps Url} {api_json : ApiJson}.
Context {b64 : Base64} {dp : DataProtection} {vj : VaultJson} {toml : TomlCodec}.
Context (os : Host) (o : Outside Url) (k : ServerConsts).
Implicit Types s : Server.

Abbreviation ST := (steps Shared Response).

Definition act {A} (m : eff Server Response A) : ST A :=
  Act (fun _ => true) (fun x => let (r, s) := m (core x) in (r, mkShared s (vault_held x))) Done.

(** [state.vault.lock().unwrap()], and the end of the guard's scope. *)
Definition lock : ST unit := Act (fun x => negb (vault_held x)) (fun x => (Ok tt, mkShared (core x) true)) Done.
Definition unlock : ST unit := Act (fun _ => true) (fun x => (Ok tt, mkShared (core x) false)) Done.

(** [Vault::store] before it writes: the entry is inserted, the text is made. *)
Definition seal (key value : string) : eff (Vault * World) string (string * string) :=
  encrypted ← (fun v => (protect (Str.chars value), v));
  let encoded := encode encrypted in
  modify (insert_entry key encoded) ;;
  data ← (fun v => (vault_to_string (entries v.1), v));
  path ← gets (fun v => Security.path v.1);
  mret (path, data).

Definition store_failed (what e : string) : ST unit :=
  Done (Err (mkResponse INTERNAL_SERVER_ERROR (Text ("Failed to store " +:+ what +:+ ": " +:+ e)))).

Definition store_steps (key value what : string) : ST unit :=
  lock ;;
  sealed ← act (on_vault (seal key value));
  match sealed with
  | Err e => unlock ;; store_failed what e
  | Ok (path, data) =>
      act (on_files (truncate os path)) ;;
      written ← act (on_files (write os path data));
      unlock ;;
      match written with Ok _ => mret tt | Err e => store_failed what e end
  end.

Definition submit_password_steps (form : SettingsForm) (config : Config) : ST Config :=
  match form_obs_password form with
  | Some pw =>
      if negb (Str.is_empty pw) then
        store_steps "obs_password" pw "OBS password" ;; mret (set_password_key "obs_password" config)
      else mret config
  | None => mret config
  end.

(** [submit_grafana]: the flag is behind a lock of its own. *)
Definition submit_grafana_steps (form : SettingsForm) (config : Config) : ST Config :=
  let endpoint := Str.trim (text (grafana_endpoint form)) in
  let instance_id := Str.trim (text (grafana_instance_id form)) in
  let api_token := Str.trim (text (grafana_api_token form)) in
  if negb (Str.is_empty endpoint) && negb (Str.is_empty instance_id) && negb (Str.is_empty api_token) then
    let credentials := instance_id +:+ ":" +:+ api_token in
    let encoded := encode (Str.chars credentials) in
    store_steps "grafana_auth" ("Basic " +:+ encoded) "Grafana credentials" ;;
    act (modify (set_grafana_configured true)) ;;
    mret (set_grafana (set_grafana_credentials endpoint "grafana_auth" (grafana config)) config)
  else if negb (Str.is_empty endpoint) then mret (set_grafana (set_endpoint endpoint (grafana config)) config)
  else mret config.

Definition save_config_steps (config : Config) (done_ : string) : ST Response :=
  prepared ← act (on_files (prepare os config));
  match prepared with
  | Err e => mret (save_failed e)
  | Ok (path, data) =>
      act (on_files (truncate os path)) ;;
      written ← act (on_files (write os path data));
      match written with
      | Ok _ => mret (mkResponse OK (Text done_))
      | Err e => mret (save_failed e)
      end
  end.

Definition settings_submit_steps (headers : HeaderMap) (query : Query) (form : SettingsForm) : ST Response :=
  act (guard_token k headers query Deny unauthorized) ;;
  config ← act (load_config os load_failed);
  let config := set_obs_host_port (form_obs_host form) (form_obs_port form) config in
  config ← submit_password_steps form config;
  let config := set_grafana (set_push_interval (grafana_interval form) (grafana config)) config in
  config ← submit_grafana_steps form config;
  save_config_steps config "Settings saved. Restart required for connection changes to take effect.".

Definition save_output_names_steps (headers : HeaderMap) (query : Query) (payload : gmap string string) : ST Response :=
  act (guard_token k headers query Deny unauthorized) ;;
  config ← act (load_config os load_failed);
  let config := set_output_names (merge_names (map_to_list payload) (output_names config)) config in
  save_config_steps config "Output names saved".

Definition thread (e : Endpoint) (headers : HeaderMap) (query : Query) : ST Response :=
  match e with
  | PostSettings form => settings_submit_steps headers query form
  | PostOutputNames payload => save_output_names_steps headers query payload
  | _ => act (route os o k e headers query)
  end.

Definition reply (r : result Response Response) : Response := match r with Ok r | Err r => r end.

(** *** Run alone *)

(** Alone, with the vault free, a program does what a computation does. *)
Definition does {A} (p : ST A) (m : eff Server Response A) : Prop := forall s,
  run p (mkShared s false) = let (r, s') := m s in Some (r, mkShared s' false).

Lemma does_act {A} (m : eff Server Response A) : does (act m) m.
Proof. intros s. cbn. by destruct (m s). Qed.

Lemma does_ret {A} (a : A) : does (mret a) (mret a).
Proof. done. Qed.

Lemma does_bind {A B} (p : ST A) m (f : A -> ST B) g :
  does p m -> (forall a, does (f a) (g a)) -> does (p ≫= f) (m ≫= g).
Proof.
  intros Hp Hf s. rewrite run_bind, Hp, bind_run. destruct (m s) as [[a|x] s']; [apply Hf | done].
Qed.

Lemma does_ext {A} (p : ST A) m m' : (forall s, m s = m' s) -> does p m' -> does p m.
Proof. intros Hm Hp s. by rewrite Hp, Hm. Qed.

(** The end of both writes. *)
Lemma write_run {A} path data (f : result string unit -> ST A) s :
  run (act (on_files (truncate os path)) ;; written ← act (on_files (write os path data)); f written) (mkShared s true) =
  let (r, w) := write os path data (world s) in run (f r) (mkShared (set_world w s) true).
Proof.
  rewrite run_bind. cbn [act run]. unfold on_files at 1. cbn [core vault_held].
  pose proof (truncate_write os path data (world s)) as Ht.
  assert ((truncate os path (world s)).1 = Ok tt) as Hok by done.
  destruct (truncate os path (world s)) as [r w]. cbn [fst snd] in Ht, Hok. subst r.
  rewrite run_bind. cbn [act run]. unfold on_files. cbn [core vault_held world set_world]. rewrite Ht.
  by destruct (write os path data (world s)) as [r' w'].
Qed.

Lemma store_seal key value v : store os key value v = ('(path, data) ← seal key value; on_world (write os path data)) v.
Proof.
  unfold store, persist, seal, mbind, eff_bind, modify, gets. destruct (protect (Str.chars value)); [|done]. cbn.
  by destruct (vault_to_string _).
Qed.

Lemma does_store key value what : does (store_steps key value what) (store_or_fail os key value what).
Proof.
  intros s. unfold store_steps, store_or_fail. rewrite run_bind. cbn [run lock vault_held negb core].
  rewrite run_bind. cbn [act run]. unfold on_vault at 1. cbn [core vault_held].
  rewrite bind_run. unfold on_vault. rewrite store_seal, bind_run.
  destruct (seal key value (vault s, world s)) as [[[path data]|e] [v w]]; [|done].
  rewrite write_run. unfold on_world. change (world (set_vault_world (v, w) s)) with w.
  by destruct (write os path data w) as [[[]|e] w'].
Qed.

Lemma does_save_config config done_ : does (save_config_steps config done_) (save_config os config done_).
Proof.
  apply does_ext with (m' := prepared ← on_files (prepare os config);
    match prepared with
    | Err e => mret (save_failed e)
    | Ok (path, data) =>
        on_files (truncate os path) ;;
        written ← on_files (write os path data);
        match written with Ok _ => mret (mkResponse OK (Text done_)) | Err e => mret (save_failed e) end
    end).
  - intros s. unfold save_config. rewrite !bind_run. unfold on_files at 1 2. rewrite save_prepare, bind_run.
    destruct (prepare os config (world s)) as [[[path data]|e] w]; [|done]. rewrite bind_run. unfold on_files at 1.
    pose proof (truncate_write os path data w) as Ht. cbn [world set_world].
    destruct (truncate os path w) as [r w1] eqn:H1. unfold truncate in H1. cbn [snd] in Ht. simplify_eq.
    rewrite bind_run. unfold on_files. cbn [world set_world]. rewrite Ht. by destruct (write os path data w) as [[[]|e] w2].
  - apply does_bind; [apply does_act|]. intros [[path data]|e]; [|apply does_ret].
    apply does_bind; [apply does_act|]. intros _. apply does_bind; [apply does_act|]. by intros [[]|e].
Qed.

Lemma does_thread e headers query : does (thread e headers query) (route os o k e headers query).
Proof.
  destruct e as [| | | | |form| |payload| |form| | | | |body]; try apply does_act; cbn [thread route].
  - apply does_bind; [apply does_act|]. intros _. apply does_bind; [apply does_act|]. intros c. cbv zeta.
    apply does_bind.
    { unfold submit_password_steps, submit_password. destruct (form_obs_password form) as [pw|]; [|apply does_ret].
      destruct (negb _); [|apply does_ret]. apply does_bind; [apply does_store | intros _; apply does_ret]. }
    intros c'. cbv zeta. apply does_bind; [|intros c2; apply does_save_config].
    unfold submit_grafana_steps, submit_grafana. cbv zeta. destruct (negb _ && _ && _).
    + apply does_bind; [apply does_store|]. intros _. apply does_bind; [apply does_act | intros _; apply does_ret].
    + destruct (negb _); apply does_ret.
  - apply does_bind; [apply does_act|]. intros _. apply does_bind; [apply does_act|]. intros c. apply does_save_config.
Qed.

(** The steps of a handler are the handler.  Run without interruption, the
    thread of a request answers what the handler answers and leaves the state it
    leaves, for every request and every state, refused file operations included. *)
Theorem thread_alone e headers query s :
  exists r s', run (thread e headers query) (mkShared s false) = Some (r, mkShared s' false) /\
    (reply r, s') = serve os o k e headers query s.
Proof.
  rewrite does_thread. unfold serve. destruct (route os o k e headers query s) as [[r|r] s']; eexists _, _; by split.
Qed.
End Threads.
