(* ===== verification/InterleavingSpec.v ===== *)
(** * InterleavingSpec: what requests at the same time do to the files

    Over every schedule of the threads of [Interleaving]: the mutex protects the
    vault, so no stored secret is lost; nothing protects the configuration file,
    so saves are lost; and neither file survives a stop in the middle of its
    writing. *)

From S2P Require Import Prelude RustStd Effects Float Model Host Config ConfigSpec Security Aegis Ipc Server ServerSpec.
From S2P Require Import Interleaving.
From S2P Require App.

#[local] Open Scope Z_scope.

(** ** Secrets *)

Section Secrets.
Context {Url : Type} {url_ops : UrlOps Url} {api_json : ApiJson}.
Context {b64 : Base64} {dp : DataProtection} {vj : VaultJson} {vj_laws : VaultJsonLaws} {toml : TomlCodec}.
Context (os : Host) (o : Outside Url) (k : ServerConsts) (p : string).
Context (json_total : forall store, exists data, vault_to_string store = Ok data).
Implicit Types (s : Server) (x : Shared).
Abbreviation ST := (steps Shared Response).

(** What the mutex protects: the vault, its file at [p]; and the environment. *)
Record Guarded := mkGuarded { in_memory : Vault; on_disk : option string; environment : gmap string string }.
Definition guarded s : Guarded := mkGuarded (vault s) (files (world s) !! p) (vars (world s)).
Implicit Types q : Guarded.

(** The vault file is not a configuration file. *)
Definition apart q : Prop :=
  Security.path (in_memory q) = p /\ p <> CONFIG_FILE /\ p <> managed_path (mkWorld 0 ∅ (environment q)).

(** The file holds what the vault in memory holds; there is none as long as
    nothing was stored. *)
Definition in_sync q : Prop :=
  match on_disk q with
  | Some data => vault_from_str data = Ok (entries (in_memory q)) /\ Utf8.valid (Str.chars data) = true
  | None => entries (in_memory q) = ∅
  end.

(** As long as no file operation is refused. *)
Definition synced q : Prop := (forall n, refused os n = None) -> in_sync q.

(** Secrets are kept; only the two of the settings form can be replaced. *)
Definition secrets_kept q q' : Prop :=
  (forall key, is_Some (entries (in_memory q) !! key) -> is_Some (entries (in_memory q') !! key)) /\
  (forall key, key <> "obs_password" -> key <> "grafana_auth" ->
     entries (in_memory q') !! key = entries (in_memory q) !! key).

#[local] Instance secrets_kept_preorder : PreOrder secrets_kept.
Proof.
  split; [by intros q | intros q1 q2 q3 [H1 H2] [H3 H4]].
  split; [auto | intros key Ha Hb; rewrite H4 by done; auto].
Qed.

(** *** The discipline of the mutex

    A thread that holds it knows what it protects, [Some q]; one that does not
    knows nothing, and leaves it alone. *)

Definition admissible (mine : option Guarded) x : Prop :=
  match mine with
  | None => vault_held x = false -> synced (guarded (core x))
  | Some q => vault_held x = true /\ guarded (core x) = q
  end.

Definition transition (mine mine' : option Guarded) x x' : Prop :=
  let q := guarded (core x) in let q' := guarded (core x') in
  match mine, mine' with
  | None, None => vault_held x' = vault_held x /\ q' = q
  | None, Some q0 => vault_held x = false /\ vault_held x' = true /\ q' = q /\ q0 = q
  | Some _, Some q0 => vault_held x' = true /\ q' = q0 /\ apart q0 /\ secrets_kept q q0
  | Some _, None => vault_held x' = false /\ q' = q /\ synced q
  end.

(** Every step keeps to it, and only taking the mutex waits, and only while it is
    held by another. *)
Fixpoint obeys {A} (mine : option Guarded) (t : prog Shared A) : Prop :=
  match t with
  | Done _ => mine = None
  | Act ready m f =>
      (forall x, vault_held x = (if mine then true else false) -> ready x = true) /\
      forall x, apart (guarded (core x)) -> admissible mine x -> ready x = true ->
        exists mine', transition mine mine' x (m x).2 /\ obeys mine' (f (m x).1)
  end.

(** At most one thread holds the mutex. *)
Definition mine_of (holder : option nat) (i : nat) x : option Guarded :=
  if decide (holder = Some i) then Some (guarded (core x)) else None.
Definition orderly {A} (threads : list (prog Shared A)) x : Prop :=
  apart (guarded (core x)) /\ exists holder,
    match holder with
    | None => vault_held x = false /\ synced (guarded (core x))
    | Some h => vault_held x = true /\ is_Some (threads !! h)
    end /\
    forall i t, threads !! i = Some t -> obeys (mine_of holder i x) t.

Lemma mine_of_other holder i j x : holder = Some i -> i <> j -> mine_of holder j x = None.
Proof. intros -> Hij. unfold mine_of. by rewrite decide_False by congruence. Qed.

Lemma mine_of_none i x : mine_of None i x = None.
Proof. done. Qed.

Lemma mine_of_holder i x : mine_of (Some i) i x = Some (guarded (core x)).
Proof. unfold mine_of. by rewrite decide_True. Qed.

Lemma orderly_step {A} (threads : list (prog Shared A)) i t x :
  orderly threads x -> threads !! i = Some t ->
  orderly (<[i := (resume t x).1]> threads) (resume t x).2 /\
  secrets_kept (guarded (core x)) (guarded (core (resume t x).2)).
Proof.
  intros (Hap & holder & Hh & Hall) Ht.
  assert (<[i := t]> threads = threads) as Hsame by (by apply list_insert_id).
  destruct t as [a|B ready m f]; cbn [resume fst snd]; [by rewrite Hsame; split; [split; [done | by exists holder] | done]|].
  destruct (ready x) eqn:Hready; [|by cbn [fst snd]; rewrite Hsame; split; [split; [done | by exists holder] | done]].
  pose proof (Hall i _ Ht) as [_ Hstep].
  assert (i < length threads)%nat as Hlen by (by eapply lookup_lt_Some).
  destruct (Hstep x Hap) as (mine' & Htr & Hob); [| done |].
  { unfold mine_of. case_decide as Hd; [subst holder; by destruct Hh|].
    destruct holder as [h|]; cbn; [destruct Hh; congruence | by intros _; apply Hh]. }
  destruct (m x) as [b x']. cbn [fst snd] in *.
  (** The threads after the step, once the new holder is known. *)
  assert (forall holder', mine_of holder' i x' = mine' ->
    (forall j u, j <> i -> threads !! j = Some u -> obeys (mine_of holder' j x') u) ->
    forall j u, <[i := f b]> threads !! j = Some u -> obeys (mine_of holder' j x') u) as Hnext.
  { intros holder' Hm Ho j u Hu. destruct (decide (j = i)) as [->|Hne].
    - rewrite list_lookup_insert_eq in Hu by done. injection Hu as <-. by rewrite Hm.
    - rewrite list_lookup_insert_ne in Hu by done. by apply Ho. }
  unfold mine_of in Htr. case_decide as Hd.
  - subst holder. destruct Hh as [Hheld _].
    assert (forall j u, j <> i -> threads !! j = Some u -> obeys None u) as Hothers.
    { intros j u Hj Hu. specialize (Hall j u Hu). by rewrite (mine_of_other _ i) in Hall. }
    destruct mine' as [q0|]; cbn in Htr.
    + destruct Htr as (Hv & Hq & Hap' & Hk). rewrite Hq. split; [|done]. split; [by rewrite Hq|]. exists (Some i). split.
      { split; [done|]. rewrite list_lookup_insert_eq by done. by eexists. }
      apply Hnext; [by rewrite mine_of_holder, Hq|]. intros j u Hj Hu. rewrite (mine_of_other _ i) by done. by apply (Hothers j).
    + destruct Htr as (Hv & Hq & Hs). rewrite Hq. split; [|done]. split; [by rewrite Hq|]. exists None. rewrite Hq.
      split; [done|]. apply Hnext; [done|]. intros j u Hj Hu. by apply (Hothers j).
  - assert (guarded (core x') = guarded (core x)) as Hq by (destruct mine'; cbn in Htr; by destruct_and?).
    rewrite Hq. split; [|done]. split; [by rewrite Hq|]. destruct mine' as [q0|]; cbn in Htr.
    + destruct Htr as (Hfree & Hv & _ & ->). exists (Some i). split.
      { split; [done|]. rewrite list_lookup_insert_eq by done. by eexists. }
      destruct holder as [h|]; [destruct Hh; congruence|].
      apply Hnext; [by rewrite mine_of_holder, Hq|]. intros j u Hj Hu. rewrite (mine_of_other _ i) by done. exact (Hall j u Hu).
    + destruct Htr as (Hv & _). exists holder. split.
      { rewrite Hv, Hq. destruct holder as [h|]; [|done]. destruct Hh as [Hheld Hsome]. split; [done|].
        by rewrite list_lookup_insert_ne by congruence. }
      apply Hnext; [unfold mine_of; by rewrite decide_False|]. intros j u Hj Hu. specialize (Hall j u Hu).
      unfold mine_of in *. by rewrite Hq.
Qed.

(** Someone can always move, unless all are done. *)
Lemma orderly_moves {A} (threads : list (prog Shared A)) x :
  orderly threads x ->
  (Forall (fun t => finished t = true) threads /\ vault_held x = false) \/
  exists i t, threads !! i = Some t /\ can_move t x = true.
Proof.
  intros (_ & [h|] & Hh & Hall).
  - destruct Hh as [Hheld [t Ht]]. right. exists h, t. split; [done|]. specialize (Hall h t Ht).
    rewrite mine_of_holder in Hall. destruct t as [a|B ready m f]; [by cbn in Hall|]. by apply Hall.
  - destruct Hh as [Hfree _]. destruct (decide (Forall (fun t => finished t = true) threads)) as [Hf|Hf]; [by left|right].
    apply not_Forall_Exists, Exists_exists in Hf as (t & Hin & Ht); [|intros t; apply _].
    apply list_elem_of_lookup in Hin as [i Hi]. exists i, t. split; [done|]. specialize (Hall i t Hi).
    destruct t as [a|B ready m f]; [by destruct Ht|]. by apply Hall.
Qed.

(** *** Programs that keep to it *)

Lemma obeys_bind {A B} mine (t : ST A) (f : A -> ST B) :
  obeys mine t -> (forall a, obeys None (f a)) -> obeys mine (t ≫= f).
Proof.
  intros Ht Hf. revert mine Ht. induction t as [[a|e]|C ready m g IH]; intros mine; cbn; [by intros -> | done |].
  intros [Hr Hs]. split; [exact Hr|]. intros x Hap Hadm Hx.
  destruct (Hs x Hap Hadm Hx) as (mine' & Htr & Ho). exists mine'. split; [exact Htr | by apply IH].
Qed.

(** A step outside the mutex. *)
Lemma obeys_free {A B} (m : eff Server Response A) (f : A -> ST B) :
  (forall s, apart (guarded s) -> guarded (final m s) = guarded s /\
     match outcome m s with Ok a => obeys None (f a) | Err _ => True end) ->
  obeys None (act m ≫= f).
Proof.
  intros H. split; [done|]. intros x Hap _ _. destruct (H (core x) Hap) as [Hq Ho]. exists None.
  unfold final, outcome in *. destruct (m (core x)) as [[a|e] s]; cbn in *; by split_and!.
Qed.

Lemma obeys_last {A} (m : eff Server Response A) :
  (forall s, guarded (final m s) = guarded s) -> obeys None (act m).
Proof.
  intros H. split; [done|]. intros x _ _ _. exists None. specialize (H (core x)).
  unfold final in H. by destruct (m (core x)) as [r s].
Qed.

(** A step inside it. *)
Lemma obeys_held {A B} q (m : eff Server Response A) (f : A -> ST B) :
  (forall s, guarded s = q -> apart q -> exists a, outcome m s = Ok a /\ apart (guarded (final m s)) /\
     secrets_kept q (guarded (final m s)) /\ obeys (Some (guarded (final m s))) (f a)) ->
  obeys (Some q) (act m ≫= f).
Proof.
  intros H. split; [done|]. intros x Hap [Hheld Hq] _. rewrite Hq in Hap.
  destruct (H (core x) Hq Hap) as (a & Ha & Hap' & Hk & Ho). exists (Some (guarded (final m (core x)))).
  unfold final, outcome in *. destruct (m (core x)) as [r s]; cbn in *. subst r. by rewrite Hq.
Qed.

Lemma obeys_lock {B} (f : unit -> ST B) :
  (forall q, apart q -> synced q -> obeys (Some q) (f tt)) -> obeys None (lock ≫= f).
Proof.
  intros H. split; [intros x Hx; cbn; by rewrite Hx|]. intros x Hap Hs Hx%negb_true_iff.
  exists (Some (guarded (core x))). split; [done|]. exact (H _ Hap (Hs Hx)).
Qed.

Lemma obeys_unlock {B} q (f : unit -> ST B) : synced q -> obeys None (f tt) -> obeys (Some q) (unlock ≫= f).
Proof.
  intros Hs Hf. split; [done|]. intros x _ [_ Hq] _. exists None. cbn. by rewrite Hq.
Qed.

(** The file operations of a store, and the end of the critical section. *)
Lemma rewrite_obeys {B} q data (f : result string unit -> ST B) :
  vault_to_string (entries (in_memory q)) = Ok data -> (forall r, obeys None (f r)) ->
  obeys (Some q) (act (on_files (truncate os p)) ;; written ← act (on_files (write os p data)); unlock ;; f written).
Proof.
  intros Hd Hf. apply obeys_held. intros s Hq Hap. eexists. split; [done|].
  assert (exists disk, guarded (final (on_files (truncate os p) : eff Server Response _) s) =
    mkGuarded (in_memory q) disk (environment q)) as [disk ->].
  { subst q. unfold final, on_files, truncate. cbn. destruct (refused os _); by eexists. }
  do 2 (split; [done|]). apply obeys_held. intros s1 Hq1 Hap1. unfold outcome, final, on_files.
  unfold write.
  destruct (refused os (ops (world s1))) as [[e left_]|] eqn:Hr; cbn [fst snd]; eexists; (split; [done|]).
  - assert (exists disk, guarded (set_world (next_op (match left_ with Some d => set_file p d (world s1) | None => world s1 end)) s1)
      = mkGuarded (in_memory q) disk (environment q)) as [disk2 ->].
    { unfold guarded in *. destruct left_; cbn; injection Hq1 as -> _ Hv; rewrite Hv; by eexists. }
    do 2 (split; [done|]). apply obeys_unlock; [|apply Hf]. intros Hacc. by rewrite Hacc in Hr.
  - assert (guarded (set_world (next_op (set_file p data (world s1))) s1) = mkGuarded (in_memory q) (Some data) (environment q)) as ->.
    { unfold guarded in *. cbn. injection Hq1 as -> _ ->. by rewrite lookup_insert_eq. }
    do 2 (split; [done|]). apply obeys_unlock; [|apply Hf]. intros _. by apply vj_laws.
Qed.

Lemma seal_cases key value s :
  (exists e, (on_vault (seal key value) : eff Server Response _) s = (Ok (Err e), s)) \/
  exists sealed data, protect (Str.chars value) = Ok sealed /\
    let v := mkVault (Security.path (vault s)) (<[key := encode sealed]> (entries (vault s))) in
    vault_to_string (entries v) = Ok data /\
    (on_vault (seal key value) : eff Server Response _) s = (Ok (Ok (Security.path v, data)), set_vault_world (v, world s) s).
Proof.
  unfold on_vault, seal, mbind, eff_bind, modify, gets. cbn.
  destruct (protect (Str.chars value)) as [sealed|e]; cbn; [right | left; exists e; by destruct s].
  destruct (json_total (<[key := encode sealed]> (entries (vault s)))) as [data Hd]. exists sealed, data. by rewrite Hd.
Qed.

Lemma store_obeys key value what :
  key = "obs_password" \/ key = "grafana_auth" -> obeys None (store_steps os key value what).
Proof.
  intros Hkey. unfold store_steps. apply obeys_lock. intros q Hap Hs. apply obeys_held. intros s Hq _.
  unfold outcome, final. destruct (seal_cases key value s) as [[e ->]|(sealed & data & _ & Hd & ->)]; cbn [fst snd].
  - exists (Err e). rewrite Hq. split; [reflexivity|]. split; [exact Hap|]. split; [reflexivity|]. by apply obeys_unlock.
  - eexists. split; [done|]. subst q. split; [exact Hap|]. split.
    + unfold secrets_kept. cbn. split; intros i.
      * intros Hi. destruct (decide (i = key)) as [->|Hne]; [by rewrite lookup_insert_eq | by rewrite lookup_insert_ne].
      * intros Ha Hb. rewrite lookup_insert_ne; [done|]. by destruct Hkey as [->| ->].
    + assert (Security.path (vault s) = p) as Hp by apply Hap. cbn [Security.path]. rewrite Hp.
      apply rewrite_obeys; [by rewrite <- Hp | by intros [[]|]].
Qed.

(** A file operation elsewhere. *)
Lemma guarded_elsewhere {A} (m : eff World string A) s :
  vars (final m (world s)) = vars (world s) -> files (final m (world s)) !! p = files (world s) !! p ->
  guarded (final (on_files m : eff Server Response _) s) = guarded s.
Proof. unfold final, on_files, guarded. destruct (m (world s)) as [r w]. cbn. by intros -> ->. Qed.

Lemma outcome_on_files {A} (m : eff World string A) s :
  outcome (on_files m : eff Server Response _) s = Ok (outcome m (world s)).
Proof. unfold outcome, on_files. by destruct (m (world s)). Qed.

Lemma guarded_assets s s' : assets_of s' = assets_of s -> guarded s' = guarded s.
Proof. unfold guarded. by intros [= -> -> ->]. Qed.

Lemma save_obeys c done_ : obeys None (save_config_steps os c done_).
Proof.
  apply obeys_free. intros s Hap.
  assert (wp (prepare os c) (fun r w' => same_content (world s) w' /\
    forall y, r = Ok y -> y.1 = active_path (world s)) (world s)) as [[Hf Hv] Hpath].
  { unfold prepare. apply wp_bind, (wp_run _ _ _ _ _ (active_config_path_run (world s))), wp_bind.
    destruct (validate c); [apply wp_ret | by apply wp_throw].
    apply wp_bind. destruct (toml_to_string c); [apply wp_ret | by apply wp_throw].
    apply wp_bind, wp_create_parent; [done | intros n; apply wp_ret]. split; [done|]. by intros y [= <-]. }
  split; [apply guarded_elsewhere; [exact Hv | by rewrite Hf]|].
  rewrite outcome_on_files. destruct (outcome (prepare os c) (world s)) as [[path data]|e]; [|done]. assert (path <> p) as Hne.
  { specialize (Hpath _ eq_refl). cbn in Hpath. subst path. destruct Hap as (_ & H1 & H2). unfold active_path.
    case_bool_decide; [by apply not_eq_sym | exact (not_eq_sym H2)]. }
  clear - Hne. apply obeys_free. intros s _. split.
  { apply guarded_elsewhere; unfold final, truncate; cbn; destruct (refused os _); try done. by apply lookup_insert_ne. }
  rewrite outcome_on_files. apply obeys_free. intros s1 _. split.
  { apply guarded_elsewhere; unfold final, write; destruct (refused os _) as [[e [d|]]|]; try done; by apply lookup_insert_ne. }
  rewrite outcome_on_files. by destruct (outcome _ _) as [[]|].
Qed.

Lemma guard_obeys {B} headers query (f : unit -> ST B) :
  obeys None (f tt) -> obeys None (act (guard_token k headers query Deny unauthorized) ≫= f).
Proof. intros Hf. apply obeys_free. intros s _. unfold guard_token. by destruct (is_token_valid _ _ _ _). Qed.

Lemma load_obeys {B} (f : Config -> ST B) :
  (forall c, obeys None (f c)) -> obeys None (act (load_config os load_failed) ≫= f).
Proof.
  intros Hf. apply obeys_free. intros s _. split; [|by destruct (outcome _ _)]. apply guarded_assets.
  assert (preserves (fun s' => assets_of s' = assets_of s) (load_config os load_failed)) as H; [|by apply H].
  unfold load_config, load_failed. walk_code ltac:(idtac; match goal with
    | |- preserves _ (on_files (load _)) => apply load_keeps end).
Qed.

Lemma thread_obeys e headers query : obeys None (thread os o k e headers query).
Proof.
  assert ((exists form, e = PostSettings form) \/ (exists payload, e = PostOutputNames payload) \/
    (forall form, e <> PostSettings form) /\ (forall payload, e <> PostOutputNames payload)) as [[form ->]|[[payload ->]|[H1 H2]]]
    by (destruct e; eauto; right; right; split; congruence).
  - apply guard_obeys, load_obeys. intros c. cbv zeta. apply obeys_bind.
    { unfold submit_password_steps. destruct (form_obs_password form) as [pw|]; [|done]. destruct (negb _); [|done].
      apply obeys_bind; [by apply store_obeys; left | done]. }
    intros c'. cbv zeta. apply obeys_bind; [|intros c2; apply save_obeys]. unfold submit_grafana_steps. cbv zeta.
    destruct (negb _ && _ && _); [|by destruct (negb _)].
    apply obeys_bind; [by apply store_obeys; right|]. intros _. by apply obeys_free.
  - apply guard_obeys, load_obeys. intros c. apply save_obeys.
  - assert (thread os o k e headers query = act (route os o k e headers query)) as -> by
      (destruct e; try reflexivity; by destruct (H1 form) || by destruct (H2 payload)).
    apply obeys_last. intros s. apply guarded_assets. by apply (route_untouched os o k e headers query (assets_of s)).
Qed.

(** What a restart opens. *)
Lemma reopened w :
  (forall n, refused os n = None) ->
  outcome (Security.new os (Some p)) w =
    match files w !! p with
    | Some data =>
        if Utf8.valid (Str.chars data) then
          Ok (mkVault p (match vault_from_str data with Ok store => store | Err _ => ∅ end))
        else Err "stream did not contain valid UTF-8"
    | None => Ok (mkVault p ∅)
    end.
Proof.
  intros Hacc.
  assert (exists w1, make_parent os p w = (Ok tt, w1) /\ files w1 = files w) as (w1 & H1 & Hf1).
  { unfold make_parent. destruct (Path.parent p) as [d|]; [|by eexists]. unfold create_dir_all.
    destruct (Str.is_empty d); [by eexists|]. rewrite Hacc. by eexists. }
  unfold outcome, Security.new, mbind, eff_bind, mret, eff_ret. rewrite H1. unfold path_exists, gets, read_to_string.
  rewrite Hf1. destruct (files w !! p) as [data|] eqn:Hd; [|done].
  rewrite bool_decide_eq_true_2 by eauto. rewrite Hacc, Hf1, Hd. by destruct (Utf8.valid _).
Qed.

(** C19: secrets survive requests that run at the same time.  However many requests
    are being handled and however their steps alternate: no secret ever
    disappears from the vault in memory, and only the two of the settings form
    can change, even if file operations are refused; as long as none is refused,
    whenever no request is inside the vault's mutex, a restart would open the
    very vault that is in memory, so it finds every secret that was stored
    (provided the file was in step with the vault before the first request, and
    is not a configuration file); and
    the requests never block each other for ever: if none of them can take a
    step, all are finished and the mutex is free.  (Inside the mutex the file is
    being rewritten, and for a moment it is empty.) *)
Theorem secrets_survive_interleaving requests schedule s :
  apart (guarded s) -> synced (guarded s) ->
  let (threads, x) := scheduled schedule (map (fun '(e, headers, query) => thread os o k e headers query) requests)
                        (mkShared s false) in
  secrets_kept (guarded s) (guarded (core x)) /\
  ((forall n, refused os n = None) -> vault_held x = false ->
     outcome (Security.new os (Some p)) (world (core x)) = Ok (vault (core x))) /\
  (Forall (fun t => finished t = true) threads /\ vault_held x = false \/
   exists i t, threads !! i = Some t /\ can_move t x = true).
Proof.
  intros Hap Hs.
  assert (PreOrder (fun x x' => secrets_kept (guarded (core x)) (guarded (core x')))) as Hpre.
  { split; [by intros x | intros x1 x2 x3 H1 H2; by transitivity (guarded (core x2))]. }
  pose proof (scheduled_invariant (A:=result Response Response) orderly (fun x x' => secrets_kept (guarded (core x)) (guarded (core x'))) schedule) as H.
  specialize (H (fun threads i t x => orderly_step threads i t x)
    (map (fun '(e, headers, query) => thread os o k e headers query) requests) (mkShared s false)).
  destruct (scheduled schedule _ _) as [threads x]. destruct H as [Ho Hk].
  { split; [exact Hap|]. exists None. split; [done|]. intros i t Ht. rewrite mine_of_none.
    apply list_elem_of_lookup_2, list_elem_of_In, in_map_iff in Ht as ([[e h] q] & <- & _). apply thread_obeys. }
  split_and!; [exact Hk | | by apply orderly_moves].
  intros Hacc Hfree. destruct Ho as (Hap' & holder & Hh & _).
  destruct holder as [h|]; [destruct Hh; congruence|]. destruct Hh as [_ Hsync]. specialize (Hsync Hacc).
  rewrite reopened by done. unfold in_sync in Hsync. cbn in Hsync. destruct Hap' as (Hp & _). cbn in Hp.
  destruct (files (world (core x)) !! p) as [data|].
  - destruct Hsync as [-> ->]. rewrite <- Hp. by destruct (vault (core x)).
  - rewrite <- Hp, <- Hsync. by destruct (vault (core x)).
Qed.
End Secrets.

(** ** The configuration file *)

Section Races.
Context {Url : Type} {url_ops : UrlOps Url} {api_json : ApiJson}.
Context {b64 : Base64} {dp : DataProtection} {vj : VaultJson} {toml : TomlCodec}.
Context (os : Host) (o : Outside Url) (k : ServerConsts).
Context (accepted : forall n, refused os n = None).
Implicit Types (s : Server) (w : World).
Abbreviation ST := (steps Shared Response).
(** Nobody holds the vault. *)
Abbreviation free s := (mkShared s false).

(** One step of either of two threads. *)
Lemma first_moves {A} (p p' q : prog Shared A) (s s' : Shared) schedule :
  resume p s = (p', s') -> scheduled (0%nat :: schedule) [p; q] s = scheduled schedule [p'; q] s'.
Proof. intros H. cbn. by rewrite H. Qed.

Lemma second_moves {A} (p q q' : prog Shared A) (s s' : Shared) schedule :
  resume q s = (q', s') -> scheduled (1%nat :: schedule) [p; q] s = scheduled schedule [p; q'] s'.
Proof. intros H. cbn. by rewrite H. Qed.

Lemma act_moves {A B} (m : eff Server Response A) (f : A -> ST B) s a s' b :
  m s = (Ok a, s') -> resume (act m ≫= f) (mkShared s b) = (f a, mkShared s' b).
Proof. intros H. cbn. by rewrite H. Qed.

(** The world when the active file holds [raw]. *)
Definition holds (path raw : string) (w0 w : World) : Prop :=
  vars w = vars w0 /\ active_path w = path /\ files w !! path = Some raw.

Lemma holds_content path raw w0 w w' : same_content w w' -> holds path raw w0 w -> holds path raw w0 w'.
Proof.
  intros Hw (Hv & Hp & Hf). destruct Hw as [Hf' Hv']. unfold holds, active_path, managed_path in *.
  by rewrite Hf', Hv'.
Qed.

Lemma holds_written path raw data w0 w w' :
  vars w' = vars w -> files w' = <[path := data]> (files w) -> holds path raw w0 w -> holds path data w0 w'.
Proof.
  intros Hv Hf (Hv0 & <- & _). split_and!; [congruence | by apply (active_path_insert w w' data) | by rewrite Hf, lookup_insert_eq].
Qed.

(** What a file of these contents stands for. *)
Definition stands_for (w0 : World) (raw : string) (c : Config) : Prop :=
  c = overridden w0 (file_config (Some raw)) /\ acceptable c /\ Utf8.valid (Str.chars raw) = true.

Section Steps.
Context (path : string) (w0 : World) (s0 : Server).

Lemma load_step raw c w :
  stands_for w0 raw c -> holds path raw w0 w ->
  exists w', load_config os load_failed (set_world w s0) = (Ok c, set_world w' s0) /\ holds path raw w0 w'.
Proof.
  intros (-> & Ha & Hu) Hw. pose proof Hw as (Hv & Hp & Hf).
  assert (read_to_string os (active_path w) w = (Ok raw, next_op w)) as Hread.
  { unfold read_to_string. by rewrite accepted, Hp, Hf, Hu. }
  exists (next_op w). split; [|by apply (holds_content path raw w0 w)].
  unfold load_config. rewrite bind_run. unfold on_files. cbn [world set_world]. rewrite load_run.
  unfold outcome, final. rewrite Hread. cbn [fst snd ok].
  assert (overridden (next_op w) (file_config (Some raw)) = overridden w0 (file_config (Some raw))) as ->
    by (unfold overridden; cbn; by rewrite Hv).
  apply validate_acceptable in Ha. by rewrite Ha.
Qed.

Lemma prepare_step c raw data w :
  acceptable c -> toml_to_string c = Ok data -> holds path raw w0 w ->
  exists w', on_files (prepare os c) (set_world w s0) = (Ok (Ok (path, data)), set_world w' s0) /\ holds path raw w0 w'.
Proof.
  intros Hc%validate_acceptable Hd Hw. pose proof Hw as (_ & Hp & _).
  assert (exists w', create_parent os (active_path w) w = (Ok tt, w') /\ same_content w w') as (w' & Hw' & Hs).
  { unfold create_parent. destruct (Path.parent (active_path w)) as [d|]; [|by eexists].
    destruct (negb (Str.is_empty d)); [|by eexists]. unfold create_dir_all. destruct (Str.is_empty d); [by eexists|].
    rewrite accepted. by eexists. }
  exists w'. split; [|by apply (holds_content path raw w0 w)].
  unfold on_files. cbn [world set_world].
  assert (prepare os c w = (Ok (path, data), w')) as ->; [|done].
  unfold prepare. rewrite bind_run, active_config_path_run, bind_run, Hc. cbn [lift]. unfold mret at 1, eff_ret at 1.
  rewrite bind_run, Hd. cbn [lift]. unfold mret at 1, eff_ret at 1. rewrite bind_run, Hw'. by rewrite Hp.
Qed.

Lemma truncate_step raw w :
  holds path raw w0 w ->
  exists w', on_files (truncate os path) (set_world w s0) = (Ok (Ok tt), set_world w' s0) /\ holds path "" w0 w'.
Proof.
  intros Hw. exists (set_file path "" w). split; [|by apply (holds_written path raw "" w0 w)].
  unfold on_files, truncate. cbn. by rewrite accepted.
Qed.

Lemma write_step raw data w :
  holds path raw w0 w ->
  exists w', on_files (write os path data) (set_world w s0) = (Ok (Ok tt), set_world w' s0) /\ holds path data w0 w'.
Proof.
  intros Hw. exists (next_op (set_file path data w)). split; [|by apply (holds_written path raw data w0 w)].
  unfold on_files, write. cbn. by rewrite accepted.
Qed.
End Steps.

(** What a form without secrets makes of a configuration, and what new output
    names make of it. *)
Definition without_secrets (form : SettingsForm) : Prop :=
  text (form_obs_password form) = "" /\
  (Str.trim (text (grafana_instance_id form)) = "" \/ Str.trim (text (grafana_api_token form)) = "").
Definition with_form (form : SettingsForm) (c : Config) : Config :=
  let c := set_obs_host_port (form_obs_host form) (form_obs_port form) c in
  let c := set_grafana (set_push_interval (grafana_interval form) (grafana c)) c in
  let endpoint := Str.trim (text (grafana_endpoint form)) in
  if Str.is_empty endpoint then c else set_grafana (set_endpoint endpoint (grafana c)) c.
Definition with_names (payload : gmap string string) (c : Config) : Config :=
  set_output_names (merge_names (map_to_list payload) (output_names c)) c.

Definition settings_saved : Response :=
  mkResponse OK (Text "Settings saved. Restart required for connection changes to take effect.").
Definition names_saved : Response := mkResponse OK (Text "Output names saved").

(** The stages of saving. *)
Definition writing (path data done_ : string) : ST Response :=
  written ← act (on_files (write os path data));
  match written with
  | Ok _ => mret (mkResponse OK (Text done_))
  | Err e => mret (save_failed e)
  end.
Definition truncating (path data done_ : string) : ST Response :=
  act (on_files (truncate os path)) ;; writing path data done_.

Section Moves.
Context (path : string) (w0 : World) (s0 : Server).

(** [p] becomes [q] in one step that takes the file from [raw] to [raw']. *)
Definition moves (p q : ST Response) (raw raw' : string) : Prop :=
  forall w, holds path raw w0 w ->
  exists w', resume p (free (set_world w s0)) = (q, free (set_world w' s0)) /\ holds path raw' w0 w'.

Lemma save_moves c data done_ raw :
  acceptable c -> toml_to_string c = Ok data -> moves (save_config_steps os c done_) (truncating path data done_) raw raw.
Proof.
  intros Hc Hd w Hw. destruct (prepare_step path w0 s0 c raw data w Hc Hd Hw) as (w' & Hm & Hh).
  exists w'. split; [exact (act_moves _ _ _ _ _ _ Hm) | exact Hh].
Qed.

Lemma truncate_moves data done_ raw : moves (truncating path data done_) (writing path data done_) raw "".
Proof.
  intros w Hw. destruct (truncate_step path w0 s0 raw w Hw) as (w' & Hm & Hh).
  exists w'. split; [exact (act_moves _ _ _ _ _ _ Hm) | exact Hh].
Qed.

Lemma write_moves data done_ raw : moves (writing path data done_) (mret (mkResponse OK (Text done_))) raw data.
Proof.
  intros w Hw. destruct (write_step path w0 s0 raw data w Hw) as (w' & Hm & Hh).
  exists w'. split; [exact (act_moves _ _ _ _ _ _ Hm) | exact Hh].
Qed.

(** The threads up to the point where they save. *)
Definition names_load (payload : gmap string string) : ST Response :=
  config ← act (load_config os load_failed); save_config_steps os (with_names payload config) "Output names saved".
Definition settings_store (form : SettingsForm) (c : Config) : ST Response :=
  config ← submit_password_steps os form (set_obs_host_port (form_obs_host form) (form_obs_port form) c);
  let config := set_grafana (set_push_interval (grafana_interval form) (grafana config)) config in
  config ← submit_grafana_steps os form config;
  save_config_steps os config "Settings saved. Restart required for connection changes to take effect.".
Definition settings_load (form : SettingsForm) : ST Response :=
  config ← act (load_config os load_failed); settings_store form config.

Lemma names_enters headers query payload raw :
  is_token_valid headers query (srv_token k) Deny = true ->
  moves (thread os o k (PostOutputNames payload) headers query) (names_load payload) raw raw.
Proof.
  intros Hv w Hw. exists w. split; [|done]. cbn [thread]. unfold save_output_names_steps.
  apply (act_moves (guard_token k headers query Deny unauthorized) (fun _ => names_load payload) _ tt). unfold guard_token. by rewrite Hv.
Qed.

Lemma settings_enters headers query form raw :
  is_token_valid headers query (srv_token k) Deny = true ->
  moves (thread os o k (PostSettings form) headers query) (settings_load form) raw raw.
Proof.
  intros Hv w Hw. exists w. split; [|done]. cbn [thread]. unfold settings_submit_steps.
  apply (act_moves (guard_token k headers query Deny unauthorized) (fun _ => settings_load form) _ tt). unfold guard_token. by rewrite Hv.
Qed.

Lemma names_loads payload raw c :
  stands_for w0 raw c ->
  moves (names_load payload) (save_config_steps os (with_names payload c) "Output names saved") raw raw.
Proof.
  intros Hc w Hw. destruct (load_step path w0 s0 raw c w Hc Hw) as (w' & Hm & Hh).
  exists w'. split; [exact (act_moves _ _ _ _ _ _ Hm) | exact Hh].
Qed.

Lemma settings_stores form c :
  without_secrets form ->
  settings_store form c =
    save_config_steps os (with_form form c) "Settings saved. Restart required for connection changes to take effect.".
Proof.
  intros (H1 & H2). unfold settings_store.
  assert (submit_password_steps os form (set_obs_host_port (form_obs_host form) (form_obs_port form) c) =
    mret (set_obs_host_port (form_obs_host form) (form_obs_port form) c)) as ->.
  { unfold submit_password_steps. destruct (form_obs_password form) as [pw|]; [|done]. cbn in H1. by rewrite H1. }
  cbn [mbind steps_bind mret steps_ret]. cbv zeta. unfold submit_grafana_steps, with_form. cbv zeta.
  assert (negb (Str.is_empty (Str.trim (text (grafana_endpoint form)))) &&
    negb (Str.is_empty (Str.trim (text (grafana_instance_id form)))) &&
    negb (Str.is_empty (Str.trim (text (grafana_api_token form)))) = false) as ->.
  { destruct H2 as [-> | ->]; by rewrite ?andb_false_r. }
  by destruct (Str.is_empty (Str.trim (text (grafana_endpoint form)))).
Qed.

Lemma settings_loads form raw c :
  without_secrets form -> stands_for w0 raw c ->
  moves (settings_load form)
    (save_config_steps os (with_form form c) "Settings saved. Restart required for connection changes to take effect.") raw raw.
Proof.
  intros Hf Hc w Hw. destruct (load_step path w0 s0 raw c w Hc Hw) as (w' & Hm & Hh). exists w'. rewrite <- settings_stores by done.
  split; [exact (act_moves _ _ _ _ _ _ Hm) | exact Hh].
Qed.
End Moves.

Lemma moves_first path w0 s0 p p' q raw raw' w schedule :
  moves path w0 s0 p p' raw raw' -> holds path raw w0 w ->
  exists w', scheduled (0%nat :: schedule) [p; q] (free (set_world w s0)) = scheduled schedule [p'; q] (free (set_world w' s0)) /\
    holds path raw' w0 w'.
Proof. intros Hm Hw. destruct (Hm w Hw) as (w' & Hr & Hh). exists w'. split; [by apply first_moves | done]. Qed.

Lemma moves_second path w0 s0 p q q' raw raw' w schedule :
  moves path w0 s0 q q' raw raw' -> holds path raw w0 w ->
  exists w', scheduled (1%nat :: schedule) [p; q] (free (set_world w s0)) = scheduled schedule [p; q'] (free (set_world w' s0)) /\
    holds path raw' w0 w'.
Proof. intros Hm Hw. destruct (Hm w Hw) as (w' & Hr & Hh). exists w'. split; [by apply second_moves | done]. Qed.

(** The whole of one thread after the other has loaded, and the reverse. *)
Definition after_load : list nat := [1; 1; 0; 0; 0; 0; 0; 1; 1; 1]%nat.
Definition inside_write : list nat := [0; 0; 0; 0; 1; 1; 0; 1; 1; 1]%nat.

Ltac first_ move Hh :=
  let w := fresh "w" in let H := fresh "Hh" in
  match goal with
  | |- context [scheduled (_ :: ?rest) [_; ?q] _] =>
      destruct (moves_first _ _ _ _ _ q _ _ _ rest move Hh) as (w & -> & H); clear Hh; rename H into Hh
  end.
Ltac second move Hh :=
  let w := fresh "w" in let H := fresh "Hh" in
  match goal with
  | |- context [scheduled (_ :: ?rest) [?p; _] _] =>
      destruct (moves_second _ _ _ p _ _ _ _ _ rest move Hh) as (w & -> & H); clear Hh; rename H into Hh
  end.

(** ** A store that is interrupted *)

Lemma alone_moves {A} (p p' : prog Shared A) (x x' : Shared) schedule :
  resume p x = (p', x') -> scheduled (0%nat :: schedule) [p] x = scheduled schedule [p'] x'.
Proof. intros H. cbn. by rewrite H. Qed.

(** A step of a program inside another. *)
Lemma bind_moves {A B} (t t' : ST A) (f : A -> ST B) (x x' : Shared) :
  finished t = false -> resume t x = (t', x') -> resume (t ≫= f) x = (t' ≫= f, x').
Proof.
  destruct t as [a|C ready m g]; [done|]. intros _. cbn. destruct (ready x); [|by intros [= <- <-]].
  destruct (m x) as [b y]. by intros [= <- <-].
Qed.

(** C38: a store that is interrupted loses every secret.  The vault is written in
    place: take a request for the settings that has the token and brings a
    password, on a system that refuses no file operation, and let the
    configuration load, the password be sealed, and the entries have their JSON
    text.  After its fifth step the request holds the vault's mutex, the new
    entry is in memory, and the vault file is empty.  If the program stops there,
    the next start opens that file without an error as a vault with no secret at
    all, since the empty text is no JSON; so does any other program that opens it
    then. *)
Theorem interrupted_store_loses_secrets headers query form pw loaded sealed data e s :
  is_token_valid headers query (srv_token k) Deny = true ->
  outcome (load os) (world s) = Ok loaded ->
  form_obs_password form = Some pw -> pw <> "" -> protect (Str.chars pw) = Ok sealed ->
  let store := <["obs_password" := encode sealed]> (entries (vault s)) in
  vault_to_string store = Ok data -> vault_from_str "" = Err e ->
  let p := Security.path (vault s) in
  exists t x, scheduled (replicate 5 0%nat) [thread os o k (PostSettings form) headers query] (free s) = ([t], x) /\
    vault_held x = true /\ vault (core x) = mkVault p store /\ files (world (core x)) !! p = Some "" /\
    outcome (Security.new os (Some p)) (world (core x)) = Ok (mkVault p ∅).
Proof.
  intros Hv Hl Hpw Hne Hp store Hd He p. cbn [thread]. unfold settings_submit_steps. cbn [replicate].
  destruct (load os (world s)) as [r w] eqn:Hload. unfold outcome in Hl. rewrite Hload in Hl. cbn in Hl. subst r.
  eexists _, _. split.
  - etransitivity; [apply alone_moves, (act_moves _ _ s tt s); unfold guard_token; by rewrite Hv|].
    etransitivity.
    { apply alone_moves, (act_moves _ _ s loaded (set_world w s)).
      unfold load_config. rewrite bind_run. unfold on_files. by rewrite Hload. }
    cbv zeta. unfold submit_password_steps. rewrite Hpw.
    assert (negb (Str.is_empty pw) = true) as -> by (apply negb_true_iff; by apply is_empty_false).
    unfold store_steps. etransitivity; [by apply alone_moves, bind_moves, bind_moves|].
    etransitivity.
    { apply alone_moves, bind_moves, bind_moves; [done | done |].
      apply (act_moves _ _ (set_world w s) (Ok (p, data)) (set_vault_world (mkVault p store, w) s)).
      unfold on_vault, seal, mbind, eff_bind, modify, gets. cbn. rewrite Hp. cbn. fold store. by rewrite Hd. }
    etransitivity.
    { apply alone_moves, bind_moves, bind_moves; [done | done |].
      apply (act_moves _ _ (set_vault_world (mkVault p store, w) s) (Ok tt)
        (set_vault_world (mkVault p store, set_file p "" w) s)). unfold on_files, truncate. cbn. by rewrite accepted. }
    reflexivity.
  - cbn [vault_held core]. split; [done|]. split; [done|]. split; [cbn; by rewrite lookup_insert_eq|].
    rewrite (reopened os p) by done. cbn. by rewrite lookup_insert_eq, He.
Qed.
End Races.

(** ** Witnesses *)

#[local] Existing Instances demo_url demo_api_json demo_base64.

(** A text for every store. *)
#[local] Existing Instances App.bits_json App.bits_json_laws.

Lemma bits_total store : exists data, vault_to_string store = Ok data.
Proof. by eexists. Qed.

(** A file that says where OBS is, and nothing else. *)
#[local] Instance address_toml : TomlCodec := {|
  toml_to_string := fun c => Ok (Config.host (Config.obs c));
  toml_from_str := fun s => if String.eqb s "" then Err "expected value"
    else Ok (set_obs_host_port s 4455 Config_default) |}.
Definition busy_server : Server :=
  mkServer (mkWorld 0 {["config.toml" := "studio-pc"]} ∅) (mkVault "v.json" ∅) false None new_debug_status 1 [] 0.
Definition busy_form : SettingsForm := {|
  form_obs_host := "stream-pc"; form_obs_port := 4455; form_obs_password := Some ""; grafana_interval := 5000;
  grafana_endpoint := Some ""; grafana_instance_id := Some ""; grafana_api_token := Some "" |}.
Abbreviation busy_threads :=
  [thread demo_os demo_outside demo_consts (PostSettings busy_form) demo_headers ∅;
   thread demo_os demo_outside demo_consts (PostOutputNames {["main" := "Twitch"]}) demo_headers ∅].


(** A form with a password, stored while the output names are saved; the second
    request waits in vain once. *)
Definition secret_form : SettingsForm := {|
  form_obs_host := "stream-pc"; form_obs_port := 4455; form_obs_password := Some "s3cret"; grafana_interval := 5000;
  grafana_endpoint := Some ""; grafana_instance_id := Some ""; grafana_api_token := Some "" |}.
Definition secret_requests : list (Endpoint * HeaderMap * Query) :=
  [(PostSettings secret_form, demo_headers, ∅); (PostSettings secret_form, demo_headers, ∅)].
Definition secret_schedule : list nat := [0; 1; 1; 0; 0; 1; 0; 0; 0; 0]%nat.
Definition secret_run : list (prog Shared (result Response Response)) * Shared :=
  scheduled secret_schedule
    (map (fun '(e, headers, query) => thread demo_os demo_outside demo_consts e headers query) secret_requests)
    (mkShared busy_server false).

Lemma secrets_survive_interleaving_witness :
  vault_held secret_run.2 = false /\ is_Some (entries (vault (core secret_run.2)) !! "obs_password") /\
  outcome (Security.new demo_os (Some "v.json")) (world (core secret_run.2)) = Ok (vault (core secret_run.2)).
Proof.
  split; [vm_compute; reflexivity|]. split; [vm_compute; by eexists|].
  pose proof (secrets_survive_interleaving demo_os demo_outside demo_consts "v.json" bits_total secret_requests
    secret_schedule busy_server) as H.
  change (scheduled secret_schedule _ _) with secret_run in H.
  destruct secret_run as [ts x] eqn:Hrun. apply H; [by split_and! | by intros _ | done |].
  apply (f_equal (fun r => vault_held r.2)) in Hrun. cbn [snd] in Hrun. rewrite <- Hrun. vm_compute. reflexivity.
Defined.

(** JSON that refuses the empty text. *)
Definition marked_json : VaultJson := {|
  vault_to_string := fun store => Ok (String "{" (match vault_to_string store with Ok d => d | Err _ => "" end));
  vault_from_str := fun d => match d with String _ d => vault_from_str d | EmptyString => Err "EOF while parsing a value" end |}.

Lemma interrupted_store_loses_secrets_witness :
  let x := (scheduled (replicate 5 0%nat) [thread (vj:=marked_json) demo_os demo_outside demo_consts
    (PostSettings secret_form) demo_headers ∅] (mkShared busy_server false)).2 in
  is_Some (entries (vault (core x)) !! "obs_password") /\
  outcome (Security.new (vj:=marked_json) demo_os (Some "v.json")) (world (core x)) = Ok (mkVault "v.json" ∅).
Proof.
  destruct (interrupted_store_loses_secrets (toml:=address_toml) (vj:=marked_json) demo_os demo_outside demo_consts (fun _ => eq_refl)
    demo_headers ∅ secret_form "s3cret" (overridden (world busy_server) (set_obs_host_port "studio-pc" 4455 Config_default))
    (Str.chars "s3cret") _ "EOF while parsing a value" busy_server eq_refl ltac:(vm_compute; reflexivity) eq_refl ltac:(done) eq_refl eq_refl eq_refl)
    as (t & x & -> & _ & Hv & _ & Hn).
  split; [cbn [snd]; rewrite Hv; vm_compute; by eexists | exact Hn].
Defined.
