(* ===== verification/Runtime.v ===== *)
(** * Runtime: the running program

    After start-up ([App]) the program is a set of tasks over shared state: the
    metrics ticker publishes frames, the exporter and the dashboard sockets read
    the latest one, the HTTP server answers requests, the pipe server runs one
    plugin session at a time, the tray thread waits for clicks, and [run] waits
    for the first reason to stop ([src/app/mod.rs], [server::start] of
    [src/server/mod.rs], [src/main.rs]).

    A run is a list of labels, each an atomic step of one task.  A turn of the
    plugin session is one step with an environment of its own (clock, network,
    identifiers, the frames it happens to read); so is the handler of an HTTP
    request. *)

From S2P Require Import Prelude Effects RustStd Channels Float Model.
From S2P Require Host Config Metrics Tray Dashboard Exporters Security Aegis Ipc IpcWire IpcSession IpcServer App Server.

#[local] Open Scope Z_scope.

(** ** State *)

Section Runtime.
Context {Client Histogram Url Value : Type}.
Context {meter : Exporters.Meter Histogram} {url_ops : Aegis.UrlOps Url} {api_json : Aegis.ApiJson}.
Context {b64 : Security.Base64} {dp : Security.DataProtection} {vj : Security.VaultJson} {toml : Config.TomlCodec}.
Context {wire : IpcWire.WireCodec (Ipc.Envelope Ipc.EvtPayload) (Ipc.Envelope Value)} {codec : IpcSession.PayloadCodec Value}.
Context {tray_item : Tray.TrayItem}.
Context (to_lowercase : string -> string) (os : Host.Host) (o : Server.Outside Url).

Record System := mkSystem {
  hub : Metrics.MetricsHub Client;
  frames : Watch.t TelemetryFrame;
  exporter : option (Exporters.ExporterTask (Histogram:=Histogram)); (* when it is configured *)
  bound : bool; (* the HTTP server listens *)
  server : Server.Server;
  sockets : list Dashboard.Socket;
  ipc : IpcSession.State; (* the locals of the session, while there is one *)
  session_live : bool;
  ipc_log : list IpcServer.SessionLog;
  tray : Tray.Tray;
  tray_running : bool;
  outcome : option (result string unit); (* what [run] has returned *)
}.

Definition with_hub_frames h f s := mkSystem h f (exporter s) (bound s) (server s) (sockets s) (ipc s) (session_live s)
  (ipc_log s) (tray s) (tray_running s) (outcome s).
Definition with_exporter e s := mkSystem (hub s) (frames s) e (bound s) (server s) (sockets s) (ipc s) (session_live s)
  (ipc_log s) (tray s) (tray_running s) (outcome s).
Definition with_bound b s := mkSystem (hub s) (frames s) (exporter s) b (server s) (sockets s) (ipc s) (session_live s)
  (ipc_log s) (tray s) (tray_running s) (outcome s).
Definition with_server v s := mkSystem (hub s) (frames s) (exporter s) (bound s) v (sockets s) (ipc s) (session_live s)
  (ipc_log s) (tray s) (tray_running s) (outcome s).
Definition with_sockets l s := mkSystem (hub s) (frames s) (exporter s) (bound s) (server s) l (ipc s) (session_live s)
  (ipc_log s) (tray s) (tray_running s) (outcome s).
Definition with_ipc i live log s := mkSystem (hub s) (frames s) (exporter s) (bound s) (server s) (sockets s) i live
  log (tray s) (tray_running s) (outcome s).
Definition with_tray t running s := mkSystem (hub s) (frames s) (exporter s) (bound s) (server s) (sockets s) (ipc s)
  (session_live s) (ipc_log s) t running (outcome s).
Definition with_outcome r s := mkSystem (hub s) (frames s) (exporter s) (bound s) (server s) (sockets s) (ipc s)
  (session_live s) (ipc_log s) (tray s) (tray_running s) (Some r).

(** ** Steps *)

(** One wake-up of a task, and what the outside contributes to it. *)
Inductive Label :=
  | MetricsTick (src : Metrics.Sources Client)
  | ExporterWake
  | Bind (r : result string unit) (* TcpListener::bind *)
  | Request (e : Server.Endpoint) (headers : Server.HeaderMap) (query : Server.Query)
  | SocketTurn (i : nat) (e : Dashboard.SocketEvent)
  | PluginConnects (E : IpcSession.Env) (r : IpcWire.Reader)
  | PluginTurn (E : IpcSession.Env)
  | TrayTurn (e : Tray.TrayEvent)
  | CtrlC (signal : result string unit) (* ctrl_c() returns: the signal, or no handler could be installed *)
  | ShutdownSeen (* the third branch of the [select!] *)
  | ServerDone (r : result string unit). (* axum::serve returns *)

(** The constants of the run. *)
Context (started : App.Started).
Abbreviation config := (App.run_config started).
Definition consts : Server.ServerConsts :=
  {| Server.srv_token := App.run_token started; Server.srv_theme := Config.theme config |}.

(** The metrics task's loop body. *)
Definition metrics_tick (src : Metrics.Sources Client) (s : System) : System :=
  match Metrics.collect to_lowercase src (hub s) with
  | (Some frame, h) => with_hub_frames h (Watch.send frame (frames s)) s
  | (None, h) => with_hub_frames h (frames s) s
  end.

Definition exporter_wake (s : System) : System :=
  match exporter s, Config.endpoint (Config.grafana config) with
  | Some t, Some endpoint =>
      with_exporter (Some (Exporters.wake endpoint (Config.auth_header (Config.grafana config))
        (App.run_grafana_auth started) (Config.push_interval_ms (Config.grafana config))
        (Watch.borrow (frames s)) t)) s
  | _, _ => s
  end.

(** The capacity of [broadcast::channel(64)]. *)
Definition COMMAND_CAPACITY : nat := 64.

(** [ipc_cmd_tx.send(cmd)] for every command of a handler: it reaches the session
    that is subscribed. *)
Definition deliver_commands (cmds : list Ipc.CoreIpcCommand) (s : System) : System :=
  if session_live s then
    with_ipc (IpcSession.with_core_cmd_rx
      (fold_left (fun q c => Broadcast.deliver COMMAND_CAPACITY c q) cmds (IpcSession.core_cmd_rx (ipc s))) (ipc s))
      true (ipc_log s) s
  else s.

Definition request (e : Server.Endpoint) (headers : Server.HeaderMap) (query : Server.Query) (s : System) :
    Server.Response * System :=
  let (r, v) := Server.serve os o consts e headers query (server s) in
  let cmds := drop (length (Server.ipc_sent (server s))) (Server.ipc_sent v) in
  let s := deliver_commands cmds (with_server v s) in
  (r, match Server.response_body r with
      | Server.Upgrade => with_sockets (sockets s ++ [Dashboard.new_socket]) s
      | _ => s
      end).

(** The debug status the tasks share, and the session's subscription. *)
Definition publish_status (s : System) : System :=
  let v := server s in
  with_server (Server.mkServer (Server.world v) (Server.vault v) (Server.grafana_configured v)
    (Server.aegis_session_snapshot v) (IpcSession.debug_status (ipc s)) (if session_live s then 1 else 0)%nat
    (Server.ipc_sent v) (Server.calls v)) s.

(** Both pipes are connected: [serve_client] up to the loop. *)
Definition plugin_connects (E : IpcSession.Env) (r : IpcWire.Reader) (s : System) : System :=
  let i := final (IpcSession.update_debug_status E (IpcSession.set_session_connected true)) (ipc s) in
  publish_status (with_ipc
    (IpcSession.enter_session E (IpcSession.steps i) (IpcSession.clock i) r [] (IpcSession.debug_status i))
    true (ipc_log s) s).

(** One turn of the session's loop; when it leaves, the rest of [serve_client]. *)
Definition plugin_turn (E : IpcSession.Env) (s : System) : System :=
  publish_status (match IpcSession.iteration E (ipc s) with
  | (Ok _, i) => with_ipc i true (ipc_log s) s
  | (Err x, i) =>
      with_ipc (final (IpcSession.update_debug_status E (fun d =>
                 IpcSession.set_pending_switch_count 0 (IpcSession.set_session_connected false d))) i)
        false (ipc_log s ++ [IpcServer.log_session x]) s
  end).

Definition tray_turn (e : Tray.TrayEvent) (s : System) : System :=
  match e with
  | Tray.Click i => with_tray (Tray.on_click (App.dashboard_url started) (App.settings_url started) i (tray s)) true s
  | Tray.Poll => if Tray.shutdown_flag (tray s) then with_tray (tray s) false s else s
  end.

(** [shutdown_rx.changed()]: no receiver has seen a send when it is created. *)
Definition shutdown_requested (s : System) : bool := Watch.changed 0 (Tray.shutdown_tx (tray s)).

(** [_ = ctrl_c() => ..]: the pattern takes either result. *)
Definition ctrl_c (_ : result string unit) (s : System) : System :=
  let t := tray s in
  with_outcome (Ok tt) (with_tray (Tray.mkTray (Tray.shutdown_flag t) (Watch.send true (Tray.shutdown_tx t))
    (Tray.processes t) (Tray.clipboard t)) (tray_running s) s).

(** A step, when it can be taken.  Nothing runs once [run] has returned. *)
Definition step (l : Label) (s : System) : option System :=
  match outcome s with
  | Some _ => None
  | None =>
      match l with
      | MetricsTick src => Some (metrics_tick src s)
      | ExporterWake => Some (exporter_wake s)
      | Bind r =>
          if bound s then None
          else Some (match r with Ok _ => with_bound true s | Err e => with_outcome (Err e) s end)
      | Request e headers query => if bound s then Some (snd (request e headers query s)) else None
      | SocketTurn i e => Some (with_sockets (alter (Dashboard.on_event (frames s) e) i (sockets s)) s)
      | PluginConnects E r => if session_live s then None else Some (plugin_connects E r s)
      | PluginTurn E => if session_live s then Some (plugin_turn E s) else None
      | TrayTurn e => if tray_running s then Some (tray_turn e s) else None
      | CtrlC signal => Some (ctrl_c signal s)
      | ShutdownSeen => if shutdown_requested s then Some (with_outcome (Ok tt) s) else None
      | ServerDone r =>
          if bound s && (negb (is_ok r) || shutdown_requested s) then Some (with_outcome r s) else None
      end
  end.

Fixpoint exec (labels : list Label) (s : System) : option System :=
  match labels with
  | [] => Some s
  | l :: labels' => s' ← step l s; exec labels' s'
  end.

(** ** Start and end *)

(** [new_debug_status]. *)
Definition idle_ipc : IpcSession.State :=
  IpcSession.mkState 0 0 [] [] [] Ipc.new_debug_status Ipc.ProtocolErrorTracker.new ∅ Ipc.SessionOverrides.default false 0 0.

(** The tasks as [run] spawns them, in the world start-up leaves; [now] is the
    reading of the clock in [MetricsHub::new]. *)
Definition spawn (world : Host.World) (now : Z) : System :=
  mkSystem
    (Metrics.new (Config.host (Config.obs config)) (Config.port (Config.obs config)) (App.run_obs_password started)
       (Config.latency_target (Config.network config)) (Config.auto_detect_process (Config.obs config))
       (Config.process_name (Config.obs config)) now)
    (Watch.channel TelemetryFrame_default)
    (if Config.grafana_enabled (Config.grafana config) && bool_decide (is_Some (Config.endpoint (Config.grafana config)))
     then Some Exporters.spawn_exporter else None)
    false
    (Server.mkServer world (App.run_vault started) (App.run_grafana_configured started) (App.run_snapshot started)
       Ipc.new_debug_status 0 [] 0)
    [] idle_ipc false []
    (Tray.mkTray false (Watch.channel false) [] [])
    (Config.tray_enable (Config.tray config) && is_ok Tray.build_menu)
    None.

(** [main]: the exit code of a program that has stopped. *)
Definition exit_code (r : result string unit) : Z := match r with Ok _ => 0 | Err _ => 1 end.
End Runtime.

(** [EnvFilter] of [tracing_subscriber], with its lossy constructor. *)
Class LogFilter (F : Type) := { try_new : string -> result string F; filter_new : string -> F }.

(** [init_logging]: the filter is what [RUST_LOG] says, or [info] when it is
    unset or malformed. *)
Definition init_logging {F} `{LogFilter F} : eff Host.World string F :=
  rust_log ← Host.env_var "RUST_LOG";
  mret (default (filter_new "info") (rust_log ≫= fun directives => ok (try_new directives))).
