(* ===== verification/RuntimeFacts.v ===== *)
(** * RuntimeFacts: invariants of the running program

    Induction over the runs of [Runtime], and the invariants of the states they
    reach: the commands and the requests they come from ([Commands]), the frames
    and their readers ([Seen]), what requests without credentials leave alone,
    and why a run ends ([Ends]).  They rest on the lemmas of the components. *)

From Stdlib Require Import Sorted.
From S2P Require Import Prelude Effects RustStd Channels Float Model.
From S2P Require Host Config ConfigSpec Metrics MetricsSpec Tray Dashboard Exporters ExportersSpec Security Aegis Ipc.
From S2P Require IpcWire IpcSession IpcSessionFacts IpcProtocol IpcCommands IpcServer App Server ServerSpec.
From S2P Require Import Runtime.

#[local] Open Scope Z_scope.

Section Spec.
Context {Client Histogram Url Value : Type}.
Context {meter : Exporters.Meter Histogram} {url_ops : Aegis.UrlOps Url} {api_json : Aegis.ApiJson}.
Context {b64 : Security.Base64} {dp : Security.DataProtection} {vj : Security.VaultJson} {toml : Config.TomlCodec}.
Context {wire : IpcWire.WireCodec (Ipc.Envelope Ipc.EvtPayload) (Ipc.Envelope Value)} {codec : IpcSession.PayloadCodec Value}.
Context {tray_item : Tray.TrayItem}.
Context (to_lowercase : string -> string) (os : Host.Host) (o : Server.Outside Url).
Context (started : App.Started).

Abbreviation Sys := (System (Client:=Client) (Histogram:=Histogram)).
Abbreviation Lbl := (Label (Client:=Client)).
Abbreviation stepped l s := (step (Value:=Value) to_lowercase os o started l s).
Abbreviation executed ls s := (exec (Value:=Value) to_lowercase os o started ls s).
Abbreviation initial w now := (spawn started w now : Sys).
Implicit Types (s : Sys) (l : Lbl) (ls : list Lbl).

(** ** Runs *)

Lemma exec_snoc ls l s : executed (ls ++ [l]) s = (s' ← executed ls s; stepped l s').
Proof.
  revert s. induction ls as [|l' ls IH]; intros s; cbn [app exec].
  - cbn. by destruct (stepped l s).
  - destruct (stepped l' s) as [s1|]; [apply IH | done].
Qed.

(** Induction over a run. *)
Lemma exec_invariant (I : list Lbl -> Sys -> Prop) s0 :
  I [] s0 ->
  (forall ls l s s', executed ls s0 = Some s -> I ls s -> stepped l s = Some s' -> I (ls ++ [l]) s') ->
  forall ls s, executed ls s0 = Some s -> I ls s.
Proof.
  intros Hinit Hstep ls. induction ls as [|l ls IH] using rev_ind; intros s Hs.
  - cbn in Hs. by simplify_eq.
  - rewrite exec_snoc in Hs. apply bind_Some in Hs as (s1 & H1 & H2). eapply Hstep; eauto.
Qed.

(** The effect of a step, by label, in a state that runs. *)
Lemma step_cases l s s' : stepped l s = Some s' -> outcome s = None /\
  match l with
  | MetricsTick src => s' = metrics_tick to_lowercase src s
  | ExporterWake => s' = exporter_wake started s
  | Bind r => bound s = false /\ s' = match r with Ok _ => with_bound true s | Err e => with_outcome (Err e) s end
  | Request e headers query => bound s = true /\ s' = (request os o started e headers query s).2
  | SocketTurn i e => s' = with_sockets (alter (Dashboard.on_event (frames s) e) i (sockets s)) s
  | PluginConnects E r => session_live s = false /\ s' = plugin_connects E r s
  | PluginTurn E => session_live s = true /\ s' = plugin_turn (Value:=Value) E s
  | TrayTurn e => tray_running s = true /\ s' = tray_turn started e s
  | CtrlC signal => s' = ctrl_c signal s
  | ShutdownSeen => shutdown_requested s = true /\ s' = with_outcome (Ok tt) s
  | ServerDone r => bound s = true /\ (is_ok r = false \/ shutdown_requested s = true) /\ s' = with_outcome r s
  end.
Proof.
  unfold step. destruct (outcome s); [done|]. intros H. split; [done|].
  destruct l; try (by simplify_eq).
  - by destruct (bound s); simplify_eq.
  - by destruct (bound s); simplify_eq.
  - by destruct (session_live s); simplify_eq.
  - by destruct (session_live s); simplify_eq.
  - by destruct (tray_running s); simplify_eq.
  - by destruct (shutdown_requested s); simplify_eq.
  - destruct (bound s); [|done]. destruct r as [u|e]; cbn [andb orb negb is_ok] in *; [|by simplify_eq; auto].
    destruct (shutdown_requested s); simplify_eq; auto.
Qed.

(** ** Commands *)

(** The server's state, the session and the sockets after a request. *)
Lemma request_parts e headers query s :
  let v := (Server.serve os o (consts started) e headers query (server s)).2 in
  let s' := (request os o started e headers query s).2 in
  let cmds := drop (length (Server.ipc_sent (server s))) (Server.ipc_sent v) in
  server s' = v /\ session_live s' = session_live s /\ ipc s' = ipc (deliver_commands cmds s) /\
  frames s' = frames s /\ hub s' = hub s /\ exporter s' = exporter s /\ tray s' = tray s /\ outcome s' = outcome s /\
  sockets s' = sockets s ++
    match Server.response_body (Server.serve os o (consts started) e headers query (server s)).1 with
    | Server.Upgrade => [Dashboard.new_socket]
    | _ => []
    end.
Proof.
  unfold request. destruct (Server.serve _ _ _ _ _ _ (server s)) as [r v]. cbn [fst snd].
  unfold deliver_commands. cbn [session_live with_server ipc].
  destruct (session_live s) eqn:Hl; destruct (Server.response_body r); cbn; rewrite ?app_nil_r, ?Hl; by split_and!.
Qed.

(** A scene-switch request with credentials that asks for [c] is in the run. *)
Definition authorised ls (c : Ipc.CoreIpcCommand) : Prop :=
  exists headers query body,
    Request (Server.PostIpcSwitchScene body) headers query ∈ ls /\
    Server.is_token_valid headers query (App.run_token started) Server.Deny = true /\
    ServerSpec.conveyed_by body c.

Lemma authorised_more ls l c : authorised ls c -> authorised (ls ++ [l]) c.
Proof. intros (h & q & b & Hin & H). exists h, q, b. split; [|done]. apply elem_of_app. by left. Qed.

Definition sent s (c : Ipc.CoreIpcCommand) : Prop := c ∈ Server.ipc_sent (server s).

Record Commands ls s : Prop := {
  commands_sent : forall c, sent s c -> authorised ls c;
  commands_session : IpcCommands.Conveys (sent s) (ipc s);
}.

(** A step that leaves commands and session alone. *)
Lemma commands_same ls l s s' :
  Commands ls s -> Server.ipc_sent (server s') = Server.ipc_sent (server s) -> ipc s' = ipc s -> Commands (ls ++ [l]) s'.
Proof.
  intros [Hs Hc] Hsent Hipc. unfold sent in *. split.
  - intros c Hc'. apply authorised_more, Hs. by rewrite <- Hsent.
  - unfold sent. rewrite Hsent, Hipc. exact Hc.
Qed.

(** A turn of the pipe server. *)
Lemma commands_session_step ls l s i live log :
  Commands ls s -> IpcCommands.Conveys (sent s) i -> Commands (ls ++ [l]) (publish_status (with_ipc i live log s)).
Proof. intros [Hs _] Hi. split; [intros c Hc; by apply authorised_more, Hs | exact Hi]. Qed.

Lemma commands_request ls e headers query s :
  Commands ls s -> Commands (ls ++ [Request e headers query]) (request os o started e headers query s).2.
Proof.
  intros Hcmd. destruct (request_parts e headers query s) as (Hv & _ & Hipc & _).
  pose proof (ServerSpec.serve_sends os o (consts started) e headers query (server s)) as Hsends.
  set (v := (Server.serve os o (consts started) e headers query (server s)).2) in *.
  destruct Hsends as [Hsame | (body & c & -> & Hvalid & Hbody & Hsnoc)].
  - apply (commands_same _ _ s); [done | by rewrite Hv |]. rewrite Hipc, Hsame, drop_all.
    unfold deliver_commands. destruct (session_live s); [|done]. cbn. by destruct (ipc s).
  - destruct Hcmd as [Hs Hc]. unfold sent in *.
    rewrite Hsnoc, drop_app_length in Hipc.
    assert (forall c', c' ∈ Server.ipc_sent (server s) -> c' ∈ Server.ipc_sent (server s) ++ [c]) as Hmore
      by (intros c' ?; apply elem_of_app; by left).
    split; unfold sent; rewrite Hv, Hsnoc.
    + intros c' [Hc'| ->%list_elem_of_singleton]%elem_of_app; [by apply authorised_more, Hs|].
      exists headers, query, body. split_and!; [apply elem_of_app; right; left | done | done].
    + rewrite Hipc. apply (IpcCommands.conveys_allowed _ _ _ Hmore) in Hc. unfold deliver_commands.
      destruct (session_live s); [|done]. apply IpcCommands.conveys_deliver; [done|].
      intros c' ->%list_elem_of_singleton. apply elem_of_app. right. left.
Qed.

Lemma commands_step ls l s s' : Commands ls s -> stepped l s = Some s' -> Commands (ls ++ [l]) s'.
Proof.
  intros Hcmd [_ Hs']%step_cases. destruct l; open_hyps; subst s'; try (by apply (commands_same _ _ s)).
  - apply (commands_same _ _ s); [done | |]; unfold metrics_tick; by destruct (Metrics.collect _ _ _) as [[]].
  - apply (commands_same _ _ s); [done | |]; unfold exporter_wake; repeat case_match; done.
  - apply (commands_same _ _ s); [done | |]; by destruct r.
  - by apply commands_request.
  - apply commands_session_step; [done | apply IpcCommands.conveys_enter].
  - pose proof (IpcCommands.conveys_iteration (sent s) E (ipc s) (commands_session _ _ Hcmd)) as Hi.
    unfold plugin_turn. unfold final in Hi. destruct (IpcSession.iteration E (ipc s)) as [[[]|x] i];
      by apply commands_session_step.
  - apply (commands_same _ _ s); [done | |]; unfold tray_turn; destruct e; try done; by destruct (Tray.shutdown_flag _).
Qed.

Lemma commands_reachable world now ls s : executed ls (initial world now) = Some s -> Commands ls s.
Proof.
  apply exec_invariant; [|intros; by eapply commands_step].
  split; [by intros c Hc%elem_of_nil|]. constructor; cbn; [by intros ? ?%elem_of_nil | by intros ? ? ?%elem_of_nil | by intros i p [=]].
Qed.

(** The session's subscription is counted while it lives. *)
Definition subscribed s : Prop := Server.ipc_receivers (server s) = if session_live s then 1%nat else 0%nat.

Lemma subscribed_reachable world now ls s : executed ls (initial world now) = Some s -> subscribed s.
Proof.
  apply (exec_invariant (fun _ => subscribed)); [done|]. clear ls s. unfold subscribed.
  intros ls l s s' _ Hs [_ Hs']%step_cases. destruct l; open_hyps; subst s'; try done.
  - unfold metrics_tick. by destruct (Metrics.collect _ _ _) as [[]].
  - unfold exporter_wake. by destruct (exporter s), (Config.endpoint (Config.grafana (App.run_config started))).
  - by destruct r.
  - destruct (request_parts e headers query s) as (Hv & Hl & _).
    rewrite Hv, Hl, ServerSpec.serve_receivers. exact Hs.
  - unfold tray_turn. destruct e; [done|]. by destruct (Tray.shutdown_flag _).
Qed.

(** ** Frames *)

(** The frames published in a run, the default one first. *)
Fixpoint history ls s : list TelemetryFrame :=
  match ls with
  | [] => []
  | l :: ls' =>
      match stepped l s with
      | None => []
      | Some s' =>
          (if (Watch.version (frames s') =? Watch.version (frames s))%nat then [] else [Watch.borrow (frames s')])
          ++ history ls' s'
      end
  end.
Definition published ls s : list TelemetryFrame := Watch.borrow (frames s) :: history ls s.

(** [fs] are published frames, none older than the one before it. *)
Definition in_order (pub : list TelemetryFrame) (fs : list TelemetryFrame) : Prop :=
  exists idx, StronglySorted le idx /\ Forall2 (fun n f => pub !! n = Some f) idx fs.

Lemma strongly_sorted_snoc idx k : StronglySorted le idx -> Forall (fun n => n <= k)%nat idx -> StronglySorted le (idx ++ [k]).
Proof.
  induction 1 as [|n idx Hidx IH Hn]; intros Hk; [repeat constructor|]. inversion_clear Hk.
  cbn. constructor; [auto|]. apply Forall_app. split; [done | by constructor].
Qed.

Lemma in_order_latest pub fs f : in_order pub fs -> last pub = Some f -> in_order pub (fs ++ [f]).
Proof.
  intros (idx & Hs & Hf) Hl. rewrite last_lookup in Hl. exists (idx ++ [Nat.pred (length pub)]). split.
  - apply strongly_sorted_snoc; [done|]. clear Hs. induction Hf as [|n f' idx fs Hn _ IH]; constructor; [|done].
    apply lookup_lt_Some in Hn. lia.
  - apply Forall2_app; [done | by constructor].
Qed.

Lemma in_order_more pub new fs : in_order pub fs -> in_order (pub ++ new) fs.
Proof.
  intros (idx & Hs & Hf). exists idx. split; [done|]. eapply Forall2_impl; [done|].
  intros n f Hn. by apply lookup_app_l_Some.
Qed.

Lemma in_order_nil pub : in_order pub [].
Proof. exists []. by split; constructor. Qed.

Lemma history_snoc ls l s0 s s' :
  executed ls s0 = Some s -> stepped l s = Some s' ->
  published (ls ++ [l]) s0 = published ls s0 ++
    (if (Watch.version (frames s') =? Watch.version (frames s))%nat then [] else [Watch.borrow (frames s')]).
Proof.
  unfold published. cbn [app]. intros Hs Hl. f_equal. revert s0 Hs. induction ls as [|l' ls IH]; intros s0 Hs; cbn in *.
  - simplify_eq. rewrite Hl. by rewrite app_nil_r.
  - destruct (stepped l' s0) as [s1|]; [|done]. rewrite (IH s1 Hs). by rewrite app_assoc.
Qed.

(** The exporter's run over some frames. *)
Abbreviation config := (App.run_config started).
Definition exported (fs : list TelemetryFrame) : option (Exporters.ExporterTask (Histogram:=Histogram)) :=
  endpoint ← Config.endpoint (Config.grafana config);
  Some (Exporters.run_exporter endpoint (Config.auth_header (Config.grafana config)) (App.run_grafana_auth started)
    (Config.push_interval_ms (Config.grafana config)) fs).

Record Seen (pub : list TelemetryFrame) s : Prop := {
  seen_latest : last pub = Some (Watch.borrow (frames s));
  seen_sockets : forall i socket, sockets s !! i = Some socket ->
    exists fs, in_order pub fs /\ Dashboard.pushed socket = map Dashboard.payload_of fs;
  seen_exporter : forall t, exporter s = Some t -> exists fs, in_order pub fs /\ exported fs = Some t;
}.

(** A step that publishes nothing and touches neither kind of reader. *)
Lemma seen_same pub s s' :
  Seen pub s -> frames s' = frames s -> sockets s' = sockets s -> exporter s' = exporter s -> Seen pub s'.
Proof. intros [Hl Hs He] Hf Hs' He'. split; rewrite ?Hf, ?Hs', ?He'; done. Qed.

Lemma on_event_pushed rx e socket :
  Dashboard.pushed (Dashboard.on_event rx e socket) = Dashboard.pushed socket \/
  Dashboard.pushed (Dashboard.on_event rx e socket) =
    Dashboard.pushed socket ++ [Dashboard.payload_of (Watch.borrow rx)].
Proof.
  unfold Dashboard.on_event. destruct (Dashboard.open socket); [|by left].
  destruct e as [[]|[[[]|]|]]; cbn; auto.
Qed.

Lemma seen_socket_turn pub s i e :
  Seen pub s -> Seen pub (with_sockets (alter (Dashboard.on_event (frames s) e) i (sockets s)) s).
Proof.
  intros [Hl Hs He]. split; [done | | done]. cbn [sockets with_sockets]. intros j socket Hj.
  destruct (decide (j = i)) as [->|Hne]; [|rewrite list_lookup_alter_ne in Hj by done; by apply (Hs j)].
  rewrite list_lookup_alter_eq in Hj. apply fmap_Some in Hj as (socket0 & H0 & ->).
  destruct (Hs i socket0 H0) as (fs & Hfs & Hp).
  destruct (on_event_pushed (frames s) e socket0) as [H|H]; rewrite H, Hp; [by exists fs|].
  exists (fs ++ [Watch.borrow (frames s)]). split; [by apply in_order_latest | by rewrite map_app].
Qed.

Lemma seen_exporter_wake pub s : Seen pub s -> Seen pub (exporter_wake started s).
Proof.
  intros [Hl Hs He]. unfold exporter_wake. destruct (exporter s) as [t|] eqn:Ht; [|by split; rewrite ?Ht].
  destruct (He t eq_refl) as (fs & Hfs & Ht'). revert Ht'. unfold exported.
  destruct (Config.endpoint (Config.grafana config)) as [endpoint|] eqn:Hend; [|done]. cbn. intros [= <-].
  split; [done.. |]. cbn [exporter with_exporter]. intros t [= <-].
  exists (fs ++ [Watch.borrow (frames s)]). split; [by apply in_order_latest|].
  unfold exported. rewrite Hend. cbn. by rewrite ExportersSpec.run_exporter_snoc.
Qed.

(** A new frame, or a step without one. *)
Lemma seen_metrics ls s0 src s :
  Seen (published ls s0) s -> executed ls s0 = Some s -> stepped (MetricsTick src) s = Some (metrics_tick to_lowercase src s) ->
  Seen (published (ls ++ [MetricsTick src]) s0) (metrics_tick to_lowercase src s).
Proof.
  intros [Hl Hs He] Hrun Hstep. rewrite (history_snoc _ _ _ _ _ Hrun Hstep). clear Hstep.
  unfold metrics_tick. destruct (Metrics.collect _ _ _) as [[frame|] h]; cbn [frames with_hub_frames Watch.send Watch.version].
  - rewrite (proj2 (Nat.eqb_neq _ _)) by lia. split; [by rewrite last_snoc | |].
    + intros i socket Hi. destruct (Hs i socket Hi) as (fs & Hfs & Hp). exists fs. split; [by apply in_order_more | done].
    + intros t Ht. destruct (He t Ht) as (fs & Hfs & Hp). exists fs. split; [by apply in_order_more | done].
  - rewrite Nat.eqb_refl, app_nil_r. by split.
Qed.

Lemma seen_step ls s0 l s s' :
  executed ls s0 = Some s -> Seen (published ls s0) s -> stepped l s = Some s' -> Seen (published (ls ++ [l]) s0) s'.
Proof.
  intros Hrun Hseen Hstep. destruct (step_cases _ _ _ Hstep) as [_ Hs'].
  assert (frames s' = frames s -> Seen (published ls s0) s' -> Seen (published (ls ++ [l]) s0) s') as Hquiet.
  { intros Hf H. rewrite (history_snoc _ _ _ _ _ Hrun Hstep), Hf, Nat.eqb_refl, app_nil_r. exact H. }
  destruct l; open_hyps; subst s'.
  - by apply seen_metrics.
  - apply Hquiet; [unfold exporter_wake; by repeat case_match | by apply seen_exporter_wake].
  - destruct r; apply Hquiet; try done; by apply (seen_same _ s).
  - destruct (request_parts e headers query s) as (_ & _ & _ & Hf & _ & He & _ & _ & Hsock).
    apply Hquiet; [done|]. destruct Hseen as [Hl Hs Hexp]. split; rewrite ?Hf, ?He; [done | | done].
    intros i socket Hi. rewrite Hsock in Hi. apply lookup_app_Some in Hi as [Hi|[_ Hi]]; [by apply (Hs i)|].
    exists []. split; [apply in_order_nil|]. destruct (Server.response_body _); try done.
    destruct (i - length (sockets s))%nat; cbn in Hi; by simplify_eq.
  - apply Hquiet; [done | by apply seen_socket_turn].
  - apply Hquiet; [done | by apply (seen_same _ s)].
  - apply Hquiet; unfold plugin_turn; destruct (IpcSession.iteration E (ipc s)) as [[]]; try done; by apply (seen_same _ s).
  - apply Hquiet; unfold tray_turn; destruct e; try done; try (by apply (seen_same _ s));
      destruct (Tray.shutdown_flag _); done || by apply (seen_same _ s).
  - apply Hquiet; [done | by apply (seen_same _ s)].
  - apply Hquiet; [done | by apply (seen_same _ s)].
  - apply Hquiet; [done | by apply (seen_same _ s)].
Qed.

Lemma seen_reachable world now ls s :
  executed ls (initial world now) = Some s -> Seen (published ls (initial world now)) s.
Proof.
  apply (exec_invariant (fun ls s => Seen (published ls (initial world now)) s)).
  - split; [done | by intros i socket Hi |]. intros t. unfold exported. cbn [exporter spawn].
    destruct (Config.grafana_enabled _); cbn; [|done].
    destruct (Config.endpoint (Config.grafana config)) as [endpoint|]; [|done]. intros [= <-].
    exists []. split; [apply in_order_nil | done].
  - intros ls' l s1 s2 Hrun Hseen Hstep. by eapply seen_step.
Qed.

Lemma step_frames l s s' :
  stepped l s = Some s' -> frames s' = frames s \/
  exists src frame h, Metrics.collect to_lowercase src (hub s) = (Some frame, h) /\ frames s' = Watch.send frame (frames s).
Proof.
  intros [_ Hs']%step_cases. destruct l; open_hyps; subst s'; try (by left).
  - unfold metrics_tick. destruct (Metrics.collect _ src _) as [[frame|] h] eqn:Hc; [right; by eexists _, _, _ | by left].
  - left. unfold exporter_wake. by repeat case_match.
  - left. by destruct r.
  - left. apply request_parts.
  - left. unfold plugin_turn. by destruct (IpcSession.iteration E (ipc s)) as [[]].
  - left. unfold tray_turn. destruct e; [done|]. by destruct (Tray.shutdown_flag _).
Qed.

Lemma step_exporter l s s' :
  stepped l s = Some s' -> exporter s' = exporter s \/ exists t, exporter s = Some t.
Proof.
  intros [_ Hs']%step_cases. destruct (exporter s) as [t|] eqn:He; [by right; exists t | left].
  destruct l; open_hyps; subst s'; try done.
  - unfold metrics_tick. by destruct (Metrics.collect _ _ _) as [[]].
  - unfold exporter_wake. by rewrite He.
  - by destruct r.
  - destruct (request_parts e headers query s) as (_ & _ & _ & _ & _ & Hx & _). by rewrite Hx.
  - unfold plugin_turn. by destruct (IpcSession.iteration E (ipc s)) as [[]].
  - unfold tray_turn. destruct e; [done|]. by destruct (Tray.shutdown_flag _).
Qed.

(** A frame every consumer can take. *)
Definition good_frame (f : TelemetryFrame) : Prop := TelemetryFrame_wf f /\ MetricsSpec.is_nan_or_unit (health f).

Lemma published_good world now ls s :
  executed ls (initial world now) = Some s -> Forall good_frame (published ls (initial world now)).
Proof.
  apply (exec_invariant (fun ls _ => Forall good_frame (published ls (initial world now)))).
  - constructor; [|constructor]. split; [constructor | right; by vm_compute].
  - intros ls' l s1 s2 Hrun Hgood Hstep. rewrite (history_snoc _ _ _ _ _ Hrun Hstep). apply Forall_app. split; [done|].
    destruct (step_frames _ _ _ Hstep) as [->|(src & frame & h & Hc & ->)]; [by rewrite Nat.eqb_refl|].
    cbn [Watch.send Watch.version Watch.borrow]. rewrite (proj2 (Nat.eqb_neq _ _)) by lia.
    constructor; [|constructor]. exact (MetricsSpec.collect_frame_wf _ _ _ _ _ Hc).
Qed.

(** ** Requests without credentials *)

(** The request is refused, or its endpoint is public. *)
Definition uncredentialed l : Prop :=
  match l with
  | Request e headers query =>
      match ServerSpec.policy_of e with
      | Some policy => Server.is_token_valid headers query (App.run_token started) policy = false
      | None => True
      end
  | _ => True
  end.

(** What requests can change for good. *)
Definition assets (v : Server.Server) :=
  (Server.world v, Server.vault v, Server.grafana_configured v, Server.aegis_session_snapshot v, Server.ipc_sent v).

Lemma uncredentialed_request e headers query s :
  uncredentialed (Request e headers query) ->
  let s' := (request os o started e headers query s).2 in
  assets (server s') = assets (server s) /\ sockets s' = sockets s /\
  IpcSession.out (ipc s') = IpcSession.out (ipc s) /\ IpcSession.core_cmd_rx (ipc s') = IpcSession.core_cmd_rx (ipc s).
Proof.
  intros Hun. destruct (request_parts e headers query s) as (Hv & _ & Hipc & _ & _ & _ & _ & _ & Hsock). cbn in Hun.
  assert (exists r v, Server.serve os o (consts started) e headers query (server s) = (r, v) /\
    assets v = assets (server s) /\ Server.response_body r <> Server.Upgrade) as (r & v & Hr & Ha & Hb).
  { destruct (ServerSpec.policy_of e) as [policy|] eqn:Hp.
    - destruct (ServerSpec.route_refuses os o (consts started) e headers query policy (server s) Hp Hun) as (b & Hb & Hr).
      unfold Server.serve. rewrite Hr. by eexists _, _.
    - destruct e; try done; by eexists _, _. }
  rewrite Hr in Hv, Hipc, Hsock. cbn [fst snd] in *. rewrite Hv. split; [done|]. split.
  { rewrite Hsock. destruct (Server.response_body r); by rewrite ?app_nil_r. }
  assert (Server.ipc_sent v = Server.ipc_sent (server s)) as Hs by (by injection Ha).
  rewrite Hipc, Hs, drop_all. unfold deliver_commands. destruct (session_live s); [|done]. done.
Qed.

Lemma uncredentialed_run world now ls s :
  Forall uncredentialed ls -> executed ls (initial world now) = Some s ->
  assets (server s) = assets (server (initial world now)) /\ sockets s = [].
Proof.
  intros Hun Hrun. revert Hun.
  refine (exec_invariant (fun ls s => Forall uncredentialed ls ->
    assets (server s) = assets (server (initial world now)) /\ sockets s = []) _ _ _ _ _ Hrun); [done|].
  intros ls' l s1 s2 _ IH Hstep [Hls Hl]%Forall_app. destruct (IH Hls) as [Ha Hs]. inversion_clear Hl as [|? ? Hl' _].
  destruct (step_cases _ _ _ Hstep) as [_ Hs2]. destruct l; open_hyps; subst s2; try done.
  - unfold metrics_tick. by destruct (Metrics.collect _ _ _) as [[]].
  - unfold exporter_wake. by repeat case_match.
  - by destruct r.
  - destruct (uncredentialed_request e headers query s1 Hl') as (Ha' & Hs' & _). by rewrite Ha', Hs'.
  - cbn [sockets server with_sockets]. by rewrite Hs.
  - unfold plugin_turn. by destruct (IpcSession.iteration E (ipc s1)) as [[]].
  - unfold tray_turn. destruct e; [done|]. by destruct (Tray.shutdown_flag _).
Qed.

(** ** The exporter's interval *)

(** A started exporter is an enabled one. *)
Lemma exporter_enabled world now ls s t :
  executed ls (initial world now) = Some s -> exporter s = Some t -> Config.grafana_enabled (Config.grafana config) = true.
Proof.
  intros Hrun. revert t. refine (exec_invariant (fun _ s => forall t, exporter s = Some t ->
    Config.grafana_enabled (Config.grafana config) = true) _ _ _ _ _ Hrun).
  - intros t. cbn [exporter spawn]. by destruct (Config.grafana_enabled _).
  - intros ls' l s1 s2 _ IH Hstep t Ht. destruct (step_exporter _ _ _ Hstep) as [Heq | (t0 & Heq)]; [rewrite Heq in Ht|]; eauto.
Qed.

Lemma exporter_interval world now ls s t :
  Config.validate config = Ok tt -> executed ls (initial world now) = Some s -> exporter s = Some t ->
  Config.push_interval_ms (Config.grafana config) <> 0.
Proof.
  intros Hv Hrun Ht. pose proof (exporter_enabled _ _ _ _ _ Hrun Ht) as Hen.
  apply ConfigSpec.validate_acceptable in Hv as (_ & _ & Hg & _). destruct (Hg Hen) as (_ & _ & Hi). lia.
Qed.

(** ** Stopping *)

Definition quit_clicked ls : Prop := TrayTurn (Tray.Click Tray.Quit) ∈ ls.
(** [ctrl_c()] returned, with the signal or with an error. *)
Definition interrupted ls : Prop := exists signal, CtrlC signal ∈ ls.

(** Why a run may have ended, and that only a quit or ctrl-c touches the channel. *)
Definition Ends ls s : Prop :=
  (shutdown_requested s = true <-> quit_clicked ls \/ interrupted ls) /\
  match outcome s with
  | None => ~ interrupted ls
  | Some (Ok _) => quit_clicked ls \/ interrupted ls
  | Some (Err e) => Bind (Err e) ∈ ls \/ ServerDone (Err e) ∈ ls
  end.

Lemma snoc_other {A} (x y : A) (q : list A) : x <> y -> x ∈ q ++ [y] <-> x ∈ q.
Proof. intros Hxy. rewrite elem_of_app, list_elem_of_singleton. naive_solver. Qed.

Lemma interrupted_other l ls : (forall signal, l <> CtrlC signal) -> interrupted (ls ++ [l]) <-> interrupted ls.
Proof. intros Hl. unfold interrupted. split; intros [x Hx]; exists x; by rewrite ?snoc_other in *. Qed.

Lemma ends_quiet ls l s s' :
  Ends ls s -> outcome s = None -> outcome s' = None -> (forall signal, l <> CtrlC signal) -> l <> TrayTurn (Tray.Click Tray.Quit) ->
  shutdown_requested s' = shutdown_requested s -> Ends (ls ++ [l]) s'.
Proof.
  intros [H1 H2] Ho Ho' Hc Hq Hs. unfold Ends, quit_clicked in *. rewrite Ho', Hs, interrupted_other, snoc_other by done.
  by rewrite Ho in H2.
Qed.

Lemma ends_step ls l s s' : Ends ls s -> stepped l s = Some s' -> Ends (ls ++ [l]) s'.
Proof.
  intros He Hstep. destruct (step_cases _ _ _ Hstep) as [Ho Hs']. pose proof He as [H1 H2].
  destruct l; open_hyps; subst s'; try (by apply (ends_quiet _ _ s)).
  - apply (ends_quiet _ _ s); try done; unfold metrics_tick; by destruct (Metrics.collect _ _ _) as [[]].
  - apply (ends_quiet _ _ s); try done; unfold exporter_wake; by repeat case_match.
  - destruct r as [|e]; [by apply (ends_quiet _ _ s)|]. unfold Ends, quit_clicked in *. cbn [outcome with_outcome].
    rewrite interrupted_other, !snoc_other by done. split; [exact H1|]. left. apply elem_of_app. right. left.
  - destruct (request_parts e headers query s) as (_ & _ & _ & _ & _ & _ & Ht & Hout & _).
    apply (ends_quiet _ _ s); try done; [by rewrite Hout|]. unfold shutdown_requested. by rewrite Ht.
  - apply (ends_quiet _ _ s); try done; unfold plugin_turn; by destruct (IpcSession.iteration E (ipc s)) as [[]].
  - destruct e as [i|].
    + destruct (decide (i = Tray.Quit)) as [->|Hi].
      * unfold Ends, quit_clicked in *. cbn [outcome tray_turn with_tray]. rewrite Ho in *.
        rewrite interrupted_other by done. split; [|done]. split; [intros _; left; apply elem_of_app; right; left|].
        intros _. done.
      * apply (ends_quiet _ _ s); try done; [congruence|]. unfold shutdown_requested, tray_turn. cbn [tray with_tray].
        destruct i; try done. cbn. by destruct (Tray.clip_starts _).
    + apply (ends_quiet _ _ s); try done; unfold tray_turn; by destruct (Tray.shutdown_flag _).
  - unfold Ends, quit_clicked. cbn. split; [split; [intros _ | done]|]; right; exists signal; apply elem_of_app; right; left.
  - unfold Ends, quit_clicked in *. cbn [outcome with_outcome]. rewrite interrupted_other, !snoc_other by done. split; [exact H1 | by apply H1].
  - match goal with H : is_ok r = false \/ _ |- _ => destruct r as [u|e]; [destruct H as [|Hreq]; [done|]|] end;
      unfold Ends, quit_clicked in *; cbn [outcome with_outcome]; rewrite interrupted_other, !snoc_other by done.
    + split; [exact H1 | by apply H1].
    + split; [exact H1|]. right. apply elem_of_app. right. left.
Qed.

Lemma ends_reachable world now ls s : executed ls (initial world now) = Some s -> Ends ls s.
Proof.
  apply exec_invariant; [|intros; by eapply ends_step].
  split; [|by intros [? ?%elem_of_nil]]. cbn. unfold quit_clicked. split; [done | by intros [?%elem_of_nil|[? ?%elem_of_nil]]].
Qed.
End Spec.
