(* ===== verification/RuntimeSpec.v ===== *)
(** * RuntimeSpec: what the running program guarantees

    Theorems over every run of [Runtime]: any interleaving of the tasks, any
    requests, any plugin, any outside.  The witnesses run a small program from
    its start. *)

From Stdlib Require Import Sorted Strings.Byte.
From S2P Require Import Prelude Effects RustStd Channels Float Model.
From S2P Require Host Config ConfigSpec Metrics MetricsSpec Tray Dashboard Exporters ExportersSpec Security Aegis Ipc.
From S2P Require IpcWire IpcSession IpcSessionFacts IpcSessionSpec IpcProtocol IpcCommands IpcForward App Server ServerSpec.
From S2P Require Import Runtime RuntimeFacts.
From S2P Require Msgpack DevClientSpec Schema.

#[local] Open Scope Z_scope.

Section Spec.
Context {Client Histogram Url Value : Type}.
Context {meter : Exporters.Meter Histogram} {url_ops : Aegis.UrlOps Url} {api_json : Aegis.ApiJson}.
Context {b64 : Security.Base64} {dp : Security.DataProtection} {vj : Security.VaultJson} {toml : Config.TomlCodec}.
Context {wire : IpcWire.WireCodec (Ipc.Envelope Ipc.EvtPayload) (Ipc.Envelope Value)} {codec : IpcSession.PayloadCodec Value}.
Context {tray_item : Tray.TrayItem}.
Context (to_lowercase : string -> string) (os : Host.Host) (o : Server.Outside Url).
Context (started : App.Started).

Abbreviation Sys := (System (Client:=Client) (Histogram:=Histogram)).
Abbreviation executed ls s := (exec (Value:=Value) to_lowercase os o started ls s).
Abbreviation initial w now := (spawn started w now : Sys).
Abbreviation config := (App.run_config started).
Implicit Types (s : Sys) (ls : list (Label (Client:=Client))).

(** C2: no scene switch without an authorised request.  In every run of the
    program, every [switch_scene] frame a plugin session has been sent goes back
    to a POST on the scene-switch endpoint earlier in the run that carried the
    server's token: the scene is the trimmed one of that request, the reason is
    not empty, and the deadline lies between 50 and 5000 milliseconds. *)
Theorem scene_switch_authorised world now ls s m sp :
  executed ls (initial world now) = Some s ->
  m ∈ IpcSession.out (ipc s) -> IpcSessionFacts.switch_scene_of m = Some sp ->
  exists headers query body,
    Request (Server.PostIpcSwitchScene body) headers query ∈ ls /\
    Server.is_token_valid headers query (App.run_token started) Server.Deny = true /\
    Ipc.scene_name sp = Str.trim (Server.sw_scene_name body) /\ Ipc.reason sp <> "" /\
    50 <= Ipc.deadline_ms sp <= 5000.
Proof.
  intros Hrun Hm Hsp. destruct (commands_reachable _ _ _ _ _ _ _ _ Hrun) as [Hs [_ Ho _]].
  destruct (Hs _ (Ho m sp Hm Hsp)) as (headers & query & body & Hin & Hv & Hsc & Hwhy & Hms & _).
  by exists headers, query, body.
Qed.

(** C23: a pending switch is never far from its deadline.  In every state a run
    reaches, each pending scene switch of the session belongs to an authorised
    request, was announced at a time the session's clock has passed, and is due
    between 50 milliseconds and 5 seconds after that; so at any moment no
    entry of the pending map has more than five seconds left. *)
Theorem pending_switch_bounded world now ls s i p :
  executed ls (initial world now) = Some s ->
  IpcSession.pending_switches (ipc s) !! i = Some p ->
  exists why ms announced,
    authorised started ls (Ipc.SwitchScene (Ipc.pending_scene_name p) why ms) /\
    Ipc.deadline_at p = announced + ms * 1000000 /\ 50 <= ms <= 5000 /\
    announced <= IpcSession.clock (ipc s) /\
    Ipc.deadline_at p <= IpcSession.clock (ipc s) + 5000000000.
Proof.
  intros Hrun Hp. destruct (commands_reachable _ _ _ _ _ _ _ _ Hrun) as [Hs [_ _ Hd]].
  destruct (Hd i p Hp) as (why & ms & announced & Ha & Hdl & Hle). pose proof (Hs _ Ha) as Hauth.
  exists why, ms, announced. assert (50 <= ms <= 5000) as Hms by (destruct Hauth as (? & ? & ? & _ & _ & _ & _ & ? & _); done).
  unfold Ipc.from_millis in Hdl. split_and!; (done || lia).
Qed.

(** C29: every frame that leaves the program is well formed.  Whatever the
    sources answer, each frame published in a run has bitrates within 32 bits
    and a health between 0 and 1 (or NaN); so has each payload any dashboard has
    been sent, and the frame the exporter and the sessions read next. *)
Theorem frames_well_formed world now ls s :
  executed ls (initial world now) = Some s ->
  Forall good_frame (published to_lowercase os o started ls (initial world now)) /\
  good_frame (Watch.borrow (frames s)) /\
  (forall i socket p, sockets s !! i = Some socket -> p ∈ Dashboard.pushed socket ->
     Forall StreamOutput_wf (Dashboard.pl_outputs p) /\ MetricsSpec.is_nan_or_unit (Dashboard.pl_health p)).
Proof.
  intros Hrun. pose proof (published_good _ _ _ _ _ _ _ _ Hrun) as Hgood.
  destruct (seen_reachable _ _ _ _ _ _ _ _ Hrun) as [Hl Hs _]. split_and!; [done | |].
  - rewrite Forall_forall in Hgood. apply Hgood. rewrite last_lookup in Hl. by eapply list_elem_of_lookup_2.
  - intros i socket p Hi Hp. destruct (Hs i socket Hi) as (fs & (idx & _ & Hf) & Hpushed).
    rewrite Hpushed in Hp. apply list_elem_of_fmap in Hp as (f & -> & Hin).
    apply list_elem_of_lookup_1 in Hin as [j Hj]. destruct (Forall2_lookup_r _ _ _ _ _ Hf Hj) as (n & _ & Hn).
    rewrite Forall_forall in Hgood. apply list_elem_of_lookup_2 in Hn. by destruct (Hgood f Hn).
Qed.

(** C12: readers see the published frames in order.  In every reachable state,
    what each dashboard socket has been sent are published frames, possibly
    skipping or repeating some but never going back; and the exporter task is
    the one that has been woken with such a sequence, so what it has recorded
    are frames of the run in their order. *)
Theorem readers_in_order world now ls s :
  executed ls (initial world now) = Some s ->
  let pub := published to_lowercase os o started ls (initial world now) in
  last pub = Some (Watch.borrow (frames s)) /\
  (forall i socket, sockets s !! i = Some socket ->
     exists fs, in_order pub fs /\ Dashboard.pushed socket = map Dashboard.payload_of fs) /\
  (forall t, exporter s = Some t -> exists fs, in_order pub fs /\ exported started fs = Some t).
Proof. intros Hrun pub. by destruct (seen_reachable _ _ _ _ _ _ _ _ Hrun). Qed.

(** C31: a validated configuration keeps the exporter alive.  If the
    configuration the program started with is acceptable, then in every run the
    exporter task, when there is one, never panics, every pause it has taken is
    between one and thirty seconds, and once it is constructed it keeps that
    exporter. *)
Theorem exporter_survives world now ls s t :
  Config.validate config = Ok tt -> executed ls (initial world now) = Some s -> exporter s = Some t ->
  Exporters.task_state t <> Exporters.Panicked /\
  Forall (fun ms => 1000 <= ms <= 30000) (Exporters.pauses t) /\
  (exists endpoint n, Config.endpoint (Config.grafana config) = Some endpoint /\
     match Exporters.task_state t with
     | Exporters.Recording exporter => exists p,
         Exporters.new n endpoint (Config.auth_header (Config.grafana config)) (App.run_grafana_auth started)
           (Config.push_interval_ms (Config.grafana config)) = Ok (exporter, p) /\ n = length (Exporters.pauses t)
     | _ => Exporters.recorded t = []
     end).
Proof.
  intros Hvalid Hrun Ht. destruct (seen_reachable _ _ _ _ _ _ _ _ Hrun) as [_ _ He].
  destruct (He t Ht) as (fs & _ & Hfs). unfold exported in Hfs.
  destruct (Config.endpoint (Config.grafana config)) as [endpoint|] eqn:Hend; [|done]. cbn in Hfs. simplify_eq.
  assert (Config.push_interval_ms (Config.grafana config) <> 0) as Hint by (by eapply exporter_interval).
  set (t := Exporters.run_exporter _ _ _ _ fs).
  pose proof (ExportersSpec.task_is_explained endpoint (Config.auth_header (Config.grafana config))
    (App.run_grafana_auth started) (Config.push_interval_ms (Config.grafana config)) fs) as (Hp & _ & Hst). fold t in Hp, Hst.
  split_and!.
  - intros Hpanic. rewrite Hpanic in Hst. by destruct Hst.
  - rewrite Hp. apply Forall_forall. intros ms (i & -> & _)%list_elem_of_fmap. apply ExportersSpec.backoff_at_bounds.
  - exists endpoint, (length (Exporters.pauses t)). split; [done|].
    destruct (Exporters.task_state t) as [b|exporter|]; [by destruct Hst as (_ & _ & ? & _) | | by destruct Hst as (? & _)].
    destruct Hst as (_ & _ & (p & Hnew & _) & _). by exists p.
Qed.

(** C5: without credentials a run changes nothing.  In a run whose requests all
    lack the credentials of their endpoint (or ask a public one), however many
    there are and whatever else happens in between, the configuration files, the
    environment, the vault, the exporter flag and the relay snapshot are those
    of the start, no dashboard socket was opened, no command was broadcast, and
    no plugin session was told to switch scenes. *)
Theorem no_credentials_no_trace world now ls s :
  Forall (uncredentialed started) ls -> executed ls (initial world now) = Some s ->
  let v := server s in
  Server.world v = world /\ Server.vault v = App.run_vault started /\
  Server.grafana_configured v = App.run_grafana_configured started /\
  Server.aegis_session_snapshot v = App.run_snapshot started /\ Server.ipc_sent v = [] /\ sockets s = [] /\
  (forall m, m ∈ IpcSession.out (ipc s) -> IpcSessionFacts.switch_scene_of m = None) /\
  IpcSession.pending_switches (ipc s) = ∅.
Proof.
  intros Hun Hrun v. destruct (uncredentialed_run _ _ _ _ _ _ _ _ Hun Hrun) as [Ha Hsock].
  injection Ha as Hw Hv Hg Hr Hsent. destruct (commands_reachable _ _ _ _ _ _ _ _ Hrun) as [_ [_ Ho Hd]].
  unfold sent in Ho, Hd. rewrite Hsent in Ho, Hd. split_and!; try done.
  - intros m Hm. destruct (IpcSessionFacts.switch_scene_of m) as [sp|] eqn:Hsp; [|done].
    by pose proof (Ho m sp Hm Hsp) as ?%elem_of_nil.
  - apply map_empty. intros i. destruct (_ !! i) as [p|] eqn:Hi; [|done].
    destruct (Hd i p Hi) as (why & ms & a & Hc & _). by apply elem_of_nil in Hc.
Qed.

(** What an accepted request leaves in the queue of the open session. *)
Lemma accepted_request world now ls s headers query body waiting :
  executed ls (initial world now) = Some s -> session_live s = true ->
  Server.is_token_valid headers query (App.run_token started) Server.Deny = true ->
  Str.trim (Server.sw_scene_name body) <> "" ->
  IpcSession.core_cmd_rx (ipc s) = map Some waiting -> (length waiting < COMMAND_CAPACITY)%nat ->
  let '(r, s1) := request os o started (Server.PostIpcSwitchScene body) headers query s in
  Server.status_code r = Server.OK /\
    ipc s1 = IpcSession.with_core_cmd_rx (map Some (waiting ++ [ServerSpec.asked body])) (ipc s) /\
    session_live s1 = true /\ outcome s1 = outcome s.
Proof.
  intros Hrun Hlive Hv Hsc Hq Hroom. pose proof (subscribed_reachable _ _ _ _ _ _ _ _ Hrun) as Hsub.
  unfold subscribed in Hsub. rewrite Hlive in Hsub.
  pose proof (ServerSpec.switch_scene_cases os o (consts started) headers query body (server s) Hv) as Hcases.
  unfold request. destruct (Server.serve _ _ _ _ _ _ (server s)) as [r v].
  destruct Hcases as [(_ & _ & He & _)|[(_ & _ & Hz)|(Hok & _ & ->)]]; [done | congruence |].
  set (c := ServerSpec.asked body). rewrite Hok. split; [done|].
  assert (drop (length (Server.ipc_sent (server s))) (Server.ipc_sent (Server.push_command c (server s))) = [c]) as ->
    by apply drop_app_length.
  assert (deliver_commands [c] (with_server (Server.push_command c (server s)) s) =
    with_ipc (IpcSession.with_core_cmd_rx (map Some (waiting ++ [c])) (ipc s)) true (ipc_log s)
      (with_server (Server.push_command c (server s)) s)) as ->.
  { unfold deliver_commands. cbn [session_live with_server ipc ipc_log fold_left]. rewrite Hlive, Hq. unfold Broadcast.deliver.
    rewrite Broadcast.values_map, (proj2 (Nat.ltb_lt _ _) Hroom), map_app. done. }
  by destruct (Server.response_body r).
Qed.

(** C11: an accepted scene switch reaches the plugin.  In any state of a run in
    which a session is open and past its handshake and its queue has room, a
    scene-switch request with the token and a scene is answered 200; and if the
    session takes the next turn on a pipe that takes its frames, then, after the
    commands that were already waiting, it has written a [switch_scene] frame
    with the scene, the reason and the clamped deadline of that request.  The
    frames the session builds for these commands (with the identifiers and the
    time it draws) have to be encodable: their size is below the limit of the
    protocol. *)
Theorem accepted_switch_is_announced world now ls s headers query body waiting E :
  executed ls (initial world now) = Some s ->
  outcome s = None -> bound s = true -> session_live s = true -> IpcSession.handshake_complete (ipc s) = true ->
  Server.is_token_valid headers query (App.run_token started) Server.Deny = true ->
  Str.trim (Server.sw_scene_name body) <> "" ->
  IpcSession.core_cmd_rx (ipc s) = map Some waiting -> (length waiting < COMMAND_CAPACITY)%nat ->
  (forall n, IpcSession.env_write E n = None) ->
  Forall (IpcForward.fits_frame E) (waiting ++ [ServerSpec.asked body]) ->
  let e := Server.PostIpcSwitchScene body in
  Server.status_code (request os o started e headers query s).1 = Server.OK /\
  exists s' ms m, executed (ls ++ [Request e headers query; PluginTurn E]) (initial world now) = Some s' /\
    IpcSession.out (ipc s) ++ ms ++ [m] `prefix_of` IpcSession.out (ipc s') /\
    Forall2 IpcForward.announced_by ms waiting /\
    IpcForward.announced_by m (ServerSpec.asked body) /\ ServerSpec.conveyed_by body (ServerSpec.asked body).
Proof.
  intros Hrun Hout Hbound Hlive Hh Hv Hsc Hq Hroom Hw Hfits e.
  pose proof (accepted_request world now ls s headers query body waiting Hrun Hlive Hv Hsc Hq Hroom) as Hreq. fold e in Hreq.
  destruct (request os o started e headers query s) as [r s1] eqn:Hr.
  destruct Hreq as (Hst & Hipc & Hlive1 & Hout1). split; [exact Hst|].
  destruct (IpcForward.iteration_announces (Value:=Value) E Hw (waiting ++ [ServerSpec.asked body]) (ipc s1)) as (ms & Hpre & Hms);
    [by rewrite Hipc | by rewrite Hipc | exact Hfits |].
  apply Forall2_app_inv_r in Hms as (ms1 & ms2 & Hms1 & Hms2 & ->).
  apply Forall2_cons_inv_r in Hms2 as (m & ms3 & Hm & Hnil & ->). apply Forall2_nil_inv_r in Hnil as ->.
  exists (plugin_turn (Value:=Value) E s1), ms1, m. split_and!; [| | done | done | apply ServerSpec.asked_conveyed].
  - replace (ls ++ [Request e headers query; PluginTurn E]) with ((ls ++ [Request e headers query]) ++ [PluginTurn E])
      by (by rewrite <- app_assoc).
    rewrite !exec_snoc, Hrun. cbn. unfold step. rewrite Hout, Hbound, Hr. cbn. by rewrite Hout1, Hout, Hlive1.
  - rewrite Hipc in Hpre. unfold plugin_turn. rewrite Hipc. unfold final in Hpre.
    destruct (IpcSession.iteration E _) as [[u|x] i]; exact Hpre.
Qed.

(** C30: the program stops when it is asked to, and only then.  When [run] has
    returned normally, "Quit" was clicked or waiting for ctrl-c was over (it was
    pressed, or no handler could be installed: [run] takes both alike); when it has
    returned an error, that error came from binding or serving, and the exit
    code is 1.  After a click on "Quit" a program that still runs can return
    normally at its next turn, whatever the other tasks do; and nothing happens
    after it has returned. *)
Theorem stops_only_when_asked world now ls s :
  executed ls (initial world now) = Some s ->
  match outcome s with
  | Some (Ok _ as r) => exit_code r = 0 /\ (quit_clicked ls \/ interrupted ls)
  | Some (Err e as r) => exit_code r = 1 /\ (Bind (Err e) ∈ ls \/ ServerDone (Err e) ∈ ls)
  | None => quit_clicked ls <-> exists s', step (Value:=Value) to_lowercase os o started ShutdownSeen s = Some s' /\
                                  outcome s' = Some (Ok tt)
  end /\
  (is_Some (outcome s) -> forall l, step (Value:=Value) to_lowercase os o started l s = None).
Proof.
  intros Hrun. destruct (ends_reachable _ _ _ _ _ _ _ _ Hrun) as [Hreq Hout]. unfold step.
  destruct (outcome s) as [[u|e]|]; [done.. | split; [|by intros []]].
  destruct (shutdown_requested s).
  - split; [intros _ | intros _; by destruct (proj1 Hreq eq_refl)]. eexists. by split.
  - split; [intros Hq; by discriminate (proj2 Hreq (or_introl Hq)) | by intros (s' & [=] & _)].
Qed.
End Spec.

(** ** Witnesses *)

#[local] Existing Instance ServerSpec.demo_url.
#[local] Existing Instance ServerSpec.demo_api_json.
#[local] Existing Instance ServerSpec.demo_base64.
#[local] Existing Instance ServerSpec.demo_vault_json.
#[local] Existing Instance ServerSpec.demo_toml.
#[local] Existing Instance Security.portable_protection.
#[local] Existing Instance IpcSessionSpec.demo_wire.
#[local] Existing Instance IpcSessionSpec.demo_codec.
#[local] Existing Instance ExportersSpec.demo_meter.
#[local] Existing Instance Tray.demo_tray_item.

(** A program with an exporter, started with the token "tok". *)
Definition demo_config : Config.Config := {|
  Config.obs := Config.ObsConfig_default; Config.server := Config.ServerConfig_default;
  Config.vault := {| Config.vault_path := None |};
  Config.grafana := {| Config.grafana_enabled := true; Config.endpoint := Some "https://otlp";
    Config.auth_header := "Authorization"; Config.auth_value_key := Some "grafana_auth"; Config.push_interval_ms := 5000 |};
  Config.aegis := Config.AegisConfig_default; Config.network := Config.NetworkConfig_default;
  Config.startup := Config.StartupConfig_default; Config.tray := Config.TrayConfig_default;
  Config.theme := Config.ThemeConfig_default; Config.output_names := ∅ |}.

Definition demo_started : App.Started := {|
  App.run_config := demo_config; App.run_vault := Security.mkVault "v.json" ∅; App.run_obs_password := None;
  App.run_grafana_auth := Some "Basic x"; App.run_grafana_configured := true; App.run_snapshot := None;
  App.run_addr := ([127; 0; 0; 1], 7070); App.run_token := "tok"; App.dashboard_url := "http://127.0.0.1:7070/obs?token=tok";
  App.settings_url := "http://127.0.0.1:7070/settings?token=tok" |}.

Abbreviation demo_initial := (spawn demo_started (Host.mkWorld 0 ∅ ∅) 0 : System (Client:=unit) (Histogram:=string)).
Abbreviation demo_exec ls :=
  (exec (Value:=IpcSessionSpec.DemoValue) (fun s => s) ServerSpec.demo_os ServerSpec.demo_outside demo_started ls demo_initial).

(** A frame is published and pushed to a dashboard, the exporter is constructed
    at its third attempt, a plugin connects and says hello, a request with the
    token asks for a scene, and the session announces it. *)
Definition demo_run : list (Label (Client:=unit)) :=
  [ Bind (Ok tt); MetricsTick MetricsSpec.demo_sources; ExporterWake; ExporterWake; ExporterWake;
    Request Server.GetWs ServerSpec.demo_headers ∅; SocketTurn 0 (Dashboard.Tick true);
    PluginConnects IpcSessionSpec.demo_env [IpcWire.Chunk [x01; x00; x00; x00; x01]%byte; IpcWire.Idle; IpcWire.Idle];
    PluginTurn IpcSessionSpec.demo_env;
    Request (Server.PostIpcSwitchScene ServerSpec.demo_switch) ServerSpec.demo_headers ∅;
    PluginTurn IpcSessionSpec.demo_env ].
Definition demo_system : System (Client:=unit) (Histogram:=string) := default demo_initial (demo_exec demo_run).

Lemma demo_executed : demo_exec demo_run = Some demo_system.
Proof. vm_compute. reflexivity. Qed.

(** The switches a session has announced. *)
Definition announced (o : list (Ipc.Envelope Ipc.EvtPayload)) : list Ipc.SwitchScenePayload :=
  omap IpcSessionFacts.switch_scene_of o.

Lemma announced_frame o sp : announced o = [sp] -> exists m, m ∈ o /\ IpcSessionFacts.switch_scene_of m = Some sp.
Proof. intros Ha. apply list_elem_of_omap. unfold announced in Ha. rewrite Ha. left. Qed.

Definition demo_payload : Ipc.SwitchScenePayload :=
  {| Ipc.request_id := "8"; Ipc.scene_name := "Live"; Ipc.reason := "manual_debug"; Ipc.deadline_ms := 5000 |}.

Lemma demo_announces : announced (IpcSession.out (ipc demo_system)) = [demo_payload].
Proof. vm_compute. reflexivity. Qed.

Lemma scene_switch_authorised_witness :
  exists headers query body,
    Request (Server.PostIpcSwitchScene body) headers query ∈ demo_run /\
    Ipc.scene_name demo_payload = Str.trim (Server.sw_scene_name body).
Proof.
  destruct (announced_frame _ _ demo_announces) as (m & Hm & Hsp).
  destruct (scene_switch_authorised (fun s => s) ServerSpec.demo_os ServerSpec.demo_outside demo_started
    (Host.mkWorld 0 ∅ ∅) 0 demo_run demo_system m demo_payload demo_executed Hm Hsp) as (headers & query & body & Hin & _ & Hsc & _).
  exists headers, query, body. exact (conj Hin Hsc).
Defined.

Lemma pending_switch_bounded_witness :
  exists i p, IpcSession.pending_switches (ipc demo_system) !! i = Some p /\
    Ipc.deadline_at p <= IpcSession.clock (ipc demo_system) + 5000000000.
Proof.
  destruct (map_to_list (IpcSession.pending_switches (ipc demo_system))) as [|[i p] l] eqn:Hl; [by vm_compute in Hl|].
  assert (IpcSession.pending_switches (ipc demo_system) !! i = Some p) as Hp
    by (apply elem_of_map_to_list; rewrite Hl; left).
  exists i, p. split; [exact Hp|].
  destruct (pending_switch_bounded (fun s => s) ServerSpec.demo_os ServerSpec.demo_outside demo_started
    (Host.mkWorld 0 ∅ ∅) 0 demo_run demo_system i p demo_executed Hp) as (why & ms & a & _ & _ & _ & _ & H).
  exact H.
Defined.

Lemma frames_well_formed_witness :
  length (published (Value:=IpcSessionSpec.DemoValue) (fun s => s) ServerSpec.demo_os ServerSpec.demo_outside demo_started demo_run demo_initial) = 2%nat /\
  good_frame (Watch.borrow (frames demo_system)).
Proof.
  split; [by vm_compute|].
  apply (frames_well_formed (fun s => s) ServerSpec.demo_os ServerSpec.demo_outside demo_started
    (Host.mkWorld 0 ∅ ∅) 0 demo_run demo_system demo_executed).
Defined.

Lemma readers_in_order_witness :
  map (fun s => length (Dashboard.pushed s)) (sockets demo_system) = [1%nat] /\
  exists fs t, exporter demo_system = Some t /\ exported demo_started fs = Some t.
Proof.
  split; [by vm_compute|].
  destruct (readers_in_order (fun s => s) ServerSpec.demo_os ServerSpec.demo_outside demo_started
    (Host.mkWorld 0 ∅ ∅) 0 demo_run demo_system demo_executed) as (_ & _ & He).
  destruct (exporter demo_system) as [t|] eqn:Ht; [|by vm_compute in Ht].
  destruct (He t eq_refl) as (fs & _ & Hfs). exists fs, t. exact (conj eq_refl Hfs).
Defined.

Lemma exporter_survives_witness :
  exists t, exporter demo_system = Some t /\ Exporters.pauses t = [1000; 2000] /\
    Exporters.task_state t <> Exporters.Panicked.
Proof.
  destruct (exporter demo_system) as [t|] eqn:Ht; [|by vm_compute in Ht]. exists t. split; [reflexivity|].
  split; [vm_compute in Ht; by simplify_eq|].
  apply (exporter_survives (fun s => s) ServerSpec.demo_os ServerSpec.demo_outside demo_started
    (Host.mkWorld 0 ∅ ∅) 0 demo_run demo_system t ltac:(by vm_compute) demo_executed Ht).
Defined.

(** The same requests with a wrong token. *)
Definition wrong_headers : Server.HeaderMap := {| Server.authorization := Some (Some "Bearer guess") |}.
Definition intruder_run : list (Label (Client:=unit)) :=
  [ Bind (Ok tt); Request Server.GetHealth wrong_headers ∅; Request Server.GetWs wrong_headers {["token" := "guess"]};
    PluginConnects IpcSessionSpec.demo_env [IpcWire.Chunk [x01; x00; x00; x00; x01]%byte; IpcWire.Idle];
    PluginTurn IpcSessionSpec.demo_env; Request (Server.PostSettings ServerSpec.demo_form) wrong_headers ∅;
    Request (Server.PostIpcSwitchScene ServerSpec.demo_switch) wrong_headers ∅; PluginTurn IpcSessionSpec.demo_env ].

Lemma no_credentials_no_trace_witness :
  exists s, demo_exec intruder_run = Some s /\ Server.ipc_sent (server s) = [] /\ sockets s = [] /\
    Server.world (server s) = Host.mkWorld 0 ∅ ∅.
Proof.
  destruct (demo_exec intruder_run) as [s|] eqn:Hs; [|by vm_compute in Hs]. exists s. split; [done|].
  assert (Forall (uncredentialed demo_started) intruder_run) as Hun by (repeat constructor; by vm_compute).
  destruct (no_credentials_no_trace (fun s => s) ServerSpec.demo_os ServerSpec.demo_outside demo_started
    (Host.mkWorld 0 ∅ ∅) 0 intruder_run s Hun Hs) as (Hw & _ & _ & _ & Hsent & Hsock & _).
  by split_and!.
Defined.

Lemma stops_only_when_asked_witness :
  exists s, demo_exec (demo_run ++ [TrayTurn (Tray.Click Tray.Quit); ShutdownSeen]) = Some s /\
    outcome s = Some (Ok tt) /\ forall src, step (Value:=IpcSessionSpec.DemoValue) (fun s => s) ServerSpec.demo_os ServerSpec.demo_outside
      demo_started (MetricsTick src) s = None.
Proof.
  destruct (demo_exec (demo_run ++ [TrayTurn (Tray.Click Tray.Quit); ShutdownSeen])) as [s|] eqn:Hs; [|by vm_compute in Hs].
  exists s. split; [done|]. assert (outcome s = Some (Ok tt)) as Ho by (vm_compute in Hs; by simplify_eq).
  split; [done|]. intros src.
  apply (stops_only_when_asked (fun s => s) ServerSpec.demo_os ServerSpec.demo_outside demo_started
    (Host.mkWorld 0 ∅ ∅) 0 (demo_run ++ [TrayTurn (Tray.Click Tray.Quit); ShutdownSeen]) s Hs). by rewrite Ho.
Defined.

(** In MessagePack: the server listens, a plugin has said hello, and a first
    request is waiting.  Identifiers have the length of a UUID. *)
Definition uuid_env : IpcSession.Env := {|
  IpcSession.env_tick := fun _ => 1000000%N; IpcSession.env_unix_ms := fun _ => 1700000000000;
  IpcSession.env_uuid := fun _ => "6ba7b810-9dad-41d1-80b4-00c04fd430c8"; IpcSession.env_write := fun _ => None;
  IpcSession.env_frame := fun _ => TelemetryFrame_default; IpcSession.env_relay := fun _ => None;
  IpcSession.env_order := fun _ l => l |}.
Abbreviation demo_request := (Request (Server.PostIpcSwitchScene ServerSpec.demo_switch) ServerSpec.demo_headers ∅).
Definition demo_open : list (Label (Client:=unit)) :=
  [ Bind (Ok tt);
    PluginConnects uuid_env [IpcWire.Chunk (nth 1 Schema.greeting_frames []); IpcWire.Idle; IpcWire.Idle];
    PluginTurn uuid_env; demo_request ].
Abbreviation packed_exec ls :=
  (exec (Value:=Msgpack.Json) (fun s => s) ServerSpec.demo_os ServerSpec.demo_outside demo_started ls demo_initial).
Definition demo_open_system : System (Client:=unit) (Histogram:=string) := default demo_initial (packed_exec demo_open).

Lemma demo_opened : packed_exec demo_open = Some demo_open_system.
Proof. vm_compute. reflexivity. Qed.

Lemma accepted_switch_is_announced_witness :
  exists s' m, packed_exec (demo_open ++ [demo_request; PluginTurn uuid_env]) = Some s' /\
    m ∈ IpcSession.out (ipc s') /\ IpcForward.announced_by m (Ipc.SwitchScene "Live" "manual_debug" 5000).
Proof.
  destruct (accepted_switch_is_announced (Value:=Msgpack.Json) _ _ _ _ _ _ demo_open _ ServerSpec.demo_headers ∅
    ServerSpec.demo_switch [ServerSpec.asked ServerSpec.demo_switch] uuid_env demo_opened)
    as (_ & s' & ms & m & Hs & [rest Hout] & _ & Hm & _).
  1-5: vm_compute; reflexivity.
  - vm_compute. discriminate.
  - vm_compute. reflexivity.
  - vm_compute. repeat constructor.
  - intros n. reflexivity.
  - repeat constructor; intros n; vm_compute; reflexivity.
  - exists s', m. split; [exact Hs|]. split; [|exact Hm].
    rewrite Hout. rewrite !elem_of_app. left. right. right. apply list_elem_of_here.
Defined.
