(* ===== verification/RuntimeSession.v ===== *)
(** * RuntimeSession: the sessions of a run are those of the pipe server

    [Runtime] performs a plugin session turn by turn, with an environment of its
    own at every turn and commands that arrive in between.  Here these turns are
    put together: after any run, what the sessions have done is what
    [run_named_pipe_server] does in one environment, over the clients that
    connected; a session that is still open is that of [handle_session_io] after
    some of its turns.  So what is proved of a whole session holds for the
    sessions of a run. *)

From Stdlib Require Import Strings.Byte.
From S2P Require Import Prelude Effects RustStd Channels Float Model.
From S2P Require Host Config Metrics MetricsSpec Tray Dashboard Exporters ExportersSpec Security Aegis Ipc IpcWire.
From S2P Require IpcSession IpcSessionFacts IpcSessionSpec IpcServer App Server ServerSpec RuntimeSpec.
From S2P Require Import IpcCoupling Runtime RuntimeFacts.

#[local] Open Scope Z_scope.

(** A turn of the server that the operating system grants. *)
Definition granted_turn (r : IpcWire.Reader) (cmds : list (option Ipc.CoreIpcCommand)) : IpcServer.Connection := {|
  IpcServer.init_descriptor := Ok tt; IpcServer.set_dacl := Ok tt; IpcServer.create_pipe := fun _ => Ok tt;
  IpcServer.connect_cmd := Ok tt; IpcServer.connect_evt := Ok tt; IpcServer.evt_first := false;
  IpcServer.client := (r, cmds) |}.

Section Server.
Context {Value : Type}.
Context {wire : IpcWire.WireCodec (Ipc.Envelope Ipc.EvtPayload) (Ipc.Envelope Value)} {codec : IpcSession.PayloadCodec Value}.
Implicit Types (E F : IpcSession.Env) (i st : IpcSession.State).

(** The state in which the session of the next client enters its loop. *)
Definition opened F (r : IpcWire.Reader) (cmds : list (option Ipc.CoreIpcCommand)) st : IpcSession.State :=
  let i := final (IpcSession.update_debug_status F (IpcSession.set_session_connected true)) st in
  IpcSession.enter_session F (IpcSession.steps i) (IpcSession.clock i) r cmds (IpcSession.debug_status i).

Definition closed F i : IpcSession.State :=
  final (IpcSession.update_debug_status F (fun d =>
    IpcSession.set_pending_switch_count 0 (IpcSession.set_session_connected false d))) i.

Lemma server_snoc F turns r cmds st logs st' x i :
  IpcServer.run_named_pipe_server F turns st = (logs, None, st') ->
  (exists k, IpcSession.session_loop F k (opened F r cmds st') = (Some x, i)) ->
  IpcServer.run_named_pipe_server F (turns ++ [granted_turn r cmds]) st =
    (logs ++ [Some (IpcServer.log_session x)], None, closed F i).
Proof.
  intros Hrun [k Hk]. revert st logs Hrun. induction turns as [|c turns IH]; intros st logs Hrun; cbn in *.
  - simplify_eq. unfold IpcServer.serve_client. cbn [fst snd]. unfold opened in Hk. cbv zeta in Hk.
    apply session_loop_returns in Hk. by rewrite Hk.
  - destruct (IpcServer.accept c) as [cl|]; [|done]. destruct (IpcServer.serve_client F cl st) as [y st1].
    destruct (IpcServer.run_named_pipe_server F turns st1) as [[ys e] st2] eqn:Hr. simplify_eq.
    by rewrite (IH _ _ Hr).
Qed.

(** ** A server on its way *)

(** What the client of a turn sends. *)
Definition scripts (c : IpcServer.Connection) : IpcWire.Reader := fst (IpcServer.client c).

(** [i] is the state of a server that has logged [log]: between the clients that
    sent [readers], or in the loop of the last of them.  Everything it did came from the steps before that of [i],
    so any environment that agrees with [E] there does the same. *)
Inductive Serving (readers : list IpcWire.Reader) E (i : IpcSession.State) (log : list IpcServer.SessionLog) (live : bool) : Prop :=
  | serving turns st : (IpcSession.steps st <= IpcSession.steps i)%nat ->
      (forall F, agree E F 0 (IpcSession.steps i) ->
         exists q, IpcServer.run_named_pipe_server F turns idle_ipc = (Some <$> log, None, rx q st)) ->
      (if live then exists r pre k, readers = map scripts turns ++ [r] /\ forall F, agree E F 0 (IpcSession.steps i) -> forall n rest,
         IpcSession.session_loop F (k + n) (opened F r (pre ++ rest) st) = IpcSession.session_loop F n (rx rest i)
       else readers = map scripts turns /\ same_session st i) ->
      Serving readers E i log live.

Lemma serving_queue rs E i log live q : Serving rs E i log live -> Serving rs E (rx q i) log live.
Proof.
  intros [turns st Hle Hrun Hi]. exists turns st; [done..|]. destruct live; [|by rewrite same_session_rx].
  destruct Hi as (r & pre & k & Hr & Hi). exists r, pre, k. split; [done|]. intros F HF n rest. rewrite rx_rx. by apply Hi.
Qed.

(** The state before the loop is entered. *)
Abbreviation greeted F st := (final (IpcSession.update_debug_status F (IpcSession.set_session_connected true)) st).

Lemma opened_later F r q st : (IpcSession.steps (greeted F st) <= IpcSession.steps (opened F r q st))%nat.
Proof. unfold opened. cbv zeta. apply enter_later. Qed.

Lemma opened_coupled E F r q q0 st :
  agree E F (IpcSession.steps st) (IpcSession.steps (opened E r [] st)) ->
  opened F r q (rx q0 st) = rx q (opened E r [] st).
Proof.
  intros Hag. pose proof (opened_later E r [] st) as Hl.
  pose proof (closing_later E (IpcSession.set_session_connected true) st).
  unfold opened at 1. cbv zeta. rewrite (coupled_closing E F) by (eapply agree_sub; [exact Hag | lia..]).
  unfold opened in *. cbv zeta in *. apply (coupled_enter E F). eapply agree_sub; [exact Hag | lia..].
Qed.

Lemma serving_connect rs E i log F r :
  Serving rs E i log false -> Serving (rs ++ [r]) (glue (IpcSession.steps i) E F) (opened F r [] i) log true.
Proof.
  intros [turns st Hle Hrun [Hr Hst]].
  pose proof (opened_later F r [] i). pose proof (closing_later F (IpcSession.set_session_connected true) i).
  exists turns st; [lia | |].
  - intros G [HE HF]%agree_glue; [by apply Hrun | lia].
  - exists r, [], 0%nat. split; [by rewrite Hr|]. intros G [HE HF]%agree_glue n rest; [|lia]. cbn [app Nat.add]. f_equal.
    rewrite (same_session_eq _ _ Hst). by apply opened_coupled.
Qed.

Lemma opened_rx F r q q0 st : opened F r q (rx q0 st) = opened F r q st.
Proof.
  rewrite (opened_coupled F F r q q0 st (agree_refl _ _ _)).
  by rewrite <- (opened_coupled F F r q (IpcSession.core_cmd_rx st) st (agree_refl _ _ _)), rx_self.
Qed.

(** One more turn, which stays in the loop or leaves it. *)
Lemma serving_iterated st E i F pre k r j x :
  (forall G, agree E G 0 (IpcSession.steps i) -> forall n rest,
     IpcSession.session_loop G (k + n) (opened G r (pre ++ rest) st) = IpcSession.session_loop G n (rx rest i)) ->
  IpcSession.iteration F i = (x, j) ->
  (IpcSession.steps i <= IpcSession.steps j)%nat /\
  forall G, agree E G 0 (IpcSession.steps i) -> agree F G (IpcSession.steps i) (IpcSession.steps j) -> forall n rest,
    exists q, (is_ok x = true -> q = rest) /\
    IpcSession.session_loop G (k + S n) (opened G r (pre ++ (taken (IpcSession.core_cmd_rx i) ++ rest)) st) =
    match x with Ok _ => IpcSession.session_loop G n (rx q j) | Err y => (Some y, rx q j) end.
Proof.
  intros Hi Hx.
  assert (forall G rest, coupled_at F G (IpcSession.iteration F) (IpcSession.iteration G) i
    (taken (IpcSession.core_cmd_rx i) ++ rest) rest) as Hc by (intros G rest; apply coupled_iteration).
  unfold coupled_at, final, Effects.outcome in Hc. rewrite Hx in Hc. cbn [fst snd] in Hc.
  split; [apply (Hc F []) |]. intros G HE HF n rest. destruct (proj2 (Hc G rest) HF) as (q & Hq & Hqx).
  exists q. split; [exact Hqx|]. rewrite Hi by done. cbn [IpcSession.session_loop]. rewrite Hq. by destruct x.
Qed.

Lemma serving_turn rs E i log F j :
  Serving rs E i log true -> IpcSession.iteration F i = (Ok tt, j) ->
  Serving rs (glue (IpcSession.steps i) E F) j log true.
Proof.
  intros [turns st Hle Hrun (r & pre & k & Hr & Hi)] Hx.
  destruct (serving_iterated _ _ _ _ _ _ _ _ _ Hi Hx) as [Hl Hn].
  exists turns st; [lia | |].
  - intros G [HE HF]%agree_glue; [by apply Hrun | lia].
  - exists r, (pre ++ taken (IpcSession.core_cmd_rx i)), (S k). split; [done|]. intros G [HE HF]%agree_glue n rest; [|lia].
    destruct (Hn G HE HF n rest) as (q & Hq & Heq). rewrite (Hq eq_refl) in Heq.
    rewrite <- app_assoc, <- Heq. f_equal. lia.
Qed.

Lemma serving_leave rs E i log F j x :
  Serving rs E i log true -> IpcSession.iteration F i = (Err x, j) ->
  Serving rs (glue (IpcSession.steps i) E F) (closed F j) (log ++ [IpcServer.log_session x]) false.
Proof.
  intros [turns st Hle Hrun (r & pre & k & Hr & Hi)] Hx.
  destruct (serving_iterated _ _ _ _ _ _ _ _ _ Hi Hx) as [Hl Hn].
  pose proof (closing_later F (fun d => IpcSession.set_pending_switch_count 0 (IpcSession.set_session_connected false d)) j) as Hc.
  fold (closed F j) in Hc.
  exists (turns ++ [granted_turn r (pre ++ taken (IpcSession.core_cmd_rx i) ++ [])]) (closed F j); [done | | split; [by rewrite map_app | done]].
  intros G [HE HF]%agree_glue; [|lia].
  destruct (Hn G HE) with (n := 0%nat) (rest := @nil (option Ipc.CoreIpcCommand)) as (q & _ & Heq);
    [by eapply agree_sub; [exact HF | lia..]|].
  destruct (Hrun G HE) as [q0 Hrun']. rewrite <- (opened_rx G r _ q0 st) in Heq.
  exists q. rewrite (server_snoc G _ _ _ _ _ _ _ _ Hrun' (ex_intro _ _ Heq)), fmap_app. f_equal.
  apply (coupled_closing F G). fold (closed F j). eapply agree_sub; [exact HF | lia..].
Qed.
End Server.

(** ** Runs *)

Section Runs.
Context {Client Histogram Url Value : Type}.
Context {meter : Exporters.Meter Histogram} {url_ops : Aegis.UrlOps Url} {api_json : Aegis.ApiJson}.
Context {b64 : Security.Base64} {dp : Security.DataProtection} {vj : Security.VaultJson} {toml : Config.TomlCodec}.
Context {wire : IpcWire.WireCodec (Ipc.Envelope Ipc.EvtPayload) (Ipc.Envelope Value)} {codec : IpcSession.PayloadCodec Value}.
Context {tray_item : Tray.TrayItem}.
Context (to_lowercase : string -> string) (os : Host.Host) (o : Server.Outside Url).
Context (started : App.Started).

Abbreviation Sys := (System (Client:=Client) (Histogram:=Histogram)).
Abbreviation executed ls s := (exec (Value:=Value) to_lowercase os o started ls s).
Abbreviation stepped l s := (step (Value:=Value) to_lowercase os o started l s).
Abbreviation initial w now := (spawn started w now : Sys).
Implicit Types (s : Sys) (ls : list (Label (Client:=Client))).

(** What the clients of a run send, one after the other. *)
Definition clients ls : list IpcWire.Reader := omap (fun l => match l with PluginConnects _ r => Some r | _ => None end) ls.

(** The answers of [E] before step [n] are those of the turns of the run. *)
Definition answers_of ls (E : IpcSession.Env) (n : nat) : Prop := forall k, (k < n)%nat ->
  exists F, ((exists r, PluginConnects F r ∈ ls) \/ PluginTurn F ∈ ls) /\ same_answers F E k.

Lemma answers_more ls l E n : answers_of ls E n -> answers_of (ls ++ [l]) E n.
Proof. intros H k Hk. destruct (H k Hk) as (F & HF & Hs). exists F. split; [|done]. set_solver. Qed.

Lemma answers_glue ls l E F n m :
  answers_of ls E n -> (exists r, l = PluginConnects F r) \/ l = PluginTurn F -> answers_of (ls ++ [l]) (glue n E F) m.
Proof.
  intros H Hl k Hk. destruct (decide (k < n)%nat) as [Hn|Hn].
  - destruct (answers_more ls l E n H k Hn) as (G & HG & [Hs1 Hs2 Hs3 Hs4 Hs5 Hs6 Hs7]). exists G. split; [done|].
    destruct (glue_before n E F 0 k ltac:(lia)). split; congruence.
  - exists F. split; [set_solver|]. apply (glue_after n E F (S k)). lia.
Qed.

Definition Served ls s : Prop := exists E,
  Serving (Value:=Value) (clients ls) E (ipc s) (ipc_log s) (session_live s) /\ answers_of ls E (IpcSession.steps (ipc s)).

Lemma served_same ls l s s' :
  Served ls s -> clients [l] = [] -> IpcSession.steps (ipc s') = IpcSession.steps (ipc s) ->
  (forall E, Serving (Value:=Value) (clients ls) E (ipc s) (ipc_log s) (session_live s) ->
     Serving (Value:=Value) (clients ls) E (ipc s') (ipc_log s') (session_live s')) -> Served (ls ++ [l]) s'.
Proof.
  intros (E & HE & Ha) Hl Hst Hs. exists E. unfold clients. rewrite omap_app.
  fold (clients ls) (clients [l]). rewrite Hl, app_nil_r, Hst. split; [by apply Hs | by apply answers_more].
Qed.

(** A request leaves the session as it was, up to its unread commands. *)
Lemma request_ipc e headers query s :
  let s' := (request os o started e headers query s).2 in
  session_live s' = session_live s /\ ipc_log s' = ipc_log s /\ exists q, ipc s' = rx q (ipc s).
Proof.
  unfold request. destruct (Server.serve _ _ _ _ _ _ (server s)) as [r v]. set (cmds := drop _ _). cbn [snd].
  assert (session_live (deliver_commands cmds (with_server v s)) = session_live s /\
    ipc_log (deliver_commands cmds (with_server v s)) = ipc_log s /\
    exists q, ipc (deliver_commands cmds (with_server v s)) = rx q (ipc s)) as H.
  { unfold deliver_commands. cbn [session_live with_server]. destruct (session_live s) eqn:Hl; split_and!; try done.
    - by eexists.
    - exists (IpcSession.core_cmd_rx (ipc s)). by rewrite rx_self. }
  destruct (Server.response_body r); exact H.
Qed.

Lemma served_step ls l s s' : Served ls s -> stepped l s = Some s' -> Served (ls ++ [l]) s'.
Proof.
  intros Hs [_ Hs']%step_cases. destruct l; open_hyps; subst s'; try (by apply (served_same _ _ s)).
  - unfold metrics_tick. destruct (Metrics.collect _ _ _) as [[]]; by apply (served_same _ _ s).
  - unfold exporter_wake. repeat case_match; by apply (served_same _ _ s).
  - destruct r; by apply (served_same _ _ s).
  - destruct (request_ipc e headers query s) as (Hl & Hlog & q & Hq). apply (served_same _ _ s); [done | done | by rewrite Hq |].
    intros E HE. rewrite Hl, Hlog, Hq. by apply serving_queue.
  - destruct Hs as (E0 & HE & Ha). rewrite H in HE. eexists. unfold clients. rewrite omap_app.
    split; [exact (serving_connect _ _ _ _ _ _ HE) | apply (answers_glue _ _ _ _ _ _ Ha); eauto].
  - destruct Hs as (E0 & HE & Ha). rewrite H in HE. unfold plugin_turn.
    unfold Served, clients. rewrite omap_app. cbn [omap list_omap]. rewrite app_nil_r.
    destruct (IpcSession.iteration E (ipc s)) as [[[]|x] i] eqn:Hi; eexists.
    + split; [exact (serving_turn _ _ _ _ _ _ HE Hi) | apply (answers_glue _ _ _ _ _ _ Ha); eauto].
    + split; [exact (serving_leave _ _ _ _ _ _ _ HE Hi) | apply (answers_glue _ _ _ _ _ _ Ha); eauto].
  - unfold tray_turn. destruct e; [by apply (served_same _ _ s)|]. destruct (Tray.shutdown_flag _); by apply (served_same _ _ s).
Qed.

(** An environment for a server that has not taken a step. *)
Definition untouched : IpcSession.Env := {|
  IpcSession.env_tick := fun _ => 0%N; IpcSession.env_unix_ms := fun _ => 0; IpcSession.env_uuid := fun _ => "";
  IpcSession.env_write := fun _ => None; IpcSession.env_frame := fun _ => TelemetryFrame_default;
  IpcSession.env_relay := fun _ => None; IpcSession.env_order := fun _ l => l |}.

Lemma served_reachable world now ls s : executed ls (initial world now) = Some s -> Served ls s.
Proof.
  apply exec_invariant; [|by intros; eapply served_step].
  exists untouched. split; [exists [] idle_ipc; [done | by exists [] | done] | intros k Hk; cbn in Hk; lia].
Qed.

(** C3: the sessions of a run are those of the pipe server.  After any run,
    whatever else happened between the turns, there is an environment, whose
    answers are those of the run's own turns, in which [run_named_pipe_server]
    serves the clients that connected, in their order, without stopping, and
    logs exactly the sessions the run has logged; between clients the session
    state is the one it leaves, up to the unread commands.  A session that is
    open is in the state that [handle_session_io] for the last client reaches
    after some turns: from there on, whatever commands come and however many
    turns are granted, the two go on alike. *)
Theorem sessions_refine_server world now ls s :
  executed ls (initial world now) = Some s ->
  exists E turns st, answers_of ls E (IpcSession.steps (ipc s)) /\
    IpcServer.run_named_pipe_server E turns idle_ipc = (Some <$> ipc_log s, None, st) /\
    if session_live s then
      exists r cmds turns_taken, clients ls = map scripts turns ++ [r] /\ forall turns_left more,
        IpcSession.session_loop E (turns_taken + turns_left) (opened E r (cmds ++ more) st) =
        IpcSession.session_loop E turns_left (IpcSession.with_core_cmd_rx more (ipc s))
    else clients ls = map scripts turns /\ same_session st (ipc s).
Proof.
  intros (E & [turns st _ Hrun Hst] & Ha)%served_reachable. destruct (Hrun E (agree_refl _ _ _)) as [q Hq].
  exists E, turns, (rx q st). split; [exact Ha|]. split; [exact Hq|]. destruct (session_live s).
  - destruct Hst as (r & cmds & k & Hr & Hk). exists r, cmds, k. split; [done|]. intros n more. rewrite opened_rx.
    apply Hk. apply agree_refl.
  - by rewrite same_session_rx.
Qed.
End Runs.

(** ** Witness *)

#[local] Existing Instance ServerSpec.demo_url.
#[local] Existing Instance ServerSpec.demo_api_json.
#[local] Existing Instance ServerSpec.demo_base64.
#[local] Existing Instance ServerSpec.demo_vault_json.
#[local] Existing Instance ServerSpec.demo_toml.
#[local] Existing Instance Security.portable_protection.
#[local] Existing Instance IpcSessionSpec.demo_wire.
#[local] Existing Instance IpcSessionSpec.demo_codec.
#[local] Existing Instance ExportersSpec.demo_meter.
#[local] Existing Instance Tray.demo_tray_item.

(** The plugin of [demo_run] closes its pipe, and another one connects. *)
Definition two_plugins : list (Label (Client:=unit)) :=
  RuntimeSpec.demo_run ++ [ PluginTurn IpcSessionSpec.demo_env; PluginTurn IpcSessionSpec.demo_env;
    PluginConnects IpcSessionSpec.demo_env [IpcWire.Idle]; PluginTurn IpcSessionSpec.demo_env ].
Definition two_plugins_system : System (Client:=unit) (Histogram:=string) :=
  default RuntimeSpec.demo_initial (RuntimeSpec.demo_exec two_plugins).

Lemma two_plugins_executed : RuntimeSpec.demo_exec two_plugins = Some two_plugins_system.
Proof. vm_compute. reflexivity. Qed.

Lemma sessions_refine_server_witness :
  exists E turns st r,
    IpcServer.run_named_pipe_server (Value:=IpcSessionSpec.DemoValue) E turns idle_ipc =
      ([Some IpcServer.Disconnected], None, st) /\
    map scripts turns ++ [r] = [ [IpcWire.Chunk [x01; x00; x00; x00; x01]%byte; IpcWire.Idle; IpcWire.Idle]; [IpcWire.Idle] ].
Proof.
  destruct (sessions_refine_server _ _ _ _ _ _ _ _ two_plugins_executed) as (E & turns & st & _ & Hrun & Hst).
  assert (ipc_log two_plugins_system = [IpcServer.Disconnected] /\ session_live two_plugins_system = true) as [Hlog Hlive]
    by (vm_compute; exact (conj eq_refl eq_refl)).
  rewrite Hlog in Hrun. rewrite Hlive in Hst. destruct Hst as (r & cmds & k & Hr & _).
  exists E, turns, st, r. exact (conj Hrun (eq_sym Hr)).
Defined.
