(* ===== verification/UnitTests.v ===== *)
(** * UnitTests: the unit tests of the crate, run on the model

    The [#[test]] functions of [config/mod.rs], [aegis/mod.rs], [server/mod.rs],
    [startup/mod.rs] and [ipc/mod.rs] that only compute, under their names: each
    is the conjunction of its assertions, and evaluates to [true].  They compare
    the definitions with what their authors expect of the code. *)

From S2P Require Import Prelude RustStd Effects Float.
From S2P Require Import Msgpack.
From S2P Require Model Config Aegis Server Startup Ipc.
From S2P Require Import Schema.

(** [r.is_err()]. *)
Definition is_err {E A} (r : result E A) : bool := negb (is_ok r).
(** [r.unwrap()] in a test, [assert_eq!] and [matches!]. *)
Definition unwrap {E A} (r : result E A) (check : A -> bool) : bool :=
  match r with Ok a => check a | Err _ => false end.
Definition assert_eq {A} `{EqDecision A} (a b : A) : bool := bool_decide (a = b).

(** ** [config/mod.rs] *)

Module ConfigTests.
Import Config.

Definition with_grafana (g : GrafanaConfig) (c : Config) : Config :=
  mkConfig (obs c) (server c) (vault c) g (aegis c) (network c) (startup c) (tray c) (theme c) (output_names c).
Definition with_aegis (a : AegisConfig) (c : Config) : Config :=
  mkConfig (obs c) (server c) (vault c) (grafana c) a (network c) (startup c) (tray c) (theme c) (output_names c).
Definition with_ports (obs_port server_port : Z) (c : Config) : Config :=
  mkConfig {| host := host (obs c); port := obs_port; password_key := password_key (obs c);
              auto_detect_process := auto_detect_process (obs c); process_name := process_name (obs c) |}
    {| server_port := server_port; token := token (server c) |}
    (vault c) (grafana c) (aegis c) (network c) (startup c) (tray c) (theme c) (output_names c).

Definition default_config_serializes `{TomlCodec} : bool :=
  unwrap (toml_to_string Config_default) (fun toml =>
  unwrap (toml_from_str toml) (fun parsed => is_ok (validate parsed))).

Definition validate_rejects_zero_ports : bool :=
  let cfg := Config_default in
  let cfg := with_ports 0 (server_port (server cfg)) cfg in
  is_err (validate cfg) &&
  (let cfg := with_ports 4455 0 cfg in is_err (validate cfg)).

Definition grafana_fields (enabled : bool) (e key : option string) (interval : Z) : GrafanaConfig := {|
  grafana_enabled := enabled; endpoint := e; auth_header := auth_header GrafanaConfig_default;
  auth_value_key := key; push_interval_ms := interval |}.

Definition validate_requires_grafana_fields_when_enabled : bool :=
  let d := GrafanaConfig_default in
  let cfg := with_grafana (grafana_fields true None (auth_value_key d) (push_interval_ms d)) Config_default in
  is_err (validate cfg) &&
  (let cfg := with_grafana (grafana_fields true (Some "https://example.com") None (push_interval_ms d)) cfg in
   is_err (validate cfg)).

Definition validate_rejects_too_low_grafana_interval : bool :=
  is_err (validate (with_grafana
    (grafana_fields true (Some "https://example.com") (Some "grafana_auth") 100) Config_default)).

Definition aegis_fields (url key : option string) : AegisConfig :=
  {| aegis_enabled := true; aegis_base_url := url; access_jwt_key := key |}.

Definition validate_requires_aegis_fields_when_enabled : bool :=
  let d := AegisConfig_default in
  let url := Some "https://api.example.test" in
  is_err (validate (with_aegis (aegis_fields (aegis_base_url d) (access_jwt_key d)) Config_default)) &&
  is_err (validate (with_aegis (aegis_fields url (access_jwt_key d)) Config_default)) &&
  is_ok (validate (with_aegis (aegis_fields url (Some "aegis_cp_access_jwt")) Config_default)).

Lemma config_tests_pass :
  validate_rejects_zero_ports && validate_requires_grafana_fields_when_enabled
  && validate_rejects_too_low_grafana_interval && validate_requires_aegis_fields_when_enabled = true.
Proof. vm_compute. reflexivity. Qed.

(** The round trip of the first test is the law of the codec. *)
Lemma default_config_serializes_passes `{TomlCodec} text :
  toml_to_string Config_default = Ok text -> toml_from_str text = Ok Config_default -> default_config_serializes = true.
Proof. intros H1 H2. unfold default_config_serializes. rewrite H1. cbn. by rewrite H2. Qed.
End ConfigTests.

(** ** [server/mod.rs] *)

Module ServerTests.
Import Server.

Definition token_query (t : string) : Query := {["token" := t]}.

Definition token_valid_accepts_bearer_header_when_query_denied : bool :=
  is_token_valid {| authorization := Some (Some "Bearer test-token") |} (token_query "wrong-token") "test-token" Deny.

Definition token_valid_rejects_query_when_policy_denied : bool :=
  negb (is_token_valid {| authorization := None |} (token_query "test-token") "test-token" Deny).

Definition token_valid_accepts_query_when_policy_allowed : bool :=
  is_token_valid {| authorization := None |} (token_query "test-token") "test-token" Allow.

Lemma server_tests_pass :
  token_valid_accepts_bearer_header_when_query_denied && token_valid_rejects_query_when_policy_denied
  && token_valid_accepts_query_when_policy_allowed = true.
Proof. vm_compute. reflexivity. Qed.
End ServerTests.

(** ** [startup/mod.rs] *)

Module StartupTests.
Import Startup.

Definition to_wide_is_null_terminated : bool :=
  let v := to_wide "Telemy" in negb (bool_decide (v = [])) && assert_eq (last v) (Some 0%Z).

Definition to_wide_includes_content : bool :=
  let v := to_wide "A" in
  assert_eq (v !! 0%nat) (Some (Z.of_nat (nat_of_ascii "A"))) && assert_eq (v !! 1%nat) (Some 0%Z).

Lemma startup_tests_pass : to_wide_is_null_terminated && to_wide_includes_content = true.
Proof. vm_compute. reflexivity. Qed.
End StartupTests.

(** ** [aegis/mod.rs] *)

Module AegisTests.
Import Aegis.

(** Addresses are their text; a session is decoded from the name of a fixture. *)
#[local] Instance text_url : UrlOps string := {|
  url_parse := Ok; url_path := fun u => u; url_set_path := fun p _ => p; url_join := fun u p => Ok (u +:+ p) |}.

Definition fixture (id : string) (r : RelayEndpoint) : RelaySession := {|
  session_id := id; status := "active"; user_id := None; region := None; relay := Some r;
  credentials := None; timers := None; usage := None |}.
Definition ses_1 : RelaySession := fixture "ses_1" {|
  instance_id := None; public_ip := Some "203.0.113.10/32"; srt_port := Some 9000%Z;
  ws_url := Some "wss://203.0.113.10:7443/telemetry" |}.
Definition ses_2 : RelaySession := fixture "ses_2" {|
  instance_id := None; public_ip := Some "203.0.113.10"; srt_port := None; ws_url := None |}.

#[local] Instance fixture_json : ApiJson := {|
  start_request_to_vec := fun r =>
    Ok (default "" (region_preference r) +:+ "," +:+ default "" (client_context r ≫= ctx_mode));
  stop_request_to_vec := fun _ => Ok "{}";
  session_envelope_from_str := fun s =>
    if String.eqb s "ses_1" then Ok {| session := ses_1 |}
    else if String.eqb s "ses_2" then Ok {| session := ses_2 |} else Err "expected value";
  stop_response_from_str := fun _ => Err "expected value" |}.

Definition http : HttpStack string :=
  {| client_build := fun _ => Ok tt; header_value_from_str := Ok; execute := fun _ => Err "no network in tests" |}.

Definition client : result ControlPlaneError (ControlPlaneClient string) :=
  build http (builder_client_platform "windows" (builder_client_version "0.0.3"
    (builder_new "https://api.example.test/" "jwt-123"))).

Definition header_is (name value : string) (r : Request string) : bool :=
  existsb (fun h => Str.eq_ignore_ascii_case h.1 name && String.eqb h.2 value) (headers r).

Definition active_request_includes_required_common_headers : bool :=
  unwrap client (fun client =>
  unwrap (build_relay_active_request http client) (fun req =>
    String.eqb (method req) "GET" &&
    String.eqb (url req) "https://api.example.test/api/v1/relay/active" &&
    header_is "authorization" "Bearer jwt-123" req &&
    header_is "X-Aegis-Client-Version" "0.0.3" req &&
    header_is "X-Aegis-Client-Platform" "windows" req)).

Definition start_request_includes_idempotency_key_and_json_body : bool :=
  unwrap client (fun client =>
  unwrap (build_relay_start_request http "idem-123"
    {| region_preference := Some "auto";
       client_context := Some {| obs_connected := Some true; ctx_mode := Some "studio"; requested_by := Some "dashboard" |} |}
    client) (fun req =>
    String.eqb (method req) "POST" &&
    String.eqb (url req) "https://api.example.test/api/v1/relay/start" &&
    header_is "Idempotency-Key" "idem-123" req &&
    header_is "content-type" "application/json" req &&
    assert_eq (request_body req) (Some "auto,studio"))).

Definition parse_active_returns_none_on_204 : bool :=
  unwrap (parse_relay_active_response 204 "") (fun out => match out with None => true | Some _ => false end).

Definition public_ip_of (s : RelaySession) : option string := relay s ≫= public_ip.

Definition parse_start_normalizes_public_ip_cidr_suffix : bool :=
  unwrap (parse_relay_start_response 201 "ses_1") (fun session =>
    assert_eq (public_ip_of session) (Some "203.0.113.10")).

Definition parse_start_keeps_plain_public_ip_unchanged : bool :=
  unwrap (parse_relay_start_response 200 "ses_2") (fun session =>
    assert_eq (public_ip_of session) (Some "203.0.113.10")).

Definition normalize_ip_string_strips_ipv6_host_prefix_suffix_too : bool :=
  String.eqb (normalize_ip_string "2001:db8::1/128") "2001:db8::1".

Definition start_request_rejects_empty_idempotency_key : bool :=
  unwrap client (fun client =>
    match build_relay_start_request http "   " {| region_preference := None; client_context := None |} client with
    | Err err => Str.contains "Idempotency-Key" (ControlPlaneError_to_string err)
    | Ok _ => false
    end).

Lemma aegis_tests_pass :
  active_request_includes_required_common_headers && start_request_includes_idempotency_key_and_json_body
  && parse_active_returns_none_on_204 && parse_start_normalizes_public_ip_cidr_suffix
  && parse_start_keeps_plain_public_ip_unchanged && normalize_ip_string_strips_ipv6_host_prefix_suffix_too
  && start_request_rejects_empty_idempotency_key = true.
Proof. vm_compute. reflexivity. Qed.
End AegisTests.

(** ** [ipc/mod.rs] *)

Module IpcTests.
Import Ipc.

(** 0.9 and 72.4 as [f32]. *)
Definition grace_frame : Model.TelemetryFrame := {|
  Model.timestamp_unix := 0; Model.health := F32.div (F32.of_Z 9) (F32.of_Z 10);
  Model.obs := {| Model.connected := true; Model.streaming := false; Model.recording := false; Model.studio_mode := false;
    Model.total_dropped_frames := 0; Model.total_frames := 0; Model.render_missed_frames := 0; Model.render_total_frames := 0;
    Model.output_skipped_frames := 0; Model.output_total_frames := 0; Model.active_fps := F32.zero;
    Model.available_disk_space_mb := F64.zero |};
  Model.system := Model.SystemFrame_default;
  Model.streams := [{| Model.so_name := ""; Model.bitrate_kbps := 4500; Model.drop_pct := F32.zero; Model.fps := F32.zero;
                       Model.encoding_lag_ms := F32.zero |}];
  Model.network := {| Model.upload_mbps := F32.zero; Model.download_mbps := F32.zero;
                      Model.latency_ms := F32.div (F32.of_Z 724) (F32.of_Z 10) |} |}.

Definition grace_session : Aegis.RelaySession :=
  let d := Aegis.RelaySession_default in {|
  Aegis.session_id := Aegis.session_id d; Aegis.status := "grace"; Aegis.user_id := Aegis.user_id d;
  Aegis.region := Some "us-west-2"; Aegis.relay := Aegis.relay d; Aegis.credentials := Aegis.credentials d;
  Aegis.timers := Some {| Aegis.grace_window_seconds := None; Aegis.grace_remaining_seconds := Some 321;
                          Aegis.max_session_seconds := None; Aegis.max_session_remaining_seconds := None |};
  Aegis.usage := Aegis.usage d |}%Z.

Definition derives_irl_grace_snapshot_and_state_mode : bool :=
  let snapshot := build_status_snapshot grace_frame (Some grace_session) in
  bool_decide (snap_mode snapshot = ModeIrl) && bool_decide (snap_state_mode snapshot = SM_IrlGrace) &&
  match relay_status (snap_relay snapshot) with Grace => true | _ => false end &&
  (snap_bitrate_kbps snapshot =? 4500)%Z && (snap_rtt_ms snapshot =? 72)%Z &&
  (relay_grace_remaining_seconds (snap_relay snapshot) =? 321)%Z.

(** [make_envelope] with an identifier and a time. *)
Definition envelope {T} (ty : string) (pr : Priority) (p : T) : Envelope T :=
  mkEnvelope IPC_PROTOCOL_VERSION "9b2c" 1700000000000 ty pr p.

Definition msgpack_envelope_roundtrips : bool :=
  let env := envelope "user_notice" Normal {| level := Info; message := "stub ok" |} in
  unwrap (to_vec_named env) (fun bytes =>
  unwrap (from_slice bytes : result string (Envelope UserNoticePayload)) (fun decoded =>
    (v decoded =? IPC_PROTOCOL_VERSION)%Z && String.eqb (message_type decoded) "user_notice" &&
    bool_decide (priority decoded = Normal) && String.eqb (message (payload decoded)) "stub ok")).

Definition protocol_error_envelope_uses_spec_codes : bool :=
  let env := envelope "protocol_error" High
    {| code := UnknownType; error_message := "unsupported"; related_message_id := Some "msg-123" |} in
  unwrap (to_vec_named env) (fun bytes =>
  unwrap (from_slice bytes : result string (Envelope ProtocolErrorPayload)) (fun decoded =>
    String.eqb (message_type decoded) "protocol_error" &&
    match code (payload decoded) with UnknownType => true | _ => false end &&
    assert_eq (related_message_id (payload decoded)) (Some "msg-123"))).

Lemma ipc_tests_pass :
  derives_irl_grace_snapshot_and_state_mode && msgpack_envelope_roundtrips && protocol_error_envelope_uses_spec_codes = true.
Proof. vm_compute. reflexivity. Qed.
End IpcTests.
